(* ===== verification/_CoqProject ===== *)
-Q . S2P
Prelude.v
Decimal.v
Json.v
Serialization.v
Ebpf.v
Layout.v
Vmlinux.v
Kernel.v
Regex.v
JsonField.v
IO.v
HttpClient.v
Config.v
Cgroup.v
DockerMapper.v
ContainerMapper.v
NameCache.v
Stream.v
PolicyEnforcer.v
AgentServer.v
Buffer.v
Agent.v
Collector.v
Threads.v
Concurrency.v
Interleaving.v
ServerThreads.v
Termination.v
System.v
Program.v
Ending.v
Tests.v
