(* ===== verification/Prelude.v ===== *)
(** * DeepKernel agent: verification library

    DeepKernel watches the system calls of containers.  Its node agent (src/agent: a
    kernel program in C, a user-space process in C++) is the part verified here.

    ** The program

    - The kernel program (agent/ebpf/deepkernel.bpf.c) runs at every sys_enter
      tracepoint: it classifies the call by number and submits a 24-byte sample to a
      ring buffer.
    - The agent (agent/src/agent.cpp) polls the ring buffer.  For each sample it names
      the container of the process (docker_mapper.cpp or container_mapper.cpp),
      applies an optional filter, queues the event in the container's buffer, feeds a
      running long dump (a binary file), posts the window when it is old and full
      enough, ends the dumps whose time has come and erases idle buffers.
    - A small HTTP server (agent_server.cpp) takes two commands: start a long dump,
      and apply a policy (policy_enforcer.cpp: write a seccomp profile, tell Docker).
    - Support: payloads and records (serialization.cpp, event_types.h), posting with
      retries (http_client.cpp), settings from the environment (config.cpp).

    ** Files

    - [Prelude]: machine words, strings, tactics and generic lemmas.
    - [Decimal], [Json]: decimal numbers and JSON with their readers, the references
      the payloads are compared with.
    - [Serialization]: event_types.h and serialization.cpp.
    - [Ebpf]: deepkernel.bpf.c ([classify_arg_class], [handle_sys_enter]) and the
      agent's view of a sample.
    - [Layout] (Module [C]): C types, their x86-64 layout, member look-up and loads.
      [Vmlinux]: the declarations of vmlinux.h behind the program.  [Kernel]: the
      structures of both sides as C types, and the program on the bytes of its
      context ([handle_sys_enter_ctx]).
    - [Regex]: the part of std::regex the fixed patterns use, from pattern text to
      backtracking search.  [JsonField]: the regex-based extraction of JSON fields.
    - [IO]: the operating system as an interface ([syscall], class [OS]), actions with
      a trace of requests and answers, the rules of [holds], the class [Emits].
    - [HttpClient], [Config]: http_client.cpp, config.cpp.
    - [Cgroup], [DockerMapper], [ContainerMapper]: the two mappers.  [NameCache]: their
      common interface, and how old a name can be.
    - [Stream]: std::ofstream.  [PolicyEnforcer]: policy_enforcer.cpp.
    - [AgentServer]: agent_server.cpp.
    - [Buffer]: buffer_manager.h and the methods of agent.cpp that work on one
      buffer.  [Agent]: the rest of agent.cpp, and main.cpp.  [Collector]: an abstract
      machine of windows and dumps that the agent refines.
    - [Threads]: threads as sequences of atomic steps on a shared state, two of them
      under a schedule ([par]), simulation by an action, rely-guarantee rules.
      [Concurrency]: the callbacks and handlers of agent.cpp statement by statement,
      with references and iterators into the table of buffers.  [Interleaving]: what
      holds under every schedule, and schedules that go wrong.  [ServerThreads]: the
      accept loop and [AgentServer::stop] as threads.
    - [Termination]: machines that raise the stop flag in the end.  [System]: kernel
      program, both threads and HTTP clients together.  [Program]: the process from
      [main] to its exit ([process]), the main thread and the server's with all they
      call, and what it posts.  [Ending]: what it leaves behind, and that it ends.
    - [Tests]: the unit tests of agent/tests, evaluated on the model.

    A definition has the name of the C or C++ function it models; a method threads its
    object as a value (records [Agent], [ContainerBuffer], [DockerMapper.t], ... have
    the members of the classes) and is an [IO] action when it talks to the system.
    Loops over the hash tables take their order from the machine ([HashOrder]).
    Parts of a long function have names of their own ([queue_event] and
    [window_due] of [Agent::handleEvent], [line_info] of [parseCgroup]).

    ** Theorems

    - Events ([Agent], [Buffer]): for any interleaving of samples, dump requests and
      policies no event is lost, duplicated, reordered or misattributed; the state
      invariant holds throughout; expiry and clean-up do exactly what they should; a
      dump leaves a file that reads back as one record per event and is announced
      once; which requests share a file; when a window is due, clock anomalies included.
    - Contract ([Collector]): every run of the agent is one of the abstract machine, with
      its windows and notices; dumps begin as they were requested, those of a container one
      at a time, take the events given to it while they run, end at the first event that
      is not before their end, and are announced once with the number taken.
    - Threads ([Concurrency], [Interleaving]): a thread that runs alone does exactly
      what its methods do in [Agent]; under any interleaving of statements the events
      are conserved as long as no step is undefined, and none is when the server names
      only containers that have a buffer and no clean-up comes due.
    - The whole ([System]): the posted windows hold one event per system call that found
      room in the ring buffer, in order; no HTTP client can disturb the agent's windows.
    - The process ([Program], [Ending]): from [main] to its exit, with the settings of the
      environment, the samples the ring buffer gives and the requests clients send, under
      any schedule: what was polled was posted or still waits; every descriptor is closed,
      the server's thread is joined and every handle released, once (but for the object
      when start-up fails after opening it); it ends when the signal flag is raised; and
      the main thread alone is the [main] of [Agent].
    - Life cycle ([Agent], [AgentServer], [ServerThreads], [Termination]): how start-up and a
      run end, call for call, and which handles are held then; the accept loop closes
      every client; both loops end once their flag says so; under any schedule [stop] can
      join the loop, and every socket is closed once.
    - Commands ([AgentServer], [PolicyEnforcer]): parsing inverts rendering, a dump
      request or a policy received whole reaches its handler intact, each client gets the
      response of its route, what
      applying a policy does on every branch, the profile and the list of policies as
      JSON documents.
    - Data ([Serialization], [Ebpf], [Kernel], [JsonField]): payloads, samples and dump
      files round-trip; the bytes are where the declared structures put them; the
      classifier equals its documentation on every number; deltas and their drift;
      extraction finds the leftmost field, and on flat documents is look-up.
    - Naming ([DockerMapper], [ContainerMapper], [NameCache]): what a cgroup file yields, the cache
      and its expiry, the order of runtime detection, every container gets a name, no
      name outlives the time to live.
    - Delivery and settings ([HttpClient], [Config]): the exact conversation of a post
      with retries, its pauses and its bounds; the table of the environment; integer settings.

    Besides these, small lemmas record behaviours worth knowing, such as
    [Buffer.restart_loses_header], [PolicyEnforcer.apply_runs_injected_command] or
    [Interleaving.request_uses_erased_buffer].

    ** Specifications, fuel and bounds

    Properties of actions are stated with [holds m Q]: on every machine, [m] returns a
    value and emits events that together satisfy [Q]; it is a total-correctness
    statement, since actions are total functions.  Two loops of the program have no
    bound, [poll_loop] and [serverLoop]: they take a number of turns as fuel, and the
    theorems say that running out means every test of the stop flag so far said to go
    on, so that fuel for one turn more than the machine grants is enough
    ([process_terminates], [serverLoop_terminates]).  A thread is finite, since its
    inputs are, or its loops take fuel; a schedule too short for its threads lets them
    finish one after the other.  The join returns only once the accept loop has been left
    ([join_server]); one turn of the loop more than the schedule has steps is enough for
    that ([stop_joins], [process_ends]).  The
    regex matcher and the JSON reader recurse on their input or on a fuel computed
    from its length, and are proved to have enough.  Integers are [Z] with the
    wrap-around of their C width written out ([u8] to [u64], [s32]).

    ** What is a parameter

    The system ([OS]), what the BPF helpers return ([bpf_env]), and, in [Agent],
    [std::regex_search] on the operator's own filter pattern (any function, with [None]
    for a [std::regex_error]), and the order in which clean-up meets the buffers.
    Nothing is assumed about them but the types, and that a hash table's order is a
    permutation of its keys.

    ** What is not modelled

    - What a data race does below the level of statements (torn or stale reads,
      reordering by the compiler): a statement is a sequentially consistent step.
      Every insertion into the table counts as one that rehashes.
    - Log lines, the fixed libcurl options, memory exhaustion, partial sends.  A system call
      that never returns (such as a [recv] from a silent client): every request is
      answered, if only by the end of the process ([Send] on a closed connection).
    - Of vmlinux.h, the declarations that play no part in the program; CO-RE relocation
      (the offsets are the header's, the loader adapts them to the running kernel).
    - The control server (Java), the machine-learning service (Python), the web
      interface, demo applications and scripts: other programs, seen only through the
      payloads and files above. *)

From Stdlib Require Export Ascii.
From stdpp Require Export base tactics numbers option pretty strings gmap list.

#[local] Open Scope Z_scope.

(** ** Scopes and hint databases *)

Declare Scope dk_scope.
Delimit Scope dk_scope with dk.

Create HintDb dk.
Create HintDb dk_word.
Create Rewrite HintDb dk_wrap.
Create Rewrite HintDb dk_str.

(** ** Machine words

    An unsigned [w]-bit C integer is the [Z] it denotes; arithmetic on it is
    arithmetic on [Z] followed by [wrap w]. *)

Definition wrap (w z : Z) : Z := z mod 2 ^ w.

Abbreviation u8 := (wrap 8).
Abbreviation u16 := (wrap 16).
Abbreviation u32 := (wrap 32).
Abbreviation u64 := (wrap 64).

Definition fits (w z : Z) : Prop := 0 ≤ z < 2 ^ w.

#[export] Instance fits_dec w z : Decision (fits w z).
Proof. unfold fits. apply _. Defined.

(** [static_cast<int>] of a wider value: the two's complement reading of the
    low 32 bits. *)
Definition s32 (z : Z) : Z := (z + 2 ^ 31) mod 2 ^ 32 - 2 ^ 31.

Definition INT_MAX : Z := 2147483647.
Definition INT_MIN : Z := -2147483648.

(** The double-quote character, and the other characters the sources escape. *)
Definition dq : ascii := "034".
Definition nul : ascii := "000".
Definition lf : ascii := "010".
Definition cr : ascii := "013".
Definition bslash : ascii := "092".

Definition q : string := String dq "".
Definition crlf : string := String cr (String lf "").
Definition nl : string := String lf "".

(** ** Characters of a string *)

Abbreviation chars := String.list_ascii_of_string.
Abbreviation of_chars := String.string_of_list_ascii.

Definition str_len (s : string) : Z := Z.of_nat (String.length s).
Definition empty (s : string) : bool := match s with "" => true | _ => false end.

(** [std::to_string] and [operator<<] of an integer. *)
Definition dec (z : Z) : string := pretty z.

(** What a [const char*] to the string's bytes denotes: up to the first NUL. *)
Fixpoint c_str (s : string) : string :=
  match s with
  | "" => ""
  | String c s' => if bool_decide (c = nul) then "" else String c (c_str s')
  end.

(** Leading white space, in the C locale. *)
Fixpoint skip_spaces (l : list ascii) : list ascii :=
  match l with
  | c :: l' => if Ascii.is_space c then skip_spaces l' else l
  | [] => []
  end.

(** The lines [std::getline] returns from a stream until it fails: a final line
    feed does not open another line. *)
Fixpoint lines_from (acc : list ascii) (l : list ascii) : list string :=
  match l with
  | [] => match acc with [] => [] | _ => [of_chars (rev acc)] end
  | c :: l =>
      if bool_decide (c = lf) then of_chars (rev acc) :: lines_from [] l
      else lines_from (c :: acc) l
  end.

Definition lines (s : string) : list string := lines_from [] (chars s).

(** [s.substr(0, n)] and [s.substr(n)]; the sources only call the second with
    [n <= s.size()]. *)
Definition str_take (n : nat) (s : string) : string := of_chars (take n (chars s)).
Definition str_drop (n : nat) (s : string) : string := of_chars (drop n (chars s)).

(** [s.find(sub) != std::string::npos]. *)
Fixpoint str_contains (s sub : string) : bool :=
  String.prefix sub s || match s with "" => false | String _ s' => str_contains s' sub end.

(** ** Lemmas: words *)

Lemma wrap_small w z : fits w z → wrap w z = z.
Proof. intros. by apply Z.mod_small. Qed.

Lemma wrap_fits w z : 0 ≤ w → fits w (wrap w z).
Proof. intros. unfold fits, wrap. apply Z.mod_pos_bound. lia. Qed.

Lemma wrap_wrap w w' z : 0 ≤ w ≤ w' → wrap w (wrap w' z) = wrap w z.
Proof.
  intros [? ?]. unfold wrap. apply Z.mod_mod_divide.
  exists (2 ^ (w' - w)). rewrite <-Z.pow_add_r by lia. f_equal. lia.
Qed.

Lemma wrap_add_l w a b : wrap w (wrap w a + b) = wrap w (a + b).
Proof. unfold wrap. apply Zplus_mod_idemp_l. Qed.

Lemma wrap_sub_add w a b : 0 ≤ w → fits w a → wrap w (b + wrap w (a - b)) = a.
Proof.
  intros ? [? ?]. rewrite Z.add_comm, wrap_add_l.
  replace (a - b + b) with a by lia. by apply wrap_small.
Qed.

Lemma fits_mono w w' z : 0 ≤ w ≤ w' → fits w z → fits w' z.
Proof.
  unfold fits. intros ? [? ?]. split; [lia|].
  eapply Z.lt_le_trans; [done|]. apply Z.pow_le_mono_r; lia.
Qed.

Lemma s32_small z : INT_MIN ≤ z ≤ INT_MAX → s32 z = z.
Proof.
  unfold s32, INT_MIN, INT_MAX. intros. rewrite Z.mod_small; lia.
Qed.

Lemma s32_range z : INT_MIN ≤ s32 z ≤ INT_MAX.
Proof.
  unfold s32, INT_MIN, INT_MAX.
  pose proof (Z.mod_pos_bound (z + 2 ^ 31) (2 ^ 32)). lia.
Qed.

#[export] Hint Resolve wrap_fits fits_mono : dk_word.
#[export] Hint Rewrite wrap_wrap using lia : dk_wrap.

(** ** Lemmas: strings *)

Lemma chars_app a b : chars (a +:+ b) = chars a ++ chars b.
Proof. induction a as [|c a IH]; [done|]. cbn. by rewrite <-IH. Qed.

Lemma of_chars_app a b : of_chars (a ++ b) = of_chars a +:+ of_chars b.
Proof. induction a as [|c a IH]; [done|]. cbn. by rewrite IH. Qed.

Lemma chars_of_chars l : chars (of_chars l) = l.
Proof. apply String.list_ascii_of_string_of_list_ascii. Qed.

Lemma of_chars_chars s : of_chars (chars s) = s.
Proof. apply String.string_of_list_ascii_of_string. Qed.

Lemma chars_inj a b : chars a = chars b → a = b.
Proof. intros H. by rewrite <-(of_chars_chars a), H, of_chars_chars. Qed.

Lemma chars_length s : length (chars s) = String.length s.
Proof. induction s; cbn; by f_equal. Qed.

Lemma of_chars_length l : String.length (of_chars l) = length l.
Proof. by rewrite <-chars_length, chars_of_chars. Qed.

Lemma empty_true s : empty s = true ↔ s = "".
Proof. by destruct s. Qed.

Lemma empty_false s : empty s = false ↔ s ≠ "".
Proof. by destruct s. Qed.

Lemma str_app_assoc a b c : (a +:+ b) +:+ c = a +:+ (b +:+ c).
Proof. apply chars_inj. by rewrite !chars_app, app_assoc. Qed.

Lemma str_app_nil_r a : a +:+ "" = a.
Proof. apply chars_inj. by rewrite chars_app, app_nil_r. Qed.

Lemma str_app_nil_l a : "" +:+ a = a.
Proof. done. Qed.

Lemma str_len_app a b : str_len (a +:+ b) = str_len a + str_len b.
Proof. unfold str_len. rewrite <-!chars_length, chars_app, length_app. lia. Qed.

Lemma c_str_no_nul s : Forall (λ c, c ≠ nul) (chars s) → c_str s = s.
Proof.
  induction s as [|c s IH]; [done|]. cbn. intros [Hc Hs]%Forall_cons.
  rewrite bool_decide_false by done. by rewrite IH.
Qed.

Lemma str_take_all n s : str_len s ≤ Z.of_nat n → str_take n s = s.
Proof.
  unfold str_len, str_take. rewrite <-chars_length. intros Hl.
  rewrite take_ge by lia. apply of_chars_chars.
Qed.

Lemma str_len_nonneg a : 0 ≤ str_len a.
Proof. unfold str_len. lia. Qed.

#[export] Hint Rewrite chars_app chars_of_chars of_chars_chars : dk_str.
#[export] Hint Rewrite str_app_assoc str_app_nil_r str_app_nil_l : dk_str.

(** ** Tactics *)

(** Split every conditional on a boolean comparison the goal mentions, and keep
    the comparison as a proposition. *)
Ltac case_bool :=
  match goal with
  | |- context [ if ?b then _ else _ ] =>
      lazymatch b with
      | context [ if _ then _ else _ ] => fail
      | _ => destruct b eqn:?
      end
  end.

Ltac bool_to_prop :=
  repeat match goal with
  | H : (_ && _)%bool = true |- _ => apply andb_true_iff in H as [? ?]
  | H : (_ && _)%bool = false |- _ => apply andb_false_iff in H
  | H : (_ || _)%bool = false |- _ => apply orb_false_iff in H as [? ?]
  | H : (_ || _)%bool = true |- _ => apply orb_true_iff in H
  | H : negb _ = true |- _ => apply negb_true_iff in H
  | H : negb _ = false |- _ => apply negb_false_iff in H
  | H : (_ <=? _) = true |- _ => apply Z.leb_le in H
  | H : (_ <=? _) = false |- _ => apply Z.leb_gt in H
  | H : (_ <? _) = true |- _ => apply Z.ltb_lt in H
  | H : (_ <? _) = false |- _ => apply Z.ltb_ge in H
  | H : (_ =? _) = true |- _ => apply Z.eqb_eq in H
  | H : (_ =? _) = false |- _ => apply Z.eqb_neq in H
  | H : empty _ = true |- _ => apply empty_true in H
  | H : empty _ = false |- _ => apply empty_false in H
  | H : bool_decide _ = true |- _ => apply bool_decide_eq_true in H
  | H : bool_decide _ = false |- _ => apply bool_decide_eq_false in H
  end.
