(* ===== verification/Decimal.v ===== *)
(** * Decimal: printing and reading of integers

    [operator<<] and [std::to_string] print an integer with [dec]; [std::stoi],
    [atoi] and the JSON reader accumulate digits with [dec_value].  The lemmas
    relate the two directions. *)

From S2P Require Export Prelude.

#[local] Open Scope Z_scope.

Definition is_digit (c : ascii) : bool :=
  let n := Ascii.N_of_ascii c in ((48 <=? n) && (n <=? 57))%N.

Definition digit_val (c : ascii) : Z := Z.of_N (Ascii.N_of_ascii c) - 48.

Definition push_digit (acc : Z) (c : ascii) : Z := 10 * acc + digit_val c.

Definition dec_value (l : list ascii) : Z := foldl push_digit 0 l.

(** Longest prefix of digits, and what follows it. *)
Fixpoint span_digits (l : list ascii) : list ascii * list ascii :=
  match l with
  | c :: l' => if is_digit c then let r := span_digits l' in (c :: r.1, r.2) else ([], l)
  | [] => ([], [])
  end.

(** The text does not begin with a digit. *)
Definition stops (l : list ascii) : Prop :=
  match l with c :: _ => is_digit c = false | [] => True end.

Lemma pretty_N_char_digit x :
  (x < 10)%N → is_digit (pretty_N_char x) = true ∧ digit_val (pretty_N_char x) = Z.of_N x.
Proof.
  intros. assert (x = 0 ∨ x = 1 ∨ x = 2 ∨ x = 3 ∨ x = 4 ∨ x = 5 ∨ x = 6
    ∨ x = 7 ∨ x = 8 ∨ x = 9)%N by lia.
  destruct_or!; by subst.
Qed.

Lemma foldl_push_digit l a :
  foldl push_digit a l = a * 10 ^ Z.of_nat (length l) + dec_value l.
Proof.
  unfold dec_value. revert a. induction l as [|c l IH]; intros a; simpl; [lia|].
  rewrite IH, (IH (push_digit 0 c)). unfold push_digit.
  rewrite Nat2Z.inj_succ, Z.pow_succ_r by lia. lia.
Qed.

Lemma dec_value_app l1 l2 :
  dec_value (l1 ++ l2) = dec_value l1 * 10 ^ Z.of_nat (length l2) + dec_value l2.
Proof. unfold dec_value at 1. rewrite foldl_app. apply foldl_push_digit. Qed.

Lemma digit_val_range c : is_digit c = true → 0 ≤ digit_val c ≤ 9.
Proof.
  unfold is_digit, digit_val. intros [?%N.leb_le ?%N.leb_le]%andb_true_iff. lia.
Qed.

Lemma dec_value_nonneg l : Forall (λ c, is_digit c = true) l → 0 ≤ dec_value l.
Proof.
  induction 1 as [|c l Hc _ IH]; [done|].
  change (c :: l) with ([c] ++ l). rewrite dec_value_app.
  apply digit_val_range in Hc. unfold dec_value at 1, push_digit. simpl.
  pose proof (Z.pow_nonneg 10 (Z.of_nat (length l))). nia.
Qed.

(** [pretty_N_go] prepends the digits of its argument. *)
Lemma pretty_N_go_digits x s :
  ∃ l, chars (pretty_N_go x s) = l ++ chars s
     ∧ Forall (λ c, is_digit c = true) l ∧ dec_value l = Z.of_N x
     ∧ (x ≠ 0%N → l ≠ []).
Proof.
  revert s. induction (N.lt_wf_0 x) as [x _ IH]; intros s.
  destruct (decide (x = 0)%N) as [->|Hx].
  { exists []. rewrite pretty_N_go_0. done. }
  rewrite pretty_N_go_step by lia.
  destruct (IH (x `div` 10)%N (N.div_lt x 10 ltac:(lia) eq_refl)
    (String (pretty_N_char (x `mod` 10)) s)) as (l & Hl & Hd & Hv & _).
  destruct (pretty_N_char_digit (x `mod` 10)%N) as [Hc1 Hc2].
  { apply N.mod_lt. lia. }
  exists (l ++ [pretty_N_char (x `mod` 10)]). split_and!.
  - rewrite Hl, <-app_assoc. done.
  - by apply Forall_app_2; [|constructor].
  - rewrite dec_value_app, Hv. unfold dec_value, push_digit. simpl. rewrite Hc2.
    rewrite (N.div_mod x 10) at 3 by lia. lia.
  - intros _. by destruct l.
Qed.

Lemma dec_digits z :
  0 ≤ z →
  Forall (λ c, is_digit c = true) (chars (dec z))
  ∧ dec_value (chars (dec z)) = z ∧ chars (dec z) ≠ [].
Proof.
  intros Hz. destruct (decide (z = 0)) as [->|Hne]; [split_and!; [by repeat constructor|done|done]|].
  destruct z as [|p|p]; [done| |lia].
  change (dec (Z.pos p)) with (pretty (N.pos p)).
  unfold pretty, pretty_N. rewrite decide_False by done.
  destruct (pretty_N_go_digits (N.pos p) "") as (l & Hl & Hd & Hv & Hn).
  simpl in Hl. rewrite app_nil_r in Hl. rewrite Hl. split_and!; [done|done|by apply Hn].
Qed.

Lemma dec_neg z : z < 0 → dec z = "-" +:+ dec (- z).
Proof. by destruct z. Qed.

Lemma span_digits_app l r :
  Forall (λ c, is_digit c = true) l → stops r → span_digits (l ++ r) = (l, r).
Proof.
  intros Hl Hr. induction Hl as [|c l Hc _ IH]; simpl.
  - destruct r as [|c r]; [done|]. simpl in *. by rewrite Hr.
  - by rewrite Hc, IH.
Qed.

Lemma span_digits_spec l :
  l = (span_digits l).1 ++ (span_digits l).2
  ∧ Forall (λ c, is_digit c = true) (span_digits l).1 ∧ stops (span_digits l).2.
Proof.
  induction l as [|c l (IH1 & IH2 & IH3)]; simpl; [done|].
  destruct (is_digit c) eqn:Hc; simpl; [|done]. split_and!; [by f_equal|by constructor|done].
Qed.

Lemma digit_not_special c :
  is_digit c = true → c ≠ dq ∧ c ≠ bslash ∧ c ≠ "-"%char ∧ c ≠ "{"%char ∧ c ≠ "["%char.
Proof. intros Hc. split_and!; intros ->; done. Qed.

Lemma dec_inj : Inj (=) (=) dec.
Proof. apply _. Qed.
