(* ===== verification/Json.v ===== *)
(** * Json: the reference syntax of the payloads

    The agent builds its JSON with string concatenation.  This file is the
    abstract side of that contract: documents as a data type, their compact
    text, a reader for that text, and the proof that reading inverts printing
    on documents whose strings need no escape. *)

From S2P Require Export Decimal.

#[local] Open Scope Z_scope.

#[warnings="-register-all"]
Inductive json :=
  | JNum (z : Z)
  | JStr (s : string)
  | JArr (l : list json)
  | JObj (l : list (string * json)).

(** A string needs no escape: no quote, no backslash, no control character. *)
Definition plain_char (c : ascii) : bool :=
  negb (bool_decide (c = dq)) && negb (bool_decide (c = bslash))
  && (32 <=? Z.of_N (Ascii.N_of_ascii c)).

Definition plain (s : string) : Prop := Forall (λ c, plain_char c = true) (chars s).

Definition quoted (s : string) : string := q +:+ s +:+ q.

Fixpoint join (sep : string) (l : list string) : string :=
  match l with
  | [] => ""
  | [x] => x
  | x :: l => x +:+ sep +:+ join sep l
  end.

Fixpoint print (v : json) : string :=
  match v with
  | JNum z => dec z
  | JStr s => quoted s
  | JArr l => "[" +:+ join "," (map print l) +:+ "]"
  | JObj l =>
      "{" +:+ join "," (map (λ kv, quoted kv.1 +:+ ":" +:+ print kv.2) l) +:+ "}"
  end.

(** ** The reader *)

Fixpoint span_plain (l : list ascii) : list ascii * list ascii :=
  match l with
  | c :: l' => if plain_char c then let r := span_plain l' in (c :: r.1, r.2) else ([], l)
  | [] => ([], [])
  end.

(** After an opening quote: the text up to the closing one. *)
Definition read_string (l : list ascii) : option (string * list ascii) :=
  match span_plain l with
  | (s, c :: r) => if bool_decide (c = dq) then Some (of_chars s, r) else None
  | _ => None
  end.

Definition read_number (l : list ascii) : option (json * list ascii) :=
  match l with
  | "-"%char :: l' =>
      match span_digits l' with
      | ([], _) => None
      | (d, r) => Some (JNum (- dec_value d), r)
      end
  | _ =>
      match span_digits l with
      | ([], _) => None
      | (d, r) => Some (JNum (dec_value d), r)
      end
  end.

(** The next character must be [c]. *)
Definition expect (c : ascii) (l : list ascii) : option (list ascii) :=
  match l with
  | c' :: r => if bool_decide (c' = c) then Some r else None
  | [] => None
  end.

Section members.
Context (value : list ascii → option (json * list ascii)).

(** The rest of an array after a value has been expected [n] times at most. *)
Fixpoint read_elements (n : nat) (l : list ascii) : option (list json * list ascii) :=
  match n with
  | O => None
  | S n =>
      '(v, r) ← value l;
      match r with
      | "]"%char :: r => Some ([v], r)
      | ","%char :: r => '(vs, r) ← read_elements n r; Some (v :: vs, r)
      | _ => None
      end
  end.

Fixpoint read_members (n : nat) (l : list ascii)
    : option (list (string * json) * list ascii) :=
  match n with
  | O => None
  | S n =>
      r ← expect dq l;
      '(k, r) ← read_string r;
      r ← expect ":" r;
      '(v, r) ← value r;
      match r with
      | "}"%char :: r => Some ([(k, v)], r)
      | ","%char :: r => '(kvs, r) ← read_members n r; Some ((k, v) :: kvs, r)
      | _ => None
      end
  end.
End members.

Fixpoint read_value (fuel : nat) (l : list ascii) : option (json * list ascii) :=
  match fuel with
  | O => None
  | S fuel =>
      match l with
      | [] => None
      | c :: r =>
          if bool_decide (c = dq) then '(s, r) ← read_string r; Some (JStr s, r)
          else if bool_decide (c = "["%char) then
            match expect "]" r with
            | Some r => Some (JArr [], r)
            | None => '(vs, r) ← read_elements (read_value fuel) (length r) r;
                      Some (JArr vs, r)
            end
          else if bool_decide (c = "{"%char) then
            match expect "}" r with
            | Some r => Some (JObj [], r)
            | None => '(kvs, r) ← read_members (read_value fuel) (length r) r;
                      Some (JObj kvs, r)
            end
          else read_number l
      end
  end.

(** A whole document: one value and nothing after it. *)
Definition read (s : string) : option json :=
  match read_value (S (String.length s)) (chars s) with
  | Some (v, []) => Some v
  | _ => None
  end.

(** ** Well-formed documents and induction over them *)

Fixpoint wf (v : json) : Prop :=
  match v with
  | JNum _ => True
  | JStr s => plain s
  | JArr l => foldr (λ v P, wf v ∧ P) True l
  | JObj l => foldr (λ kv P, (plain kv.1 ∧ wf kv.2) ∧ P) True l
  end.

Fixpoint depth (v : json) : nat :=
  match v with
  | JNum _ | JStr _ => 1
  | JArr l => S (foldr (λ v n, Nat.max (depth v) n) 0%nat l)
  | JObj l => S (foldr (λ kv n, Nat.max (depth kv.2) n) 0%nat l)
  end.

Section json_ind.
Context (P : json → Prop)
  (Hnum : ∀ z, P (JNum z)) (Hstr : ∀ s, P (JStr s))
  (Harr : ∀ l, Forall P l → P (JArr l))
  (Hobj : ∀ l, Forall (λ kv, P kv.2) l → P (JObj l)).

Fixpoint json_rect_forall (v : json) : P v :=
  match v with
  | JNum z => Hnum z
  | JStr s => Hstr s
  | JArr l =>
      Harr l ((fix go l : Forall P l :=
        match l with
        | [] => Forall_nil_2 _
        | v :: l => Forall_cons_2 _ _ _ (json_rect_forall v) (go l)
        end) l)
  | JObj l =>
      Hobj l ((fix go l : Forall (λ kv, P kv.2) l :=
        match l with
        | [] => Forall_nil_2 _
        | kv :: l => Forall_cons_2 _ _ _ (json_rect_forall kv.2) (go l)
        end) l)
  end.
End json_ind.

(** ** Reading inverts printing *)

Lemma plain_char_false_dq : plain_char dq = false.
Proof. done. Qed.

Lemma span_plain_app l r :
  Forall (λ c, plain_char c = true) l → span_plain (l ++ dq :: r) = (l, dq :: r).
Proof. induction 1 as [|c l Hc _ IH]; simpl; [done|]. by rewrite Hc, IH. Qed.

Lemma read_string_quoted s r : plain s → read_string (chars s ++ dq :: r) = Some (s, r).
Proof.
  intros Hs. unfold read_string. rewrite span_plain_app by done.
  by rewrite bool_decide_true, of_chars_chars.
Qed.

Lemma chars_quoted s : chars (quoted s) = dq :: chars s ++ [dq].
Proof. unfold quoted, q. by rewrite !chars_app. Qed.

Lemma read_number_dec z r : stops r → read_number (chars (dec z) ++ r) = Some (JNum z, r).
Proof.
  intros Hr. destruct (decide (z < 0)) as [Hz|Hz].
  - rewrite dec_neg by done. destruct (dec_digits (- z)) as (Hd & Hv & Hn); [lia|].
    rewrite chars_app. cbn [app String.list_ascii_of_string read_number].
    rewrite span_digits_app by done.
    destruct (chars (dec (- z))) as [|c l]; [done|]. rewrite Hv. do 3 f_equal. lia.
  - destruct (dec_digits z) as (Hd & Hv & Hn); [lia|].
    destruct (chars (dec z)) as [|c l] eqn:Hc; [done|].
    unfold read_number. rewrite span_digits_app, Hv by done.
    inversion Hd as [|? ? Hdc _]; subst.
    cbn [app]. destruct c as [[] [] [] [] [] [] [] []]; done.
Qed.

(** The first character of a value, which decides the reader's branch. *)
Lemma print_head v : ∃ c l, chars (print v) = c :: l ∧ c ≠ "]"%char ∧ c ≠ "}"%char.
Proof.
  destruct v as [z|s|l|l].
  - cbn [print]. destruct (decide (z < 0)).
    + rewrite dec_neg by done. eexists _, _. split; [by rewrite chars_app|done].
    + destruct (dec_digits z) as (Hd & _ & Hn); [lia|].
      destruct (chars (dec z)) as [|c l]; [done|]. eexists _, _. split; [done|].
      inversion Hd; subst. split; intros ->; done.
  - eexists _, _. split; [apply chars_quoted|done].
  - eexists _, _. cbn [print]. split; [by rewrite chars_app|done].
  - eexists _, _. cbn [print]. split; [by rewrite chars_app|done].
Qed.

Lemma expect_eq c r : expect c (c :: r) = Some r.
Proof. unfold expect. by rewrite bool_decide_true. Qed.

Definition reads (fuel : nat) (v : json) : Prop :=
  ∀ r, stops r → read_value fuel (chars (print v) ++ r) = Some (v, r).

Lemma chars_join_cons x y l :
  chars (join "," (x :: y :: l)) = chars x ++ ","%char :: chars (join "," (y :: l)).
Proof. cbn [join]. by rewrite !chars_app. Qed.

Lemma read_elements_print fuel vs n r :
  vs ≠ [] → Forall (reads fuel) vs → (length vs ≤ n)%nat →
  read_elements (read_value fuel) n
    (chars (join "," (map print vs)) ++ "]"%char :: r) = Some (vs, r).
Proof.
  intros Hne Hall. revert n. induction Hall as [|v vs Hv Hall IH]; intros n Hn; [done|].
  destruct n as [|n]; [simpl in Hn; lia|].
  destruct vs as [|v' vs].
  - cbn [map join read_elements]. by rewrite (Hv ("]"%char :: r)).
  - cbn [map]. rewrite chars_join_cons, <-app_assoc. cbn [read_elements app].
    rewrite Hv by done. cbn. cbn in IH. rewrite IH; [done|done|simpl in *; lia].
Qed.

Lemma read_members_print fuel kvs n r :
  kvs ≠ [] → Forall (λ kv, plain kv.1 ∧ reads fuel kv.2) kvs → (length kvs ≤ n)%nat →
  read_members (read_value fuel) n
    (chars (join "," (map (λ kv, quoted kv.1 +:+ ":" +:+ print kv.2) kvs)) ++ "}"%char :: r)
  = Some (kvs, r).
Proof.
  intros Hne Hall. revert n.
  induction Hall as [|[k v] kvs [Hk Hv] Hall IH]; intros n Hn; [done|].
  cbn [fst snd] in *. destruct n as [|n]; [simpl in Hn; lia|].
  assert (Hkey : ∀ x, chars (quoted k +:+ ":" +:+ print v) ++ x
    = dq :: chars k ++ dq :: ":"%char :: chars (print v) ++ x).
  { intros x. rewrite !chars_app, chars_quoted. cbn.
    rewrite <-!app_assoc. cbn. by rewrite <-?app_assoc. }
  destruct kvs as [|kv' kvs]; cbn [map fst snd].
  - cbn [join read_members]. rewrite Hkey, expect_eq. cbn [mbind option_bind].
    rewrite read_string_quoted by done. cbn [mbind option_bind]. rewrite expect_eq.
    cbn [mbind option_bind]. by rewrite Hv.
  - rewrite chars_join_cons, <-app_assoc, Hkey. cbn [read_members]. rewrite expect_eq.
    cbn [mbind option_bind]. rewrite read_string_quoted by done. cbn [mbind option_bind].
    rewrite expect_eq. cbn [mbind option_bind app]. rewrite Hv by done.
    cbn [mbind option_bind]. cbn [map] in IH. rewrite IH; [done|done|simpl in *; lia].
Qed.

(** Every document is as long as its nesting, and every list of values as long as
    its length, so the reader's fuel suffices. *)
Lemma print_length_elements l :
  (length l ≤ length (chars (join "," (map print l))))%nat.
Proof.
  induction l as [|v l IH]; [simpl; lia|].
  destruct (print_head v) as (c & cs & Hc & _).
  destruct l as [|v' l]; cbn [map].
  - cbn [join]. rewrite Hc. simpl. lia.
  - rewrite chars_join_cons, length_app. cbn [map] in IH. simpl in IH |- *. lia.
Qed.

Lemma print_length_members l :
  (length l ≤ length (chars (join "," (map (λ kv, quoted kv.1 +:+ ":" +:+ print kv.2) l))))%nat.
Proof.
  induction l as [|kv l IH]; [simpl; lia|].
  destruct l as [|v' l]; cbn [map].
  - cbn [join]. rewrite chars_app, chars_quoted. simpl. lia.
  - rewrite chars_join_cons, length_app. cbn [map] in IH. simpl in IH |- *. lia.
Qed.

Lemma chars_bracket o c s r :
  chars (String o "" +:+ s +:+ String c "") ++ r = o :: chars s ++ c :: r.
Proof. rewrite !chars_app. cbn. by rewrite <-app_assoc. Qed.

Lemma foldr_max_le {A} (f : A → nat) l n :
  (foldr (λ x m, Nat.max (f x) m) 0 l ≤ n)%nat → Forall (λ x, (f x ≤ n)%nat) l.
Proof. induction l; simpl; constructor; [lia|apply IHl; lia]. Qed.

Lemma foldr_and {A} (P : A → Prop) l : foldr (λ x Q, P x ∧ Q) True l ↔ Forall P l.
Proof. rewrite Forall_fold_right. done. Qed.

Lemma expect_join_print v l r :
  expect "]" (chars (join "," (map print (v :: l))) ++ r) = None.
Proof.
  destruct (print_head v) as (c & cs & Hc & Hne & _).
  destruct l as [|v' l]; cbn [map]; [cbn [join]|rewrite chars_join_cons];
    rewrite Hc; cbn; by rewrite bool_decide_false.
Qed.

Lemma expect_join_member kv l r :
  expect "}" (chars (join "," (map (λ kv, quoted kv.1 +:+ ":" +:+ print kv.2) (kv :: l))) ++ r)
  = None.
Proof.
  destruct l as [|v' l]; cbn [map]; [cbn [join]|rewrite chars_join_cons];
    by rewrite chars_app, chars_quoted.
Qed.

Lemma read_value_print_num z fuel r :
  stops r → read_value (S fuel) (chars (dec z) ++ r) = Some (JNum z, r).
Proof.
  intros Hr. rewrite <-(read_number_dec z r Hr).
  destruct (decide (0 ≤ z)).
  - destruct (dec_digits z) as (Hd & _ & Hn); [lia|].
    destruct (chars (dec z)) as [|c cs]; [done|]. cbn [app read_value].
    inversion Hd as [|? ? Hdc _]; subst.
    destruct (digit_not_special c Hdc) as (? & _ & _ & ? & ?).
    by rewrite !bool_decide_false.
  - rewrite dec_neg, chars_app by lia. done.
Qed.

Lemma read_value_print v fuel : wf v → (depth v ≤ fuel)%nat → reads fuel v.
Proof.
  revert fuel. induction v as [z|s|l IH|l IH] using json_rect_forall; intros fuel Hwf Hf r Hr;
    (destruct fuel as [|fuel]; [simpl in Hf; lia|]).
  - by apply read_value_print_num.
  - cbn [print]. rewrite chars_quoted. cbn [app read_value].
    rewrite bool_decide_true by done. rewrite <-app_assoc. cbn [app].
    by rewrite read_string_quoted.
  - cbn [print]. rewrite (chars_bracket "["%char "]"%char). cbn [read_value].
    rewrite bool_decide_false, bool_decide_true by done.
    destruct l as [|v l]; [done|]. rewrite expect_join_print.
    apply (proj1 (foldr_and _ _)) in Hwf. cbn [depth] in Hf.
    apply Nat.succ_le_mono, (foldr_max_le depth) in Hf.
    rewrite read_elements_print; [done|done| |].
    + rewrite Forall_forall in IH, Hwf, Hf |- *. intros x Hx. by apply IH; [|apply Hwf|apply Hf].
    + rewrite length_app. pose proof (print_length_elements (v :: l)). lia.
  - cbn [print]. rewrite (chars_bracket "{"%char "}"%char). cbn [read_value].
    rewrite !bool_decide_false, bool_decide_true by done.
    destruct l as [|v l]; [done|]. rewrite expect_join_member.
    apply (proj1 (foldr_and _ _)) in Hwf. cbn [depth] in Hf.
    apply Nat.succ_le_mono, (foldr_max_le (λ kv, depth kv.2)) in Hf.
    rewrite read_members_print; [done|done| |].
    + rewrite Forall_forall in IH, Hwf, Hf |- *. intros x Hx.
      split; [by apply Hwf|]. by apply IH; [|apply Hwf|apply Hf].
    + rewrite length_app. pose proof (print_length_members (v :: l)). lia.
Qed.

Lemma depth_elements l :
  Forall (λ v, depth v ≤ String.length (print v))%nat l →
  (foldr (λ v n, Nat.max (depth v) n) 0 l ≤ length (chars (join "," (map print l))))%nat.
Proof.
  induction 1 as [|v l Hv _ IH]; [simpl; lia|]. rewrite <-chars_length in Hv.
  destruct l as [|v' l]; cbn [map]; [cbn [join foldr]; lia|].
  rewrite chars_join_cons, length_app. cbn [map foldr length] in IH |- *. lia.
Qed.

Lemma depth_members l :
  Forall (λ kv, depth kv.2 ≤ String.length (print kv.2))%nat l →
  (foldr (λ kv n, Nat.max (depth kv.2) n) 0 l
    ≤ length (chars (join "," (map (λ kv, quoted kv.1 +:+ ":" +:+ print kv.2) l))))%nat.
Proof.
  induction 1 as [|kv l Hv _ IH]; [simpl; lia|]. rewrite <-chars_length in Hv.
  assert (length (chars (print kv.2))
    ≤ length (chars (quoted kv.1 +:+ ":" +:+ print kv.2)))%nat.
  { rewrite !chars_app, !length_app. lia. }
  destruct l as [|v' l]; cbn [map]; [cbn [join foldr]; lia|].
  rewrite chars_join_cons, length_app. cbn [map foldr length] in IH |- *. lia.
Qed.

Lemma depth_le_print v : (depth v ≤ String.length (print v))%nat.
Proof.
  induction v as [z|s|l IH|l IH] using json_rect_forall.
  - destruct (print_head (JNum z)) as (c & l & Hc & _).
    rewrite <-chars_length, Hc. simpl. lia.
  - cbn [print]. rewrite <-chars_length, chars_quoted. simpl. lia.
  - cbn [print depth]. apply depth_elements in IH.
    rewrite <-chars_length, !chars_app, !length_app. simpl. lia.
  - cbn [print depth]. apply depth_members in IH.
    rewrite <-chars_length, !chars_app, !length_app. simpl. lia.
Qed.

(** The reader accepts every compact text of a well-formed document and returns
    the document. *)
Lemma read_print v : wf v → read (print v) = Some v.
Proof.
  intros Hwf. unfold read.
  rewrite <-(app_nil_r (chars (print v))).
  rewrite read_value_print; [done|done| |done].
  pose proof (depth_le_print v). lia.
Qed.

(** The separators of a list of texts, without the first. *)
Lemma join_comma x l :
  join "," (x :: l) = x +:+ foldr (λ y r, "," +:+ y +:+ r) "" l.
Proof.
  revert x. induction l as [|y l IH]; intros x.
  - cbn. by rewrite str_app_nil_r.
  - change (join "," (x :: y :: l)) with (x +:+ "," +:+ join "," (y :: l)).
    by rewrite IH.
Qed.

(** ** Texts with white space

    White space between tokens means nothing; [read_text] drops it first.  The
    texts it is used on hold no escape, so that a quote always opens or closes a
    string. *)

Fixpoint strip (in_string : bool) (l : list ascii) : list ascii :=
  match l with
  | [] => []
  | c :: l =>
      if bool_decide (c = dq) then c :: strip (negb in_string) l
      else if negb in_string && Ascii.is_space c then strip in_string l
      else c :: strip in_string l
  end.

Definition read_text (s : string) : option json := read (of_chars (strip false (chars s))).
