(* ===== verification/Serialization.v ===== *)
(** * Serialization: event types, dump records and payloads

    [agent/include/event_types.h] and [agent/src/serialization.cpp]: the event
    as the kernel emits it and as user space keeps it, the packed record and
    header of a dump file with their bytes, and the two JSON payloads.  The
    theorems relate the bytes and the text to what they were built from. *)

From S2P Require Export Json.

#[local] Open Scope Z_scope.

(** ** event_types.h *)

Record KernelSyscallEvent := MkKernelSyscallEvent {
  ts_ns : Z;        (* uint64_t *)
  k_pid : Z;        (* uint32_t *)
  k_tid : Z;        (* uint32_t *)
  cgroup_id : Z;    (* uint32_t *)
  syscall_id : Z;   (* uint16_t *)
  arg_class : Z;    (* uint8_t *)
  arg_bucket : Z;   (* uint8_t *)
}.

Record TraceRecord := MkTraceRecord {
  delta_ts_us : Z;      (* uint32_t *)
  tr_syscall_id : Z;    (* uint16_t *)
  tr_arg_class : Z;     (* uint8_t *)
  tr_arg_bucket : Z;    (* uint8_t *)
}.

(** [container_id] is the 64-byte array, as the list of its bytes. *)
Record TraceHeader := MkTraceHeader {
  version : Z;              (* uint32_t *)
  syscall_vocab_size : Z;   (* uint32_t *)
  container_id : list Z;    (* char[64] *)
  start_ts_ns : Z;          (* uint64_t *)
}.

Record SyscallEvent := MkSyscallEvent {
  tsNs : Z;        (* uint64_t *)
  pid : Z;         (* uint32_t *)
  tid : Z;         (* uint32_t *)
  cgroupId : Z;    (* uint64_t *)
  syscallId : Z;   (* uint16_t *)
  argClass : Z;    (* uint8_t *)
  argBucket : Z;   (* uint8_t *)
}.

#[export] Instance SyscallEvent_eq_dec : EqDecision SyscallEvent.
Proof. solve_decision. Defined.
#[export] Instance TraceRecord_eq_dec : EqDecision TraceRecord.
Proof. solve_decision. Defined.
#[export] Instance TraceHeader_eq_dec : EqDecision TraceHeader.
Proof. solve_decision. Defined.

(** Every field holds a value of its C type. *)
Definition SyscallEvent_wf (e : SyscallEvent) : Prop :=
  fits 64 (tsNs e) ∧ fits 32 (pid e) ∧ fits 32 (tid e) ∧ fits 64 (cgroupId e)
  ∧ fits 16 (syscallId e) ∧ fits 8 (argClass e) ∧ fits 8 (argBucket e).

Definition TraceRecord_wf (r : TraceRecord) : Prop :=
  fits 32 (delta_ts_us r) ∧ fits 16 (tr_syscall_id r)
  ∧ fits 8 (tr_arg_class r) ∧ fits 8 (tr_arg_bucket r).

Definition TraceHeader_wf (h : TraceHeader) : Prop :=
  fits 32 (version h) ∧ fits 32 (syscall_vocab_size h)
  ∧ length (container_id h) = 64%nat ∧ Forall (fits 8) (container_id h)
  ∧ fits 64 (start_ts_ns h).

(** ** Little-endian bytes of the packed structures *)

Fixpoint le_bytes (n : nat) (z : Z) : list Z :=
  match n with
  | O => []
  | S n => u8 z :: le_bytes n (Z.shiftr z 8)
  end.

Fixpoint le_val (l : list Z) : Z :=
  match l with
  | [] => 0
  | b :: l => b + 256 * le_val l
  end.

(** [reinterpret_cast<const char*>(&rec), sizeof(rec)] on the packed record. *)
Definition TraceRecord_bytes (r : TraceRecord) : list Z :=
  le_bytes 4 (delta_ts_us r) ++ le_bytes 2 (tr_syscall_id r)
  ++ le_bytes 1 (tr_arg_class r) ++ le_bytes 1 (tr_arg_bucket r).

Definition TraceHeader_bytes (h : TraceHeader) : list Z :=
  le_bytes 4 (version h) ++ le_bytes 4 (syscall_vocab_size h)
  ++ container_id h ++ le_bytes 8 (start_ts_ns h).

Definition TraceRecord_size : nat := 8.
Definition TraceHeader_size : nat := 80.

(** ** serialization.cpp *)

Definition nsToUs (ns : Z) : Z := ns / 1000.

Definition makeTraceRecord (evt : SyscallEvent) (prevTsNs : Z) : TraceRecord := {|
  delta_ts_us := u32 (nsToUs (u64 (tsNs evt - prevTsNs)));
  tr_syscall_id := syscallId evt;
  tr_arg_class := argClass evt;
  tr_arg_bucket := argBucket evt;
|}.

(** The text [oss << "\"key\":"] emits. *)
Definition key (k : string) : string := q +:+ k +:+ q +:+ ":".

(** One turn of the loop over the events; [first] says whether a comma is due. *)
Definition appendRecord (windowStartTsNs : Z) (st : bool * string) (ev : SyscallEvent)
    : bool * string :=
  let '(first, oss) := st in
  let oss := if negb first then oss +:+ "," else oss in
  let deltaUs := nsToUs (u64 (tsNs ev - windowStartTsNs)) in
  (false,
   oss +:+ "{" +:+ key "delta_ts_us" +:+ dec deltaUs +:+ ","
       +:+ key "syscall_id" +:+ dec (syscallId ev) +:+ ","
       +:+ key "arg_class" +:+ dec (argClass ev) +:+ ","
       +:+ key "arg_bucket" +:+ dec (argBucket ev) +:+ "}").

Definition buildWindowJson (agentId containerId : string) (windowStartTsNs : Z)
    (events : list SyscallEvent) : string :=
  let oss := "{" in
  let oss := oss +:+ key "version" +:+ "1," in
  let oss := oss +:+ key "agent_id" +:+ q +:+ agentId +:+ q +:+ "," in
  let oss := oss +:+ key "container_id" +:+ q +:+ containerId +:+ q +:+ "," in
  let oss := oss +:+ key "window_start_ts_ns" +:+ dec windowStartTsNs +:+ "," in
  let oss := oss +:+ key "records" +:+ "[" in
  let oss := (foldl (appendRecord windowStartTsNs) (true, oss) events).2 in
  let oss := oss +:+ "]" in
  oss +:+ "}".

Definition buildDumpCompleteJson (agentId containerId dumpPath : string)
    (startTsNs durationSec recordCount : Z) : string :=
  let oss := "{" in
  let oss := oss +:+ key "agent_id" +:+ q +:+ agentId +:+ q +:+ "," in
  let oss := oss +:+ key "container_id" +:+ q +:+ containerId +:+ q +:+ "," in
  let oss := oss +:+ key "dump_path" +:+ q +:+ dumpPath +:+ q +:+ "," in
  let oss := oss +:+ key "start_ts_ns" +:+ dec startTsNs +:+ "," in
  let oss := oss +:+ key "duration_sec" +:+ dec durationSec +:+ "," in
  let oss := oss +:+ key "record_count" +:+ dec recordCount in
  oss +:+ "}".

(** ** Abstract specification of the payloads and of the dump file *)

Definition record_doc (start : Z) (ev : SyscallEvent) : json :=
  JObj [("delta_ts_us", JNum (nsToUs (u64 (tsNs ev - start))));
        ("syscall_id", JNum (syscallId ev));
        ("arg_class", JNum (argClass ev));
        ("arg_bucket", JNum (argBucket ev))].

Definition window_doc (agentId containerId : string) (start : Z)
    (events : list SyscallEvent) : json :=
  JObj [("version", JNum 1); ("agent_id", JStr agentId);
        ("container_id", JStr containerId); ("window_start_ts_ns", JNum start);
        ("records", JArr (map (record_doc start) events))].

Definition dump_complete_doc (agentId containerId dumpPath : string)
    (start duration count : Z) : json :=
  JObj [("agent_id", JStr agentId); ("container_id", JStr containerId);
        ("dump_path", JStr dumpPath); ("start_ts_ns", JNum start);
        ("duration_sec", JNum duration); ("record_count", JNum count)].

(** A reader of dump files, as [struct.unpack] with formats <II64sQ and <IHBB:
    a header, then whole records until the bytes run out. *)
Definition read_TraceRecord (l : list Z) : option (TraceRecord * list Z) :=
  if decide (8 ≤ length l)%nat then
    Some ({| delta_ts_us := le_val (take 4 l);
             tr_syscall_id := le_val (take 2 (drop 4 l));
             tr_arg_class := le_val (take 1 (drop 6 l));
             tr_arg_bucket := le_val (take 1 (drop 7 l)) |}, drop 8 l)
  else None.

Definition read_TraceHeader (l : list Z) : option (TraceHeader * list Z) :=
  if decide (80 ≤ length l)%nat then
    Some ({| version := le_val (take 4 l);
             syscall_vocab_size := le_val (take 4 (drop 4 l));
             container_id := take 64 (drop 8 l);
             start_ts_ns := le_val (take 8 (drop 72 l)) |}, drop 80 l)
  else None.

Fixpoint read_records (fuel : nat) (l : list Z) : list TraceRecord :=
  match fuel with
  | O => []
  | S fuel =>
      match read_TraceRecord l with
      | Some (r, l') => r :: read_records fuel l'
      | None => []
      end
  end.

Definition read_dump (l : list Z) : option (TraceHeader * list TraceRecord) :=
  '(h, r) ← read_TraceHeader l; Some (h, read_records (length r) r).

(** ** Lemmas *)

Lemma le_bytes_length n z : length (le_bytes n z) = n.
Proof. revert z. induction n; intros z; simpl; auto. Qed.

Lemma le_val_bytes n z : fits (8 * Z.of_nat n) z → le_val (le_bytes n z) = z.
Proof.
  revert z. induction n as [|n IH]; intros z Hz; simpl.
  - unfold fits in Hz. simpl in Hz. lia.
  - rewrite IH.
    + rewrite Z.shiftr_div_pow2 by lia. unfold wrap. change (2 ^ 8) with 256.
      rewrite (Z.div_mod z 256) at 3 by lia. lia.
    + unfold fits in *. rewrite Z.shiftr_div_pow2 by lia. split.
      * apply Z.div_pos; lia.
      * apply Z.div_lt_upper_bound; [lia|]. rewrite <-Z.pow_add_r by lia.
        replace (8 + 8 * Z.of_nat n) with (8 * Z.of_nat (S n)) by lia. lia.
Qed.

Lemma le_val_fits l n :
  Forall (fits 8) l → (length l ≤ n)%nat → fits (8 * Z.of_nat n) (le_val l).
Proof.
  intros Hl. revert n. induction Hl as [|b l Hb _ IH]; intros n Hn; cbn [le_val].
  - unfold fits. split; [lia|]. apply Z.pow_pos_nonneg; lia.
  - destruct n as [|n]; [simpl in Hn; lia|]. destruct (IH n) as [H1 H2]; [simpl in Hn; lia|].
    replace (8 * Z.of_nat (S n)) with (8 + 8 * Z.of_nat n) by lia.
    unfold fits in *. rewrite Z.pow_add_r by lia. change (2 ^ 8) with 256 in *. lia.
Qed.

Lemma le_bytes_fits n z : Forall (fits 8) (le_bytes n z).
Proof.
  revert z. induction n; intros z; simpl; constructor; [|done].
  apply wrap_fits. lia.
Qed.

#[export] Hint Rewrite le_bytes_length : dk_str.

Lemma TraceRecord_bytes_length r : length (TraceRecord_bytes r) = TraceRecord_size.
Proof. unfold TraceRecord_bytes. by rewrite !length_app, !le_bytes_length. Qed.

Lemma TraceHeader_bytes_length h :
  TraceHeader_wf h → length (TraceHeader_bytes h) = TraceHeader_size.
Proof.
  intros (_ & _ & Hl & _). unfold TraceHeader_bytes.
  by rewrite !length_app, !le_bytes_length, Hl.
Qed.

Lemma read_TraceRecord_bytes r l :
  TraceRecord_wf r → read_TraceRecord (TraceRecord_bytes r ++ l) = Some (r, l).
Proof.
  intros (H1 & H2 & H3 & H4). unfold read_TraceRecord.
  rewrite decide_True by (rewrite length_app, TraceRecord_bytes_length; unfold TraceRecord_size; lia).
  pose proof (le_val_bytes 4 _ H1) as E1. pose proof (le_val_bytes 2 _ H2) as E2.
  pose proof (le_val_bytes 1 _ H3) as E3. pose proof (le_val_bytes 1 _ H4) as E4.
  destruct r. unfold TraceRecord_bytes in *. cbn [le_bytes app take drop] in *.
  cbn [delta_ts_us tr_syscall_id tr_arg_class tr_arg_bucket] in *.
  rewrite take_0, drop_0. congruence.
Qed.

Lemma read_TraceHeader_bytes h l :
  TraceHeader_wf h → read_TraceHeader (TraceHeader_bytes h ++ l) = Some (h, l).
Proof.
  intros Hwf. pose proof Hwf as (H1 & H2 & H3 & _ & H4). unfold read_TraceHeader.
  rewrite decide_True
    by (rewrite length_app, TraceHeader_bytes_length by done; unfold TraceHeader_size; lia).
  pose proof (le_val_bytes 4 _ H1) as E1. pose proof (le_val_bytes 4 _ H2) as E2.
  pose proof (le_val_bytes 8 _ H4) as E4.
  destruct h as [v n cid ts]. unfold TraceHeader_bytes.
  cbn [version syscall_vocab_size container_id start_ts_ns] in *.
  pose proof (le_bytes_length 8 ts) as HT. revert E4 HT.
  generalize (le_bytes 8 ts) as T. intros T E4 HT.
  rewrite <-!app_assoc. cbn [le_bytes app take drop] in E1, E2 |- *.
  rewrite take_0, !drop_0, !take_app_length', !drop_app_length', take_app_length' by done.
  rewrite app_assoc, drop_app_length' by (rewrite length_app; lia). congruence.
Qed.

Lemma read_records_bytes rs l n :
  Forall TraceRecord_wf rs → (length l < 8)%nat → (length rs ≤ n)%nat →
  read_records n (concat (map TraceRecord_bytes rs) ++ l) = rs.
Proof.
  intros Hwf Hl. revert n. induction Hwf as [|r rs Hr _ IH]; intros n Hn;
    cbn [map concat].
  - destruct n as [|n]; [done|]. cbn [read_records app]. unfold read_TraceRecord.
    rewrite decide_False; [done|lia].
  - destruct n as [|n]; [simpl in Hn; lia|]. cbn [read_records].
    rewrite <-app_assoc, read_TraceRecord_bytes by done.
    f_equal. apply IH. simpl in Hn. lia.
Qed.

Lemma records_bytes_length rs :
  length (concat (map TraceRecord_bytes rs)) = (TraceRecord_size * length rs)%nat.
Proof.
  induction rs as [|r rs IH]; [done|]. cbn [map concat length].
  rewrite length_app, TraceRecord_bytes_length, IH. unfold TraceRecord_size. lia.
Qed.

Lemma read_dump_bytes h rs tail :
  TraceHeader_wf h → Forall TraceRecord_wf rs → (length tail < TraceRecord_size)%nat →
  read_dump (TraceHeader_bytes h ++ concat (map TraceRecord_bytes rs) ++ tail) = Some (h, rs).
Proof.
  intros Hh Hrs Htail. unfold read_dump. rewrite read_TraceHeader_bytes by done.
  cbn [mbind option_bind]. rewrite read_records_bytes; [done..|].
  rewrite length_app, records_bytes_length. unfold TraceRecord_size. lia.
Qed.

Lemma makeTraceRecord_wf e prev : SyscallEvent_wf e → TraceRecord_wf (makeTraceRecord e prev).
Proof.
  intros (_ & _ & _ & _ & ? & ? & ?). split_and!; [|done..]. apply wrap_fits. lia.
Qed.

Lemma u64_sub_small a b : fits 64 a → 0 ≤ b ≤ a → u64 (a - b) = a - b.
Proof. unfold fits. intros. apply wrap_small. unfold fits. lia. Qed.

Lemma u64_sub_neg a b : fits 64 a → fits 64 b → a < b → u64 (a - b) = 2 ^ 64 - (b - a).
Proof.
  unfold fits, wrap. intros. rewrite <-(Z.mod_add _ 1), Z.mod_small by lia. lia.
Qed.

(** The text of a list of records, without the accumulator. *)
Lemma appendRecord_app start b oss ev :
  appendRecord start (b, oss) ev
  = (false, oss +:+ (if b then "" else ",") +:+ print (record_doc start ev)).
Proof.
  unfold appendRecord, key, record_doc. f_equal. cbn [print map join fst snd]. unfold quoted.
  destruct b; cbn [negb]; rewrite ?str_app_assoc; done.
Qed.

Lemma foldl_appendRecord start evs oss :
  (foldl (appendRecord start) (false, oss) evs).2
  = oss +:+ foldr (λ ev r, "," +:+ print (record_doc start ev) +:+ r) "" evs.
Proof.
  revert oss. induction evs as [|ev evs IH]; intros oss; cbn [foldl foldr].
  - by rewrite str_app_nil_r.
  - rewrite appendRecord_app, IH. by rewrite !str_app_assoc.
Qed.

Lemma foldl_appendRecord_first start evs oss :
  (foldl (appendRecord start) (true, oss) evs).2
  = oss +:+ join "," (map print (map (record_doc start) evs)).
Proof.
  destruct evs as [|ev evs]; [by rewrite str_app_nil_r|].
  cbn [foldl]. rewrite appendRecord_app, foldl_appendRecord.
  cbn [map]. rewrite join_comma, !str_app_assoc, str_app_nil_l. do 2 f_equal.
  clear. induction evs as [|ev evs IH]; [done|]. cbn [foldr map]. by rewrite IH.
Qed.

Lemma buildWindowJson_print a c start evs :
  buildWindowJson a c start evs = print (window_doc a c start evs).
Proof.
  unfold buildWindowJson. rewrite foldl_appendRecord_first.
  unfold window_doc, key. cbn [print map join fst snd].
  change (dec 1) with "1". unfold quoted. by rewrite !str_app_assoc.
Qed.

Lemma buildDumpCompleteJson_print a c p start d n :
  buildDumpCompleteJson a c p start d n = print (dump_complete_doc a c p start d n).
Proof.
  unfold buildDumpCompleteJson, dump_complete_doc, key. cbn [print map join fst snd].
  unfold quoted. by rewrite !str_app_assoc.
Qed.

(** The member names the agent writes are plain text. *)
Ltac plain_key := by (unfold plain; repeat constructor).

Lemma window_doc_wf a c start evs : plain a → plain c → wf (window_doc a c start evs).
Proof.
  intros.
  cbn [wf window_doc foldr fst snd]. split_and!; try done; try plain_key.
  apply foldr_and. apply Forall_map, Forall_true. intros ev.
  cbn [wf record_doc foldr fst snd compose]. split_and!; try done; plain_key.
Qed.

Lemma dump_complete_doc_wf a c p start d n :
  plain a → plain c → plain p → wf (dump_complete_doc a c p start d n).
Proof.
  intros.
  cbn [wf dump_complete_doc foldr fst snd]. split_and!; try done; plain_key.
Qed.

(** The records of a dump: each event against the one before it. *)
Fixpoint dump_records (prev : Z) (evs : list SyscallEvent) : list TraceRecord :=
  match evs with
  | [] => []
  | e :: evs => makeTraceRecord e prev :: dump_records (tsNs e) evs
  end.

(** Events in time order after [prev], no gap too long for 32-bit microseconds. *)
Fixpoint in_order (prev : Z) (evs : list SyscallEvent) : Prop :=
  match evs with
  | [] => True
  | e :: evs =>
      fits 64 (tsNs e) ∧ prev ≤ tsNs e < prev + 1000 * 2 ^ 32 ∧ in_order (tsNs e) evs
  end.

Definition last_ts (prev : Z) (evs : list SyscallEvent) : Z :=
  match last evs with Some e => tsNs e | None => prev end.

Definition total_us (rs : list TraceRecord) : Z :=
  foldr (λ r n, delta_ts_us r + n) 0 rs.

Lemma delta_in_order e prev :
  fits 64 (tsNs e) → 0 ≤ prev ≤ tsNs e → tsNs e < prev + 1000 * 2 ^ 32 →
  delta_ts_us (makeTraceRecord e prev) = (tsNs e - prev) / 1000.
Proof.
  intros. cbn [delta_ts_us makeTraceRecord]. unfold nsToUs.
  rewrite u64_sub_small by done. apply wrap_small. split.
  - apply Z.div_pos; lia.
  - apply Z.div_lt_upper_bound; lia.
Qed.

Lemma last_ts_cons prev e evs : last_ts prev (e :: evs) = last_ts (tsNs e) evs.
Proof. unfold last_ts. rewrite last_cons. by destruct (last evs). Qed.

(** ** Properties *)

(** C30: a window payload is valid JSON and reads back as exactly the document the
    server is promised: version 1, the agent and container, the window start, and
    one record per event in order, each with its microsecond offset from the start
    (in 64-bit arithmetic) and its syscall, class and bucket. *)
Theorem buildWindowJson_roundtrip agentId containerId start evs :
  plain agentId → plain containerId →
  read (buildWindowJson agentId containerId start evs)
  = Some (window_doc agentId containerId start evs).
Proof. intros. rewrite buildWindowJson_print. by apply read_print, window_doc_wf. Qed.

Lemma buildWindowJson_roundtrip_witness :
  plain "node-1" ∧ plain "demo" ∧
  read (buildWindowJson "node-1" "demo" 1000000
    [MkSyscallEvent 1000000 1 1 10 5 2 1; MkSyscallEvent 1050000 1 1 10 257 1 0])
  = Some (JObj [("version", JNum 1); ("agent_id", JStr "node-1");
      ("container_id", JStr "demo"); ("window_start_ts_ns", JNum 1000000);
      ("records", JArr
        [JObj [("delta_ts_us", JNum 0); ("syscall_id", JNum 5);
               ("arg_class", JNum 2); ("arg_bucket", JNum 1)];
         JObj [("delta_ts_us", JNum 50); ("syscall_id", JNum 257);
               ("arg_class", JNum 1); ("arg_bucket", JNum 0)]])]).
Proof.
  assert (H1 : plain "node-1") by plain_key. assert (H2 : plain "demo") by plain_key.
  split; [exact H1|]. split; [exact H2|].
  exact (buildWindowJson_roundtrip "node-1" "demo" 1000000
    [MkSyscallEvent 1000000 1 1 10 5 2 1; MkSyscallEvent 1050000 1 1 10 257 1 0] H1 H2).
Defined.

(** The dump-complete payload is valid JSON and reads back as the six fields it
    was built from. *)
Theorem buildDumpCompleteJson_roundtrip agentId containerId path start dur count :
  plain agentId → plain containerId → plain path →
  read (buildDumpCompleteJson agentId containerId path start dur count)
  = Some (dump_complete_doc agentId containerId path start dur count).
Proof. intros. rewrite buildDumpCompleteJson_print. by apply read_print, dump_complete_doc_wf. Qed.

Lemma buildDumpCompleteJson_roundtrip_witness :
  plain "n" ∧ plain "c" ∧ plain "/d/x.dkdump" ∧
  read (buildDumpCompleteJson "n" "c" "/d/x.dkdump" 12345 1200 7)
  = Some (JObj [("agent_id", JStr "n"); ("container_id", JStr "c");
      ("dump_path", JStr "/d/x.dkdump"); ("start_ts_ns", JNum 12345);
      ("duration_sec", JNum 1200); ("record_count", JNum 7)]).
Proof.
  assert (H1 : plain "n") by plain_key. assert (H2 : plain "c") by plain_key.
  assert (H3 : plain "/d/x.dkdump") by plain_key.
  split; [exact H1|]. split; [exact H2|]. split; [exact H3|].
  exact (buildDumpCompleteJson_roundtrip "n" "c" "/d/x.dkdump" 12345 1200 7 H1 H2 H3).
Defined.

(** C19: a dump file's bytes, a header followed by records, parse back (little-endian,
    <II64sQ then <IHBB) to that header and those records, and a partial record at
    the end (a file cut short) loses nothing before it. *)
Theorem dump_file_roundtrip h rs tail :
  TraceHeader_wf h → Forall TraceRecord_wf rs → (length tail < TraceRecord_size)%nat →
  read_dump (TraceHeader_bytes h ++ concat (map TraceRecord_bytes rs) ++ tail) = Some (h, rs).
Proof. apply read_dump_bytes. Qed.

Definition sample_header : TraceHeader :=
  MkTraceHeader 1 256 (map (λ n, Z.of_nat n) (seq 1 64)) 123456789.

Lemma dump_file_roundtrip_witness :
  read_dump (TraceHeader_bytes sample_header ++
    concat (map TraceRecord_bytes [MkTraceRecord 23 42 3 7; MkTraceRecord 4294967295 65535 4 0])
    ++ [1; 2; 3])
  = Some (sample_header, [MkTraceRecord 23 42 3 7; MkTraceRecord 4294967295 65535 4 0]).
Proof.
  apply dump_file_roundtrip.
  - unfold TraceHeader_wf, sample_header. cbn [version syscall_vocab_size container_id start_ts_ns].
    split_and!; try (unfold fits; lia); [reflexivity|].
    apply Forall_forall. intros x Hx. apply list_elem_of_fmap in Hx as (n & -> & Hn).
    apply elem_of_seq in Hn. unfold fits. lia.
  - repeat constructor; unfold fits; cbn; lia.
  - unfold TraceRecord_size. simpl. lia.
Defined.

(** C37: the delta of a record, on every order of timestamps. In order and less than
    2^32 microseconds apart, it is the exact number of elapsed microseconds; a longer
    gap is reduced modulo 2^32; an event older than its predecessor yields the
    wrapped 64-bit difference, never a negative or saturated value. *)
Theorem makeTraceRecord_delta e prev :
  fits 64 (tsNs e) → fits 64 prev →
  delta_ts_us (makeTraceRecord e prev) =
    (if prev <=? tsNs e then ((tsNs e - prev) / 1000) mod 2 ^ 32
     else ((2 ^ 64 - (prev - tsNs e)) / 1000) mod 2 ^ 32)
  ∧ (prev ≤ tsNs e < prev + 1000 * 2 ^ 32 →
     delta_ts_us (makeTraceRecord e prev) = (tsNs e - prev) / 1000).
Proof.
  intros He Hp. split.
  - cbn [delta_ts_us makeTraceRecord]. unfold nsToUs. destruct (prev <=? tsNs e) eqn:Hle;
      bool_to_prop; unfold fits in *.
    + by rewrite u64_sub_small by (unfold fits; lia).
    + by rewrite u64_sub_neg by (unfold fits; lia).
  - intros. unfold fits in *. by apply delta_in_order; unfold fits; lia.
Qed.

Lemma makeTraceRecord_delta_witness :
  delta_ts_us (makeTraceRecord (MkSyscallEvent 1023000 1 1 10 42 3 7) 1000000) = 23
  ∧ delta_ts_us (makeTraceRecord (MkSyscallEvent 0 1 1 10 42 3 7) 1000) = 1271310318.
Proof.
  pose proof (makeTraceRecord_delta (MkSyscallEvent 1023000 1 1 10 42 3 7) 1000000
    ltac:(unfold fits; cbn; lia) ltac:(unfold fits; cbn; lia)) as [H1 _].
  pose proof (makeTraceRecord_delta (MkSyscallEvent 0 1 1 10 42 3 7) 1000
    ltac:(unfold fits; cbn; lia) ltac:(unfold fits; cbn; lia)) as [H2 _].
  split; [exact H1|exact H2].
Defined.

(** Timestamps reconstructed from a dump as start plus the running sum of deltas
    (the documented reading) never run ahead of the true time, and lag it by less
    than one microsecond per record. *)
Theorem dump_records_drift start evs :
  fits 64 start → in_order start evs →
  0 ≤ last_ts start evs - (start + 1000 * total_us (dump_records start evs))
    ≤ 999 * Z.of_nat (length evs).
Proof.
  intros Hs. revert start Hs. induction evs as [|e evs IH]; intros start Hs Ho.
  - cbn. lia.
  - destruct Ho as (He & Hgap & Ho). rewrite last_ts_cons.
    specialize (IH (tsNs e) He Ho). cbn [dump_records total_us foldr length].
    fold (total_us (dump_records (tsNs e) evs)). unfold fits in Hs.
    rewrite delta_in_order by (done || lia).
    pose proof (Z.div_mod (tsNs e - start) 1000 ltac:(lia)).
    pose proof (Z.mod_pos_bound (tsNs e - start) 1000 ltac:(lia)). lia.
Qed.

Lemma dump_records_drift_witness :
  0 ≤ 5001999 - (1000 + 1000 * total_us (dump_records 1000
    [MkSyscallEvent 2500 1 1 1 0 1 0; MkSyscallEvent 5001999 1 1 1 1 1 0])) ≤ 999 * 2.
Proof.
  apply (dump_records_drift 1000
    [MkSyscallEvent 2500 1 1 1 0 1 0; MkSyscallEvent 5001999 1 1 1 1 1 0]);
    cbn; unfold fits; lia.
Defined.

(** The payload builders do not escape: a quote in an identifier ends the string
    early and the text is no JSON document. *)
Lemma buildWindowJson_no_escape :
  read (buildWindowJson ("no" +:+ q +:+ "de") "demo" 0 []) = None.
Proof. vm_compute. reflexivity. Qed.
