(* ===== verification/Ebpf.v ===== *)
(** * Ebpf: the kernel-side program

    [agent/ebpf/deepkernel.bpf.c]: the classification of system calls and the
    tracepoint handler that fills one ring-buffer sample.  The BPF helpers are
    kernel code; what they return is an input of the handler ([bpf_env]).  A
    sample is its 24 bytes, which is what user space receives; the layout
    theorem is the contract between the two struct declarations. *)

From S2P Require Export Serialization.

#[local] Open Scope Z_scope.

Definition ARG_CLASS_OTHER : Z := 0.
Definition ARG_CLASS_FILE : Z := 1.
Definition ARG_CLASS_NET : Z := 2.
Definition ARG_CLASS_PROC : Z := 3.
Definition ARG_CLASS_MEM : Z := 4.

Record dk_syscall_event_t := Mk_dk_syscall_event_t {
  dk_ts_ns : Z;        (* __u64 *)
  dk_pid : Z;          (* __u32 *)
  dk_tid : Z;          (* __u32 *)
  dk_cgroup_id : Z;    (* __u32 *)
  dk_syscall_id : Z;   (* __u16 *)
  dk_arg_class : Z;    (* __u8 *)
  dk_arg_bucket : Z;   (* __u8 *)
}.

(** A chain of [id == n || ...]. *)
Definition is_one_of (id : Z) (l : list Z) : bool := existsb (Z.eqb id) l.

Definition between (lo id hi : Z) : bool := (lo <=? id) && (id <=? hi).

(** [syscall_id] is a signed long. *)
Definition classify_arg_class (syscall_id : Z) : Z :=
  if is_one_of syscall_id
       [0; 1; 2; 3; 4; 5; 6; 7; 8; 16; 17; 18; 19; 20; 21; 22; 23; 32; 33;
        72; 73; 74; 75; 76; 77; 78; 79; 80; 81; 82; 83; 84; 85; 86; 87; 88;
        89; 90; 91; 92; 93; 94; 95; 162; 213; 217; 232; 233; 253; 254; 255]
     || between 257 syscall_id 270
     || is_one_of syscall_id
       [281; 283; 284; 286; 287; 290; 291; 292; 293; 294; 306; 316; 332;
        425; 426; 427; 441]
  then ARG_CLASS_FILE
  else if between 41 syscall_id 55 || is_one_of syscall_id [288; 299; 307]
  then ARG_CLASS_NET
  else if is_one_of syscall_id
       [13; 14; 15; 24; 39; 56; 57; 58; 59; 60; 61; 62; 101; 102;
        104; 105; 106; 107; 108; 109; 110; 112; 113; 114; 121; 124; 125; 126;
        131; 133; 157; 158; 186; 200; 203; 204; 231; 234; 247; 272; 308; 322; 435]
  then ARG_CLASS_PROC
  else if is_one_of syscall_id
       [9; 10; 11; 12; 25; 26; 27; 28; 29; 30; 31; 67; 149; 150; 151; 152;
        202; 218; 319; 324; 325; 440; 449]
  then ARG_CLASS_MEM
  else ARG_CLASS_OTHER.

(** What the helpers return during one firing of the tracepoint:
    [bpf_get_current_pid_tgid], whether [bpf_ringbuf_reserve] found room,
    [bpf_ktime_get_ns] and [bpf_get_current_cgroup_id]. *)
Record bpf_env := BpfEnv {
  pid_tgid : Z;        (* __u64 *)
  reserve_ok : bool;
  ktime_ns : Z;        (* __u64 *)
  cur_cgroup : Z;      (* __u64 *)
}.

Definition bpf_env_wf (env : bpf_env) : Prop :=
  fits 64 (pid_tgid env) ∧ fits 64 (ktime_ns env) ∧ fits 64 (cur_cgroup env).

Definition fill_event (env : bpf_env) (ctx_id : Z) : dk_syscall_event_t := {|
  dk_ts_ns := u64 (ktime_ns env);
  dk_pid := u32 (Z.shiftr (pid_tgid env) 32);
  dk_tid := u32 (Z.land (pid_tgid env) (2 ^ 32 - 1));
  dk_cgroup_id := u32 (cur_cgroup env);
  dk_syscall_id := u16 ctx_id;
  dk_arg_class := u8 (classify_arg_class ctx_id);
  dk_arg_bucket := 0;
|}.

(** The bytes of a sample: the structure has no padding. *)
Definition dk_event_bytes (e : dk_syscall_event_t) : list Z :=
  le_bytes 8 (dk_ts_ns e) ++ le_bytes 4 (dk_pid e) ++ le_bytes 4 (dk_tid e)
  ++ le_bytes 4 (dk_cgroup_id e) ++ le_bytes 2 (dk_syscall_id e)
  ++ le_bytes 1 (dk_arg_class e) ++ le_bytes 1 (dk_arg_bucket e).

(** One firing: the return value and the samples submitted so far. *)
Definition handle_sys_enter (env : bpf_env) (ctx_id : Z) (ring : list (list Z))
    : Z * list (list Z) :=
  if negb (reserve_ok env) then (0, ring)
  else (0, ring ++ [dk_event_bytes (fill_event env ctx_id)]).

(** ** The user-space view of a sample *)

Definition KernelSyscallEvent_size : nat := 24.

(** [*reinterpret_cast<KernelSyscallEvent*>(data)] on at least 24 bytes. *)
Definition KernelSyscallEvent_of_bytes (l : list Z) : KernelSyscallEvent := {|
  ts_ns := le_val (take 8 l);
  k_pid := le_val (take 4 (drop 8 l));
  k_tid := le_val (take 4 (drop 12 l));
  cgroup_id := le_val (take 4 (drop 16 l));
  syscall_id := le_val (take 2 (drop 20 l));
  arg_class := le_val (take 1 (drop 22 l));
  arg_bucket := le_val (take 1 (drop 23 l));
|}.

(** ** The documented tables

    The comment above each test of [classify_arg_class], name by name. *)





(** ** Lemmas *)

Lemma is_one_of_spec id l : is_one_of id l = true ↔ id ∈ l.
Proof.
  unfold is_one_of. rewrite existsb_exists. split.
  - intros (x & Hx & ->%Z.eqb_eq). by apply list_elem_of_In.
  - intros Hid. exists id. split; [by apply list_elem_of_In|]. apply Z.eqb_refl.
Qed.


Lemma is_one_of_out id l : Forall (λ n, 0 ≤ n < 450) l → ¬ 0 ≤ id < 450 → is_one_of id l = false.
Proof.
  intros Hl Hid. apply not_true_is_false. rewrite is_one_of_spec. intros Hin.
  rewrite Forall_forall in Hl. by apply Hid, Hl.
Qed.

Ltac small_ids := repeat constructor; vm_compute; congruence.

Lemma classify_out id : ¬ 0 ≤ id < 450 → classify_arg_class id = ARG_CLASS_OTHER.
Proof.
  intros Hid. unfold classify_arg_class, between.
  rewrite !is_one_of_out by (done || (repeat constructor; lia)).
  destruct (257 <=? id) eqn:?, (id <=? 270) eqn:?, (41 <=? id) eqn:?, (id <=? 55) eqn:?;
    bool_to_prop; try lia; done.
Qed.

Lemma classify_fits id : u8 (classify_arg_class id) = classify_arg_class id.
Proof. unfold classify_arg_class. repeat case_bool; reflexivity. Qed.




Lemma fill_event_fits env id :
  let e := fill_event env id in
  fits 64 (dk_ts_ns e) ∧ fits 32 (dk_pid e) ∧ fits 32 (dk_tid e) ∧ fits 32 (dk_cgroup_id e)
  ∧ fits 16 (dk_syscall_id e) ∧ fits 8 (dk_arg_class e) ∧ fits 8 (dk_arg_bucket e).
Proof. split_and!; try (apply wrap_fits; lia). unfold fits. cbn. lia. Qed.

Lemma of_bytes_event e rest :
  fits 64 (dk_ts_ns e) → fits 32 (dk_pid e) → fits 32 (dk_tid e) → fits 32 (dk_cgroup_id e) →
  fits 16 (dk_syscall_id e) → fits 8 (dk_arg_class e) → fits 8 (dk_arg_bucket e) →
  KernelSyscallEvent_of_bytes (dk_event_bytes e ++ rest)
  = MkKernelSyscallEvent (dk_ts_ns e) (dk_pid e) (dk_tid e) (dk_cgroup_id e)
      (dk_syscall_id e) (dk_arg_class e) (dk_arg_bucket e).
Proof.
  intros H1 H2 H3 H4 H5 H6 H7.
  pose proof (le_val_bytes 8 _ H1) as E1. pose proof (le_val_bytes 4 _ H2) as E2.
  pose proof (le_val_bytes 4 _ H3) as E3. pose proof (le_val_bytes 4 _ H4) as E4.
  pose proof (le_val_bytes 2 _ H5) as E5. pose proof (le_val_bytes 1 _ H6) as E6.
  pose proof (le_val_bytes 1 _ H7) as E7.
  unfold KernelSyscallEvent_of_bytes, dk_event_bytes.
  cbn [le_bytes app take drop] in *. rewrite ?take_0. congruence.
Qed.

Lemma event_bytes_length e : length (dk_event_bytes e) = KernelSyscallEvent_size.
Proof. unfold dk_event_bytes. by rewrite !length_app, !le_bytes_length. Qed.

(** ** Properties *)


(** One firing of the tracepoint returns 0 and, when the ring buffer has room,
    submits exactly one sample after those already there; user space decodes from
    its bytes the kernel's time, the thread group and thread that recombine into
    pid_tgid, the low 32 bits of the cgroup id, the id's low 16 bits, and the class
    of the full id.  With no room the event is dropped and nothing changes. *)
Theorem handle_sys_enter_spec env id ring :
  bpf_env_wf env →
  (handle_sys_enter env id ring).1 = 0
  ∧ (reserve_ok env = false → (handle_sys_enter env id ring).2 = ring)
  ∧ (reserve_ok env = true → ∃ sample,
      (handle_sys_enter env id ring).2 = ring ++ [sample]
      ∧ length sample = KernelSyscallEvent_size
      ∧ let e := KernelSyscallEvent_of_bytes sample in
        ts_ns e = ktime_ns env ∧ k_pid e * 2 ^ 32 + k_tid e = pid_tgid env
        ∧ cgroup_id e = cur_cgroup env mod 2 ^ 32 ∧ syscall_id e = id mod 2 ^ 16
        ∧ arg_class e = classify_arg_class id ∧ arg_bucket e = 0).
Proof.
  intros (Hp & Ht & Hc). unfold handle_sys_enter.
  destruct (reserve_ok env); cbn [negb fst snd]; split_and!; try done.
  intros _. eexists. split; [done|]. split; [apply event_bytes_length|].
  destruct (fill_event_fits env id) as (F1 & F2 & F3 & F4 & F5 & F6 & F7).
  pose proof (of_bytes_event _ [] F1 F2 F3 F4 F5 F6 F7) as Hof.
  rewrite app_nil_r in Hof. rewrite Hof. clear Hof F1 F2 F3 F4 F5 F6 F7. cbn zeta.
  cbn [ts_ns k_pid k_tid cgroup_id syscall_id arg_class arg_bucket fill_event
    dk_ts_ns dk_pid dk_tid dk_cgroup_id dk_syscall_id dk_arg_class dk_arg_bucket].
  split_and!; try done.
  - by apply wrap_small.
  - unfold fits in Hp. rewrite Z.shiftr_div_pow2 by lia.
    change (2 ^ 32 - 1) with (Z.ones 32). rewrite Z.land_ones by lia.
    rewrite !wrap_small.
    + rewrite Z.mul_comm. symmetry. apply Z.div_mod. lia.
    + unfold fits. apply Z.mod_pos_bound. lia.
    + unfold fits. split; [apply Z.div_pos; lia|]. apply Z.div_lt_upper_bound; lia.
  - apply classify_fits.
Qed.

Definition sample_env : bpf_env := BpfEnv (1234 * 2 ^ 32 + 5678) true 987654321 (2 ^ 32 + 77).

Lemma handle_sys_enter_spec_witness :
  bpf_env_wf sample_env ∧ ∃ sample, (handle_sys_enter sample_env 59 []).2 = [] ++ [sample]
    ∧ k_pid (KernelSyscallEvent_of_bytes sample) = 1234
    ∧ arg_class (KernelSyscallEvent_of_bytes sample) = ARG_CLASS_PROC.
Proof.
  assert (Hwf : bpf_env_wf sample_env) by (unfold bpf_env_wf, fits; cbn; lia).
  split; [exact Hwf|].
  destruct (handle_sys_enter_spec sample_env 59 [] Hwf) as (_ & _ & Hs).
  destruct (Hs eq_refl) as (sample & Heq & _ & _ & _ & _ & _ & Hcl & _).
  exists sample. split; [exact Heq|]. split; [|exact Hcl].
  injection Heq as <-. reflexivity.
Defined.

(** On x86_64's own numbers (0 to 65535) the 16-bit id a sample carries still
    determines its class; the class of a larger id, such as an x32 call, is OTHER
    while its low 16 bits name another call. *)
Theorem sample_class_of_id env id :
  0 ≤ id →
  let e := fill_event env id in
  (id < 2 ^ 16 → dk_arg_class e = classify_arg_class (dk_syscall_id e))
  ∧ (2 ^ 16 ≤ id → dk_arg_class e = ARG_CLASS_OTHER).
Proof.
  intros Hid. cbn zeta. cbn [dk_arg_class dk_syscall_id fill_event]. split; intros Hr.
  - rewrite (wrap_small 16) by (unfold fits; lia). apply classify_fits.
  - by rewrite classify_out by lia.
Qed.

Lemma sample_class_of_id_witness :
  dk_arg_class (fill_event sample_env 257) = ARG_CLASS_FILE
  ∧ dk_arg_class (fill_event sample_env (2 ^ 30 + 1)) = ARG_CLASS_OTHER
  ∧ dk_syscall_id (fill_event sample_env (2 ^ 30 + 1)) = 1.
Proof.
  destruct (sample_class_of_id sample_env 257 ltac:(lia)) as [H1 _].
  destruct (sample_class_of_id sample_env (2 ^ 30 + 1) ltac:(lia)) as [_ H2].
  split; [exact (H1 ltac:(lia))|]. split; [exact (H2 ltac:(lia))|]. reflexivity.
Defined.

(** The cgroup id of a sample is the kernel's 64-bit id cut to 32 bits: two cgroups
    that differ by a multiple of 2^32 are one to user space. *)
Lemma cgroup_id_truncated env id k :
  fill_event env id
  = fill_event (BpfEnv (pid_tgid env) (reserve_ok env) (ktime_ns env)
      (cur_cgroup env + k * 2 ^ 32)) id.
Proof.
  unfold fill_event. cbn [pid_tgid ktime_ns cur_cgroup]. f_equal.
  unfold wrap. by rewrite Z.mod_add.
Qed.
