(* ===== verification/Layout.v ===== *)
(** * Layout: where the compiler puts the members of a C type

    The kernel program and the agent exchange bytes through C structures: the
    tracepoint's record, the sample of the ring buffer, the header and the records
    of a dump file.  This file gives C types their System V x86-64 layout (the ABI of
    both compilers here, and of the kernel the types of [vmlinux.h] come from):
    sizes, alignments, bit-fields, unions, anonymous members and the packed
    attribute; the look-up of a member by name, through anonymous structures; and
    the value a member has in the bytes of an object. *)

From Stdlib Require Import Sorted.
From S2P Require Export Prelude Serialization.

#[local] Open Scope Z_scope.

Module C.

(** ** Types *)

Inductive ctype :=
  | TInt (size : Z) (signed : bool)
  | TPtr (to : string)                       (* the C spelling of the target *)
  | TArray (t : ctype) (n : Z)
  | TStruct (packed : bool) (ms : members)
  | TUnion (packed : bool) (ms : members)
with members :=
  | MNil
  (* [bits] is the width of a bit-field; an anonymous member has the empty name *)
  | MCons (name : string) (bits : option Z) (t : ctype) (rest : members).

Scheme ctype_mind := Induction for ctype Sort Prop
with members_mind := Induction for members Sort Prop.
Combined Scheme ctype_members_ind from ctype_mind, members_mind.

Definition m (name : string) (t : ctype) : string * option Z * ctype := (name, None, t).
Definition b (name : string) (t : ctype) (width : Z) : string * option Z * ctype :=
  (name, Some width, t).
Definition mk (l : list (string * option Z * ctype)) : members :=
  foldr (λ d ms, MCons d.1.1 d.1.2 d.2 ms) MNil l.

Definition Struct (l : list (string * option Z * ctype)) : ctype := TStruct false (mk l).
Definition Struct_packed (l : list (string * option Z * ctype)) : ctype := TStruct true (mk l).
Definition Union (l : list (string * option Z * ctype)) : ctype := TUnion false (mk l).

Definition char : ctype := TInt 1 true.
Definition uchar : ctype := TInt 1 false.
Definition bool_ : ctype := TInt 1 false.
Definition short : ctype := TInt 2 true.
Definition ushort : ctype := TInt 2 false.
Definition int : ctype := TInt 4 true.
Definition uint : ctype := TInt 4 false.
Definition enum : ctype := TInt 4 false.
Definition long : ctype := TInt 8 true.
Definition ulong : ctype := TInt 8 false.
Definition llong : ctype := TInt 8 true.
Definition ullong : ctype := TInt 8 false.

(** ** Sizes and alignments *)

Definition round_up (z align : Z) : Z := (z + align - 1) / align * align.

(** Where a member starts, in bits, when the previous one ends at [pos]: a plain member at
    its alignment; a bit-field right there unless it would straddle a unit of its type, and
    at the next unit when its width is 0. *)
Definition start (packed : bool) (pos : Z) (bits : option Z) (size align : Z) : Z :=
  match bits with
  | None => round_up pos (if packed then 8 else 8 * align)
  | Some 0 => round_up pos (8 * size)
  | Some w =>
      if packed then pos
      else if pos mod (8 * size) + w <=? 8 * size then pos else round_up pos (8 * size)
  end.

Definition width (bits : option Z) (size : Z) : Z :=
  match bits with None => 8 * size | Some w => w end.

Fixpoint alignof (t : ctype) : Z :=
  match t with
  | TInt size _ => size
  | TPtr _ => 8
  | TArray t _ => alignof t
  | TStruct packed ms | TUnion packed ms => if packed then 1 else max_align ms
  end
with max_align (ms : members) : Z :=
  match ms with
  | MNil => 1
  | MCons name bits t rest =>
      (* an unnamed bit-field does not align its structure *)
      Z.max (match bits with Some _ => if empty name then 1 else alignof t | None => alignof t end)
        (max_align rest)
  end.

Fixpoint sizeof (t : ctype) : Z :=
  match t with
  | TInt size _ => size
  | TPtr _ => 8
  | TArray t n => n * sizeof t
  | TStruct packed ms =>
      round_up (round_up (struct_end packed 0 ms) 8 / 8) (if packed then 1 else max_align ms)
  | TUnion packed ms =>
      round_up (round_up (union_end ms) 8 / 8) (if packed then 1 else max_align ms)
  end
with struct_end (packed : bool) (pos : Z) (ms : members) : Z :=
  match ms with
  | MNil => pos
  | MCons _ bits t rest =>
      struct_end packed (start packed pos bits (sizeof t) (alignof t) + width bits (sizeof t)) rest
  end
with union_end (ms : members) : Z :=
  match ms with
  | MNil => 0
  | MCons _ bits t rest => Z.max (width bits (sizeof t)) (union_end rest)
  end.

(** ** Members *)

(** A member where it is: its offset in bits from the start of the object. *)
Record place := Place {
  p_name : string;
  p_offset : Z;
  p_bits : option Z;
  p_type : ctype;
}.

Definition p_end (p : place) : Z := p_offset p + width (p_bits p) (sizeof (p_type p)).

Fixpoint places (packed : bool) (pos : Z) (ms : members) : list place :=
  match ms with
  | MNil => []
  | MCons name bits t rest =>
      let at_ := start packed pos bits (sizeof t) (alignof t) in
      Place name at_ bits t :: places packed (at_ + width bits (sizeof t)) rest
  end.

Fixpoint union_places (ms : members) : list place :=
  match ms with
  | MNil => []
  | MCons name bits t rest => Place name 0 bits t :: union_places rest
  end.

Definition layout (t : ctype) : list place :=
  match t with
  | TStruct packed ms => places packed 0 ms
  | TUnion _ ms => union_places ms
  | _ => []
  end.

(** A member by name; the members of an anonymous structure or union are its owner's. *)
Fixpoint find (t : ctype) (name : string) : option place :=
  match t with
  | TStruct packed ms => find_struct packed 0 ms name
  | TUnion _ ms => find_union ms name
  | _ => None
  end
with find_struct (packed : bool) (pos : Z) (ms : members) (name : string) : option place :=
  match ms with
  | MNil => None
  | MCons n bits t rest =>
      let at_ := start packed pos bits (sizeof t) (alignof t) in
      let next := at_ + width bits (sizeof t) in
      if empty n then
        match find t name with
        | Some p => Some (Place (p_name p) (at_ + p_offset p) (p_bits p) (p_type p))
        | None => find_struct packed next rest name
        end
      else if (n =? name)%string then Some (Place n at_ bits t)
      else find_struct packed next rest name
  end
with find_union (ms : members) (name : string) : option place :=
  match ms with
  | MNil => None
  | MCons n bits t rest =>
      if empty n then
        match find t name with Some p => Some p | None => find_union rest name end
      else if (n =? name)%string then Some (Place n 0 bits t)
      else find_union rest name
  end.

(** ** Values *)

Definition to_signed (size z : Z) : Z :=
  (z + 2 ^ (8 * size - 1)) mod 2 ^ (8 * size) - 2 ^ (8 * size - 1).

(** The value of a scalar object at the start of some bytes; [None] when they are too
    few or the type is an aggregate. *)
Definition load (t : ctype) (bytes : list Z) : option Z :=
  match t with
  | TInt size signed =>
      let raw := take (Z.to_nat size) bytes in
      if bool_decide (Z.of_nat (length raw) = size)
      then Some (if signed : bool then to_signed size (le_val raw) else le_val raw) else None
  | _ => None
  end.

(** [object.name] for a member that is a scalar and no bit-field. *)
Definition read (t : ctype) (bytes : list Z) (name : string) : option Z :=
  p ← find t name;
  match p_bits p with
  | Some _ => None
  | None => load (p_type p) (drop (Z.to_nat (p_offset p / 8)) bytes)
  end.

(** ** Well-formed types

    Scalars have a size of 1, 2, 4 or 8 bytes, arrays no negative length, and a bit-field fits a
    unit of its integer type. *)

Definition is_int (t : ctype) : bool := match t with TInt _ _ => true | _ => false end.

Definition bits_ok (bits : option Z) (t : ctype) : bool :=
  match bits with
  | None => true
  | Some w => is_int t && (0 <=? w) && (w <=? 8 * sizeof t)
  end.

Fixpoint ok (t : ctype) : bool :=
  match t with
  | TInt size _ => bool_decide (size = 1 ∨ size = 2 ∨ size = 4 ∨ size = 8)
  | TPtr _ => true
  | TArray t n => (0 <=? n) && ok t
  | TStruct _ ms | TUnion _ ms => ok_members ms
  end
with ok_members (ms : members) : bool :=
  match ms with
  | MNil => true
  | MCons _ bits t rest => ok t && bits_ok bits t && ok_members rest
  end.

(** ** Lemmas: sizes and alignments *)

Definition pow8 (a : Z) : Prop := a = 1 ∨ a = 2 ∨ a = 4 ∨ a = 8.

Lemma pow8_max a c : pow8 a → pow8 c → pow8 (Z.max a c) ∧ (a | Z.max a c) ∧ (c | Z.max a c).
Proof.
  intros [-> | [-> | [-> | ->]]] [-> | [-> | [-> | ->]]]; cbn;
    (split; [unfold pow8; lia|]); split; by apply Z.mod_divide.
Qed.

Lemma round_up_spec z a : 0 < a → z ≤ round_up z a < z + a ∧ (a | round_up z a).
Proof.
  intros Ha. unfold round_up. split; [|apply Z.divide_factor_r].
  pose proof (Z.div_mod (z + a - 1) a ltac:(lia)). pose proof (Z.mod_pos_bound (z + a - 1) a Ha). lia.
Qed.

Lemma ok_align :
  (∀ t, ok t = true → pow8 (alignof t)) ∧ (∀ ms, ok_members ms = true → pow8 (max_align ms)).
Proof.
  apply ctype_members_ind; cbn [ok ok_members alignof max_align].
  - intros size signed Hs%bool_decide_eq_true. exact Hs.
  - intros. right. right. by right.
  - intros t IH n [_ Ht]%andb_true_iff. auto.
  - intros [] ms IH Hms; [by left|auto].
  - intros [] ms IH Hms; [by left|auto].
  - intros _. by left.
  - intros n bits t IHt rest IHr [[Ht _]%andb_true_iff Hr]%andb_true_iff.
    apply pow8_max; [|auto]. destruct bits; [|auto]. destruct (empty n); [by left|auto].
Qed.

Lemma alignof_pos t : ok t = true → 0 < alignof t.
Proof. intros Ht. apply ok_align in Ht. unfold pow8 in Ht. lia. Qed.

Definition agg_align (packed : bool) (ms : members) : Z := if packed then 1 else max_align ms.

Lemma agg_align_pos packed ms : ok_members ms = true → 0 < agg_align packed ms.
Proof. intros Hm. apply ok_align in Hm. unfold pow8 in Hm. destruct packed; cbn; lia. Qed.

Lemma width_nonneg bits t : bits_ok bits t = true → 0 ≤ sizeof t → 0 ≤ width bits (sizeof t).
Proof.
  unfold bits_ok, width. destruct bits; [|lia].
  intros [[_ Hw]%andb_true_iff _]%andb_true_iff. lia.
Qed.

(** A unit of a bit-field's type has a positive size. *)
Lemma int_size t : is_int t = true → ok t = true → 0 < sizeof t.
Proof. destruct t; try done. cbn. intros _ H%bool_decide_eq_true. lia. Qed.

Lemma start_ge packed pos bits t :
  ok t = true → bits_ok bits t = true → pos ≤ start packed pos bits (sizeof t) (alignof t).
Proof.
  intros Ht Hb. pose proof (alignof_pos t Ht). unfold start. destruct bits as [w|].
  - assert (0 < sizeof t). { apply int_size; [|done]. by destruct t; destruct w. }
    assert (Hu : pos ≤ round_up pos (8 * sizeof t)) by (apply round_up_spec; lia).
    destruct w; [done| |]; (destruct packed; [lia|]); by case_bool.
  - destruct packed; apply round_up_spec; lia.
Qed.

(** The bytes of an aggregate hold its last bit. *)
Lemma agg_size e a :
  0 < a → 0 ≤ e → e ≤ 8 * round_up (round_up e 8 / 8) a ∧ (a | round_up (round_up e 8 / 8) a).
Proof.
  intros Ha He. destruct (round_up_spec e 8 ltac:(lia)) as [H1 [k Hk]].
  rewrite Hk, Z.div_mul in * by lia. destruct (round_up_spec k a Ha) as [H2 H3].
  split; [lia|done].
Qed.

Lemma sizes_ok :
  (∀ t, ok t = true → 0 ≤ sizeof t ∧ (alignof t | sizeof t))
  ∧ (∀ ms, ok_members ms = true →
       (∀ packed pos, pos ≤ struct_end packed pos ms) ∧ 0 ≤ union_end ms).
Proof.
  apply ctype_members_ind; cbn [ok ok_members alignof sizeof struct_end union_end].
  - intros size signed Hs%bool_decide_eq_true. split; [lia|apply Z.divide_refl].
  - intros to _. split; [lia|apply Z.divide_refl].
  - intros t IH n [Hn Ht]%andb_true_iff. destruct (IH Ht) as [H1 H2]. apply Z.leb_le in Hn.
    split; [lia|by apply Z.divide_mul_r].
  - intros packed ms IH Hms. destruct (IH Hms) as [H1 _]. pose proof (agg_align_pos packed ms Hms).
    destruct (agg_size (struct_end packed 0 ms) (agg_align packed ms)) as [H2 H3]; [done..|].
    fold (agg_align packed ms). specialize (H1 packed 0). split; [lia|done].
  - intros packed ms IH Hms. destruct (IH Hms) as [_ H1]. pose proof (agg_align_pos packed ms Hms).
    destruct (agg_size (union_end ms) (agg_align packed ms)) as [H2 H3]; [done..|].
    fold (agg_align packed ms). split; [lia|done].
  - done.
  - intros n bits t IHt rest IHr [[Ht Hb]%andb_true_iff Hr]%andb_true_iff.
    destruct (IHt Ht) as [H1 _], (IHr Hr) as [H2 H3]. pose proof (width_nonneg bits t Hb H1).
    split; [|lia]. intros packed pos. pose proof (start_ge packed pos bits t Ht Hb).
    etrans; [|apply H2]. lia.
Qed.

Lemma sizeof_nonneg t : ok t = true → 0 ≤ sizeof t.
Proof. apply sizes_ok. Qed.

Lemma struct_end_ge packed pos ms : ok_members ms = true → pos ≤ struct_end packed pos ms.
Proof. intros Hm. by apply sizes_ok. Qed.

Lemma struct_size packed ms :
  ok_members ms = true → struct_end packed 0 ms ≤ 8 * sizeof (TStruct packed ms).
Proof.
  intros Hm. apply (agg_size (struct_end packed 0 ms) (agg_align packed ms));
    [by apply agg_align_pos|by apply struct_end_ge].
Qed.

Lemma union_size packed ms :
  ok_members ms = true → union_end ms ≤ 8 * sizeof (TUnion packed ms).
Proof.
  intros Hm. apply (agg_size (union_end ms) (agg_align packed ms));
    [by apply agg_align_pos|by apply sizes_ok].
Qed.

(** ** Lemmas: placement *)

(** A plain member sits at a multiple of its alignment, which the aggregate's own alignment
    keeps; a bit-field stays within a unit of its type.  Packing drops both, to bytes. *)
Definition well_placed (packed : bool) (align : Z) (p : place) : Prop :=
  match p_bits p with
  | None =>
      if packed then (8 | p_offset p)
      else (8 * alignof (p_type p) | p_offset p) ∧ (alignof (p_type p) | align)
  | Some w =>
      packed = true
      ∨ p_offset p mod (8 * sizeof (p_type p)) + w ≤ 8 * sizeof (p_type p)
  end.

Lemma start_placed packed pos name bits t :
  ok t = true → bits_ok bits t = true →
  well_placed packed (alignof t) (Place name (start packed pos bits (sizeof t) (alignof t)) bits t).
Proof.
  intros Ht Hb. pose proof (alignof_pos t Ht). unfold well_placed, start. cbn.
  destruct bits as [w|].
  - assert (0 < sizeof t) by (apply int_size; [by destruct t|done]).
    apply andb_true_iff in Hb as [_ Hw]. apply Z.leb_le in Hw.
    destruct (round_up_spec pos (8 * sizeof t) ltac:(lia)) as [_ Hu%Z.mod_divide]; [|lia].
    destruct w; [right; lia| |]; (destruct packed; [by left|right]); case_bool; bool_to_prop; lia.
  - destruct packed; [by apply round_up_spec|]. split; [|apply Z.divide_refl].
    apply round_up_spec. lia.
Qed.

Lemma well_placed_mono packed a c p : (a | c) → well_placed packed a p → well_placed packed c p.
Proof.
  unfold well_placed. intros Hac. destruct (p_bits p), packed; try done.
  intros [H1 H2]. split; [done|by etrans].
Qed.

Lemma max_align_member name bits t rest :
  ok t = true → ok_members rest = true →
  (max_align rest | max_align (MCons name bits t rest))
  ∧ (bits = None → (alignof t | max_align (MCons name bits t rest))).
Proof.
  intros Ht Hr. cbn [max_align]. apply ok_align in Ht, Hr.
  destruct bits; [destruct (empty name)|]; split; try done.
  - apply (pow8_max 1 (max_align rest)); [by left|done].
  - by apply pow8_max.
  - by apply pow8_max.
  - intros _. by apply pow8_max.
Qed.

Lemma places_ok packed pos ms :
  ok_members ms = true →
  Forall (λ p, pos ≤ p_offset p ∧ p_end p ≤ struct_end packed pos ms
               ∧ well_placed packed (max_align ms) p) (places packed pos ms)
  ∧ StronglySorted (λ p q, p_end p ≤ p_offset q) (places packed pos ms).
Proof.
  revert pos. induction ms as [|n bits t rest IH]; intros pos Hm; [by repeat constructor|].
  cbn [ok_members] in Hm. apply andb_true_iff in Hm as [[Ht Hb]%andb_true_iff Hr].
  cbn [places struct_end]. set (at_ := start packed pos bits (sizeof t) (alignof t)).
  set (next := at_ + width bits (sizeof t)).
  pose proof (start_ge packed pos bits t Ht Hb). pose proof (width_nonneg bits t Hb (sizeof_nonneg t Ht)).
  destruct (IH next Hr) as [Hall Hs]. pose proof (struct_end_ge packed next rest Hr).
  destruct (max_align_member n bits t rest Ht Hr) as [Hd1 Hd2].
  split; constructor.
  - unfold p_end. cbn [p_offset p_bits p_type]. fold next. split; [done|]. split; [done|].
    pose proof (start_placed packed pos n bits t Ht Hb) as Hp. fold at_ in Hp.
    destruct bits; [exact Hp|]. exact (well_placed_mono _ _ _ _ (Hd2 eq_refl) Hp).
  - eapply Forall_impl; [exact Hall|]. intros p (H2 & H3 & H4). split; [subst next; lia|].
    split; [done|]. by apply (well_placed_mono packed (max_align rest)).
  - done.
  - eapply Forall_impl; [exact Hall|]. intros p (H2 & _ & _). unfold p_end at 1. cbn.
    exact H2.
Qed.

Lemma union_places_ok ms :
  ok_members ms = true →
  Forall (λ p, p_offset p = 0 ∧ p_end p ≤ union_end ms) (union_places ms).
Proof.
  induction ms as [|n bits t rest IH]; intros Hm; [constructor|].
  cbn [ok_members] in Hm. apply andb_true_iff in Hm as [_ Hr].
  cbn [union_places union_end]. constructor.
  - unfold p_end. cbn. lia.
  - eapply Forall_impl; [by apply IH|]. cbn beta. lia.
Qed.

(** ** Lemmas: look-up and loads *)

(** A member found by name. *)
Definition found_at (name : string) (lo hi : Z) (p : place) : Prop :=
  p_name p = name ∧ lo ≤ p_offset p ∧ p_end p ≤ hi ∧ ok (p_type p) = true
  ∧ (p_bits p = None → (8 | p_offset p)).

Lemma found_at_mono name lo hi lo' hi' p :
  found_at name lo hi p → lo' ≤ lo → hi ≤ hi' → found_at name lo' hi' p.
Proof. intros (? & ? & ? & ? & ?) ? ?. split_and!; (done || lia). Qed.

Lemma found_at_shift name hi at_ p :
  found_at name 0 hi p → (8 | at_) →
  found_at name at_ (at_ + hi) (Place (p_name p) (at_ + p_offset p) (p_bits p) (p_type p)).
Proof.
  intros (Hn & H1 & H2 & H3 & H4) Ha. unfold found_at, p_end in *. cbn.
  split_and!; [done|lia|lia|done|]. intros Hb. apply Z.divide_add_r; auto.
Qed.

Lemma plain_start packed pos t :
  ok t = true → (8 | start packed pos None (sizeof t) (alignof t)).
Proof.
  intros Ht. pose proof (start_placed packed pos "" None t Ht eq_refl) as Hp.
  unfold well_placed in Hp. cbn in Hp. destruct packed; [done|]. destruct Hp as [[k Hk] _].
  exists (k * alignof t). cbn. lia.
Qed.

Lemma find_ok :
  (∀ t, ok t = true → ∀ name p, find t name = Some p → found_at name 0 (8 * sizeof t) p)
  ∧ (∀ ms, ok_members ms = true →
       (∀ packed pos name p, find_struct packed pos ms name = Some p →
          found_at name pos (struct_end packed pos ms) p)
       ∧ (∀ name p, find_union ms name = Some p → found_at name 0 (union_end ms) p)).
Proof.
  apply ctype_members_ind; cbn [ok ok_members find find_struct find_union]; try done.
  - intros packed ms IH Hms name p Hf. eapply found_at_mono; [by apply (proj1 (IH Hms))|lia|by apply struct_size].
  - intros packed ms IH Hms name p Hf. eapply found_at_mono; [by apply (proj2 (IH Hms))|lia|by apply union_size].
  - intros n bits t IHt rest IHr [[Ht Hb]%andb_true_iff Hr]%andb_true_iff.
    destruct (IHr Hr) as [IHs IHu]. specialize (IHt Ht).
    assert (Hanon : ∀ name p, find t name = Some p → bits = None).
    { intros name p. destruct bits; [|done]. by destruct t. }
    assert (Hw : ∀ name p, find t name = Some p → width bits (sizeof t) = 8 * sizeof t).
    { intros name p Hf. by rewrite (Hanon name p Hf). }
    pose proof (width_nonneg bits t Hb (sizeof_nonneg t Ht)).
    split.
    + intros packed pos name p. cbn [struct_end]. pose proof (start_ge packed pos bits t Ht Hb).
      set (at_ := start packed pos bits (sizeof t) (alignof t)) in *.
      pose proof (struct_end_ge packed (at_ + width bits (sizeof t)) rest Hr).
      assert (Hnext : find_struct packed (at_ + width bits (sizeof t)) rest name = Some p →
        found_at name pos (struct_end packed (at_ + width bits (sizeof t)) rest) p).
      { intros Hf. eapply found_at_mono; [by apply IHs|lia|lia]. }
      destruct (empty n); [destruct (find t name) as [p'|] eqn:Hf; [|exact Hnext]|].
      * intros [= <-]. rewrite (Hw _ _ Hf) in *.
        eapply found_at_mono; [apply found_at_shift; [by apply IHt|]|lia|lia].
        subst at_. rewrite (Hanon _ _ Hf). by apply plain_start.
      * destruct (String.eqb_spec n name) as [<-|_]; [|exact Hnext]. intros [= <-].
        unfold found_at, p_end. cbn.
        split_and!; [done|lia|lia|done|]. intros ->. by apply plain_start.
    + intros name p. cbn [union_end].
      assert (Hnext : find_union rest name = Some p →
        found_at name 0 (Z.max (width bits (sizeof t)) (union_end rest)) p).
      { intros Hf. eapply found_at_mono; [by apply IHu|lia|lia]. }
      destruct (empty n); [destruct (find t name) as [p'|] eqn:Hf; [|exact Hnext]|].
      * intros [= <-]. eapply found_at_mono; [by apply IHt|lia|]. rewrite (Hw _ _ Hf). lia.
      * destruct (String.eqb_spec n name) as [<-|_]; [|exact Hnext]. intros [= <-].
        unfold found_at, p_end. cbn.
        split_and!; [done|lia|lia|done|]. intros _. apply Z.divide_0_r.
Qed.

(** What a well-formed type's layout promises: sizes are multiples of alignments, members lie
    within the object, and those of a structure follow one another without overlap, each
    well placed. *)
Definition laid_out (t : ctype) : Prop :=
  0 ≤ sizeof t ∧ (alignof t | sizeof t)
  ∧ Forall (λ p, 0 ≤ p_offset p ∧ p_end p ≤ 8 * sizeof t) (layout t)
  ∧ (∀ name p, find t name = Some p → found_at name 0 (8 * sizeof t) p)
  ∧ match t with
    | TStruct packed _ =>
        StronglySorted (λ p q, p_end p ≤ p_offset q) (layout t)
        ∧ Forall (well_placed packed (if packed then 1 else alignof t)) (layout t)
    | _ => True
    end.

Lemma ok_laid_out t : ok t = true → laid_out t.
Proof.
  intros Ht. destruct (proj1 sizes_ok t Ht) as [H1 H2].
  split; [done|]. split; [done|].
  assert (Hf : ∀ name p, find t name = Some p → found_at name 0 (8 * sizeof t) p)
    by (intros; by apply find_ok).
  destruct t as [| | |packed ms|packed ms]; try (split_and!; [constructor|done|done]).
  - destruct (places_ok packed 0 ms Ht) as [Hp Hs]. pose proof (struct_size packed ms Ht).
    split; [|split; [done|split; [done|]]].
    + eapply Forall_impl; [exact Hp|]. intros p (? & ? & _). split; [done|]. by etrans.
    + eapply Forall_impl; [exact Hp|]. intros p (_ & _ & Hw). cbn [alignof].
      destruct packed; [|exact Hw]. unfold well_placed in *. by destruct (p_bits p).
  - split; [|done]. eapply Forall_impl; [by apply union_places_ok|].
    intros p [-> Hp]. split; [lia|]. etrans; [exact Hp|]. by apply union_size.
Qed.

Lemma load_int size signed z rest :
  ok (TInt size signed) = true →
  load (TInt size signed) (le_bytes (Z.to_nat size) z ++ rest)
  = Some (let v := le_val (le_bytes (Z.to_nat size) z) in if signed then to_signed size v else v).
Proof.
  intros Hs%bool_decide_eq_true. unfold load.
  rewrite take_app_length' by (by rewrite le_bytes_length). rewrite le_bytes_length.
  rewrite bool_decide_eq_true_2 by lia. by destruct signed.
Qed.

Lemma to_signed_wrap size z :
  0 < size → - 2 ^ (8 * size - 1) ≤ z < 2 ^ (8 * size - 1) →
  to_signed size (wrap (8 * size) z) = z.
Proof.
  intros Hs Hz. unfold to_signed, wrap.
  assert (Hp : 2 ^ (8 * size) = 2 * 2 ^ (8 * size - 1)).
  { rewrite <-Z.pow_succ_r by lia. f_equal. lia. }
  rewrite <-Zplus_mod_idemp_l, Z.mod_mod, Zplus_mod_idemp_l by lia.
  rewrite Z.mod_small by lia. lia.
Qed.
End C.
