(* ===== verification/Vmlinux.v ===== *)
(** * Vmlinux: the kernel types behind the program

    [agent/ebpf/vmlinux.h]: the declarations the kernel program rests on, one
    definition per declaration, member for member: the record of the sys_enter
    tracepoint, the ring-buffer map, and the objects the helpers of the program
    answer from (the task, its pids, its css_set, cgroup and kernfs node) with every
    type embedded in them, and the numbering of helpers, maps, programs and
    commands.  A pointer keeps only the spelling of its target. *)

From S2P Require Export Layout.

#[local] Open Scope Z_scope.

Module Vmlinux.
Import C.

Definition struct_trace_entry : C.ctype := Struct [
  m "type" ushort; m "flags" uchar; m "preempt_count" uchar; m "pid" int].

Definition struct_trace_event_raw_sys_enter : C.ctype := Struct [
  m "ent" struct_trace_entry; m "id" long; m "args" (TArray ulong 6); m "__data" (TArray char 0)].

Definition td___u32 : C.ctype := uint.

Definition td_u32 : C.ctype := td___u32.

Definition struct_thread_info : C.ctype := Struct [
  m "flags" ulong; m "syscall_work" ulong; m "status" td_u32; m "cpu" td_u32].

Definition td_atomic_t : C.ctype := Struct [
  m "counter" int].

Definition struct_refcount_struct : C.ctype := Struct [
  m "refs" td_atomic_t].

Definition td_refcount_t : C.ctype := struct_refcount_struct.

Definition struct_llist_node : C.ctype := Struct [
  m "next" (TPtr "struct llist_node")].

Definition td___u16 : C.ctype := ushort.

Definition td_u16 : C.ctype := td___u16.

Definition struct___call_single_node : C.ctype := Struct [
  m "llist" struct_llist_node; m "" (Union [m "u_flags" uint; m "a_flags" td_atomic_t]);
  m "src" td_u16; m "dst" td_u16].

Definition struct_load_weight : C.ctype := Struct [
  m "weight" ulong; m "inv_weight" td_u32].

Definition struct_rb_node : C.ctype := Struct [
  m "__rb_parent_color" ulong; m "rb_right" (TPtr "struct rb_node");
  m "rb_left" (TPtr "struct rb_node")].

Definition td___u64 : C.ctype := ullong.

Definition td_u64 : C.ctype := td___u64.

Definition struct_list_head : C.ctype := Struct [
  m "next" (TPtr "struct list_head"); m "prev" (TPtr "struct list_head")].

Definition td___s64 : C.ctype := llong.

Definition td_s64 : C.ctype := td___s64.

Definition struct_sched_avg : C.ctype := Struct [
  m "last_update_time" td_u64; m "load_sum" td_u64; m "runnable_sum" td_u64; m "util_sum" td_u32;
  m "period_contrib" td_u32; m "load_avg" ulong; m "runnable_avg" ulong; m "util_avg" ulong;
  m "util_est" uint].

Definition struct_sched_entity : C.ctype := Struct [
  m "load" struct_load_weight; m "run_node" struct_rb_node; m "deadline" td_u64;
  m "min_vruntime" td_u64; m "min_slice" td_u64; m "group_node" struct_list_head;
  m "on_rq" uchar; m "sched_delayed" uchar; m "rel_deadline" uchar; m "custom_slice" uchar;
  m "exec_start" td_u64; m "sum_exec_runtime" td_u64; m "prev_sum_exec_runtime" td_u64;
  m "vruntime" td_u64; m "vlag" td_s64; m "slice" td_u64; m "nr_migrations" td_u64;
  m "depth" int; m "parent" (TPtr "struct sched_entity"); m "cfs_rq" (TPtr "struct cfs_rq");
  m "my_q" (TPtr "struct cfs_rq"); m "runnable_weight" ulong; b "" long 64;
  m "avg" struct_sched_avg].

Definition struct_sched_rt_entity : C.ctype := Struct [
  m "run_list" struct_list_head; m "timeout" ulong; m "watchdog_stamp" ulong;
  m "time_slice" uint; m "on_rq" ushort; m "on_list" ushort;
  m "back" (TPtr "struct sched_rt_entity")].

Definition td_ktime_t : C.ctype := td_s64.

Definition struct_timerqueue_node : C.ctype := Struct [
  m "node" struct_rb_node; m "expires" td_ktime_t].

Definition td___u8 : C.ctype := uchar.

Definition td_u8 : C.ctype := td___u8.

Definition struct_hrtimer : C.ctype := Struct [
  m "node" struct_timerqueue_node; m "_softexpires" td_ktime_t; m "function" (TPtr "function");
  m "base" (TPtr "struct hrtimer_clock_base"); m "state" td_u8; m "is_rel" td_u8;
  m "is_soft" td_u8; m "is_hard" td_u8].

Definition td_dl_server_has_tasks_f : C.ctype := TPtr "function".

Definition td_dl_server_pick_f : C.ctype := TPtr "function".

Definition struct_sched_dl_entity : C.ctype := Struct [
  m "rb_node" struct_rb_node; m "dl_runtime" td_u64; m "dl_deadline" td_u64;
  m "dl_period" td_u64; m "dl_bw" td_u64; m "dl_density" td_u64; m "runtime" td_s64;
  m "deadline" td_u64; m "flags" uint; b "dl_throttled" uint 1; b "dl_yielded" uint 1;
  b "dl_non_contending" uint 1; b "dl_overrun" uint 1; b "dl_server" uint 1;
  b "dl_server_active" uint 1; b "dl_defer" uint 1; b "dl_defer_armed" uint 1;
  b "dl_defer_running" uint 1; m "dl_timer" struct_hrtimer; m "inactive_timer" struct_hrtimer;
  m "rq" (TPtr "struct rq"); m "server_has_tasks" td_dl_server_has_tasks_f;
  m "server_pick_task" td_dl_server_pick_f; m "pi_se" (TPtr "struct sched_dl_entity")].

Definition struct_scx_dsq_list_node : C.ctype := Struct [
  m "node" struct_list_head; m "flags" td_u32; m "priv" td_u32].

Definition td___s32 : C.ctype := int.

Definition td_s32 : C.ctype := td___s32.

Definition td_atomic64_t : C.ctype := Struct [
  m "counter" td_s64].

Definition td_atomic_long_t : C.ctype := td_atomic64_t.

Definition td_bool : C.ctype := bool_.

Definition struct_sched_ext_entity : C.ctype := Struct [
  m "dsq" (TPtr "struct scx_dispatch_q"); m "dsq_list" struct_scx_dsq_list_node;
  m "dsq_priq" struct_rb_node; m "dsq_seq" td_u32; m "dsq_flags" td_u32; m "flags" td_u32;
  m "weight" td_u32; m "sticky_cpu" td_s32; m "holding_cpu" td_s32; m "kf_mask" td_u32;
  m "kf_tasks" (TArray (TPtr "struct task_struct") 2); m "ops_state" td_atomic_long_t;
  m "runnable_node" struct_list_head; m "runnable_at" ulong; m "core_sched_at" td_u64;
  m "ddsp_dsq_id" td_u64; m "ddsp_enq_flags" td_u64; m "slice" td_u64; m "dsq_vtime" td_u64;
  m "disallow" td_bool; m "cgrp_moving_from" (TPtr "struct cgroup");
  m "tasks_node" struct_list_head].

Definition struct_uclamp_se : C.ctype := Struct [
  b "value" uint 11; b "bucket_id" uint 3; b "active" uint 1; b "user_defined" uint 1].

Definition struct_sched_statistics : C.ctype := Struct [
  m "wait_start" td_u64; m "wait_max" td_u64; m "wait_count" td_u64; m "wait_sum" td_u64;
  m "iowait_count" td_u64; m "iowait_sum" td_u64; m "sleep_start" td_u64; m "sleep_max" td_u64;
  m "sum_sleep_runtime" td_s64; m "block_start" td_u64; m "block_max" td_u64;
  m "sum_block_runtime" td_s64; m "exec_max" td_s64; m "slice_max" td_u64;
  m "nr_migrations_cold" td_u64; m "nr_failed_migrations_affine" td_u64;
  m "nr_failed_migrations_running" td_u64; m "nr_failed_migrations_hot" td_u64;
  m "nr_forced_migrations" td_u64; m "nr_wakeups" td_u64; m "nr_wakeups_sync" td_u64;
  m "nr_wakeups_migrate" td_u64; m "nr_wakeups_local" td_u64; m "nr_wakeups_remote" td_u64;
  m "nr_wakeups_affine" td_u64; m "nr_wakeups_affine_attempts" td_u64;
  m "nr_wakeups_passive" td_u64; m "nr_wakeups_idle" td_u64; m "core_forceidle_sum" td_u64;
  b "" long 64; b "" long 64; b "" long 64].

Definition struct_hlist_head : C.ctype := Struct [
  m "first" (TPtr "struct hlist_node")].

Definition struct_cpumask : C.ctype := Struct [
  m "bits" (TArray ulong 128)].

Definition td_cpumask_t : C.ctype := struct_cpumask.

Definition union_rcu_special : C.ctype := Union [
  m "b" (Struct [m "blocked" td_u8; m "need_qs" td_u8; m "exp_hint" td_u8; m "need_mb" td_u8]);
  m "s" td_u32].

Definition struct_sched_info : C.ctype := Struct [
  m "pcount" ulong; m "run_delay" ullong; m "max_run_delay" ullong; m "min_run_delay" ullong;
  m "last_arrival" ullong; m "last_queued" ullong].

Definition struct_plist_node : C.ctype := Struct [
  m "prio" int; m "prio_list" struct_list_head; m "node_list" struct_list_head].

Definition td___kernel_clockid_t : C.ctype := int.

Definition td_clockid_t : C.ctype := td___kernel_clockid_t.

Definition enum_timespec_type : list (string * Z) := [
  ("TT_NONE", 0); ("TT_NATIVE", 1); ("TT_COMPAT", 2)].

Definition enum_timespec_type_t : C.ctype := enum.

Definition struct_restart_block : C.ctype := Struct [
  m "arch_data" ulong; m "fn" (TPtr "function");
  m "" (Union [m "futex" (Struct [m "uaddr" (TPtr "u32"); m "val" td_u32; m "flags" td_u32; m "bitset" td_u32; m "time" td_u64; m "uaddr2" (TPtr "u32")]); m "nanosleep" (Struct [m "clockid" td_clockid_t; m "type" enum_timespec_type_t; m "" (Union [m "rmtp" (TPtr "struct __kernel_timespec"); m "compat_rmtp" (TPtr "struct old_timespec32")]); m "expires" td_u64]); m "poll" (Struct [m "ufds" (TPtr "struct pollfd"); m "nfds" int; m "has_timeout" int; m "tv_sec" ulong; m "tv_nsec" ulong])])].

Definition td___kernel_pid_t : C.ctype := int.

Definition td_pid_t : C.ctype := td___kernel_pid_t.

Definition struct_hlist_node : C.ctype := Struct [
  m "next" (TPtr "struct hlist_node"); m "pprev" (TPtr "struct hlist_node *")].

Definition struct_qspinlock : C.ctype := Struct [
  m "" (Union [m "val" td_atomic_t; m "" (Struct [m "locked" td_u8; m "pending" td_u8]); m "" (Struct [m "locked_pending" td_u16; m "tail" td_u16])])].

Definition td_arch_spinlock_t : C.ctype := struct_qspinlock.

Definition struct_raw_spinlock : C.ctype := Struct [
  m "raw_lock" td_arch_spinlock_t].

Definition td_raw_spinlock_t : C.ctype := struct_raw_spinlock.

Definition struct_prev_cputime : C.ctype := Struct [
  m "utime" td_u64; m "stime" td_u64; m "lock" td_raw_spinlock_t].

Definition struct_seqcount : C.ctype := Struct [
  m "sequence" uint].

Definition td_seqcount_t : C.ctype := struct_seqcount.

Definition enum_vtime_state : list (string * Z) := [
  ("VTIME_INACTIVE", 0); ("VTIME_IDLE", 1); ("VTIME_SYS", 2); ("VTIME_USER", 3);
  ("VTIME_GUEST", 4)].

Definition enum_vtime_state_t : C.ctype := enum.

Definition struct_vtime : C.ctype := Struct [
  m "seqcount" td_seqcount_t; m "starttime" ullong; m "state" enum_vtime_state_t; m "cpu" uint;
  m "utime" td_u64; m "stime" td_u64; m "gtime" td_u64].

Definition struct_rb_root : C.ctype := Struct [
  m "rb_node" (TPtr "struct rb_node")].

Definition struct_rb_root_cached : C.ctype := Struct [
  m "rb_root" struct_rb_root; m "rb_leftmost" (TPtr "struct rb_node")].

Definition struct_timerqueue_head : C.ctype := Struct [
  m "rb_root" struct_rb_root_cached].

Definition struct_posix_cputimer_base : C.ctype := Struct [
  m "nextevt" td_u64; m "tqhead" struct_timerqueue_head].

Definition struct_posix_cputimers : C.ctype := Struct [
  m "bases" (TArray struct_posix_cputimer_base 3); m "timers_active" uint; m "expiry_active" uint].

Definition struct_callback_head : C.ctype := Struct [
  m "next" (TPtr "struct callback_head"); m "func" (TPtr "function")].

Definition struct_optimistic_spin_queue : C.ctype := Struct [
  m "tail" td_atomic_t].

Definition struct_mutex : C.ctype := Struct [
  m "owner" td_atomic_long_t; m "wait_lock" td_raw_spinlock_t;
  m "osq" struct_optimistic_spin_queue; m "wait_list" struct_list_head].

Definition struct_posix_cputimers_work : C.ctype := Struct [
  m "work" struct_callback_head; m "mutex" struct_mutex; m "scheduled" uint].

Definition struct_sysv_sem : C.ctype := Struct [
  m "undo_list" (TPtr "struct sem_undo_list")].

Definition struct_sysv_shm : C.ctype := Struct [
  m "shm_clist" struct_list_head].

Definition td_sigset_t : C.ctype := Struct [
  m "sig" (TArray ulong 1)].

Definition struct_sigpending : C.ctype := Struct [
  m "list" struct_list_head; m "signal" td_sigset_t].

Definition td___kernel_ulong_t : C.ctype := ulong.

Definition td___kernel_size_t : C.ctype := td___kernel_ulong_t.

Definition td_size_t : C.ctype := td___kernel_size_t.

Definition td___kernel_uid32_t : C.ctype := uint.

Definition td_uid_t : C.ctype := td___kernel_uid32_t.

Definition td_kuid_t : C.ctype := Struct [
  m "val" td_uid_t].

Definition struct_seccomp : C.ctype := Struct [
  m "mode" int; m "filter_count" td_atomic_t; m "filter" (TPtr "struct seccomp_filter")].

Definition struct_syscall_user_dispatch : C.ctype := Struct [
  m "selector" (TPtr "char"); m "offset" ulong; m "len" ulong; m "on_dispatch" td_bool].

Definition struct_spinlock : C.ctype := Struct [
  m "" (Union [m "rlock" struct_raw_spinlock])].

Definition td_spinlock_t : C.ctype := struct_spinlock.

Definition struct_wake_q_node : C.ctype := Struct [
  m "next" (TPtr "struct wake_q_node")].

Definition struct_task_io_accounting : C.ctype := Struct [
  m "rchar" td_u64; m "wchar" td_u64; m "syscr" td_u64; m "syscw" td_u64; m "read_bytes" td_u64;
  m "write_bytes" td_u64; m "cancelled_write_bytes" td_u64].

Definition td_nodemask_t : C.ctype := Struct [
  m "bits" (TArray ulong 16)].

Definition struct_seqcount_spinlock : C.ctype := Struct [
  m "seqcount" td_seqcount_t].

Definition td_seqcount_spinlock_t : C.ctype := struct_seqcount_spinlock.

Definition struct_arch_tlbflush_unmap_batch : C.ctype := Struct [
  m "cpumask" struct_cpumask].

Definition struct_tlbflush_unmap_batch : C.ctype := Struct [
  m "arch" struct_arch_tlbflush_unmap_batch; m "flush_required" td_bool; m "writable" td_bool].

Definition struct_page_frag : C.ctype := Struct [
  m "page" (TPtr "struct page"); m "offset" td___u32; m "size" td___u32].

Definition struct_latency_record : C.ctype := Struct [
  m "backtrace" (TArray ulong 12); m "count" uint; m "time" ulong; m "max" ulong].

Definition struct_kmap_ctrl : C.ctype := Struct [
].

Definition struct_timer_list : C.ctype := Struct [
  m "entry" struct_hlist_node; m "expires" ulong; m "function" (TPtr "function");
  m "flags" td_u32].

Definition struct_llist_head : C.ctype := Struct [
  m "first" (TPtr "struct llist_node")].

Definition struct_da_monitor : C.ctype := Struct [
  m "monitoring" td_bool; m "curr_state" uint].

Definition union_rv_task_monitor : C.ctype := Union [
  m "da_mon" struct_da_monitor].

Definition struct_desc_struct : C.ctype := Struct [
  m "limit0" td_u16; m "base0" td_u16; b "base1" td_u16 8; b "type" td_u16 4; b "s" td_u16 1;
  b "dpl" td_u16 2; b "p" td_u16 1; b "limit1" td_u16 4; b "avl" td_u16 1; b "l" td_u16 1;
  b "d" td_u16 1; b "g" td_u16 1; b "base2" td_u16 8].

Definition struct_thread_shstk : C.ctype := Struct [
  m "base" td_u64; m "size" td_u64].

Definition struct_fpu_state_perm : C.ctype := Struct [
  m "__state_perm" td_u64; m "__state_size" uint; m "__user_state_size" uint].

Definition struct_fregs_state : C.ctype := Struct [
  m "cwd" td_u32; m "swd" td_u32; m "twd" td_u32; m "fip" td_u32; m "fcs" td_u32; m "foo" td_u32;
  m "fos" td_u32; m "st_space" (TArray td_u32 20); m "status" td_u32].

Definition struct_fxregs_state : C.ctype := Struct [
  m "cwd" td_u16; m "swd" td_u16; m "twd" td_u16; m "fop" td_u16;
  m "" (Union [m "" (Struct [m "rip" td_u64; m "rdp" td_u64]); m "" (Struct [m "fip" td_u32; m "fcs" td_u32; m "foo" td_u32; m "fos" td_u32])]);
  m "mxcsr" td_u32; m "mxcsr_mask" td_u32; m "st_space" (TArray td_u32 32);
  m "xmm_space" (TArray td_u32 64); m "padding" (TArray td_u32 12);
  m "" (Union [m "padding1" (TArray td_u32 12); m "sw_reserved" (TArray td_u32 12)])].

Definition struct_swregs_state : C.ctype := Struct [
  m "cwd" td_u32; m "swd" td_u32; m "twd" td_u32; m "fip" td_u32; m "fcs" td_u32; m "foo" td_u32;
  m "fos" td_u32; m "st_space" (TArray td_u32 20); m "ftop" td_u8; m "changed" td_u8;
  m "lookahead" td_u8; m "no_update" td_u8; m "rm" td_u8; m "alimit" td_u8;
  m "info" (TPtr "struct math_emu_info"); m "entry_eip" td_u32].

Definition struct_xstate_header : C.ctype := Struct [
  m "xfeatures" td_u64; m "xcomp_bv" td_u64; m "reserved" (TArray td_u64 6)].

Definition struct_xregs_state : C.ctype := Struct [
  m "i387" struct_fxregs_state; m "header" struct_xstate_header;
  m "extended_state_area" (TArray td_u8 0)].

Definition union_fpregs_state : C.ctype := Union [
  m "fsave" struct_fregs_state; m "fxsave" struct_fxregs_state; m "soft" struct_swregs_state;
  m "xsave" struct_xregs_state; m "__padding" (TArray td_u8 4096)].

Definition struct_fpstate : C.ctype := Struct [
  m "size" uint; m "user_size" uint; m "xfeatures" td_u64; m "user_xfeatures" td_u64;
  m "xfd" td_u64; b "is_valloc" uint 1; b "is_guest" uint 1; b "is_confidential" uint 1;
  b "in_use" uint 1; b "" long 64; b "" long 64; b "" long 64; m "regs" union_fpregs_state].

Definition struct_fpu : C.ctype := Struct [
  m "last_cpu" uint; m "avx512_timestamp" ulong; m "fpstate" (TPtr "struct fpstate");
  m "__task_fpstate" (TPtr "struct fpstate"); m "perm" struct_fpu_state_perm;
  m "guest_perm" struct_fpu_state_perm; m "__fpstate" struct_fpstate].

Definition struct_thread_struct : C.ctype := Struct [
  m "tls_array" (TArray struct_desc_struct 3); m "sp" ulong; m "es" ushort; m "ds" ushort;
  m "fsindex" ushort; m "gsindex" ushort; m "fsbase" ulong; m "gsbase" ulong;
  m "ptrace_bps" (TArray (TPtr "struct perf_event") 4); m "virtual_dr6" ulong;
  m "ptrace_dr7" ulong; m "cr2" ulong; m "trap_nr" ulong; m "error_code" ulong;
  m "io_bitmap" (TPtr "struct io_bitmap"); m "iopl_emul" ulong; b "iopl_warn" uint 1;
  m "pkru" td_u32; m "features" ulong; m "features_locked" ulong; m "shstk" struct_thread_shstk;
  b "" long 64; m "fpu" struct_fpu].

Definition struct_task_struct_1 : list (string * option Z * C.ctype) := [
  m "thread_info" struct_thread_info; m "__state" uint; m "saved_state" uint;
  m "stack" (TPtr "void"); m "usage" td_refcount_t; m "flags" uint; m "ptrace" uint;
  m "on_cpu" int; m "wake_entry" struct___call_single_node; m "wakee_flips" uint;
  m "wakee_flip_decay_ts" ulong; m "last_wakee" (TPtr "struct task_struct");
  m "recent_used_cpu" int; m "wake_cpu" int; m "on_rq" int; m "prio" int; m "static_prio" int;
  m "normal_prio" int; m "rt_priority" uint; m "se" struct_sched_entity;
  m "rt" struct_sched_rt_entity; m "dl" struct_sched_dl_entity;
  m "dl_server" (TPtr "struct sched_dl_entity"); m "scx" struct_sched_ext_entity;
  m "sched_class" (TPtr "struct sched_class"); m "core_node" struct_rb_node;
  m "core_cookie" ulong; m "core_occupation" uint;
  m "sched_task_group" (TPtr "struct task_group"); m "uclamp_req" (TArray struct_uclamp_se 2);
  m "uclamp" (TArray struct_uclamp_se 2); b "" long 64; b "" long 64; b "" long 64; b "" long 64;
  b "" long 64; b "" long 64; b "" long 64; m "stats" struct_sched_statistics;
  m "preempt_notifiers" struct_hlist_head; m "btrace_seq" uint; m "policy" uint;
  m "max_allowed_capacity" ulong; m "nr_cpus_allowed" int; m "cpus_ptr" (TPtr "cpumask_t");
  m "user_cpus_ptr" (TPtr "cpumask_t"); m "cpus_mask" td_cpumask_t;
  m "migration_pending" (TPtr "void"); m "migration_disabled" ushort; m "migration_flags" ushort;
  m "trc_reader_nesting" int; m "trc_ipi_to_cpu" int; m "trc_reader_special" union_rcu_special;
  m "trc_holdout_list" struct_list_head; m "trc_blkd_node" struct_list_head;
  m "trc_blkd_cpu" int; m "sched_info" struct_sched_info; m "tasks" struct_list_head;
  m "pushable_tasks" struct_plist_node; m "pushable_dl_tasks" struct_rb_node;
  m "mm" (TPtr "struct mm_struct"); m "active_mm" (TPtr "struct mm_struct");
  m "faults_disabled_mapping" (TPtr "struct address_space"); m "exit_state" int;
  m "exit_code" int; m "exit_signal" int; m "pdeath_signal" int; m "jobctl" ulong;
  m "personality" uint; b "sched_reset_on_fork" uint 1; b "sched_contributes_to_load" uint 1;
  b "sched_migrated" uint 1; b "sched_task_hot" uint 1; b "" long 28;
  b "sched_remote_wakeup" uint 1; b "sched_rt_mutex" uint 1; b "in_execve" uint 1;
  b "in_iowait" uint 1; b "restore_sigmask" uint 1; b "in_lru_fault" uint 1;
  b "no_cgroup_migration" uint 1; b "frozen" uint 1; b "use_memdelay" uint 1;
  b "in_memstall" uint 1; b "in_eventfd" uint 1; b "pasid_activated" uint 1;
  b "reported_split_lock" uint 1; b "in_thrashing" uint 1; m "atomic_flags" ulong;
  m "restart_block" struct_restart_block; m "pid" td_pid_t; m "tgid" td_pid_t;
  m "stack_canary" ulong; m "real_parent" (TPtr "struct task_struct");
  m "parent" (TPtr "struct task_struct"); m "children" struct_list_head;
  m "sibling" struct_list_head; m "group_leader" (TPtr "struct task_struct");
  m "ptraced" struct_list_head; m "ptrace_entry" struct_list_head;
  m "thread_pid" (TPtr "struct pid"); m "pid_links" (TArray struct_hlist_node 4);
  m "thread_node" struct_list_head; m "vfork_done" (TPtr "struct completion");
  m "set_child_tid" (TPtr "int"); m "clear_child_tid" (TPtr "int");
  m "worker_private" (TPtr "void"); m "utime" td_u64; m "stime" td_u64; m "gtime" td_u64;
  m "prev_cputime" struct_prev_cputime; m "vtime" struct_vtime; m "tick_dep_mask" td_atomic_t;
  m "nvcsw" ulong; m "nivcsw" ulong; m "start_time" td_u64; m "start_boottime" td_u64;
  m "min_flt" ulong; m "maj_flt" ulong; m "posix_cputimers" struct_posix_cputimers].

Definition struct_task_struct_2 : list (string * option Z * C.ctype) := [
  m "posix_cputimers_work" struct_posix_cputimers_work; m "ptracer_cred" (TPtr "struct cred");
  m "real_cred" (TPtr "struct cred"); m "cred" (TPtr "struct cred");
  m "cached_requested_key" (TPtr "struct key"); m "comm" (TArray char 16);
  m "nameidata" (TPtr "struct nameidata"); m "sysvsem" struct_sysv_sem;
  m "sysvshm" struct_sysv_shm; m "last_switch_count" ulong; m "last_switch_time" ulong;
  m "fs" (TPtr "struct fs_struct"); m "files" (TPtr "struct files_struct");
  m "io_uring" (TPtr "struct io_uring_task"); m "nsproxy" (TPtr "struct nsproxy");
  m "signal" (TPtr "struct signal_struct"); m "sighand" (TPtr "struct sighand_struct");
  m "blocked" td_sigset_t; m "real_blocked" td_sigset_t; m "saved_sigmask" td_sigset_t;
  m "pending" struct_sigpending; m "sas_ss_sp" ulong; m "sas_ss_size" td_size_t;
  m "sas_ss_flags" uint; m "task_works" (TPtr "struct callback_head");
  m "audit_context" (TPtr "struct audit_context"); m "loginuid" td_kuid_t; m "sessionid" uint;
  m "seccomp" struct_seccomp; m "syscall_dispatch" struct_syscall_user_dispatch;
  m "parent_exec_id" td_u64; m "self_exec_id" td_u64; m "alloc_lock" td_spinlock_t;
  m "pi_lock" td_raw_spinlock_t; m "wake_q" struct_wake_q_node;
  m "pi_waiters" struct_rb_root_cached; m "pi_top_task" (TPtr "struct task_struct");
  m "pi_blocked_on" (TPtr "struct rt_mutex_waiter"); m "in_ubsan" uint;
  m "journal_info" (TPtr "void"); m "bio_list" (TPtr "struct bio_list");
  m "plug" (TPtr "struct blk_plug"); m "reclaim_state" (TPtr "struct reclaim_state");
  m "io_context" (TPtr "struct io_context"); m "capture_control" (TPtr "struct capture_control");
  m "ptrace_message" ulong; m "last_siginfo" (TPtr "kernel_siginfo_t");
  m "ioac" struct_task_io_accounting; m "psi_flags" uint; m "acct_rss_mem1" td_u64;
  m "acct_vm_mem1" td_u64; m "acct_timexpd" td_u64; m "mems_allowed" td_nodemask_t;
  m "mems_allowed_seq" td_seqcount_spinlock_t; m "cpuset_mem_spread_rotor" int;
  m "cgroups" (TPtr "struct css_set"); m "cg_list" struct_list_head; m "closid" td_u32;
  m "rmid" td_u32; m "robust_list" (TPtr "struct robust_list_head");
  m "compat_robust_list" (TPtr "struct compat_robust_list_head");
  m "pi_state_list" struct_list_head; m "pi_state_cache" (TPtr "struct futex_pi_state");
  m "futex_exit_mutex" struct_mutex; m "futex_state" uint; m "perf_recursion" (TArray td_u8 4);
  m "perf_event_ctxp" (TPtr "struct perf_event_context"); m "perf_event_mutex" struct_mutex;
  m "perf_event_list" struct_list_head; m "perf_ctx_data" (TPtr "struct perf_ctx_data");
  m "mempolicy" (TPtr "struct mempolicy"); m "il_prev" short; m "il_weight" td_u8;
  m "pref_node_fork" short; m "numa_scan_seq" int; m "numa_scan_period" uint;
  m "numa_scan_period_max" uint; m "numa_preferred_nid" int; m "numa_migrate_retry" ulong;
  m "node_stamp" td_u64; m "last_task_numa_placement" td_u64; m "last_sum_exec_runtime" td_u64;
  m "numa_work" struct_callback_head; m "numa_group" (TPtr "struct numa_group");
  m "numa_faults" (TPtr "long unsigned int"); m "total_numa_faults" ulong;
  m "numa_faults_locality" (TArray ulong 3); m "numa_pages_migrated" ulong;
  m "rseq" (TPtr "struct rseq"); m "rseq_len" td_u32; m "rseq_sig" td_u32;
  m "rseq_event_mask" ulong; m "mm_cid" int; m "last_mm_cid" int; m "migrate_from_cpu" int;
  m "mm_cid_active" int; m "cid_work" struct_callback_head;
  m "tlb_ubc" struct_tlbflush_unmap_batch; m "splice_pipe" (TPtr "struct pipe_inode_info");
  m "task_frag" struct_page_frag; m "delays" (TPtr "struct task_delay_info"); m "nr_dirtied" int;
  m "nr_dirtied_pause" int; m "dirty_paused_when" ulong; m "latency_record_count" int;
  m "latency_record" (TArray struct_latency_record 32); m "timer_slack_ns" td_u64;
  m "default_timer_slack_ns" td_u64; m "curr_ret_stack" int; m "curr_ret_depth" int;
  m "ret_stack" (TPtr "long unsigned int"); m "ftrace_timestamp" ullong;
  m "ftrace_sleeptime" ullong; m "trace_overrun" td_atomic_t;
  m "tracing_graph_pause" td_atomic_t; m "trace_recursion" ulong;
  m "memcg_nr_pages_over_high" uint; m "active_memcg" (TPtr "struct mem_cgroup");
  m "objcg" (TPtr "struct obj_cgroup"); m "throttle_disk" (TPtr "struct gendisk")].

Definition struct_task_struct_3 : list (string * option Z * C.ctype) := [
  m "utask" (TPtr "struct uprobe_task"); m "sequential_io" uint; m "sequential_io_avg" uint;
  m "kmap_ctrl" struct_kmap_ctrl; m "rcu" struct_callback_head; m "rcu_users" td_refcount_t;
  m "pagefault_disabled" int; m "oom_reaper_list" (TPtr "struct task_struct");
  m "oom_reaper_timer" struct_timer_list; m "stack_vm_area" (TPtr "struct vm_struct");
  m "stack_refcount" td_refcount_t; m "patch_state" int; m "security" (TPtr "void");
  m "bpf_storage" (TPtr "struct bpf_local_storage"); m "bpf_ctx" (TPtr "struct bpf_run_ctx");
  m "bpf_net_context" (TPtr "struct bpf_net_context"); m "mce_vaddr" (TPtr "void");
  m "mce_kflags" td___u64; m "mce_addr" td_u64; b "mce_ripv" td___u64 1;
  b "mce_whole_page" td___u64 1; b "__mce_reserved" td___u64 62;
  m "mce_kill_me" struct_callback_head; m "mce_count" int;
  m "kretprobe_instances" struct_llist_head; m "rethooks" struct_llist_head;
  m "l1d_flush_kill" struct_callback_head; m "rv" (TArray union_rv_task_monitor 1);
  m "user_event_mm" (TPtr "struct user_event_mm"); b "" long 64; m "thread" struct_thread_struct].

Definition struct_task_struct : C.ctype :=
  Struct (struct_task_struct_1 ++ struct_task_struct_2 ++ struct_task_struct_3).

Definition struct_css_set : C.ctype := Struct [
  m "subsys" (TArray (TPtr "struct cgroup_subsys_state") 15); m "refcount" td_refcount_t;
  m "dom_cset" (TPtr "struct css_set"); m "dfl_cgrp" (TPtr "struct cgroup"); m "nr_tasks" int;
  m "tasks" struct_list_head; m "mg_tasks" struct_list_head; m "dying_tasks" struct_list_head;
  m "task_iters" struct_list_head; m "e_cset_node" (TArray struct_list_head 15);
  m "threaded_csets" struct_list_head; m "threaded_csets_node" struct_list_head;
  m "hlist" struct_hlist_node; m "cgrp_links" struct_list_head;
  m "mg_src_preload_node" struct_list_head; m "mg_dst_preload_node" struct_list_head;
  m "mg_node" struct_list_head; m "mg_src_cgrp" (TPtr "struct cgroup");
  m "mg_dst_cgrp" (TPtr "struct cgroup"); m "mg_dst_cset" (TPtr "struct css_set");
  m "dead" td_bool; m "callback_head" struct_callback_head].

Definition struct_percpu_ref : C.ctype := Struct [
  m "percpu_count_ptr" ulong; m "data" (TPtr "struct percpu_ref_data")].

Definition td_work_func_t : C.ctype := TPtr "function".

Definition struct_work_struct : C.ctype := Struct [
  m "data" td_atomic_long_t; m "entry" struct_list_head; m "func" td_work_func_t].

Definition struct_rcu_work : C.ctype := Struct [
  m "work" struct_work_struct; m "rcu" struct_callback_head;
  m "wq" (TPtr "struct workqueue_struct")].

Definition struct_cgroup_subsys_state : C.ctype := Struct [
  m "cgroup" (TPtr "struct cgroup"); m "ss" (TPtr "struct cgroup_subsys");
  m "refcnt" struct_percpu_ref; m "sibling" struct_list_head; m "children" struct_list_head;
  m "rstat_css_node" struct_list_head; m "id" int; m "flags" uint; m "serial_nr" td_u64;
  m "online_cnt" td_atomic_t; m "destroy_work" struct_work_struct;
  m "destroy_rwork" struct_rcu_work; m "parent" (TPtr "struct cgroup_subsys_state");
  m "nr_descendants" int].

Definition struct_cgroup_file : C.ctype := Struct [
  m "kn" (TPtr "struct kernfs_node"); m "notified_at" ulong; m "notify_timer" struct_timer_list].

Definition struct_cacheline_padding : C.ctype := Struct [
  m "x" (TArray char 0)].

Definition struct_task_cputime : C.ctype := Struct [
  m "stime" td_u64; m "utime" td_u64; m "sum_exec_runtime" ullong].

Definition struct_cgroup_base_stat : C.ctype := Struct [
  m "cputime" struct_task_cputime; m "forceidle_sum" td_u64; m "ntime" td_u64].

Definition struct_wait_queue_head : C.ctype := Struct [
  m "lock" td_spinlock_t; m "head" struct_list_head].

Definition td_wait_queue_head_t : C.ctype := struct_wait_queue_head.

Definition struct_cgroup_bpf : C.ctype := Struct [
  m "effective" (TArray (TPtr "struct bpf_prog_array") 38);
  m "progs" (TArray struct_hlist_head 38); m "flags" (TArray td_u8 38);
  m "storages" struct_list_head; m "inactive" (TPtr "struct bpf_prog_array");
  m "refcnt" struct_percpu_ref; m "release_work" struct_work_struct].

Definition struct_cgroup_freezer_state : C.ctype := Struct [
  m "freeze" td_bool; m "e_freeze" td_bool; m "nr_frozen_descendants" int;
  m "nr_frozen_tasks" int].

Definition struct_cgroup : C.ctype := Struct [
  m "self" struct_cgroup_subsys_state; m "flags" ulong; m "level" int; m "max_depth" int;
  m "nr_descendants" int; m "nr_dying_descendants" int; m "max_descendants" int;
  m "nr_populated_csets" int; m "nr_populated_domain_children" int;
  m "nr_populated_threaded_children" int; m "nr_threaded_children" int; m "kill_seq" uint;
  m "kn" (TPtr "struct kernfs_node"); m "procs_file" struct_cgroup_file;
  m "events_file" struct_cgroup_file; m "psi_files" (TArray struct_cgroup_file 3);
  m "subtree_control" td_u16; m "subtree_ss_mask" td_u16; m "old_subtree_control" td_u16;
  m "old_subtree_ss_mask" td_u16; m "subsys" (TArray (TPtr "struct cgroup_subsys_state") 15);
  m "nr_dying_subsys" (TArray int 15); m "root" (TPtr "struct cgroup_root");
  m "cset_links" struct_list_head; m "e_csets" (TArray struct_list_head 15);
  m "dom_cgrp" (TPtr "struct cgroup"); m "old_dom_cgrp" (TPtr "struct cgroup");
  m "rstat_cpu" (TPtr "struct cgroup_rstat_cpu"); m "rstat_css_list" struct_list_head;
  b "" long 64; b "" long 64; b "" long 64; b "" long 64; b "" long 64; b "" long 64;
  m "_pad_" struct_cacheline_padding; m "rstat_flush_next" (TPtr "struct cgroup");
  m "last_bstat" struct_cgroup_base_stat; m "bstat" struct_cgroup_base_stat;
  m "prev_cputime" struct_prev_cputime; m "pidlists" struct_list_head;
  m "pidlist_mutex" struct_mutex; m "offline_waitq" td_wait_queue_head_t;
  m "release_agent_work" struct_work_struct; m "psi" (TPtr "struct psi_group");
  m "bpf" struct_cgroup_bpf; m "freezer" struct_cgroup_freezer_state;
  m "bpf_cgrp_storage" (TPtr "struct bpf_local_storage");
  m "ancestors" (TArray (TPtr "struct cgroup") 0); b "" long 64; b "" long 64; b "" long 64;
  b "" long 64; b "" long 64; b "" long 64; b "" long 64].

Definition td_umode_t : C.ctype := ushort.

Definition struct_kernfs_elem_dir : C.ctype := Struct [
  m "subdirs" ulong; m "children" struct_rb_root; m "root" (TPtr "struct kernfs_root");
  m "rev" ulong].

Definition struct_kernfs_elem_symlink : C.ctype := Struct [
  m "target_kn" (TPtr "struct kernfs_node")].

Definition td___kernel_loff_t : C.ctype := llong.

Definition td_loff_t : C.ctype := td___kernel_loff_t.

Definition struct_kernfs_elem_attr : C.ctype := Struct [
  m "ops" (TPtr "struct kernfs_ops"); m "open" (TPtr "struct kernfs_open_node");
  m "size" td_loff_t; m "notify_next" (TPtr "struct kernfs_node")].

Definition struct_kernfs_node : C.ctype := Struct [
  m "count" td_atomic_t; m "active" td_atomic_t; m "parent" (TPtr "struct kernfs_node");
  m "name" (TPtr "char"); m "rb" struct_rb_node; m "ns" (TPtr "void"); m "hash" uint;
  m "flags" ushort; m "mode" td_umode_t;
  m "" (Union [m "dir" struct_kernfs_elem_dir; m "symlink" struct_kernfs_elem_symlink; m "attr" struct_kernfs_elem_attr]);
  m "id" td_u64; m "priv" (TPtr "void"); m "iattr" (TPtr "struct kernfs_iattrs");
  m "rcu" struct_callback_head].

Definition struct_upid : C.ctype := Struct [
  m "nr" int; m "ns" (TPtr "struct pid_namespace")].

Definition struct_pid : C.ctype := Struct [
  m "count" td_refcount_t; m "level" uint; m "lock" td_spinlock_t;
  m "stashed" (TPtr "struct dentry"); m "ino" td_u64; m "pidfs_node" struct_rb_node;
  m "tasks" (TArray struct_hlist_head 4); m "inodes" struct_hlist_head;
  m "wait_pidfd" td_wait_queue_head_t; m "rcu" struct_callback_head;
  m "numbers" (TArray struct_upid 0)].

Definition enum_bpf_map_type : list (string * Z) := [
  ("BPF_MAP_TYPE_UNSPEC", 0); ("BPF_MAP_TYPE_HASH", 1); ("BPF_MAP_TYPE_ARRAY", 2);
  ("BPF_MAP_TYPE_PROG_ARRAY", 3); ("BPF_MAP_TYPE_PERF_EVENT_ARRAY", 4);
  ("BPF_MAP_TYPE_PERCPU_HASH", 5); ("BPF_MAP_TYPE_PERCPU_ARRAY", 6);
  ("BPF_MAP_TYPE_STACK_TRACE", 7); ("BPF_MAP_TYPE_CGROUP_ARRAY", 8);
  ("BPF_MAP_TYPE_LRU_HASH", 9); ("BPF_MAP_TYPE_LRU_PERCPU_HASH", 10);
  ("BPF_MAP_TYPE_LPM_TRIE", 11); ("BPF_MAP_TYPE_ARRAY_OF_MAPS", 12);
  ("BPF_MAP_TYPE_HASH_OF_MAPS", 13); ("BPF_MAP_TYPE_DEVMAP", 14); ("BPF_MAP_TYPE_SOCKMAP", 15);
  ("BPF_MAP_TYPE_CPUMAP", 16); ("BPF_MAP_TYPE_XSKMAP", 17); ("BPF_MAP_TYPE_SOCKHASH", 18);
  ("BPF_MAP_TYPE_CGROUP_STORAGE_DEPRECATED", 19); ("BPF_MAP_TYPE_CGROUP_STORAGE", 19);
  ("BPF_MAP_TYPE_REUSEPORT_SOCKARRAY", 20);
  ("BPF_MAP_TYPE_PERCPU_CGROUP_STORAGE_DEPRECATED", 21);
  ("BPF_MAP_TYPE_PERCPU_CGROUP_STORAGE", 21); ("BPF_MAP_TYPE_QUEUE", 22);
  ("BPF_MAP_TYPE_STACK", 23); ("BPF_MAP_TYPE_SK_STORAGE", 24); ("BPF_MAP_TYPE_DEVMAP_HASH", 25);
  ("BPF_MAP_TYPE_STRUCT_OPS", 26); ("BPF_MAP_TYPE_RINGBUF", 27);
  ("BPF_MAP_TYPE_INODE_STORAGE", 28); ("BPF_MAP_TYPE_TASK_STORAGE", 29);
  ("BPF_MAP_TYPE_BLOOM_FILTER", 30); ("BPF_MAP_TYPE_USER_RINGBUF", 31);
  ("BPF_MAP_TYPE_CGRP_STORAGE", 32); ("BPF_MAP_TYPE_ARENA", 33); ("__MAX_BPF_MAP_TYPE", 34)].

Definition enum_bpf_map_type_t : C.ctype := enum.

Definition enum_bpf_prog_type : list (string * Z) := [
  ("BPF_PROG_TYPE_UNSPEC", 0); ("BPF_PROG_TYPE_SOCKET_FILTER", 1); ("BPF_PROG_TYPE_KPROBE", 2);
  ("BPF_PROG_TYPE_SCHED_CLS", 3); ("BPF_PROG_TYPE_SCHED_ACT", 4);
  ("BPF_PROG_TYPE_TRACEPOINT", 5); ("BPF_PROG_TYPE_XDP", 6); ("BPF_PROG_TYPE_PERF_EVENT", 7);
  ("BPF_PROG_TYPE_CGROUP_SKB", 8); ("BPF_PROG_TYPE_CGROUP_SOCK", 9);
  ("BPF_PROG_TYPE_LWT_IN", 10); ("BPF_PROG_TYPE_LWT_OUT", 11); ("BPF_PROG_TYPE_LWT_XMIT", 12);
  ("BPF_PROG_TYPE_SOCK_OPS", 13); ("BPF_PROG_TYPE_SK_SKB", 14);
  ("BPF_PROG_TYPE_CGROUP_DEVICE", 15); ("BPF_PROG_TYPE_SK_MSG", 16);
  ("BPF_PROG_TYPE_RAW_TRACEPOINT", 17); ("BPF_PROG_TYPE_CGROUP_SOCK_ADDR", 18);
  ("BPF_PROG_TYPE_LWT_SEG6LOCAL", 19); ("BPF_PROG_TYPE_LIRC_MODE2", 20);
  ("BPF_PROG_TYPE_SK_REUSEPORT", 21); ("BPF_PROG_TYPE_FLOW_DISSECTOR", 22);
  ("BPF_PROG_TYPE_CGROUP_SYSCTL", 23); ("BPF_PROG_TYPE_RAW_TRACEPOINT_WRITABLE", 24);
  ("BPF_PROG_TYPE_CGROUP_SOCKOPT", 25); ("BPF_PROG_TYPE_TRACING", 26);
  ("BPF_PROG_TYPE_STRUCT_OPS", 27); ("BPF_PROG_TYPE_EXT", 28); ("BPF_PROG_TYPE_LSM", 29);
  ("BPF_PROG_TYPE_SK_LOOKUP", 30); ("BPF_PROG_TYPE_SYSCALL", 31);
  ("BPF_PROG_TYPE_NETFILTER", 32); ("__MAX_BPF_PROG_TYPE", 33)].

Definition enum_bpf_prog_type_t : C.ctype := enum.

Definition struct_bpf_map : C.ctype := Struct [
  m "ops" (TPtr "struct bpf_map_ops"); m "inner_map_meta" (TPtr "struct bpf_map");
  m "security" (TPtr "void"); m "map_type" enum_bpf_map_type_t; m "key_size" td_u32;
  m "value_size" td_u32; m "max_entries" td_u32; m "map_extra" td_u64; m "map_flags" td_u32;
  m "id" td_u32; m "record" (TPtr "struct btf_record"); m "numa_node" int;
  m "btf_key_type_id" td_u32; m "btf_value_type_id" td_u32; m "btf_vmlinux_value_type_id" td_u32;
  m "btf" (TPtr "struct btf"); m "objcg" (TPtr "struct obj_cgroup"); m "name" (TArray char 16);
  m "freeze_mutex" struct_mutex; m "refcnt" td_atomic64_t; m "usercnt" td_atomic64_t;
  m "" (Union [m "work" struct_work_struct; m "rcu" struct_callback_head]);
  m "writecnt" td_atomic64_t;
  m "owner" (Struct [m "attach_func_proto" (TPtr "struct btf_type"); m "lock" td_spinlock_t; m "type" enum_bpf_prog_type_t; m "jited" td_bool; m "xdp_has_frags" td_bool]);
  m "bypass_spec_v1" td_bool; m "frozen" td_bool; m "free_after_mult_rcu_gp" td_bool;
  m "free_after_rcu_gp" td_bool; m "sleepable_refcnt" td_atomic64_t; m "elem_count" (TPtr "s64")].

Definition struct_bpf_ringbuf_map : C.ctype := Struct [
  m "map" struct_bpf_map; m "rb" (TPtr "struct bpf_ringbuf")].

Definition enum_bpf_attach_type : list (string * Z) := [
  ("BPF_CGROUP_INET_INGRESS", 0); ("BPF_CGROUP_INET_EGRESS", 1);
  ("BPF_CGROUP_INET_SOCK_CREATE", 2); ("BPF_CGROUP_SOCK_OPS", 3);
  ("BPF_SK_SKB_STREAM_PARSER", 4); ("BPF_SK_SKB_STREAM_VERDICT", 5); ("BPF_CGROUP_DEVICE", 6);
  ("BPF_SK_MSG_VERDICT", 7); ("BPF_CGROUP_INET4_BIND", 8); ("BPF_CGROUP_INET6_BIND", 9);
  ("BPF_CGROUP_INET4_CONNECT", 10); ("BPF_CGROUP_INET6_CONNECT", 11);
  ("BPF_CGROUP_INET4_POST_BIND", 12); ("BPF_CGROUP_INET6_POST_BIND", 13);
  ("BPF_CGROUP_UDP4_SENDMSG", 14); ("BPF_CGROUP_UDP6_SENDMSG", 15); ("BPF_LIRC_MODE2", 16);
  ("BPF_FLOW_DISSECTOR", 17); ("BPF_CGROUP_SYSCTL", 18); ("BPF_CGROUP_UDP4_RECVMSG", 19);
  ("BPF_CGROUP_UDP6_RECVMSG", 20); ("BPF_CGROUP_GETSOCKOPT", 21); ("BPF_CGROUP_SETSOCKOPT", 22);
  ("BPF_TRACE_RAW_TP", 23); ("BPF_TRACE_FENTRY", 24); ("BPF_TRACE_FEXIT", 25);
  ("BPF_MODIFY_RETURN", 26); ("BPF_LSM_MAC", 27); ("BPF_TRACE_ITER", 28);
  ("BPF_CGROUP_INET4_GETPEERNAME", 29); ("BPF_CGROUP_INET6_GETPEERNAME", 30);
  ("BPF_CGROUP_INET4_GETSOCKNAME", 31); ("BPF_CGROUP_INET6_GETSOCKNAME", 32);
  ("BPF_XDP_DEVMAP", 33); ("BPF_CGROUP_INET_SOCK_RELEASE", 34); ("BPF_XDP_CPUMAP", 35);
  ("BPF_SK_LOOKUP", 36); ("BPF_XDP", 37); ("BPF_SK_SKB_VERDICT", 38);
  ("BPF_SK_REUSEPORT_SELECT", 39); ("BPF_SK_REUSEPORT_SELECT_OR_MIGRATE", 40);
  ("BPF_PERF_EVENT", 41); ("BPF_TRACE_KPROBE_MULTI", 42); ("BPF_LSM_CGROUP", 43);
  ("BPF_STRUCT_OPS", 44); ("BPF_NETFILTER", 45); ("BPF_TCX_INGRESS", 46); ("BPF_TCX_EGRESS", 47);
  ("BPF_TRACE_UPROBE_MULTI", 48); ("BPF_CGROUP_UNIX_CONNECT", 49);
  ("BPF_CGROUP_UNIX_SENDMSG", 50); ("BPF_CGROUP_UNIX_RECVMSG", 51);
  ("BPF_CGROUP_UNIX_GETPEERNAME", 52); ("BPF_CGROUP_UNIX_GETSOCKNAME", 53);
  ("BPF_NETKIT_PRIMARY", 54); ("BPF_NETKIT_PEER", 55); ("BPF_TRACE_KPROBE_SESSION", 56);
  ("BPF_TRACE_UPROBE_SESSION", 57); ("__MAX_BPF_ATTACH_TYPE", 58)].

Definition enum_bpf_attach_type_t : C.ctype := enum.

Definition struct_sock_filter : C.ctype := Struct [
  m "code" td___u16; m "jt" td___u8; m "jf" td___u8; m "k" td___u32].

Definition td___s16 : C.ctype := short.

Definition struct_bpf_insn : C.ctype := Struct [
  m "code" td___u8; b "dst_reg" td___u8 4; b "src_reg" td___u8 4; m "off" td___s16;
  m "imm" td___s32].

Definition struct_bpf_prog : C.ctype := Struct [
  m "pages" td_u16; b "jited" td_u16 1; b "jit_requested" td_u16 1; b "gpl_compatible" td_u16 1;
  b "cb_access" td_u16 1; b "dst_needed" td_u16 1; b "blinding_requested" td_u16 1;
  b "blinded" td_u16 1; b "is_func" td_u16 1; b "kprobe_override" td_u16 1;
  b "has_callchain_buf" td_u16 1; b "enforce_expected_attach_type" td_u16 1;
  b "call_get_stack" td_u16 1; b "call_get_func_ip" td_u16 1; b "tstamp_type_access" td_u16 1;
  b "sleepable" td_u16 1; m "type" enum_bpf_prog_type_t;
  m "expected_attach_type" enum_bpf_attach_type_t; m "len" td_u32; m "jited_len" td_u32;
  m "tag" (TArray td_u8 8); m "stats" (TPtr "struct bpf_prog_stats"); m "active" (TPtr "int");
  m "bpf_func" (TPtr "function"); m "aux" (TPtr "struct bpf_prog_aux");
  m "orig_prog" (TPtr "struct sock_fprog_kern");
  m "" (Union [m "" (Struct [m "__empty_insns" (Struct []); m "insns" (TArray struct_sock_filter 0)]); m "" (Struct [m "__empty_insnsi" (Struct []); m "insnsi" (TArray struct_bpf_insn 0)])])].

Definition enum_bpf_link_type : list (string * Z) := [
  ("BPF_LINK_TYPE_UNSPEC", 0); ("BPF_LINK_TYPE_RAW_TRACEPOINT", 1); ("BPF_LINK_TYPE_TRACING", 2);
  ("BPF_LINK_TYPE_CGROUP", 3); ("BPF_LINK_TYPE_ITER", 4); ("BPF_LINK_TYPE_NETNS", 5);
  ("BPF_LINK_TYPE_XDP", 6); ("BPF_LINK_TYPE_PERF_EVENT", 7); ("BPF_LINK_TYPE_KPROBE_MULTI", 8);
  ("BPF_LINK_TYPE_STRUCT_OPS", 9); ("BPF_LINK_TYPE_NETFILTER", 10); ("BPF_LINK_TYPE_TCX", 11);
  ("BPF_LINK_TYPE_UPROBE_MULTI", 12); ("BPF_LINK_TYPE_NETKIT", 13);
  ("BPF_LINK_TYPE_SOCKMAP", 14); ("__MAX_BPF_LINK_TYPE", 15)].

Definition enum_bpf_link_type_t : C.ctype := enum.

Definition struct_bpf_link : C.ctype := Struct [
  m "refcnt" td_atomic64_t; m "id" td_u32; m "type" enum_bpf_link_type_t;
  m "ops" (TPtr "struct bpf_link_ops"); m "prog" (TPtr "struct bpf_prog"); m "sleepable" td_bool;
  m "" (Union [m "rcu" struct_callback_head; m "work" struct_work_struct])].

Definition struct_latch_tree_node : C.ctype := Struct [
  m "node" (TArray struct_rb_node 2)].

Definition struct_bpf_ksym : C.ctype := Struct [
  m "start" ulong; m "end" ulong; m "name" (TArray char 512); m "lnode" struct_list_head;
  m "tnode" struct_latch_tree_node; m "prog" td_bool].

Definition struct_bpf_prog_aux : C.ctype := Struct [
  m "refcnt" td_atomic64_t; m "used_map_cnt" td_u32; m "used_btf_cnt" td_u32;
  m "max_ctx_offset" td_u32; m "max_pkt_offset" td_u32; m "max_tp_access" td_u32;
  m "stack_depth" td_u32; m "id" td_u32; m "func_cnt" td_u32; m "real_func_cnt" td_u32;
  m "func_idx" td_u32; m "attach_btf_id" td_u32; m "ctx_arg_info_size" td_u32;
  m "max_rdonly_access" td_u32; m "max_rdwr_access" td_u32; m "attach_btf" (TPtr "struct btf");
  m "ctx_arg_info" (TPtr "struct bpf_ctx_arg_aux"); m "priv_stack_ptr" (TPtr "void");
  m "dst_mutex" struct_mutex; m "dst_prog" (TPtr "struct bpf_prog");
  m "dst_trampoline" (TPtr "struct bpf_trampoline");
  m "saved_dst_prog_type" enum_bpf_prog_type_t; m "saved_dst_attach_type" enum_bpf_attach_type_t;
  m "verifier_zext" td_bool; m "dev_bound" td_bool; m "offload_requested" td_bool;
  m "attach_btf_trace" td_bool; m "attach_tracing_prog" td_bool;
  m "func_proto_unreliable" td_bool; m "tail_call_reachable" td_bool; m "xdp_has_frags" td_bool;
  m "exception_cb" td_bool; m "exception_boundary" td_bool; m "is_extended" td_bool;
  m "jits_use_priv_stack" td_bool; m "priv_stack_requested" td_bool;
  m "changes_pkt_data" td_bool; m "prog_array_member_cnt" td_u64; m "ext_mutex" struct_mutex;
  m "arena" (TPtr "struct bpf_arena"); m "recursion_detected" (TPtr "function");
  m "attach_func_proto" (TPtr "struct btf_type"); m "attach_func_name" (TPtr "char");
  m "func" (TPtr "struct bpf_prog *"); m "jit_data" (TPtr "void");
  m "poke_tab" (TPtr "struct bpf_jit_poke_descriptor");
  m "kfunc_tab" (TPtr "struct bpf_kfunc_desc_tab");
  m "kfunc_btf_tab" (TPtr "struct bpf_kfunc_btf_tab"); m "size_poke_tab" td_u32;
  m "ksym" struct_bpf_ksym; m "ops" (TPtr "struct bpf_prog_ops");
  m "used_maps" (TPtr "struct bpf_map *"); m "used_maps_mutex" struct_mutex;
  m "used_btfs" (TPtr "struct btf_mod_pair"); m "prog" (TPtr "struct bpf_prog");
  m "user" (TPtr "struct user_struct"); m "load_time" td_u64; m "verified_insns" td_u32;
  m "cgroup_atype" int; m "cgroup_storage" (TArray (TPtr "struct bpf_map") 2);
  m "name" (TArray char 16); m "bpf_exception_cb" (TPtr "function"); m "security" (TPtr "void");
  m "token" (TPtr "struct bpf_token"); m "offload" (TPtr "struct bpf_prog_offload");
  m "btf" (TPtr "struct btf"); m "func_info" (TPtr "struct bpf_func_info");
  m "func_info_aux" (TPtr "struct bpf_func_info_aux"); m "linfo" (TPtr "struct bpf_line_info");
  m "jited_linfo" (TPtr "void *"); m "func_info_cnt" td_u32; m "nr_linfo" td_u32;
  m "linfo_idx" td_u32; m "mod" (TPtr "struct module"); m "num_exentries" td_u32;
  m "extable" (TPtr "struct exception_table_entry");
  m "" (Union [m "work" struct_work_struct; m "rcu" struct_callback_head])].

Definition struct_btf_header : C.ctype := Struct [
  m "magic" td___u16; m "version" td___u8; m "flags" td___u8; m "hdr_len" td___u32;
  m "type_off" td___u32; m "type_len" td___u32; m "str_off" td___u32; m "str_len" td___u32].

Definition struct_btf : C.ctype := Struct [
  m "data" (TPtr "void"); m "types" (TPtr "struct btf_type *"); m "resolved_ids" (TPtr "u32");
  m "resolved_sizes" (TPtr "u32"); m "strings" (TPtr "char"); m "nohdr_data" (TPtr "void");
  m "hdr" struct_btf_header; m "nr_types" td_u32; m "types_size" td_u32; m "data_size" td_u32;
  m "refcnt" td_refcount_t; m "id" td_u32; m "rcu" struct_callback_head;
  m "kfunc_set_tab" (TPtr "struct btf_kfunc_set_tab");
  m "dtor_kfunc_tab" (TPtr "struct btf_id_dtor_kfunc_tab");
  m "struct_meta_tab" (TPtr "struct btf_struct_metas");
  m "struct_ops_tab" (TPtr "struct btf_struct_ops_tab"); m "base_btf" (TPtr "struct btf");
  m "start_id" td_u32; m "start_str_off" td_u32; m "name" (TArray char 56);
  m "kernel_btf" td_bool; m "base_id_map" (TPtr "__u32")].

Definition struct_bpf_map_ops : C.ctype := Struct [
  m "map_alloc_check" (TPtr "function"); m "map_alloc" (TPtr "function");
  m "map_release" (TPtr "function"); m "map_free" (TPtr "function");
  m "map_get_next_key" (TPtr "function"); m "map_release_uref" (TPtr "function");
  m "map_lookup_elem_sys_only" (TPtr "function"); m "map_lookup_batch" (TPtr "function");
  m "map_lookup_and_delete_elem" (TPtr "function");
  m "map_lookup_and_delete_batch" (TPtr "function"); m "map_update_batch" (TPtr "function");
  m "map_delete_batch" (TPtr "function"); m "map_lookup_elem" (TPtr "function");
  m "map_update_elem" (TPtr "function"); m "map_delete_elem" (TPtr "function");
  m "map_push_elem" (TPtr "function"); m "map_pop_elem" (TPtr "function");
  m "map_peek_elem" (TPtr "function"); m "map_lookup_percpu_elem" (TPtr "function");
  m "map_fd_get_ptr" (TPtr "function"); m "map_fd_put_ptr" (TPtr "function");
  m "map_gen_lookup" (TPtr "function"); m "map_fd_sys_lookup_elem" (TPtr "function");
  m "map_seq_show_elem" (TPtr "function"); m "map_check_btf" (TPtr "function");
  m "map_poke_track" (TPtr "function"); m "map_poke_untrack" (TPtr "function");
  m "map_poke_run" (TPtr "function"); m "map_direct_value_addr" (TPtr "function");
  m "map_direct_value_meta" (TPtr "function"); m "map_mmap" (TPtr "function");
  m "map_poll" (TPtr "function"); m "map_get_unmapped_area" (TPtr "function");
  m "map_local_storage_charge" (TPtr "function");
  m "map_local_storage_uncharge" (TPtr "function"); m "map_owner_storage_ptr" (TPtr "function");
  m "map_redirect" (TPtr "function"); m "map_meta_equal" (TPtr "function");
  m "map_set_for_each_callback_args" (TPtr "function");
  m "map_for_each_callback" (TPtr "function"); m "map_mem_usage" (TPtr "function");
  m "map_btf_id" (TPtr "int"); m "iter_seq_info" (TPtr "struct bpf_iter_seq_info")].

Definition enum_bpf_return_type : list (string * Z) := [
  ("RET_INTEGER", 0); ("RET_VOID", 1); ("RET_PTR_TO_MAP_VALUE", 2); ("RET_PTR_TO_SOCKET", 3);
  ("RET_PTR_TO_TCP_SOCK", 4); ("RET_PTR_TO_SOCK_COMMON", 5); ("RET_PTR_TO_MEM", 6);
  ("RET_PTR_TO_MEM_OR_BTF_ID", 7); ("RET_PTR_TO_BTF_ID", 8); ("__BPF_RET_TYPE_MAX", 9);
  ("RET_PTR_TO_MAP_VALUE_OR_NULL", 258); ("RET_PTR_TO_SOCKET_OR_NULL", 259);
  ("RET_PTR_TO_TCP_SOCK_OR_NULL", 260); ("RET_PTR_TO_SOCK_COMMON_OR_NULL", 261);
  ("RET_PTR_TO_RINGBUF_MEM_OR_NULL", 1286); ("RET_PTR_TO_DYNPTR_MEM_OR_NULL", 262);
  ("RET_PTR_TO_BTF_ID_OR_NULL", 264); ("RET_PTR_TO_BTF_ID_TRUSTED", 1048584);
  ("__BPF_RET_TYPE_LIMIT", 134217727)].

Definition enum_bpf_return_type_t : C.ctype := enum.

Definition enum_bpf_arg_type : list (string * Z) := [
  ("ARG_DONTCARE", 0); ("ARG_CONST_MAP_PTR", 1); ("ARG_PTR_TO_MAP_KEY", 2);
  ("ARG_PTR_TO_MAP_VALUE", 3); ("ARG_PTR_TO_MEM", 4); ("ARG_PTR_TO_ARENA", 5);
  ("ARG_CONST_SIZE", 6); ("ARG_CONST_SIZE_OR_ZERO", 7); ("ARG_PTR_TO_CTX", 8);
  ("ARG_ANYTHING", 9); ("ARG_PTR_TO_SPIN_LOCK", 10); ("ARG_PTR_TO_SOCK_COMMON", 11);
  ("ARG_PTR_TO_SOCKET", 12); ("ARG_PTR_TO_BTF_ID", 13); ("ARG_PTR_TO_RINGBUF_MEM", 14);
  ("ARG_CONST_ALLOC_SIZE_OR_ZERO", 15); ("ARG_PTR_TO_BTF_ID_SOCK_COMMON", 16);
  ("ARG_PTR_TO_PERCPU_BTF_ID", 17); ("ARG_PTR_TO_FUNC", 18); ("ARG_PTR_TO_STACK", 19);
  ("ARG_PTR_TO_CONST_STR", 20); ("ARG_PTR_TO_TIMER", 21); ("ARG_KPTR_XCHG_DEST", 22);
  ("ARG_PTR_TO_DYNPTR", 23); ("__BPF_ARG_TYPE_MAX", 24); ("ARG_PTR_TO_MAP_VALUE_OR_NULL", 259);
  ("ARG_PTR_TO_MEM_OR_NULL", 260); ("ARG_PTR_TO_CTX_OR_NULL", 264);
  ("ARG_PTR_TO_SOCKET_OR_NULL", 268); ("ARG_PTR_TO_STACK_OR_NULL", 275);
  ("ARG_PTR_TO_BTF_ID_OR_NULL", 269); ("ARG_PTR_TO_UNINIT_MEM", 67141636);
  ("ARG_PTR_TO_FIXED_SIZE_MEM", 262148); ("__BPF_ARG_TYPE_LIMIT", 134217727)].

Definition enum_bpf_arg_type_t : C.ctype := enum.

Definition struct_bpf_func_proto : C.ctype := Struct [
  m "func" (TPtr "function"); m "gpl_only" td_bool; m "pkt_access" td_bool;
  m "might_sleep" td_bool; m "allow_fastcall" td_bool; m "ret_type" enum_bpf_return_type_t;
  m "" (Union [m "" (Struct [m "arg1_type" enum_bpf_arg_type_t; m "arg2_type" enum_bpf_arg_type_t; m "arg3_type" enum_bpf_arg_type_t; m "arg4_type" enum_bpf_arg_type_t; m "arg5_type" enum_bpf_arg_type_t]); m "arg_type" (TArray enum_bpf_arg_type_t 5)]);
  m "" (Union [m "" (Struct [m "arg1_btf_id" (TPtr "u32"); m "arg2_btf_id" (TPtr "u32"); m "arg3_btf_id" (TPtr "u32"); m "arg4_btf_id" (TPtr "u32"); m "arg5_btf_id" (TPtr "u32")]); m "arg_btf_id" (TArray (TPtr "u32") 5); m "" (Struct [m "arg1_size" td_size_t; m "arg2_size" td_size_t; m "arg3_size" td_size_t; m "arg4_size" td_size_t; m "arg5_size" td_size_t]); m "arg_size" (TArray td_size_t 5)]);
  m "ret_btf_id" (TPtr "int"); m "allowed" (TPtr "function")].

Definition struct_bpf_array : C.ctype := Struct [
  m "map" struct_bpf_map; m "elem_size" td_u32; m "index_mask" td_u32;
  m "aux" (TPtr "struct bpf_array_aux");
  m "" (Union [m "" (Struct [m "__empty_value" (Struct []); m "value" (TArray char 0)]); m "" (Struct [m "__empty_ptrs" (Struct []); m "ptrs" (TArray (TPtr "void") 0)]); m "" (Struct [m "__empty_pptrs" (Struct []); m "pptrs" (TArray (TPtr "void") 0)])])].

Definition struct_bpf_raw_tp_link : C.ctype := Struct [
  m "link" struct_bpf_link; m "btp" (TPtr "struct bpf_raw_event_map"); m "cookie" td_u64].

Definition struct_trace_event : C.ctype := Struct [
  m "node" struct_hlist_node; m "type" int; m "funcs" (TPtr "struct trace_event_functions")].

Definition struct_trace_event_call : C.ctype := Struct [
  m "list" struct_list_head; m "class" (TPtr "struct trace_event_class");
  m "" (Union [m "name" (TPtr "char"); m "tp" (TPtr "struct tracepoint")]);
  m "event" struct_trace_event; m "print_fmt" (TPtr "char");
  m "" (Union [m "module" (TPtr "void"); m "refcnt" td_atomic_t]); m "data" (TPtr "void");
  m "flags" int; m "perf_refcount" int; m "perf_events" (TPtr "struct hlist_head");
  m "prog_array" (TPtr "struct bpf_prog_array"); m "perf_perm" (TPtr "function")].

Definition struct_trace_event_file : C.ctype := Struct [
  m "list" struct_list_head; m "event_call" (TPtr "struct trace_event_call");
  m "filter" (TPtr "struct event_filter"); m "ei" (TPtr "struct eventfs_inode");
  m "tr" (TPtr "struct trace_array"); m "system" (TPtr "struct trace_subsystem_dir");
  m "triggers" struct_list_head; m "flags" ulong; m "ref" td_refcount_t; m "sm_ref" td_atomic_t;
  m "tm_ref" td_atomic_t].

Definition struct_static_key : C.ctype := Struct [
  m "enabled" td_atomic_t;
  m "" (Union [m "type" ulong; m "entries" (TPtr "struct jump_entry"); m "next" (TPtr "struct static_key_mod")])].

Definition struct_static_key_false : C.ctype := Struct [
  m "key" struct_static_key].

Definition struct_tracepoint : C.ctype := Struct [
  m "name" (TPtr "char"); m "key" struct_static_key_false;
  m "static_call_key" (TPtr "struct static_call_key"); m "static_call_tramp" (TPtr "void");
  m "iterator" (TPtr "void"); m "probestub" (TPtr "void");
  m "funcs" (TPtr "struct tracepoint_func"); m "ext" (TPtr "struct tracepoint_ext")].

Definition struct_array_buffer : C.ctype := Struct [
  m "tr" (TPtr "struct trace_array"); m "buffer" (TPtr "struct trace_buffer");
  m "data" (TPtr "struct trace_array_cpu"); m "time_start" td_u64; m "cpu" int].

Definition struct_rcuwait : C.ctype := Struct [
  m "task" (TPtr "struct task_struct")].

Definition struct_irq_work : C.ctype := Struct [
  m "node" struct___call_single_node; m "func" (TPtr "function"); m "irqwait" struct_rcuwait].

Definition td_cpumask_var_t : C.ctype := TPtr "struct cpumask".

Definition struct_trace_array : C.ctype := Struct [
  m "list" struct_list_head; m "name" (TPtr "char"); m "array_buffer" struct_array_buffer;
  m "max_buffer" struct_array_buffer; m "allocated_snapshot" td_bool;
  m "snapshot_trigger_lock" td_spinlock_t; m "snapshot" uint; m "max_latency" ulong;
  m "d_max_latency" (TPtr "struct dentry"); m "fsnotify_work" struct_work_struct;
  m "fsnotify_irqwork" struct_irq_work; m "mapped" uint; m "range_addr_start" ulong;
  m "range_addr_size" ulong; m "kaslr_addr" ulong; m "text_delta" long;
  m "filtered_pids" (TPtr "struct trace_pid_list");
  m "filtered_no_pids" (TPtr "struct trace_pid_list"); m "max_lock" td_arch_spinlock_t;
  m "buffer_disabled" int; m "sys_refcount_enter" int; m "sys_refcount_exit" int;
  m "enter_syscall_files" (TArray (TPtr "struct trace_event_file") 467);
  m "exit_syscall_files" (TArray (TPtr "struct trace_event_file") 467); m "stop_count" int;
  m "clock_id" int; m "nr_topts" int; m "clear_trace" td_bool; m "buffer_percent" int;
  m "n_err_log_entries" uint; m "current_trace" (TPtr "struct tracer"); m "trace_flags" uint;
  m "trace_flags_index" (TArray uchar 32); m "flags" uint; m "start_lock" td_raw_spinlock_t;
  m "system_names" (TPtr "char"); m "err_log" struct_list_head; m "dir" (TPtr "struct dentry");
  m "options" (TPtr "struct dentry"); m "percpu_dir" (TPtr "struct dentry");
  m "event_dir" (TPtr "struct eventfs_inode"); m "topts" (TPtr "struct trace_options");
  m "systems" struct_list_head; m "events" struct_list_head;
  m "trace_marker_file" (TPtr "struct trace_event_file"); m "tracing_cpumask" td_cpumask_var_t;
  m "pipe_cpumask" td_cpumask_var_t; m "ref" int; m "trace_ref" int;
  m "mod_events" struct_list_head; m "ops" (TPtr "struct ftrace_ops");
  m "function_pids" (TPtr "struct trace_pid_list");
  m "function_no_pids" (TPtr "struct trace_pid_list"); m "gops" (TPtr "struct fgraph_ops");
  m "func_probes" struct_list_head; m "mod_trace" struct_list_head;
  m "mod_notrace" struct_list_head; m "function_enabled" int; m "no_filter_buffering_ref" int;
  m "hist_vars" struct_list_head; m "cond_snapshot" (TPtr "struct cond_snapshot");
  m "last_func_repeats" (TPtr "struct trace_func_repeats"); m "ring_buffer_expanded" td_bool].

Definition enum_perf_event_state : list (string * Z) := [
  ("PERF_EVENT_STATE_DEAD", -4); ("PERF_EVENT_STATE_EXIT", -3); ("PERF_EVENT_STATE_ERROR", -2);
  ("PERF_EVENT_STATE_OFF", -1); ("PERF_EVENT_STATE_INACTIVE", 0); ("PERF_EVENT_STATE_ACTIVE", 1)].

Definition enum_perf_event_state_t : C.ctype := enum.

Definition td_local_t : C.ctype := Struct [
  m "a" td_atomic_long_t].

Definition td_local64_t : C.ctype := Struct [
  m "a" td_local_t].

Definition struct_perf_event_attr : C.ctype := Struct [
  m "type" td___u32; m "size" td___u32; m "config" td___u64;
  m "" (Union [m "sample_period" td___u64; m "sample_freq" td___u64]); m "sample_type" td___u64;
  m "read_format" td___u64; b "disabled" td___u64 1; b "inherit" td___u64 1;
  b "pinned" td___u64 1; b "exclusive" td___u64 1; b "exclude_user" td___u64 1;
  b "exclude_kernel" td___u64 1; b "exclude_hv" td___u64 1; b "exclude_idle" td___u64 1;
  b "mmap" td___u64 1; b "comm" td___u64 1; b "freq" td___u64 1; b "inherit_stat" td___u64 1;
  b "enable_on_exec" td___u64 1; b "task" td___u64 1; b "watermark" td___u64 1;
  b "precise_ip" td___u64 2; b "mmap_data" td___u64 1; b "sample_id_all" td___u64 1;
  b "exclude_host" td___u64 1; b "exclude_guest" td___u64 1;
  b "exclude_callchain_kernel" td___u64 1; b "exclude_callchain_user" td___u64 1;
  b "mmap2" td___u64 1; b "comm_exec" td___u64 1; b "use_clockid" td___u64 1;
  b "context_switch" td___u64 1; b "write_backward" td___u64 1; b "namespaces" td___u64 1;
  b "ksymbol" td___u64 1; b "bpf_event" td___u64 1; b "aux_output" td___u64 1;
  b "cgroup" td___u64 1; b "text_poke" td___u64 1; b "build_id" td___u64 1;
  b "inherit_thread" td___u64 1; b "remove_on_exec" td___u64 1; b "sigtrap" td___u64 1;
  b "__reserved_1" td___u64 26;
  m "" (Union [m "wakeup_events" td___u32; m "wakeup_watermark" td___u32]); m "bp_type" td___u32;
  m "" (Union [m "bp_addr" td___u64; m "kprobe_func" td___u64; m "uprobe_path" td___u64; m "config1" td___u64]);
  m "" (Union [m "bp_len" td___u64; m "kprobe_addr" td___u64; m "probe_offset" td___u64; m "config2" td___u64]);
  m "branch_sample_type" td___u64; m "sample_regs_user" td___u64; m "sample_stack_user" td___u32;
  m "clockid" td___s32; m "sample_regs_intr" td___u64; m "aux_watermark" td___u32;
  m "sample_max_stack" td___u16; m "__reserved_2" td___u16; m "aux_sample_size" td___u32;
  m "" (Union [m "aux_action" td___u32; m "" (Struct [b "aux_start_paused" td___u32 1; b "aux_pause" td___u32 1; b "aux_resume" td___u32 1; b "__reserved_3" td___u32 29])]);
  m "sig_data" td___u64; m "config3" td___u64].

Definition struct_hw_perf_event_extra : C.ctype := Struct [
  m "config" td_u64; m "reg" uint; m "alloc" int; m "idx" int].

Definition struct_arch_hw_breakpoint : C.ctype := Struct [
  m "address" ulong; m "mask" ulong; m "len" td_u8; m "type" td_u8].

Definition struct_rhash_head : C.ctype := Struct [
  m "next" (TPtr "struct rhash_head")].

Definition struct_rhlist_head : C.ctype := Struct [
  m "rhead" struct_rhash_head; m "next" (TPtr "struct rhlist_head")].

Definition struct_hw_perf_event : C.ctype := Struct [
  m "" (Union [m "" (Struct [m "config" td_u64; m "last_tag" td_u64; m "config_base" ulong; m "event_base" ulong; m "event_base_rdpmc" int; m "idx" int; m "last_cpu" int; m "flags" int; m "extra_reg" struct_hw_perf_event_extra; m "branch_reg" struct_hw_perf_event_extra]); m "" (Struct [m "aux_config" td_u64; m "aux_paused" uint]); m "" (Struct [m "hrtimer" struct_hrtimer]); m "" (Struct [m "tp_list" struct_list_head]); m "" (Struct [m "pwr_acc" td_u64; m "ptsc" td_u64]); m "" (Struct [m "info" struct_arch_hw_breakpoint; m "bp_list" struct_rhlist_head]); m "" (Struct [m "iommu_bank" td_u8; m "iommu_cntr" td_u8; m "padding" td_u16; m "conf" td_u64; m "conf1" td_u64])]);
  m "target" (TPtr "struct task_struct"); m "addr_filters" (TPtr "void");
  m "addr_filters_gen" ulong; m "state" int; m "prev_count" td_local64_t;
  m "sample_period" td_u64;
  m "" (Union [m "" (Struct [m "last_period" td_u64; m "period_left" td_local64_t]); m "" (Struct [m "saved_metric" td_u64; m "saved_slots" td_u64])]);
  m "interrupts_seq" td_u64; m "interrupts" td_u64; m "freq_time_stamp" td_u64;
  m "freq_count_stamp" td_u64].

Definition struct_perf_addr_filters_head : C.ctype := Struct [
  m "list" struct_list_head; m "lock" td_raw_spinlock_t; m "nr_file_filters" uint].

Definition td_perf_overflow_handler_t : C.ctype := TPtr "function".

Definition td_ftrace_func_t : C.ctype := TPtr "function".

Definition struct_ftrace_ops_hash : C.ctype := Struct [
  m "notrace_hash" (TPtr "struct ftrace_hash"); m "filter_hash" (TPtr "struct ftrace_hash");
  m "regex_lock" struct_mutex].

Definition td_ftrace_ops_func_t : C.ctype := TPtr "function".

Definition struct_ftrace_ops : C.ctype := Struct [
  m "func" td_ftrace_func_t; m "next" (TPtr "struct ftrace_ops"); m "flags" ulong;
  m "private" (TPtr "void"); m "saved_func" td_ftrace_func_t;
  m "local_hash" struct_ftrace_ops_hash; m "func_hash" (TPtr "struct ftrace_ops_hash");
  m "old_hash" struct_ftrace_ops_hash; m "trampoline" ulong; m "trampoline_size" ulong;
  m "list" struct_list_head; m "subop_list" struct_list_head; m "ops_func" td_ftrace_ops_func_t;
  m "managed" (TPtr "struct ftrace_ops"); m "direct_call" ulong].

Definition struct_perf_event : C.ctype := Struct [
  m "event_entry" struct_list_head; m "sibling_list" struct_list_head;
  m "active_list" struct_list_head; m "group_node" struct_rb_node; m "group_index" td_u64;
  m "migrate_entry" struct_list_head; m "hlist_entry" struct_hlist_node;
  m "active_entry" struct_list_head; m "nr_siblings" int; m "event_caps" int; m "group_caps" int;
  m "group_generation" uint; m "group_leader" (TPtr "struct perf_event");
  m "pmu" (TPtr "struct pmu"); m "pmu_private" (TPtr "void"); m "state" enum_perf_event_state_t;
  m "attach_state" uint; m "count" td_local64_t; m "child_count" td_atomic64_t;
  m "total_time_enabled" td_u64; m "total_time_running" td_u64; m "tstamp" td_u64;
  m "attr" struct_perf_event_attr; m "header_size" td_u16; m "id_header_size" td_u16;
  m "read_size" td_u16; m "hw" struct_hw_perf_event; m "ctx" (TPtr "struct perf_event_context");
  m "pmu_ctx" (TPtr "struct perf_event_pmu_context"); m "refcount" td_atomic_long_t;
  m "child_total_time_enabled" td_atomic64_t; m "child_total_time_running" td_atomic64_t;
  m "child_mutex" struct_mutex; m "child_list" struct_list_head;
  m "parent" (TPtr "struct perf_event"); m "oncpu" int; m "cpu" int;
  m "owner_entry" struct_list_head; m "owner" (TPtr "struct task_struct");
  m "mmap_mutex" struct_mutex; m "mmap_count" td_atomic_t; m "rb" (TPtr "struct perf_buffer");
  m "rb_entry" struct_list_head; m "rcu_batches" ulong; m "rcu_pending" int;
  m "waitq" td_wait_queue_head_t; m "fasync" (TPtr "struct fasync_struct");
  m "pending_wakeup" uint; m "pending_kill" uint; m "pending_disable" uint;
  m "pending_addr" ulong; m "pending_irq" struct_irq_work;
  m "pending_disable_irq" struct_irq_work; m "pending_task" struct_callback_head;
  m "pending_work" uint; m "event_limit" td_atomic_t;
  m "addr_filters" struct_perf_addr_filters_head;
  m "addr_filter_ranges" (TPtr "struct perf_addr_filter_range"); m "addr_filters_gen" ulong;
  m "aux_event" (TPtr "struct perf_event"); m "destroy" (TPtr "function");
  m "callback_head" struct_callback_head; m "ns" (TPtr "struct pid_namespace"); m "id" td_u64;
  m "lost_samples" td_atomic64_t; m "clock" (TPtr "function");
  m "overflow_handler" td_perf_overflow_handler_t; m "overflow_handler_context" (TPtr "void");
  m "prog" (TPtr "struct bpf_prog"); m "bpf_cookie" td_u64;
  m "tp_event" (TPtr "struct trace_event_call"); m "filter" (TPtr "struct event_filter");
  m "ftrace_ops" struct_ftrace_ops; m "cgrp" (TPtr "struct perf_cgroup");
  m "security" (TPtr "void"); m "sb_list" struct_list_head; m "orig_type" td___u32].

Definition struct_cgroup_root : C.ctype := Struct [
  m "kf_root" (TPtr "struct kernfs_root"); m "subsys_mask" uint; m "hierarchy_id" int;
  m "root_list" struct_list_head; m "rcu" struct_callback_head; b "" long 64; b "" long 64;
  m "cgrp" struct_cgroup; m "cgrp_ancestor_storage" (TPtr "struct cgroup");
  m "nr_cgrps" td_atomic_t; m "flags" uint; m "release_agent_path" (TArray char 4096);
  m "name" (TArray char 64); b "" long 64; b "" long 64; b "" long 64; b "" long 64;
  b "" long 64; b "" long 64].

Definition td_gfp_t : C.ctype := uint.

Definition struct_xarray : C.ctype := Struct [
  m "xa_lock" td_spinlock_t; m "xa_flags" td_gfp_t; m "xa_head" (TPtr "void")].

Definition struct_idr : C.ctype := Struct [
  m "idr_rt" struct_xarray; m "idr_base" uint; m "idr_next" uint].

Definition struct_rw_semaphore : C.ctype := Struct [
  m "count" td_atomic_long_t; m "owner" td_atomic_long_t; m "osq" struct_optimistic_spin_queue;
  m "wait_lock" td_raw_spinlock_t; m "wait_list" struct_list_head].

Definition struct_kernfs_root : C.ctype := Struct [
  m "kn" (TPtr "struct kernfs_node"); m "flags" uint; m "ino_idr" struct_idr;
  m "last_id_lowbits" td_u32; m "id_highbits" td_u32;
  m "syscall_ops" (TPtr "struct kernfs_syscall_ops"); m "supers" struct_list_head;
  m "deactivate_waitq" td_wait_queue_head_t; m "kernfs_rwsem" struct_rw_semaphore;
  m "kernfs_iattr_rwsem" struct_rw_semaphore; m "kernfs_supers_rwsem" struct_rw_semaphore;
  m "rcu" struct_callback_head].

Definition struct_cgroup_subsys : C.ctype := Struct [
  m "css_alloc" (TPtr "function"); m "css_online" (TPtr "function");
  m "css_offline" (TPtr "function"); m "css_released" (TPtr "function");
  m "css_free" (TPtr "function"); m "css_reset" (TPtr "function");
  m "css_killed" (TPtr "function"); m "css_rstat_flush" (TPtr "function");
  m "css_extra_stat_show" (TPtr "function"); m "css_local_stat_show" (TPtr "function");
  m "can_attach" (TPtr "function"); m "cancel_attach" (TPtr "function");
  m "attach" (TPtr "function"); m "post_attach" (TPtr "function");
  m "can_fork" (TPtr "function"); m "cancel_fork" (TPtr "function"); m "fork" (TPtr "function");
  m "exit" (TPtr "function"); m "release" (TPtr "function"); m "bind" (TPtr "function");
  b "early_init" td_bool 1; b "implicit_on_dfl" td_bool 1; b "threaded" td_bool 1; m "id" int;
  m "name" (TPtr "char"); m "legacy_name" (TPtr "char"); m "root" (TPtr "struct cgroup_root");
  m "css_idr" struct_idr; m "cfts" struct_list_head; m "dfl_cftypes" (TPtr "struct cftype");
  m "legacy_cftypes" (TPtr "struct cftype"); m "depends_on" uint].

Definition struct_cpu_itimer : C.ctype := Struct [
  m "expires" td_u64; m "incr" td_u64].

Definition struct_task_cputime_atomic : C.ctype := Struct [
  m "utime" td_atomic64_t; m "stime" td_atomic64_t; m "sum_exec_runtime" td_atomic64_t].

Definition struct_thread_group_cputimer : C.ctype := Struct [
  m "cputime_atomic" struct_task_cputime_atomic].

Definition td_seqlock_t : C.ctype := Struct [
  m "seqcount" td_seqcount_spinlock_t; m "lock" td_spinlock_t].

Definition struct_rlimit : C.ctype := Struct [
  m "rlim_cur" td___kernel_ulong_t; m "rlim_max" td___kernel_ulong_t].

Definition struct_pacct_struct : C.ctype := Struct [
  m "ac_flag" int; m "ac_exitcode" long; m "ac_mem" ulong; m "ac_utime" td_u64;
  m "ac_stime" td_u64; m "ac_minflt" ulong; m "ac_majflt" ulong].

Definition struct_signal_struct : C.ctype := Struct [
  m "sigcnt" td_refcount_t; m "live" td_atomic_t; m "nr_threads" int; m "quick_threads" int;
  m "thread_head" struct_list_head; m "wait_chldexit" td_wait_queue_head_t;
  m "curr_target" (TPtr "struct task_struct"); m "shared_pending" struct_sigpending;
  m "multiprocess" struct_hlist_head; m "group_exit_code" int; m "notify_count" int;
  m "group_exec_task" (TPtr "struct task_struct"); m "group_stop_count" int; m "flags" uint;
  m "core_state" (TPtr "struct core_state"); b "is_child_subreaper" uint 1;
  b "has_child_subreaper" uint 1; m "next_posix_timer_id" uint;
  m "posix_timers" struct_hlist_head; m "ignored_posix_timers" struct_hlist_head;
  m "real_timer" struct_hrtimer; m "it_real_incr" td_ktime_t;
  m "it" (TArray struct_cpu_itimer 2); m "cputimer" struct_thread_group_cputimer;
  m "posix_cputimers" struct_posix_cputimers; m "pids" (TArray (TPtr "struct pid") 4);
  m "tick_dep_mask" td_atomic_t; m "tty_old_pgrp" (TPtr "struct pid"); m "leader" int;
  m "tty" (TPtr "struct tty_struct"); m "autogroup" (TPtr "struct autogroup");
  m "stats_lock" td_seqlock_t; m "utime" td_u64; m "stime" td_u64; m "cutime" td_u64;
  m "cstime" td_u64; m "gtime" td_u64; m "cgtime" td_u64; m "prev_cputime" struct_prev_cputime;
  m "nvcsw" ulong; m "nivcsw" ulong; m "cnvcsw" ulong; m "cnivcsw" ulong; m "min_flt" ulong;
  m "maj_flt" ulong; m "cmin_flt" ulong; m "cmaj_flt" ulong; m "inblock" ulong;
  m "oublock" ulong; m "cinblock" ulong; m "coublock" ulong; m "maxrss" ulong; m "cmaxrss" ulong;
  m "ioac" struct_task_io_accounting; m "sum_sched_runtime" ullong;
  m "rlim" (TArray struct_rlimit 16); m "pacct" struct_pacct_struct;
  m "stats" (TPtr "struct taskstats"); m "audit_tty" uint;
  m "tty_audit_buf" (TPtr "struct tty_audit_buf"); m "oom_flag_origin" td_bool;
  m "oom_score_adj" short; m "oom_score_adj_min" short; m "oom_mm" (TPtr "struct mm_struct");
  m "cred_guard_mutex" struct_mutex; m "exec_update_lock" struct_rw_semaphore].

Definition td___kernel_gid32_t : C.ctype := uint.

Definition td_gid_t : C.ctype := td___kernel_gid32_t.

Definition td_kgid_t : C.ctype := Struct [
  m "val" td_gid_t].

Definition td_kernel_cap_t : C.ctype := Struct [
  m "val" td_u64].

Definition struct_cred : C.ctype := Struct [
  m "usage" td_atomic_long_t; m "uid" td_kuid_t; m "gid" td_kgid_t; m "suid" td_kuid_t;
  m "sgid" td_kgid_t; m "euid" td_kuid_t; m "egid" td_kgid_t; m "fsuid" td_kuid_t;
  m "fsgid" td_kgid_t; m "securebits" uint; m "cap_inheritable" td_kernel_cap_t;
  m "cap_permitted" td_kernel_cap_t; m "cap_effective" td_kernel_cap_t;
  m "cap_bset" td_kernel_cap_t; m "cap_ambient" td_kernel_cap_t; m "jit_keyring" uchar;
  m "session_keyring" (TPtr "struct key"); m "process_keyring" (TPtr "struct key");
  m "thread_keyring" (TPtr "struct key"); m "request_key_auth" (TPtr "struct key");
  m "security" (TPtr "void"); m "user" (TPtr "struct user_struct");
  m "user_ns" (TPtr "struct user_namespace"); m "ucounts" (TPtr "struct ucounts");
  m "group_info" (TPtr "struct group_info");
  m "" (Union [m "non_rcu" int; m "rcu" struct_callback_head])].

Definition union_bpf_attr_1 : list (string * option Z * C.ctype) := [
  m "" (Struct [m "map_type" td___u32; m "key_size" td___u32; m "value_size" td___u32; m "max_entries" td___u32; m "map_flags" td___u32; m "inner_map_fd" td___u32; m "numa_node" td___u32; m "map_name" (TArray char 16); m "map_ifindex" td___u32; m "btf_fd" td___u32; m "btf_key_type_id" td___u32; m "btf_value_type_id" td___u32; m "btf_vmlinux_value_type_id" td___u32; m "map_extra" td___u64; m "value_type_btf_obj_fd" td___s32; m "map_token_fd" td___s32]);
  m "" (Struct [m "map_fd" td___u32; m "key" td___u64; m "" (Union [m "value" td___u64; m "next_key" td___u64]); m "flags" td___u64]);
  m "batch" (Struct [m "in_batch" td___u64; m "out_batch" td___u64; m "keys" td___u64; m "values" td___u64; m "count" td___u32; m "map_fd" td___u32; m "elem_flags" td___u64; m "flags" td___u64]);
  m "" (Struct [m "prog_type" td___u32; m "insn_cnt" td___u32; m "insns" td___u64; m "license" td___u64; m "log_level" td___u32; m "log_size" td___u32; m "log_buf" td___u64; m "kern_version" td___u32; m "prog_flags" td___u32; m "prog_name" (TArray char 16); m "prog_ifindex" td___u32; m "expected_attach_type" td___u32; m "prog_btf_fd" td___u32; m "func_info_rec_size" td___u32; m "func_info" td___u64; m "func_info_cnt" td___u32; m "line_info_rec_size" td___u32; m "line_info" td___u64; m "line_info_cnt" td___u32; m "attach_btf_id" td___u32; m "" (Union [m "attach_prog_fd" td___u32; m "attach_btf_obj_fd" td___u32]); m "core_relo_cnt" td___u32; m "fd_array" td___u64; m "core_relos" td___u64; m "core_relo_rec_size" td___u32; m "log_true_size" td___u32; m "prog_token_fd" td___s32; m "fd_array_cnt" td___u32]);
  m "" (Struct [m "pathname" td___u64; m "bpf_fd" td___u32; m "file_flags" td___u32; m "path_fd" td___s32]);
  m "" (Struct [m "" (Union [m "target_fd" td___u32; m "target_ifindex" td___u32]); m "attach_bpf_fd" td___u32; m "attach_type" td___u32; m "attach_flags" td___u32; m "replace_bpf_fd" td___u32; m "" (Union [m "relative_fd" td___u32; m "relative_id" td___u32]); m "expected_revision" td___u64]);
  m "test" (Struct [m "prog_fd" td___u32; m "retval" td___u32; m "data_size_in" td___u32; m "data_size_out" td___u32; m "data_in" td___u64; m "data_out" td___u64; m "repeat" td___u32; m "duration" td___u32; m "ctx_size_in" td___u32; m "ctx_size_out" td___u32; m "ctx_in" td___u64; m "ctx_out" td___u64; m "flags" td___u32; m "cpu" td___u32; m "batch_size" td___u32]);
  m "" (Struct [m "" (Union [m "start_id" td___u32; m "prog_id" td___u32; m "map_id" td___u32; m "btf_id" td___u32; m "link_id" td___u32]); m "next_id" td___u32; m "open_flags" td___u32])].

Definition union_bpf_attr_2 : list (string * option Z * C.ctype) := [
  m "info" (Struct [m "bpf_fd" td___u32; m "info_len" td___u32; m "info" td___u64]);
  m "query" (Struct [m "" (Union [m "target_fd" td___u32; m "target_ifindex" td___u32]); m "attach_type" td___u32; m "query_flags" td___u32; m "attach_flags" td___u32; m "prog_ids" td___u64; m "" (Union [m "prog_cnt" td___u32; m "count" td___u32]); m "prog_attach_flags" td___u64; m "link_ids" td___u64; m "link_attach_flags" td___u64; m "revision" td___u64]);
  m "raw_tracepoint" (Struct [m "name" td___u64; m "prog_fd" td___u32; m "cookie" td___u64]);
  m "" (Struct [m "btf" td___u64; m "btf_log_buf" td___u64; m "btf_size" td___u32; m "btf_log_size" td___u32; m "btf_log_level" td___u32; m "btf_log_true_size" td___u32; m "btf_flags" td___u32; m "btf_token_fd" td___s32]);
  m "task_fd_query" (Struct [m "pid" td___u32; m "fd" td___u32; m "flags" td___u32; m "buf_len" td___u32; m "buf" td___u64; m "prog_id" td___u32; m "fd_type" td___u32; m "probe_offset" td___u64; m "probe_addr" td___u64]);
  m "link_create" (Struct [m "" (Union [m "prog_fd" td___u32; m "map_fd" td___u32]); m "" (Union [m "target_fd" td___u32; m "target_ifindex" td___u32]); m "attach_type" td___u32; m "flags" td___u32; m "" (Union [m "target_btf_id" td___u32; m "" (Struct [m "iter_info" td___u64; m "iter_info_len" td___u32]); m "perf_event" (Struct [m "bpf_cookie" td___u64]); m "kprobe_multi" (Struct [m "flags" td___u32; m "cnt" td___u32; m "syms" td___u64; m "addrs" td___u64; m "cookies" td___u64]); m "tracing" (Struct [m "target_btf_id" td___u32; m "cookie" td___u64]); m "netfilter" (Struct [m "pf" td___u32; m "hooknum" td___u32; m "priority" td___s32; m "flags" td___u32]); m "tcx" (Struct [m "" (Union [m "relative_fd" td___u32; m "relative_id" td___u32]); m "expected_revision" td___u64]); m "uprobe_multi" (Struct [m "path" td___u64; m "offsets" td___u64; m "ref_ctr_offsets" td___u64; m "cookies" td___u64; m "cnt" td___u32; m "flags" td___u32; m "pid" td___u32]); m "netkit" (Struct [m "" (Union [m "relative_fd" td___u32; m "relative_id" td___u32]); m "expected_revision" td___u64])])])].

Definition union_bpf_attr_3 : list (string * option Z * C.ctype) := [
  m "link_update" (Struct [m "link_fd" td___u32; m "" (Union [m "new_prog_fd" td___u32; m "new_map_fd" td___u32]); m "flags" td___u32; m "" (Union [m "old_prog_fd" td___u32; m "old_map_fd" td___u32])]);
  m "link_detach" (Struct [m "link_fd" td___u32]); m "enable_stats" (Struct [m "type" td___u32]);
  m "iter_create" (Struct [m "link_fd" td___u32; m "flags" td___u32]);
  m "prog_bind_map" (Struct [m "prog_fd" td___u32; m "map_fd" td___u32; m "flags" td___u32]);
  m "token_create" (Struct [m "flags" td___u32; m "bpffs_fd" td___u32])].

Definition union_bpf_attr : C.ctype :=
  Union (union_bpf_attr_1 ++ union_bpf_attr_2 ++ union_bpf_attr_3).

Definition enum_bpf_func_id_1 : list (string * Z) := [
  ("BPF_FUNC_unspec", 0); ("BPF_FUNC_map_lookup_elem", 1); ("BPF_FUNC_map_update_elem", 2);
  ("BPF_FUNC_map_delete_elem", 3); ("BPF_FUNC_probe_read", 4); ("BPF_FUNC_ktime_get_ns", 5);
  ("BPF_FUNC_trace_printk", 6); ("BPF_FUNC_get_prandom_u32", 7);
  ("BPF_FUNC_get_smp_processor_id", 8); ("BPF_FUNC_skb_store_bytes", 9);
  ("BPF_FUNC_l3_csum_replace", 10); ("BPF_FUNC_l4_csum_replace", 11); ("BPF_FUNC_tail_call", 12);
  ("BPF_FUNC_clone_redirect", 13); ("BPF_FUNC_get_current_pid_tgid", 14);
  ("BPF_FUNC_get_current_uid_gid", 15); ("BPF_FUNC_get_current_comm", 16);
  ("BPF_FUNC_get_cgroup_classid", 17); ("BPF_FUNC_skb_vlan_push", 18);
  ("BPF_FUNC_skb_vlan_pop", 19); ("BPF_FUNC_skb_get_tunnel_key", 20);
  ("BPF_FUNC_skb_set_tunnel_key", 21); ("BPF_FUNC_perf_event_read", 22);
  ("BPF_FUNC_redirect", 23); ("BPF_FUNC_get_route_realm", 24);
  ("BPF_FUNC_perf_event_output", 25); ("BPF_FUNC_skb_load_bytes", 26);
  ("BPF_FUNC_get_stackid", 27); ("BPF_FUNC_csum_diff", 28); ("BPF_FUNC_skb_get_tunnel_opt", 29);
  ("BPF_FUNC_skb_set_tunnel_opt", 30); ("BPF_FUNC_skb_change_proto", 31);
  ("BPF_FUNC_skb_change_type", 32); ("BPF_FUNC_skb_under_cgroup", 33);
  ("BPF_FUNC_get_hash_recalc", 34); ("BPF_FUNC_get_current_task", 35);
  ("BPF_FUNC_probe_write_user", 36); ("BPF_FUNC_current_task_under_cgroup", 37);
  ("BPF_FUNC_skb_change_tail", 38); ("BPF_FUNC_skb_pull_data", 39); ("BPF_FUNC_csum_update", 40);
  ("BPF_FUNC_set_hash_invalid", 41); ("BPF_FUNC_get_numa_node_id", 42);
  ("BPF_FUNC_skb_change_head", 43); ("BPF_FUNC_xdp_adjust_head", 44);
  ("BPF_FUNC_probe_read_str", 45); ("BPF_FUNC_get_socket_cookie", 46);
  ("BPF_FUNC_get_socket_uid", 47); ("BPF_FUNC_set_hash", 48); ("BPF_FUNC_setsockopt", 49);
  ("BPF_FUNC_skb_adjust_room", 50); ("BPF_FUNC_redirect_map", 51);
  ("BPF_FUNC_sk_redirect_map", 52); ("BPF_FUNC_sock_map_update", 53);
  ("BPF_FUNC_xdp_adjust_meta", 54); ("BPF_FUNC_perf_event_read_value", 55);
  ("BPF_FUNC_perf_prog_read_value", 56); ("BPF_FUNC_getsockopt", 57);
  ("BPF_FUNC_override_return", 58); ("BPF_FUNC_sock_ops_cb_flags_set", 59);
  ("BPF_FUNC_msg_redirect_map", 60); ("BPF_FUNC_msg_apply_bytes", 61);
  ("BPF_FUNC_msg_cork_bytes", 62); ("BPF_FUNC_msg_pull_data", 63); ("BPF_FUNC_bind", 64);
  ("BPF_FUNC_xdp_adjust_tail", 65); ("BPF_FUNC_skb_get_xfrm_state", 66);
  ("BPF_FUNC_get_stack", 67); ("BPF_FUNC_skb_load_bytes_relative", 68);
  ("BPF_FUNC_fib_lookup", 69); ("BPF_FUNC_sock_hash_update", 70);
  ("BPF_FUNC_msg_redirect_hash", 71); ("BPF_FUNC_sk_redirect_hash", 72);
  ("BPF_FUNC_lwt_push_encap", 73); ("BPF_FUNC_lwt_seg6_store_bytes", 74);
  ("BPF_FUNC_lwt_seg6_adjust_srh", 75); ("BPF_FUNC_lwt_seg6_action", 76);
  ("BPF_FUNC_rc_repeat", 77); ("BPF_FUNC_rc_keydown", 78); ("BPF_FUNC_skb_cgroup_id", 79);
  ("BPF_FUNC_get_current_cgroup_id", 80); ("BPF_FUNC_get_local_storage", 81);
  ("BPF_FUNC_sk_select_reuseport", 82); ("BPF_FUNC_skb_ancestor_cgroup_id", 83);
  ("BPF_FUNC_sk_lookup_tcp", 84); ("BPF_FUNC_sk_lookup_udp", 85); ("BPF_FUNC_sk_release", 86);
  ("BPF_FUNC_map_push_elem", 87); ("BPF_FUNC_map_pop_elem", 88); ("BPF_FUNC_map_peek_elem", 89);
  ("BPF_FUNC_msg_push_data", 90); ("BPF_FUNC_msg_pop_data", 91); ("BPF_FUNC_rc_pointer_rel", 92);
  ("BPF_FUNC_spin_lock", 93); ("BPF_FUNC_spin_unlock", 94); ("BPF_FUNC_sk_fullsock", 95);
  ("BPF_FUNC_tcp_sock", 96); ("BPF_FUNC_skb_ecn_set_ce", 97); ("BPF_FUNC_get_listener_sock", 98);
  ("BPF_FUNC_skc_lookup_tcp", 99); ("BPF_FUNC_tcp_check_syncookie", 100);
  ("BPF_FUNC_sysctl_get_name", 101); ("BPF_FUNC_sysctl_get_current_value", 102);
  ("BPF_FUNC_sysctl_get_new_value", 103); ("BPF_FUNC_sysctl_set_new_value", 104);
  ("BPF_FUNC_strtol", 105); ("BPF_FUNC_strtoul", 106); ("BPF_FUNC_sk_storage_get", 107);
  ("BPF_FUNC_sk_storage_delete", 108); ("BPF_FUNC_send_signal", 109);
  ("BPF_FUNC_tcp_gen_syncookie", 110); ("BPF_FUNC_skb_output", 111);
  ("BPF_FUNC_probe_read_user", 112); ("BPF_FUNC_probe_read_kernel", 113);
  ("BPF_FUNC_probe_read_user_str", 114); ("BPF_FUNC_probe_read_kernel_str", 115);
  ("BPF_FUNC_tcp_send_ack", 116); ("BPF_FUNC_send_signal_thread", 117);
  ("BPF_FUNC_jiffies64", 118); ("BPF_FUNC_read_branch_records", 119);
  ("BPF_FUNC_get_ns_current_pid_tgid", 120); ("BPF_FUNC_xdp_output", 121);
  ("BPF_FUNC_get_netns_cookie", 122); ("BPF_FUNC_get_current_ancestor_cgroup_id", 123);
  ("BPF_FUNC_sk_assign", 124); ("BPF_FUNC_ktime_get_boot_ns", 125); ("BPF_FUNC_seq_printf", 126);
  ("BPF_FUNC_seq_write", 127); ("BPF_FUNC_sk_cgroup_id", 128);
  ("BPF_FUNC_sk_ancestor_cgroup_id", 129); ("BPF_FUNC_ringbuf_output", 130);
  ("BPF_FUNC_ringbuf_reserve", 131); ("BPF_FUNC_ringbuf_submit", 132);
  ("BPF_FUNC_ringbuf_discard", 133); ("BPF_FUNC_ringbuf_query", 134);
  ("BPF_FUNC_csum_level", 135); ("BPF_FUNC_skc_to_tcp6_sock", 136);
  ("BPF_FUNC_skc_to_tcp_sock", 137); ("BPF_FUNC_skc_to_tcp_timewait_sock", 138);
  ("BPF_FUNC_skc_to_tcp_request_sock", 139); ("BPF_FUNC_skc_to_udp6_sock", 140);
  ("BPF_FUNC_get_task_stack", 141); ("BPF_FUNC_load_hdr_opt", 142);
  ("BPF_FUNC_store_hdr_opt", 143); ("BPF_FUNC_reserve_hdr_opt", 144)].

Definition enum_bpf_func_id_2 : list (string * Z) := [
  ("BPF_FUNC_inode_storage_get", 145); ("BPF_FUNC_inode_storage_delete", 146);
  ("BPF_FUNC_d_path", 147); ("BPF_FUNC_copy_from_user", 148); ("BPF_FUNC_snprintf_btf", 149);
  ("BPF_FUNC_seq_printf_btf", 150); ("BPF_FUNC_skb_cgroup_classid", 151);
  ("BPF_FUNC_redirect_neigh", 152); ("BPF_FUNC_per_cpu_ptr", 153);
  ("BPF_FUNC_this_cpu_ptr", 154); ("BPF_FUNC_redirect_peer", 155);
  ("BPF_FUNC_task_storage_get", 156); ("BPF_FUNC_task_storage_delete", 157);
  ("BPF_FUNC_get_current_task_btf", 158); ("BPF_FUNC_bprm_opts_set", 159);
  ("BPF_FUNC_ktime_get_coarse_ns", 160); ("BPF_FUNC_ima_inode_hash", 161);
  ("BPF_FUNC_sock_from_file", 162); ("BPF_FUNC_check_mtu", 163);
  ("BPF_FUNC_for_each_map_elem", 164); ("BPF_FUNC_snprintf", 165); ("BPF_FUNC_sys_bpf", 166);
  ("BPF_FUNC_btf_find_by_name_kind", 167); ("BPF_FUNC_sys_close", 168);
  ("BPF_FUNC_timer_init", 169); ("BPF_FUNC_timer_set_callback", 170);
  ("BPF_FUNC_timer_start", 171); ("BPF_FUNC_timer_cancel", 172); ("BPF_FUNC_get_func_ip", 173);
  ("BPF_FUNC_get_attach_cookie", 174); ("BPF_FUNC_task_pt_regs", 175);
  ("BPF_FUNC_get_branch_snapshot", 176); ("BPF_FUNC_trace_vprintk", 177);
  ("BPF_FUNC_skc_to_unix_sock", 178); ("BPF_FUNC_kallsyms_lookup_name", 179);
  ("BPF_FUNC_find_vma", 180); ("BPF_FUNC_loop", 181); ("BPF_FUNC_strncmp", 182);
  ("BPF_FUNC_get_func_arg", 183); ("BPF_FUNC_get_func_ret", 184);
  ("BPF_FUNC_get_func_arg_cnt", 185); ("BPF_FUNC_get_retval", 186); ("BPF_FUNC_set_retval", 187);
  ("BPF_FUNC_xdp_get_buff_len", 188); ("BPF_FUNC_xdp_load_bytes", 189);
  ("BPF_FUNC_xdp_store_bytes", 190); ("BPF_FUNC_copy_from_user_task", 191);
  ("BPF_FUNC_skb_set_tstamp", 192); ("BPF_FUNC_ima_file_hash", 193); ("BPF_FUNC_kptr_xchg", 194);
  ("BPF_FUNC_map_lookup_percpu_elem", 195); ("BPF_FUNC_skc_to_mptcp_sock", 196);
  ("BPF_FUNC_dynptr_from_mem", 197); ("BPF_FUNC_ringbuf_reserve_dynptr", 198);
  ("BPF_FUNC_ringbuf_submit_dynptr", 199); ("BPF_FUNC_ringbuf_discard_dynptr", 200);
  ("BPF_FUNC_dynptr_read", 201); ("BPF_FUNC_dynptr_write", 202); ("BPF_FUNC_dynptr_data", 203);
  ("BPF_FUNC_tcp_raw_gen_syncookie_ipv4", 204); ("BPF_FUNC_tcp_raw_gen_syncookie_ipv6", 205);
  ("BPF_FUNC_tcp_raw_check_syncookie_ipv4", 206); ("BPF_FUNC_tcp_raw_check_syncookie_ipv6", 207);
  ("BPF_FUNC_ktime_get_tai_ns", 208); ("BPF_FUNC_user_ringbuf_drain", 209);
  ("BPF_FUNC_cgrp_storage_get", 210); ("BPF_FUNC_cgrp_storage_delete", 211);
  ("__BPF_FUNC_MAX_ID", 212)].

Definition enum_bpf_func_id : list (string * Z) := enum_bpf_func_id_1 ++ enum_bpf_func_id_2.

Definition enum_bpf_func_id_t : C.ctype := enum.

Definition enum_bpf_cmd : list (string * Z) := [
  ("BPF_MAP_CREATE", 0); ("BPF_MAP_LOOKUP_ELEM", 1); ("BPF_MAP_UPDATE_ELEM", 2);
  ("BPF_MAP_DELETE_ELEM", 3); ("BPF_MAP_GET_NEXT_KEY", 4); ("BPF_PROG_LOAD", 5);
  ("BPF_OBJ_PIN", 6); ("BPF_OBJ_GET", 7); ("BPF_PROG_ATTACH", 8); ("BPF_PROG_DETACH", 9);
  ("BPF_PROG_TEST_RUN", 10); ("BPF_PROG_RUN", 10); ("BPF_PROG_GET_NEXT_ID", 11);
  ("BPF_MAP_GET_NEXT_ID", 12); ("BPF_PROG_GET_FD_BY_ID", 13); ("BPF_MAP_GET_FD_BY_ID", 14);
  ("BPF_OBJ_GET_INFO_BY_FD", 15); ("BPF_PROG_QUERY", 16); ("BPF_RAW_TRACEPOINT_OPEN", 17);
  ("BPF_BTF_LOAD", 18); ("BPF_BTF_GET_FD_BY_ID", 19); ("BPF_TASK_FD_QUERY", 20);
  ("BPF_MAP_LOOKUP_AND_DELETE_ELEM", 21); ("BPF_MAP_FREEZE", 22); ("BPF_BTF_GET_NEXT_ID", 23);
  ("BPF_MAP_LOOKUP_BATCH", 24); ("BPF_MAP_LOOKUP_AND_DELETE_BATCH", 25);
  ("BPF_MAP_UPDATE_BATCH", 26); ("BPF_MAP_DELETE_BATCH", 27); ("BPF_LINK_CREATE", 28);
  ("BPF_LINK_UPDATE", 29); ("BPF_LINK_GET_FD_BY_ID", 30); ("BPF_LINK_GET_NEXT_ID", 31);
  ("BPF_ENABLE_STATS", 32); ("BPF_ITER_CREATE", 33); ("BPF_LINK_DETACH", 34);
  ("BPF_PROG_BIND_MAP", 35); ("BPF_TOKEN_CREATE", 36); ("__MAX_BPF_CMD", 37)].

Definition enum_bpf_cmd_t : C.ctype := enum.

(** Every structure and union above, by its C spelling, and every typedef. *)
Definition types : list (string * C.ctype) := [
  ("struct trace_entry", struct_trace_entry);
  ("struct trace_event_raw_sys_enter", struct_trace_event_raw_sys_enter);
  ("struct thread_info", struct_thread_info); ("struct refcount_struct", struct_refcount_struct);
  ("struct llist_node", struct_llist_node);
  ("struct __call_single_node", struct___call_single_node);
  ("struct load_weight", struct_load_weight); ("struct rb_node", struct_rb_node);
  ("struct list_head", struct_list_head); ("struct sched_avg", struct_sched_avg);
  ("struct sched_entity", struct_sched_entity);
  ("struct sched_rt_entity", struct_sched_rt_entity);
  ("struct timerqueue_node", struct_timerqueue_node); ("struct hrtimer", struct_hrtimer);
  ("struct sched_dl_entity", struct_sched_dl_entity);
  ("struct scx_dsq_list_node", struct_scx_dsq_list_node);
  ("struct sched_ext_entity", struct_sched_ext_entity); ("struct uclamp_se", struct_uclamp_se);
  ("struct sched_statistics", struct_sched_statistics); ("struct hlist_head", struct_hlist_head);
  ("struct cpumask", struct_cpumask); ("union rcu_special", union_rcu_special);
  ("struct sched_info", struct_sched_info); ("struct plist_node", struct_plist_node);
  ("struct restart_block", struct_restart_block); ("struct hlist_node", struct_hlist_node);
  ("struct qspinlock", struct_qspinlock); ("struct raw_spinlock", struct_raw_spinlock);
  ("struct prev_cputime", struct_prev_cputime); ("struct seqcount", struct_seqcount);
  ("struct vtime", struct_vtime); ("struct rb_root", struct_rb_root);
  ("struct rb_root_cached", struct_rb_root_cached);
  ("struct timerqueue_head", struct_timerqueue_head);
  ("struct posix_cputimer_base", struct_posix_cputimer_base);
  ("struct posix_cputimers", struct_posix_cputimers);
  ("struct callback_head", struct_callback_head);
  ("struct optimistic_spin_queue", struct_optimistic_spin_queue); ("struct mutex", struct_mutex);
  ("struct posix_cputimers_work", struct_posix_cputimers_work);
  ("struct sysv_sem", struct_sysv_sem); ("struct sysv_shm", struct_sysv_shm);
  ("struct sigpending", struct_sigpending); ("struct seccomp", struct_seccomp);
  ("struct syscall_user_dispatch", struct_syscall_user_dispatch);
  ("struct spinlock", struct_spinlock); ("struct wake_q_node", struct_wake_q_node);
  ("struct task_io_accounting", struct_task_io_accounting);
  ("struct seqcount_spinlock", struct_seqcount_spinlock);
  ("struct arch_tlbflush_unmap_batch", struct_arch_tlbflush_unmap_batch);
  ("struct tlbflush_unmap_batch", struct_tlbflush_unmap_batch);
  ("struct page_frag", struct_page_frag); ("struct latency_record", struct_latency_record);
  ("struct kmap_ctrl", struct_kmap_ctrl); ("struct timer_list", struct_timer_list);
  ("struct llist_head", struct_llist_head); ("struct da_monitor", struct_da_monitor);
  ("union rv_task_monitor", union_rv_task_monitor); ("struct desc_struct", struct_desc_struct);
  ("struct thread_shstk", struct_thread_shstk); ("struct fpu_state_perm", struct_fpu_state_perm);
  ("struct fregs_state", struct_fregs_state); ("struct fxregs_state", struct_fxregs_state);
  ("struct swregs_state", struct_swregs_state); ("struct xstate_header", struct_xstate_header);
  ("struct xregs_state", struct_xregs_state); ("union fpregs_state", union_fpregs_state);
  ("struct fpstate", struct_fpstate); ("struct fpu", struct_fpu);
  ("struct thread_struct", struct_thread_struct); ("struct task_struct", struct_task_struct);
  ("struct css_set", struct_css_set); ("struct percpu_ref", struct_percpu_ref);
  ("struct work_struct", struct_work_struct); ("struct rcu_work", struct_rcu_work);
  ("struct cgroup_subsys_state", struct_cgroup_subsys_state);
  ("struct cgroup_file", struct_cgroup_file);
  ("struct cacheline_padding", struct_cacheline_padding);
  ("struct task_cputime", struct_task_cputime);
  ("struct cgroup_base_stat", struct_cgroup_base_stat);
  ("struct wait_queue_head", struct_wait_queue_head); ("struct cgroup_bpf", struct_cgroup_bpf);
  ("struct cgroup_freezer_state", struct_cgroup_freezer_state); ("struct cgroup", struct_cgroup);
  ("struct kernfs_elem_dir", struct_kernfs_elem_dir);
  ("struct kernfs_elem_symlink", struct_kernfs_elem_symlink);
  ("struct kernfs_elem_attr", struct_kernfs_elem_attr);
  ("struct kernfs_node", struct_kernfs_node); ("struct upid", struct_upid);
  ("struct pid", struct_pid); ("struct bpf_map", struct_bpf_map);
  ("struct bpf_ringbuf_map", struct_bpf_ringbuf_map); ("struct sock_filter", struct_sock_filter);
  ("struct bpf_insn", struct_bpf_insn); ("struct bpf_prog", struct_bpf_prog);
  ("struct bpf_link", struct_bpf_link); ("struct latch_tree_node", struct_latch_tree_node);
  ("struct bpf_ksym", struct_bpf_ksym); ("struct bpf_prog_aux", struct_bpf_prog_aux);
  ("struct btf_header", struct_btf_header); ("struct btf", struct_btf);
  ("struct bpf_map_ops", struct_bpf_map_ops); ("struct bpf_func_proto", struct_bpf_func_proto);
  ("struct bpf_array", struct_bpf_array); ("struct bpf_raw_tp_link", struct_bpf_raw_tp_link);
  ("struct trace_event", struct_trace_event);
  ("struct trace_event_call", struct_trace_event_call);
  ("struct trace_event_file", struct_trace_event_file); ("struct static_key", struct_static_key);
  ("struct static_key_false", struct_static_key_false); ("struct tracepoint", struct_tracepoint);
  ("struct array_buffer", struct_array_buffer); ("struct rcuwait", struct_rcuwait);
  ("struct irq_work", struct_irq_work); ("struct trace_array", struct_trace_array);
  ("struct perf_event_attr", struct_perf_event_attr);
  ("struct hw_perf_event_extra", struct_hw_perf_event_extra);
  ("struct arch_hw_breakpoint", struct_arch_hw_breakpoint);
  ("struct rhash_head", struct_rhash_head); ("struct rhlist_head", struct_rhlist_head);
  ("struct hw_perf_event", struct_hw_perf_event);
  ("struct perf_addr_filters_head", struct_perf_addr_filters_head);
  ("struct ftrace_ops_hash", struct_ftrace_ops_hash); ("struct ftrace_ops", struct_ftrace_ops);
  ("struct perf_event", struct_perf_event); ("struct cgroup_root", struct_cgroup_root);
  ("struct xarray", struct_xarray); ("struct idr", struct_idr);
  ("struct rw_semaphore", struct_rw_semaphore); ("struct kernfs_root", struct_kernfs_root);
  ("struct cgroup_subsys", struct_cgroup_subsys); ("struct cpu_itimer", struct_cpu_itimer);
  ("struct task_cputime_atomic", struct_task_cputime_atomic);
  ("struct thread_group_cputimer", struct_thread_group_cputimer);
  ("struct rlimit", struct_rlimit); ("struct pacct_struct", struct_pacct_struct);
  ("struct signal_struct", struct_signal_struct); ("struct cred", struct_cred);
  ("union bpf_attr", union_bpf_attr); ("__u32", td___u32); ("u32", td_u32);
  ("atomic_t", td_atomic_t); ("refcount_t", td_refcount_t); ("__u16", td___u16); ("u16", td_u16);
  ("__u64", td___u64); ("u64", td_u64); ("__s64", td___s64); ("s64", td_s64);
  ("ktime_t", td_ktime_t); ("__u8", td___u8); ("u8", td_u8);
  ("dl_server_has_tasks_f", td_dl_server_has_tasks_f); ("dl_server_pick_f", td_dl_server_pick_f);
  ("__s32", td___s32); ("s32", td_s32); ("atomic64_t", td_atomic64_t);
  ("atomic_long_t", td_atomic_long_t); ("bool", td_bool); ("cpumask_t", td_cpumask_t);
  ("__kernel_clockid_t", td___kernel_clockid_t); ("clockid_t", td_clockid_t);
  ("__kernel_pid_t", td___kernel_pid_t); ("pid_t", td_pid_t);
  ("arch_spinlock_t", td_arch_spinlock_t); ("raw_spinlock_t", td_raw_spinlock_t);
  ("seqcount_t", td_seqcount_t); ("sigset_t", td_sigset_t);
  ("__kernel_ulong_t", td___kernel_ulong_t); ("__kernel_size_t", td___kernel_size_t);
  ("size_t", td_size_t); ("__kernel_uid32_t", td___kernel_uid32_t); ("uid_t", td_uid_t);
  ("kuid_t", td_kuid_t); ("spinlock_t", td_spinlock_t); ("nodemask_t", td_nodemask_t);
  ("seqcount_spinlock_t", td_seqcount_spinlock_t); ("work_func_t", td_work_func_t);
  ("wait_queue_head_t", td_wait_queue_head_t); ("umode_t", td_umode_t);
  ("__kernel_loff_t", td___kernel_loff_t); ("loff_t", td_loff_t); ("__s16", td___s16);
  ("cpumask_var_t", td_cpumask_var_t); ("local_t", td_local_t); ("local64_t", td_local64_t);
  ("perf_overflow_handler_t", td_perf_overflow_handler_t); ("ftrace_func_t", td_ftrace_func_t);
  ("ftrace_ops_func_t", td_ftrace_ops_func_t); ("gfp_t", td_gfp_t); ("seqlock_t", td_seqlock_t);
  ("__kernel_gid32_t", td___kernel_gid32_t); ("gid_t", td_gid_t); ("kgid_t", td_kgid_t);
  ("kernel_cap_t", td_kernel_cap_t)].

End Vmlinux.
