(* ===== verification/Kernel.v ===== *)
(** * Kernel: the program's data in memory

    The structures [agent/ebpf/deepkernel.bpf.c] and [agent/include/event_types.h]
    declare, as C types with the layout of [Layout.v]; the program on the bytes of
    the tracepoint's record, whose type is in [Vmlinux.v]; and the ring-buffer map.
    The theorems tie the bytes of [Ebpf.v] and [Serialization.v] to those
    declarations. *)

From S2P Require Export Ebpf Layout Vmlinux.

#[local] Open Scope Z_scope.

Module Kernel.
Import C Vmlinux.

(** ** Declarations *)

Definition dk_syscall_event_type : ctype := Struct [
  m "ts_ns" td___u64; m "pid" td___u32; m "tid" td___u32; m "cgroup_id" td___u32;
  m "syscall_id" td___u16; m "arg_class" td___u8; m "arg_bucket" td___u8].

Definition KernelSyscallEvent_type : ctype := Struct [
  m "ts_ns" ulong; m "pid" uint; m "tid" uint; m "cgroup_id" uint;
  m "syscall_id" ushort; m "arg_class" uchar; m "arg_bucket" uchar].

Definition TraceRecord_type : ctype := Struct_packed [
  m "delta_ts_us" uint; m "syscall_id" ushort; m "arg_class" uchar; m "arg_bucket" uchar].

Definition TraceHeader_type : ctype := Struct_packed [
  m "version" uint; m "syscall_vocab_size" uint; m "container_id" (TArray char 64);
  m "start_ts_ns" ulong].

(** The value of an enumerator. *)
Definition enumerator (e : list (string * Z)) (name : string) : option Z :=
  snd <$> List.find (λ c, (c.1 =? name)%string) e.

(** The map [events]: its type and its [max_entries]. *)
Definition events_map : option Z * Z :=
  (enumerator enum_bpf_map_type "BPF_MAP_TYPE_RINGBUF", 256 * 1024).

(** ** The program on the bytes of its context *)

(** [ctx->id]. *)
Definition ctx_id (ctx : list Z) : option Z := C.read struct_trace_event_raw_sys_enter ctx "id".

Definition handle_sys_enter_ctx (env : bpf_env) (ctx : list Z) (ring : list (list Z))
    : option (Z * list (list Z)) :=
  id ← ctx_id ctx; Some (handle_sys_enter env id ring).

(** ** Typed paths through pointers *)

(** What a pointer of the header points to; any other type is its own object. *)
Definition target (t : ctype) : ctype :=
  match t with
  | TPtr to => default t (snd <$> List.find (λ d, (d.1 =? to)%string) types)
  | _ => t
  end.

(** The type of [p->a->b...] for a pointer or object [p] of type [t]. *)
Fixpoint path_type (t : ctype) (path : list string) : option ctype :=
  match path with
  | [] => Some t
  | name :: rest => p ← C.find (target t) name; path_type (p_type p) rest
  end.

(** ** Lemmas *)

Lemma types_ok : forallb (λ d, C.ok d.2) types = true.
Proof. vm_compute. reflexivity. Qed.

(** The sizes the two ends of the ring buffer and of the dump files rely on. *)
Lemma declared_sizes :
  sizeof dk_syscall_event_type = Z.of_nat KernelSyscallEvent_size
  ∧ sizeof KernelSyscallEvent_type = Z.of_nat KernelSyscallEvent_size
  ∧ sizeof TraceRecord_type = Z.of_nat TraceRecord_size
  ∧ sizeof TraceHeader_type = Z.of_nat TraceHeader_size
  ∧ sizeof struct_trace_event_raw_sys_enter = 64.
Proof. split_and!; vm_compute; reflexivity. Qed.

(** Reading a member whose bytes are known. *)
Lemma read_at t name size signed z pre rest :
  C.find t name = Some (Place name (8 * Z.of_nat (length pre)) None (TInt size signed)) →
  C.ok (TInt size signed) = true →
  C.read t (pre ++ le_bytes (Z.to_nat size) z ++ rest) name
  = Some (let v := le_val (le_bytes (Z.to_nat size) z) in
          if signed then to_signed size v else v).
Proof.
  intros Hf Ho. unfold C.read. rewrite Hf. cbn [mbind option_bind p_bits p_type p_offset].
  rewrite Z.mul_comm, Z.div_mul, Nat2Z.id, drop_app_length by lia. by apply load_int.
Qed.

Lemma read_unsigned t name size z pre rest :
  C.find t name = Some (Place name (8 * Z.of_nat (length pre)) None (TInt size false)) →
  C.ok (TInt size false) = true → fits (8 * size) z →
  C.read t (pre ++ le_bytes (Z.to_nat size) z ++ rest) name = Some z.
Proof.
  intros Hf Ho Hz. rewrite (read_at t name size false z pre rest Hf Ho). cbv zeta.
  apply bool_decide_eq_true in Ho. rewrite le_val_bytes; [done|].
  rewrite Z2Nat.id by lia. done.
Qed.

Definition dk_wf (e : dk_syscall_event_t) : Prop :=
  fits 64 (dk_ts_ns e) ∧ fits 32 (dk_pid e) ∧ fits 32 (dk_tid e) ∧ fits 32 (dk_cgroup_id e)
  ∧ fits 16 (dk_syscall_id e) ∧ fits 8 (dk_arg_class e) ∧ fits 8 (dk_arg_bucket e).

(** The value of every member of an object, by name. *)
Definition members_are (t : ctype) (bytes : list Z) (values : list (string * Z)) : Prop :=
  Z.of_nat (length bytes) = sizeof t
  ∧ Forall (λ v, C.read t bytes v.1 = Some v.2) values.

(** Consecutive unsigned members: a name, a size and a value each. *)
Definition unsigned_bytes (fs : list (string * Z * Z)) : list Z :=
  concat (map (λ f, le_bytes (Z.to_nat f.1.2) f.2) fs).

Fixpoint consecutive (t : ctype) (pos : Z) (fs : list (string * Z * Z)) : Prop :=
  match fs with
  | [] => True
  | (name, size, _) :: fs =>
      C.find t name = Some (Place name (8 * pos) None (TInt size false))
      ∧ C.ok (TInt size false) = true ∧ consecutive t (pos + size) fs
  end.

Lemma consecutive_members t pre fs rest :
  consecutive t (Z.of_nat (length pre)) fs → Forall (λ f, fits (8 * f.1.2) f.2) fs →
  Forall (λ f, C.read t (pre ++ unsigned_bytes fs ++ rest) f.1.1 = Some f.2) fs.
Proof.
  revert pre. induction fs as [|[[name size] z] fs IH]; intros pre; [constructor|].
  intros (Hf & Ho & Hc) [Hz Hfs]%Forall_cons. unfold unsigned_bytes. cbn [map concat fst snd] in *.
  fold (unsigned_bytes fs). rewrite <-app_assoc. constructor.
  - by apply read_unsigned.
  - rewrite app_assoc. apply IH; [|done]. rewrite length_app, le_bytes_length, Nat2Z.inj_add.
    apply bool_decide_eq_true in Ho. rewrite Z2Nat.id by lia. done.
Qed.

(** A structure that is nothing but consecutive unsigned members. *)
Lemma all_members t fs :
  consecutive t 0 fs → Forall (λ f, fits (8 * f.1.2) f.2) fs →
  Z.of_nat (length (unsigned_bytes fs)) = sizeof t →
  members_are t (unsigned_bytes fs) (map (λ f, (f.1.1, f.2)) fs).
Proof.
  intros Hc Hf Hl. split; [done|]. apply Forall_map.
  pose proof (consecutive_members t [] fs [] Hc Hf) as Hm. by rewrite app_nil_r in Hm.
Qed.

#[local] Ltac fits_all := repeat (apply Forall_cons; split; [assumption|]); apply Forall_nil; exact I.

Lemma dk_event_members e :
  dk_wf e →
  members_are dk_syscall_event_type (dk_event_bytes e)
    [("ts_ns", dk_ts_ns e); ("pid", dk_pid e); ("tid", dk_tid e); ("cgroup_id", dk_cgroup_id e);
     ("syscall_id", dk_syscall_id e); ("arg_class", dk_arg_class e);
     ("arg_bucket", dk_arg_bucket e)].
Proof.
  intros (H1 & H2 & H3 & H4 & H5 & H6 & H7).
  apply (all_members _ [("ts_ns", 8, dk_ts_ns e); ("pid", 4, dk_pid e); ("tid", 4, dk_tid e);
    ("cgroup_id", 4, dk_cgroup_id e); ("syscall_id", 2, dk_syscall_id e);
    ("arg_class", 1, dk_arg_class e); ("arg_bucket", 1, dk_arg_bucket e)]);
    [repeat split; reflexivity|fits_all|reflexivity].
Qed.

Lemma trace_record_members r :
  TraceRecord_wf r →
  members_are TraceRecord_type (TraceRecord_bytes r)
    [("delta_ts_us", delta_ts_us r); ("syscall_id", tr_syscall_id r);
     ("arg_class", tr_arg_class r); ("arg_bucket", tr_arg_bucket r)].
Proof.
  intros (H1 & H2 & H3 & H4).
  apply (all_members _ [("delta_ts_us", 4, delta_ts_us r); ("syscall_id", 2, tr_syscall_id r);
    ("arg_class", 1, tr_arg_class r); ("arg_bucket", 1, tr_arg_bucket r)]);
    [repeat split; reflexivity|fits_all|reflexivity].
Qed.

Lemma trace_header_members h :
  TraceHeader_wf h →
  members_are TraceHeader_type (TraceHeader_bytes h)
    [("version", version h); ("syscall_vocab_size", syscall_vocab_size h);
     ("start_ts_ns", start_ts_ns h)]
  ∧ take 64 (drop 8 (TraceHeader_bytes h)) = container_id h.
Proof.
  intros Hwf. pose proof Hwf as (Hv & Hs & Hl & _ & Ht). split; [split|].
  - by rewrite TraceHeader_bytes_length.
  - unfold TraceHeader_bytes. repeat (apply Forall_cons; split); [| | |apply Forall_nil; exact I];
      cbn [fst snd].
    + by apply (read_unsigned _ _ 4 _ []).
    + by apply (read_unsigned _ _ 4 _ (le_bytes 4 _)).
    + rewrite !app_assoc, <-(app_nil_r (le_bytes 8 _)).
      apply (read_unsigned _ _ 8 _ _ []); [|done|done].
      rewrite !length_app, !le_bytes_length, Hl. reflexivity.
  - unfold TraceHeader_bytes. rewrite app_assoc, drop_app_length' by done.
    by rewrite take_app_length'.
Qed.

(** The id the program reads from a sys_enter record. *)
Lemma ctx_id_record ent id args :
  length ent = 8%nat → - 2 ^ 63 ≤ id < 2 ^ 63 →
  ctx_id (ent ++ le_bytes 8 (u64 id) ++ args) = Some id.
Proof.
  intros Hent Hid. unfold ctx_id.
  rewrite (read_at _ _ 8 true (u64 id) ent args); [|by rewrite Hent|done].
  cbv zeta. change (Z.to_nat 8) with 8%nat. rewrite le_val_bytes by (by apply wrap_fits).
  f_equal. by apply (to_signed_wrap 8).
Qed.

Lemma ctx_id_short ctx : (length ctx < 16)%nat → ctx_id ctx = None.
Proof.
  intros Hl. unfold ctx_id, C.read. change (C.find struct_trace_event_raw_sys_enter "id") with
    (Some (Place "id" 64 None (TInt 8 true))). cbn [mbind option_bind p_bits p_type p_offset load].
  rewrite bool_decide_eq_false_2; [done|]. rewrite length_take, length_drop. change (Z.to_nat (64 / 8)) with 8%nat. lia.
Qed.

(** ** The kernel's side of the helpers *)

(** The id [bpf_get_current_cgroup_id] answers with is, along the declared pointers from the
    task, an unsigned 64-bit member; the sample's member has 32 bits. *)
Lemma cgroup_id_types :
  path_type (TPtr "struct task_struct") ["cgroups"; "dfl_cgrp"; "kn"; "id"] = Some td_u64
  ∧ path_type dk_syscall_event_type ["cgroup_id"] = Some td_u32.
Proof. split; vm_compute; reflexivity. Qed.

(** Both halves of [bpf_get_current_pid_tgid] are 32-bit members of the task. *)
Lemma pid_tgid_types :
  path_type (TPtr "struct task_struct") ["pid"] = Some int
  ∧ path_type (TPtr "struct task_struct") ["tgid"] = Some int.
Proof. split; vm_compute; reflexivity. Qed.

(** The numbers of the helpers the program calls, in a numbering without gaps. *)
Lemma helper_numbers :
  map (enumerator enum_bpf_func_id)
    ["BPF_FUNC_ktime_get_ns"; "BPF_FUNC_get_current_pid_tgid";
     "BPF_FUNC_get_current_cgroup_id"; "BPF_FUNC_ringbuf_reserve"; "BPF_FUNC_ringbuf_submit"]
  = [Some 5; Some 14; Some 80; Some 131; Some 132]
  ∧ map snd enum_bpf_func_id = map Z.of_nat (seq 0 (length enum_bpf_func_id)).
Proof. split; vm_compute; reflexivity. Qed.

(** The ring buffer's size is what the kernel asks for: a power of two, in whole pages. *)
Lemma events_map_valid :
  events_map = (Some 27, 2 ^ 18) ∧ events_map.2 mod 4096 = 0.
Proof. split; vm_compute; reflexivity. Qed.

(** ** Properties *)

(** The kernel types.  Every structure and union the program's header declares for it, and
    the structures of both ends, have a sound layout: sizes are multiples of alignments,
    members lie inside the object, those of a structure follow one another without
    overlap and, unless packed, at their alignment, and look-up by name (through anonymous
    members) finds a member of that name inside the object. *)
Theorem types_laid_out :
  Forall (λ d, laid_out d.2) types
  ∧ Forall laid_out [dk_syscall_event_type; KernelSyscallEvent_type; TraceRecord_type;
                     TraceHeader_type].
Proof.
  split; [|repeat (apply Forall_cons; split; [apply ok_laid_out; reflexivity|]); by apply Forall_nil].
  apply Forall_forall. intros d Hd. apply ok_laid_out.
  pose proof types_ok as Ho. rewrite forallb_forall in Ho. by apply Ho, list_elem_of_In.
Qed.

(** C21: the bytes that cross are the declared structures.  The kernel's and the agent's
    declarations of a sample have the same layout; and the bytes of a sample, a trace
    record and a dump header have the declared size and hold, at the place the compiler
    gives each member, that member's value. *)
Theorem declarations_agree :
  layout dk_syscall_event_type = layout KernelSyscallEvent_type
  ∧ (∀ e, dk_wf e →
      members_are KernelSyscallEvent_type (dk_event_bytes e)
        [("ts_ns", dk_ts_ns e); ("pid", dk_pid e); ("tid", dk_tid e);
         ("cgroup_id", dk_cgroup_id e); ("syscall_id", dk_syscall_id e);
         ("arg_class", dk_arg_class e); ("arg_bucket", dk_arg_bucket e)])
  ∧ (∀ r, TraceRecord_wf r →
      members_are TraceRecord_type (TraceRecord_bytes r)
        [("delta_ts_us", delta_ts_us r); ("syscall_id", tr_syscall_id r);
         ("arg_class", tr_arg_class r); ("arg_bucket", tr_arg_bucket r)])
  ∧ (∀ h, TraceHeader_wf h →
      members_are TraceHeader_type (TraceHeader_bytes h)
        [("version", version h); ("syscall_vocab_size", syscall_vocab_size h);
         ("start_ts_ns", start_ts_ns h)]
      ∧ take 64 (drop 8 (TraceHeader_bytes h)) = container_id h).
Proof.
  split; [reflexivity|]. split; [exact dk_event_members|].
  split; [exact trace_record_members|exact trace_header_members].
Qed.

Definition sample_header : TraceHeader :=
  MkTraceHeader 1 256 (replicate 64 65) 77.

Lemma declarations_agree_witness :
  C.read KernelSyscallEvent_type (dk_event_bytes (fill_event sample_env 59)) "pid" = Some 1234
  ∧ C.read TraceRecord_type (TraceRecord_bytes (MkTraceRecord 9 59 3 0)) "syscall_id" = Some 59
  ∧ C.read TraceHeader_type (TraceHeader_bytes sample_header) "start_ts_ns" = Some 77.
Proof.
  destruct declarations_agree as (_ & He & Hr & Hh).
  split; [|split].
  - destruct (He (fill_event sample_env 59)) as [_ Hf]; [apply fill_event_fits|].
    exact (Forall_lookup_1 _ _ 1%nat _ Hf eq_refl).
  - destruct (Hr (MkTraceRecord 9 59 3 0)) as [_ Hf]; [unfold TraceRecord_wf, fits; cbn; lia|].
    exact (Forall_lookup_1 _ _ 1%nat _ Hf eq_refl).
  - destruct (Hh sample_header) as [[_ Hf] _].
    { unfold TraceHeader_wf, fits; cbn. repeat split; try lia; repeat constructor; lia. }
    exact (Forall_lookup_1 _ _ 2%nat _ Hf eq_refl).
Defined.

(** C20: the program on its context.  Whatever the rest of a sys_enter record holds, the program
    reads the call's number, a signed 64-bit long, after the 8 bytes common to every
    tracepoint, and nothing beyond 16 bytes; the sample it submits then carries the low 16
    bits of that number and the class its table gives it. *)
Theorem handle_sys_enter_ctx_spec env ent id args ring :
  length ent = 8%nat → - 2 ^ 63 ≤ id < 2 ^ 63 →
  handle_sys_enter_ctx env (ent ++ le_bytes 8 (u64 id) ++ args) ring
    = Some (handle_sys_enter env id ring)
  ∧ (reserve_ok env = true → ∃ sample,
      handle_sys_enter_ctx env (ent ++ le_bytes 8 (u64 id) ++ args) ring
        = Some (0, ring ++ [sample])
      ∧ C.read KernelSyscallEvent_type sample "syscall_id" = Some (id mod 2 ^ 16)
      ∧ C.read KernelSyscallEvent_type sample "arg_class" = Some (classify_arg_class id)).
Proof.
  intros Hent Hid. unfold handle_sys_enter_ctx. rewrite ctx_id_record by done.
  cbn [mbind option_bind]. split; [done|]. intros Hr. unfold handle_sys_enter. rewrite Hr. cbn [negb].
  eexists. split; [done|].
  destruct (dk_event_members _ (fill_event_fits env id)) as [_ Hf].
  split; [exact (Forall_lookup_1 _ _ 4%nat _ Hf eq_refl)|].
  rewrite <-(classify_fits id). exact (Forall_lookup_1 _ _ 5%nat _ Hf eq_refl).
Qed.

Lemma handle_sys_enter_ctx_spec_witness :
  ∃ sample,
    handle_sys_enter_ctx sample_env (replicate 8 0 ++ le_bytes 8 (u64 42) ++ replicate 48 0) []
      = Some (0, [sample])
    ∧ C.read KernelSyscallEvent_type sample "syscall_id" = Some 42
    ∧ C.read KernelSyscallEvent_type sample "arg_class" = Some ARG_CLASS_NET.
Proof.
  destruct (handle_sys_enter_ctx_spec sample_env (replicate 8 0) 42 (replicate 48 0) [])
    as [_ Hs]; [reflexivity|lia|]. exact (Hs eq_refl).
Defined.
End Kernel.
