(* ===== verification/Regex.v ===== *)
(** * Regex: the part of std::regex the agent uses

    The agent's patterns are ECMAScript regular expressions of one shape: a
    sequence of single-character items (a literal, the dot, an escape class, a
    bracket class) each with a quantifier, greedy or lazy, and capture groups
    that do not nest.  [compile] reads such a pattern from its text, exactly as
    it is written in the sources; [regex_search] is the standard's backtracking
    search: the leftmost start, and at that start the first alternative in
    priority order.  [matches] is the declarative language of a pattern;
    the lemmas give soundness and completeness of the search against it. *)

From S2P Require Export Prelude.

#[local] Open Scope nat_scope.

(** ** Syntax *)

Inductive charset :=
  | CLit (c : ascii)
  | CDot                                           (* . : not a line terminator *)
  | CSpace                                         (* \s *)
  | CDigit                                         (* \d *)
  | CClass (neg : bool) (ranges : list (ascii * ascii)).  (* [...] *)

(** [Quant min max greedy]; [max = None] is unbounded. *)
Record quantifier := Quant { q_min : nat; q_max : option nat; q_greedy : bool }.

Inductive token :=
  | TChar (c : charset) (qt : quantifier)
  | TOpen
  | TClose.

Definition once : quantifier := Quant 1 (Some 1) true.

Definition code (c : ascii) : N := Ascii.N_of_ascii c.

Definition in_range (c : ascii) (r : ascii * ascii) : bool :=
  ((code r.1 <=? code c) && (code c <=? code r.2))%N.

Definition mem (cs : charset) (c : ascii) : bool :=
  match cs with
  | CLit c' => bool_decide (c = c')
  | CDot => negb (bool_decide (c = lf)) && negb (bool_decide (c = cr))
  | CSpace => Ascii.is_space c
  | CDigit => in_range c ("0", "9")%char
  | CClass neg rs => xorb neg (existsb (in_range c) rs)
  end.

(** ** Reading a pattern *)

Fixpoint read_nat (acc : option nat) (l : list ascii) : option nat * list ascii :=
  match l with
  | c :: l' =>
      match Ascii.is_nat c with
      | Some d => read_nat (Some (10 * default 0 acc + d)) l'
      | None => (acc, l)
      end
  | [] => (acc, [])
  end.

(** A quantifier suffix; [None] for a malformed brace. *)
Definition read_bounds (l : list ascii) : option ((nat * option nat) * list ascii) :=
  match l with
  | "*"%char :: l => Some ((0, None), l)
  | "+"%char :: l => Some ((1, None), l)
  | "?"%char :: l => Some ((0, Some 1), l)
  | "{"%char :: l =>
      match read_nat None l with
      | (Some n, "}"%char :: l) => Some ((n, Some n), l)
      | (Some n, ","%char :: l) =>
          match read_nat None l with
          | (m, "}"%char :: l) => Some ((n, m), l)
          | _ => None
          end
      | _ => None
      end
  | _ => Some ((1, Some 1), l)
  end.

Definition is_quantifier (c : ascii) : bool :=
  bool_decide (c ∈ ["*"; "+"; "?"; "{"]%char).

Definition read_quantifier (l : list ascii) : option (quantifier * list ascii) :=
  match l with
  | c :: _ =>
      if is_quantifier c then
        '((mn, mx), l) ← read_bounds l;
        match l with
        | "?"%char :: l => Some (Quant mn mx false, l)
        | _ => Some (Quant mn mx true, l)
        end
      else Some (once, l)
  | [] => Some (once, l)
  end.

(** The members of a bracket class, after the optional caret. *)
Fixpoint read_ranges (l : list ascii) : option (list (ascii * ascii) * list ascii) :=
  match l with
  | "]"%char :: l => Some ([], l)
  | c :: "-"%char :: d :: l' =>
      if bool_decide (d = "]"%char) then Some ([(c, c); ("-", "-")%char], l')
      else '(rs, l) ← read_ranges l'; Some ((c, d) :: rs, l)
  | c :: l => '(rs, l) ← read_ranges l; Some ((c, c) :: rs, l)
  | [] => None
  end.

Definition read_class (l : list ascii) : option (charset * list ascii) :=
  match l with
  | "^"%char :: l => '(rs, l) ← read_ranges l; Some (CClass true rs, l)
  | _ => '(rs, l) ← read_ranges l; Some (CClass false rs, l)
  end.

Definition read_escape (l : list ascii) : option (charset * list ascii) :=
  match l with
  | "s"%char :: l => Some (CSpace, l)
  | "d"%char :: l => Some (CDigit, l)
  | "."%char :: l => Some (CLit ".", l)
  | _ => None
  end.

(** The characters with a meaning this reader does not cover, or that cannot
    start an item. *)
Definition unsupported (c : ascii) : bool :=
  bool_decide (c ∈ ["|"; "^"; "$"; "*"; "+"; "?"; "{"; "}"; "]"]%char).

(** [opened] says whether a group is open. *)
Fixpoint read_tokens (fuel : nat) (opened : bool) (l : list ascii) : option (list token) :=
  match fuel with
  | O => None
  | S fuel =>
      let item cs l :=
        '(qt, l) ← read_quantifier l;
        ts ← read_tokens fuel opened l; Some (TChar cs qt :: ts) in
      match l with
      | [] => if opened then None else Some []
      | c :: l =>
          if bool_decide (c = "("%char) then
            if opened then None else ts ← read_tokens fuel true l; Some (TOpen :: ts)
          else if bool_decide (c = ")"%char) then
            if opened then ts ← read_tokens fuel false l; Some (TClose :: ts) else None
          else if bool_decide (c = "."%char) then item CDot l
          else if bool_decide (c = bslash) then '(cs, l) ← read_escape l; item cs l
          else if bool_decide (c = "["%char) then '(cs, l) ← read_class l; item cs l
          else if unsupported c then None
          else item (CLit c) l
      end
  end.

(** [std::regex re(pattern)]. *)
Definition compile (pattern : string) : option (list token) :=
  read_tokens (S (String.length pattern)) false (chars pattern).

(** ** Matching *)

Definition first_of {A} (x : option A) (y : option A) : option A :=
  match x with Some _ => x | None => y end.

Section rep.
Context {R : Type} (k : list ascii → option R) (cs : charset) (greedy : bool).

(** Repetitions of one item, then [k]: one more first when greedy, [k] first
    when lazy. *)
Fixpoint rep (mn : nat) (mx : option nat) (s : list ascii) {struct s} : option R :=
  let stop := match mn with O => k s | S _ => None end in
  let more :=
    match s with
    | c :: s' =>
        if mem cs c && negb (bool_decide (mx = Some 0))
        then rep (pred mn) (pred <$> mx) s' else None
    | [] => None
    end in
  if greedy then first_of more stop else first_of stop more.
End rep.

(** Match the tokens at the front of [s]; [open] is the text at the last opened
    group.  The result is the captured texts and what is left. *)
Fixpoint match_here (ts : list token) (open : option (list ascii))
    (caps : list (list ascii)) (s : list ascii)
    : option (list (list ascii) * list ascii) :=
  match ts with
  | [] => Some (caps, s)
  | TChar cs (Quant mn mx greedy) :: ts => rep (match_here ts open caps) cs greedy mn mx s
  | TOpen :: ts => match_here ts (Some s) caps s
  | TClose :: ts =>
      match open with
      | Some s0 => match_here ts None (caps ++ [take (length s0 - length s) s0]) s
      | None => None
      end
  end.

(** The leftmost start that matches.  The result is [smatch]: the whole match,
    then the groups. *)
Fixpoint search_from (ts : list token) (s : list ascii) : option (list (list ascii)) :=
  match match_here ts None [] s with
  | Some (caps, r) => Some (take (length s - length r) s :: caps)
  | None => match s with [] => None | _ :: s' => search_from ts s' end
  end.

(** [std::regex_search(subject, match, std::regex(pattern))]: the sub-matches. *)
Definition regex_search (subject pattern : string) : option (list string) :=
  ts ← compile pattern;
  ms ← search_from ts (chars subject);
  Some (map of_chars ms).

(** [match[i].str()]. *)
Definition sub_match (m : list string) (i : nat) : string := default "" (m !! i).

(** ** The language of a pattern *)

Definition le_max (n : nat) (mx : option nat) : Prop :=
  match mx with Some m => n ≤ m | None => True end.

Inductive matches : list token → option (list ascii) → list (list ascii) →
    list ascii → list (list ascii) → list ascii → Prop :=
  | matches_nil o caps s : matches [] o caps s caps s
  | matches_char cs mn mx g ts o caps u s caps' r :
      Forall (λ c, mem cs c = true) u → mn ≤ length u → le_max (length u) mx →
      matches ts o caps s caps' r →
      matches (TChar cs (Quant mn mx g) :: ts) o caps (u ++ s) caps' r
  | matches_open ts o caps s caps' r :
      matches ts (Some s) caps s caps' r →
      matches (TOpen :: ts) o caps s caps' r
  | matches_close ts s0 caps s caps' r :
      matches ts None (caps ++ [take (length s0 - length s) s0]) s caps' r →
      matches (TClose :: ts) (Some s0) caps s caps' r.

#[export] Hint Constructors matches : dk.

(** ** Lemmas *)

Lemma first_of_Some {A} (x y : option A) r :
  first_of x y = Some r → x = Some r ∨ y = Some r.
Proof. destruct x; simpl; auto. Qed.

Lemma first_of_is_Some {A} (x y : option A) :
  is_Some (first_of x y) ↔ is_Some x ∨ is_Some y.
Proof.
  destruct x as [a|]; simpl; (split; [auto; by right|]); [intros _; by eexists|].
  intros [[? [=]]|?]; done.
Qed.

Lemma rep_sound {R} (k : list ascii → option R) cs g mn mx s r :
  rep k cs g mn mx s = Some r →
  ∃ u s', s = u ++ s' ∧ Forall (λ c, mem cs c = true) u ∧ mn ≤ length u
    ∧ le_max (length u) mx ∧ k s' = Some r.
Proof.
  revert mn mx. induction s as [|c s IH]; intros mn mx Hrep.
  - assert (mn = 0 ∧ k [] = Some r) as [-> Hk].
    { destruct mn, g; simpl in Hrep; try done. by destruct (k []). }
    exists [], []. split_and!; try done. destruct mx; simpl; lia.
  - cbn [rep] in Hrep.
    assert ((mn = 0 ∧ k (c :: s) = Some r) ∨
      (mem cs c = true ∧ mx ≠ Some 0 ∧ rep k cs g (pred mn) (pred <$> mx) s = Some r))
      as [[-> Hk]|(Hm & Hmx & Hr)].
    { assert (Hor : match mn with O => k (c :: s) | S _ => None end = Some r ∨
        (if mem cs c && negb (bool_decide (mx = Some 0))
         then rep k cs g (pred mn) (pred <$> mx) s else None) = Some r)
        by (destruct g; apply first_of_Some in Hrep; tauto).
      destruct Hor as [Hk|Hr]; [left; by destruct mn|right].
      destruct (mem cs c); [|done]. by case_bool_decide. }
    + exists [], (c :: s). split_and!; try done. destruct mx; simpl; lia.
    + destruct (IH _ _ Hr) as (u & s' & -> & Hu & Hmin & Hmax & Hk).
      exists (c :: u), s'. split_and!; try done; [by constructor|simpl; lia|].
      destruct mx as [[|m]|]; simpl in *; [done|lia|done].
Qed.

Lemma rep_complete {R} (k : list ascii → option R) cs g mn mx u s :
  Forall (λ c, mem cs c = true) u → mn ≤ length u → le_max (length u) mx →
  is_Some (k s) → is_Some (rep k cs g mn mx (u ++ s)).
Proof.
  intros Hu. revert mn mx. induction Hu as [|c u Hc _ IH]; intros mn mx Hmin Hmax Hk.
  - simpl in Hmin. assert (mn = 0) as -> by lia. simpl.
    destruct s as [|c s]; cbn [rep]; destruct g; apply first_of_is_Some; auto.
  - cbn [app rep]. rewrite Hc.
    assert (is_Some (rep k cs g (pred mn) (pred <$> mx) (u ++ s))).
    { apply IH; [simpl in Hmin; lia| |done]. destruct mx; simpl in *; [lia|done]. }
    rewrite bool_decide_false by (intros ->; simpl in Hmax; lia). cbn [negb andb].
    destruct g; apply first_of_is_Some; auto.
Qed.

Lemma match_here_sound ts o caps s caps' r :
  match_here ts o caps s = Some (caps', r) → matches ts o caps s caps' r.
Proof.
  revert o caps s. induction ts as [|[cs [mn mx g]| |] ts IH]; intros o caps s Hm;
    cbn [match_here] in Hm.
  - simplify_eq. constructor.
  - apply rep_sound in Hm as (u & s' & -> & ? & ? & ? & Hk). constructor; auto.
  - constructor; auto.
  - destruct o as [s0|]; [|done]. constructor; auto.
Qed.

Lemma match_here_complete ts o caps s caps' r :
  matches ts o caps s caps' r → is_Some (match_here ts o caps s).
Proof.
  induction 1; cbn [match_here]; [done| |done|done]. by apply rep_complete.
Qed.

(** The leftmost match: no earlier start is in the language. *)
Lemma search_from_sound ts s ms :
  search_from ts s = Some ms →
  ∃ pre mid r caps, s = pre ++ mid ∧ ms = take (length mid - length r) mid :: caps
    ∧ match_here ts None [] mid = Some (caps, r)
    ∧ (∀ pre1 pre2 c r, pre = pre1 ++ pre2 → pre2 ≠ [] →
         ¬ matches ts None [] (pre2 ++ mid) c r).
Proof.
  induction s as [|a s IH]; cbn [search_from]; intros Hs.
  - destruct (match_here ts None [] []) as [[caps r]|] eqn:Hm; simplify_eq.
    exists [], [], r, caps. split_and!; try done.
    intros pre1 pre2 ? ? Heq. symmetry in Heq. by apply app_nil in Heq as [_ ->].
  - destruct (match_here ts None [] (a :: s)) as [[caps r]|] eqn:Hm; simplify_eq.
    + exists [], (a :: s), r, caps. split_and!; try done.
      intros pre1 pre2 ? ? Heq. symmetry in Heq. by apply app_nil in Heq as [_ ->].
    + destruct (IH Hs) as (pre & mid & r & caps & -> & -> & Hm' & Hleft).
      exists (a :: pre), mid, r, caps. split_and!; try done.
      intros [|b pre1] pre2 c r' Heq Hne Hmat; simplify_eq/=.
      * apply match_here_complete in Hmat as [? Hmat]. simpl in Hmat. congruence.
      * by apply (Hleft pre1 pre2 c r').
Qed.

Lemma search_from_skip ts a s :
  match_here ts None [] (a :: s) = None → search_from ts (a :: s) = search_from ts s.
Proof. intros H. cbn [search_from]. by rewrite H. Qed.

Lemma search_from_none ts s :
  search_from ts s = None ↔
  ∀ pre mid c r, s = pre ++ mid → ¬ matches ts None [] mid c r.
Proof.
  induction s as [|a s IH]; cbn [search_from].
  - split.
    + intros Hs pre mid c r Heq Hm. symmetry in Heq. apply app_nil in Heq as [-> ->].
      apply match_here_complete in Hm as [[? ?] Hm]. by rewrite Hm in Hs.
    + intros Hno. destruct (match_here ts None [] []) as [[caps r]|] eqn:Hm; [|done].
      exfalso. by eapply (Hno [] []), match_here_sound.
  - destruct (match_here ts None [] (a :: s)) as [[caps r]|] eqn:Hm; split.
    + done.
    + intros Hno. exfalso. by eapply (Hno [] (a :: s)), match_here_sound.
    + intros Hs [|b pre] mid c r Heq Hmat; simplify_eq/=.
      * apply match_here_complete in Hmat as [? Hmat]. congruence.
      * by eapply IH.
    + intros Hno. apply IH. intros pre mid c r -> Hmat. by apply (Hno (a :: pre) mid c r).
Qed.

(** ** Running the matcher, token by token *)

(** A greedy item takes all it can when what follows then matches. *)
Lemma rep_greedy {R} (k : list ascii → option R) cs n u s :
  Forall (λ c, mem cs c = true) u → n ≤ length u →
  match s with c :: _ => mem cs c = false | [] => True end → is_Some (k s) →
  rep k cs true n None (u ++ s) = k s.
Proof.
  intros Hu. revert n. induction Hu as [|c u Hc _ IH]; intros n Hn Hs [r Hr].
  - assert (n = 0) as -> by (simpl in Hn; lia). destruct s as [|c s]; [done|].
    cbn [app rep]. by rewrite Hs.
  - cbn [app rep]. rewrite Hc. change (bool_decide (None = Some 0)) with false. cbn [negb andb].
    change (pred <$> None) with (@None nat). rewrite IH, Hr; [done|simpl in Hn; lia|done|by eexists].
Qed.

Lemma match_lit cs ts o caps c s :
  mem cs c = true → match_here (TChar cs once :: ts) o caps (c :: s) = match_here ts o caps s.
Proof.
  intros Hc. unfold once. cbn [match_here rep]. rewrite Hc. cbn [bool_decide negb andb pred].
  rewrite bool_decide_false by done. cbn [negb]. change (pred <$> Some 1) with (Some 0).
  destruct s as [|c' s]; cbn [rep]; [by destruct (match_here ts o caps [])|].
  rewrite (bool_decide_true (Some 0 = Some 0)) by done. rewrite andb_false_r.
  cbn [first_of]. by destruct (match_here ts o caps (c' :: s)).
Qed.

Lemma match_greedy cs n ts o caps u s :
  Forall (λ c, mem cs c = true) u → n ≤ length u →
  match s with c :: _ => mem cs c = false | [] => True end → is_Some (match_here ts o caps s) →
  match_here (TChar cs (Quant n None true) :: ts) o caps (u ++ s) = match_here ts o caps s.
Proof. apply rep_greedy. Qed.

Lemma match_skip cs ts o caps s :
  match s with c :: _ => mem cs c = false | [] => True end →
  match_here (TChar cs (Quant 0 None true) :: ts) o caps s = match_here ts o caps s.
Proof. destruct s as [|c s]; [done|]. intros Hc. cbn [match_here rep]. by rewrite Hc. Qed.

(** ** Inversion of the language, token by token *)

Lemma matches_nil_iff o caps s caps' r : matches [] o caps s caps' r ↔ caps' = caps ∧ r = s.
Proof. split; [by inversion 1|]. intros [-> ->]. constructor. Qed.

Lemma matches_char_iff cs mn mx g ts o caps s caps' r :
  matches (TChar cs (Quant mn mx g) :: ts) o caps s caps' r ↔
  ∃ u s', s = u ++ s' ∧ Forall (λ c, mem cs c = true) u ∧ mn ≤ length u
    ∧ le_max (length u) mx ∧ matches ts o caps s' caps' r.
Proof.
  split.
  - inversion 1; subst. eauto 10.
  - intros (u & s' & -> & ? & ? & ? & ?). by constructor.
Qed.

Lemma matches_once_iff cs ts o caps s caps' r :
  matches (TChar cs once :: ts) o caps s caps' r ↔
  ∃ c s', s = c :: s' ∧ mem cs c = true ∧ matches ts o caps s' caps' r.
Proof.
  unfold once. rewrite matches_char_iff. split.
  - intros ([|c [|c' u]] & s' & -> & Hu & Hmn & Hmx & ?); simpl in *; try lia.
    inversion Hu; subst. eauto.
  - intros (c & s' & -> & Hc & ?). exists [c], s'.
    split_and!; [done|by constructor|simpl; lia|simpl; lia|done].
Qed.

Lemma matches_open_iff ts o caps s caps' r :
  matches (TOpen :: ts) o caps s caps' r ↔ matches ts (Some s) caps s caps' r.
Proof. split; [by inversion 1|by constructor]. Qed.

Lemma matches_close_iff ts o caps s caps' r :
  matches (TClose :: ts) o caps s caps' r ↔
  ∃ s0, o = Some s0
    ∧ matches ts None (caps ++ [take (length s0 - length s) s0]) s caps' r.
Proof. split; [inversion 1; subst; eauto|]. intros (s0 & -> & ?). by constructor. Qed.

(** What a group captured between two points of the same text. *)
Lemma capture_eq (u s : list ascii) : take (length (u ++ s) - length s) (u ++ s) = u.
Proof. rewrite length_app. apply take_app_length'. lia. Qed.

(** ** What the groups can capture *)

(** The item of each group, for a pattern whose groups hold one item each. *)
Fixpoint groups (ts : list token) : option (list (charset * quantifier)) :=
  match ts with
  | [] => Some []
  | TChar _ _ :: ts => groups ts
  | TOpen :: TChar cs qt :: TClose :: ts => gs ← groups ts; Some ((cs, qt) :: gs)
  | _ => None
  end.

Definition captures (g : charset * quantifier) (u : list ascii) : Prop :=
  Forall (λ c, mem g.1 c = true) u ∧ q_min g.2 ≤ length u ∧ le_max (length u) (q_max g.2).

Lemma matches_groups ts gs o caps s caps' r :
  groups ts = Some gs → matches ts o caps s caps' r →
  ∃ us, caps' = caps ++ us ∧ Forall2 captures gs us.
Proof.
  revert gs o caps s. induction ts as [ts IH] using (induction_ltof1 _ length).
  unfold ltof in IH.
  intros gs o caps s Hg Hm. destruct ts as [|[cs [mn mx g]| |] ts].
  - apply matches_nil_iff in Hm as [-> _]. simplify_eq/=. exists [].
    by rewrite app_nil_r.
  - apply matches_char_iff in Hm as (u & s' & -> & _ & _ & _ & Hm).
    eapply (IH ts); [simpl; lia|exact Hg|exact Hm].
  - destruct ts as [|[cs [mn mx g]| |] [|[| |] ts]]; try done. cbn [groups] in Hg.
    destruct (groups ts) as [gs'|] eqn:Hgs; simplify_eq/=.
    rewrite matches_open_iff in Hm.
    apply matches_char_iff in Hm as (u & s' & -> & Hu & ? & ? & Hm).
    apply matches_close_iff in Hm as (s0 & [= <-] & Hm). rewrite capture_eq in Hm.
    eapply (IH ts) in Hm as (us & -> & Hus); [|simpl; lia|exact Hgs].
    exists (u :: us). rewrite <-app_assoc. split; [done|]. by constructor.
  - done.
Qed.

(** The sub-matches of a search: the whole match, then a text for every group. *)
Lemma regex_search_groups subject pattern ms gs :
  regex_search subject pattern = Some ms →
  (ts ← compile pattern; groups ts) = Some gs →
  ∃ m us, ms = m :: us ∧ Forall2 (λ g u, captures g (chars u)) gs us.
Proof.
  unfold regex_search. destruct (compile pattern) as [ts|]; [|done].
  cbn [mbind option_bind]. destruct (search_from ts (chars subject)) as [l|] eqn:Hs; [|done].
  cbn [mbind option_bind]. intros [= <-] Hg.
  apply search_from_sound in Hs as (pre & mid & r & caps & _ & -> & Hm & _).
  apply match_here_sound in Hm. destruct (matches_groups _ _ _ _ _ _ _ Hg Hm) as (us & -> & Hus).
  eexists _, _. split; [done|]. cbn [app]. clear -Hus.
  induction Hus; cbn; constructor; [by rewrite chars_of_chars|done].
Qed.
