(* ===== verification/JsonField.v ===== *)
(** * JsonField: reading a member with a regular expression

    [extractJsonString] and [extractJsonInt] of [agent/src/agent_server.cpp]
    (with their copies in the mappers and the policy enforcer): the value of the
    first ["key" : "value"] in a text.  The theorems characterise the result
    declaratively and show that on the compact text of a flat document it is
    the lookup one expects. *)

From S2P Require Export Regex Json.

#[local] Open Scope Z_scope.

(** ** Definitions *)

(** The literal [\s*:\s*] that follows a key, as the sources write it. *)
Definition colon_pattern : string := "\s*:\s*".

Definition string_field_pattern (key : string) : string :=
  q +:+ key +:+ q +:+ colon_pattern +:+ q +:+ "([^" +:+ q +:+ "]+)" +:+ q.

Definition int_field_pattern (key : string) : string :=
  q +:+ key +:+ q +:+ colon_pattern +:+ "(\d+)".

Definition extractJsonString (json key : string) : string :=
  match regex_search json (string_field_pattern key) with
  | Some m => if (1 <? length m)%nat then sub_match m 1 else ""
  | None => ""
  end.

(** [regex_search(line, match, re) && match.size() > 1], with [match[1].str()]. *)
Definition search_group (subject pattern : string) : option string :=
  m ← regex_search subject pattern;
  if (1 <? length m)%nat then Some (sub_match m 1) else None.

(** [std::stoi]: [None] stands for the exception it throws (no digits, or a value
    that does not fit an int). *)
Definition stoi (s : string) : option Z :=
  let l := skip_spaces (chars s) in
  let '(neg, l) := match l with
                   | "-"%char :: l => (true, l)
                   | "+"%char :: l => (false, l)
                   | _ => (false, l)
                   end in
  match span_digits l with
  | ([], _) => None
  | (d, _) =>
      let v := if neg : bool then - dec_value d else dec_value d in
      if (INT_MIN <=? v) && (v <=? INT_MAX) then Some v else None
  end.

Definition extractJsonInt (json key : string) (defaultVal : Z) : Z :=
  match regex_search json (int_field_pattern key) with
  | Some m =>
      if (1 <? length m)%nat then default defaultVal (stoi (sub_match m 1))
      else defaultVal
  | None => defaultVal
  end.

(** The text of the first group is one its item allows. *)
Lemma search_group_captures subject pattern g gs h :
  (ts ← compile pattern; groups ts) = Some (g :: gs) → search_group subject pattern = Some h →
  captures g (chars h).
Proof.
  unfold search_group. intros Hg Hs.
  destruct (regex_search subject pattern) as [ms|] eqn:Hr; [|done].
  destruct (regex_search_groups _ _ _ _ Hr Hg) as (m & us & -> & Hus).
  apply Forall2_cons_inv_l in Hus as (u & us' & Hu & _ & ->). by simplify_eq/=.
Qed.

(** No group text: the pattern matches nowhere in the subject. *)
Lemma search_group_none subject pattern ts g gs :
  compile pattern = Some ts → groups ts = Some (g :: gs) →
  search_group subject pattern = None ↔
  ∀ pre mid c r, chars subject = pre ++ mid → ¬ matches ts None [] mid c r.
Proof.
  intros Hc Hg. rewrite <-search_from_none. split; [|unfold search_group, regex_search;
    rewrite Hc; cbn [mbind option_bind]; by intros ->].
  intros Hs. destruct (search_from ts (chars subject)) as [ms|] eqn:Hf; [|done].
  assert (Hr : regex_search subject pattern = Some (map of_chars ms))
    by (unfold regex_search; rewrite Hc; cbn [mbind option_bind]; by rewrite Hf).
  unfold search_group in Hs. rewrite Hr in Hs.
  eapply regex_search_groups in Hr as (m & us & Hms & Hus);
    [|rewrite Hc; exact Hg].
  apply Forall2_cons_inv_l in Hus as (u & us' & _ & _ & ->). by rewrite Hms in Hs.
Qed.

(** ** The compiled patterns *)

(** A character a key may hold: an ordinary one, or the dot, which the pattern
    reads as "any character". *)
Definition key_char (c : ascii) : bool :=
  negb (is_quantifier c) && negb (unsupported c)
  && bool_decide (c ∉ ["("; ")"; "["; bslash]%char).

Definition key_ok (key : string) : Prop := Forall (λ c, key_char c = true) (chars key).

#[export] Instance key_ok_dec key : Decision (key_ok key).
Proof. unfold key_ok. apply _. Defined.

Definition atom (c : ascii) : charset := if bool_decide (c = "."%char) then CDot else CLit c.

Definition lit_token (c : ascii) : token := TChar (atom c) once.

Definition many (cs : charset) : token := TChar cs (Quant 0 None true).
Definition some (cs : charset) : token := TChar cs (Quant 1 None true).
Definition not_dq : charset := CClass true [(dq, dq)].

Definition colon_tokens : list token :=
  [lit_token dq; many CSpace; lit_token ":"; many CSpace].

Definition string_field_tokens (key : list ascii) : list token :=
  lit_token dq :: map lit_token key ++ colon_tokens
  ++ [lit_token dq; TOpen; some not_dq; TClose; lit_token dq].

Definition int_field_tokens (key : list ascii) : list token :=
  lit_token dq :: map lit_token key ++ colon_tokens ++ [TOpen; some CDigit; TClose].

Definition starts_item (l : list ascii) : Prop :=
  match l with c :: _ => is_quantifier c = false | [] => True end.

Lemma read_tokens_lit fuel opened c l :
  key_char c = true → starts_item l →
  read_tokens (S fuel) opened (c :: l)
  = (ts ← read_tokens fuel opened l; Some (lit_token c :: ts)).
Proof.
  unfold key_char. intros Hc Hl. bool_to_prop.
  match goal with H : c ∉ _ |- _ => rewrite !not_elem_of_cons in H end. destruct_and!.
  cbn [read_tokens]. unfold lit_token, atom.
  rewrite (bool_decide_false (c = "("%char)), (bool_decide_false (c = ")"%char)),
    (bool_decide_false (c = bslash)), (bool_decide_false (c = "["%char)) by done.
  assert (Hq : read_quantifier l = Some (once, l)).
  { destruct l as [|c' l]; [done|]. cbn [read_quantifier]. cbn in Hl. by rewrite Hl. }
  case_bool_decide.
  - rewrite Hq. done.
  - match goal with H : unsupported c = false |- _ => rewrite H end.
    rewrite Hq. done.
Qed.

Lemma read_tokens_key key fuel opened l :
  Forall (λ c, key_char c = true) key → starts_item l →
  read_tokens (length key + fuel) opened (key ++ l)
  = (ts ← read_tokens fuel opened l; Some (map lit_token key ++ ts)).
Proof.
  intros Hk Hl. induction Hk as [|c key Hc Hk IH].
  - simpl. by destruct (read_tokens fuel opened l).
  - cbn [length app Nat.add map]. rewrite read_tokens_lit, IH.
    + by destruct (read_tokens fuel opened l).
    + done.
    + destruct Hk as [|c' key' Hc' _]; [done|]. cbn. unfold key_char in Hc'.
      bool_to_prop. done.
Qed.

Lemma compile_field key rest ts :
  key_ok key → starts_item (chars rest) →
  read_tokens (S (String.length rest)) false (chars rest) = Some ts →
  compile (q +:+ key +:+ rest) = Some (lit_token dq :: map lit_token (chars key) ++ ts).
Proof.
  intros Hk Hr Hts. unfold compile. rewrite <-chars_length, !chars_app, !length_app.
  change (chars q) with [dq]. cbn [app length].
  rewrite read_tokens_lit; [|done|].
  - rewrite (chars_length rest). rewrite <-Nat.add_succ_r, read_tokens_key by done.
    by rewrite Hts.
  - destruct Hk as [|c k Hc _]; [done|]. cbn. unfold key_char in Hc. bool_to_prop. done.
Qed.

Lemma compile_string_field key :
  key_ok key → compile (string_field_pattern key) = Some (string_field_tokens (chars key)).
Proof. intros. by apply compile_field. Qed.

Lemma compile_int_field key :
  key_ok key → compile (int_field_pattern key) = Some (int_field_tokens (chars key)).
Proof. intros. by apply compile_field. Qed.

(** ** What a match of the pattern means *)

Definition spaces (ws : list ascii) : Prop := Forall (λ c, Ascii.is_space c = true) ws.
Definition unquoted (v : list ascii) : Prop := Forall (λ c, c ≠ dq) v.
Definition key_at (key k : list ascii) : Prop :=
  Forall2 (λ c x, mem (atom c) x = true) key k.

(** ["key" : "v"] begins [s] and [rest] follows. *)
Definition field_at (key s v rest : list ascii) : Prop :=
  ∃ k ws1 ws2,
    s = dq :: k ++ dq :: ws1 ++ ":"%char :: ws2 ++ dq :: v ++ dq :: rest
    ∧ key_at key k ∧ spaces ws1 ∧ spaces ws2 ∧ v ≠ [] ∧ unquoted v.

Lemma mem_not_dq c : mem not_dq c = true ↔ c ≠ dq.
Proof.
  split.
  - intros Hm ->. done.
  - intros Hne. cbn. rewrite orb_false_r. apply negb_true_iff, not_true_is_false.
    unfold in_range. intros [H1%N.leb_le H2%N.leb_le]%andb_true_iff. apply Hne.
    cbn in H1, H2. unfold code in *. rewrite <-(Ascii.ascii_N_embedding c).
    by replace (Ascii.N_of_ascii c) with 34%N by lia.
Qed.

Lemma mem_lit (c x : ascii) : c ≠ "."%char → mem (atom c) x = true ↔ x = c.
Proof.
  intros. unfold atom. rewrite bool_decide_false by done. cbn.
  by rewrite bool_decide_eq_true.
Qed.

(** A literal prefix without dots. *)
Lemma key_at_literal key k : Forall (λ c, c ≠ "."%char) key → key_at key k ↔ k = key.
Proof.
  intros Hk. split.
  - intros Hat. unfold key_at in Hat.
    induction Hat as [|c x cs xs Hc _ IH]; [done|].
    apply Forall_cons in Hk as [? Hk]. f_equal; [by apply mem_lit in Hc|auto].
  - intros ->. unfold key_at. induction Hk; constructor; [by apply mem_lit|done].
Qed.

Lemma matches_key key ts o caps s caps' r :
  matches (map lit_token key ++ ts) o caps s caps' r ↔
  ∃ k s', s = k ++ s' ∧ key_at key k ∧ matches ts o caps s' caps' r.
Proof.
  revert s. induction key as [|c key IH]; intros s; cbn [map app].
  - split; [intros; exists [], s; split_and!; [done|constructor|done]|].
    intros (k & s' & -> & ->%Forall2_nil_inv_l & ?). done.
  - unfold lit_token at 1. rewrite matches_once_iff. setoid_rewrite IH. split.
    + intros (x & s1 & -> & Hx & k & s' & -> & Hk & Hm).
      exists (x :: k), s'. split_and!; [done|by constructor|done].
    + intros (k0 & s' & -> & Hk & Hm). apply Forall2_cons_inv_l in Hk as (x & k & Hx & Hk & ->).
      exists x, (k ++ s'). split_and!; try done. by exists k, s'.
Qed.

Lemma matches_many cs ts o caps s caps' r :
  matches (many cs :: ts) o caps s caps' r ↔
  ∃ u s', s = u ++ s' ∧ Forall (λ c, mem cs c = true) u ∧ matches ts o caps s' caps' r.
Proof.
  unfold many. rewrite matches_char_iff. split.
  - intros (u & s' & ? & ? & _ & _ & ?). eauto.
  - intros (u & s' & ? & ? & ?). exists u, s'. split_and!; try done. lia.
Qed.

Lemma matches_some cs ts o caps s caps' r :
  matches (some cs :: ts) o caps s caps' r ↔
  ∃ u s', s = u ++ s' ∧ Forall (λ c, mem cs c = true) u ∧ u ≠ []
    ∧ matches ts o caps s' caps' r.
Proof.
  unfold some. rewrite matches_char_iff. split.
  - intros ([|c u] & s' & ? & ? & ? & _ & ?); [simpl in *; lia|]. eauto 10.
  - intros ([|c u] & s' & ? & ? & ? & ?); [done|]. exists (c :: u), s'.
    split_and!; try done. simpl. lia.
Qed.

(** The part of the two patterns before the value. *)
Lemma matches_prefix key ts s caps r :
  matches (lit_token dq :: map lit_token key ++ colon_tokens ++ ts) None [] s caps r ↔
  ∃ k ws1 ws2 s',
    s = dq :: k ++ dq :: ws1 ++ ":"%char :: ws2 ++ s'
    ∧ key_at key k ∧ spaces ws1 ∧ spaces ws2 ∧ matches ts None [] s' caps r.
Proof.
  unfold lit_token at 1. rewrite matches_once_iff.
  setoid_rewrite matches_key. unfold colon_tokens. cbn [app].
  split.
  - intros (c & s1 & -> & Hc%mem_lit & k & s2 & -> & Hk & Hm); [|done]. subst c.
    apply matches_once_iff in Hm as (c & s3 & -> & Hc%mem_lit & Hm); [|done]. subst c.
    apply matches_many in Hm as (ws1 & s4 & -> & Hw1 & Hm).
    apply matches_once_iff in Hm as (c & s5 & -> & Hc%mem_lit & Hm); [|done]. subst c.
    apply matches_many in Hm as (ws2 & s6 & -> & Hw2 & Hm). eauto 12.
  - intros (k & ws1 & ws2 & s' & -> & Hk & Hw1 & Hw2 & Hm).
    eexists _, _. split; [done|]. split; [by apply mem_lit|].
    eexists k, _. split; [done|]. split; [done|].
    apply matches_once_iff. eexists _, _. split; [done|]. split; [by apply mem_lit|].
    apply matches_many. eexists ws1, _. split; [done|]. split; [done|].
    apply matches_once_iff. eexists _, _. split; [done|]. split; [by apply mem_lit|].
    apply matches_many. eexists ws2, _. eauto.
Qed.

Lemma matches_string_field key s caps r :
  matches (string_field_tokens key) None [] s caps r ↔
  ∃ v, caps = [v] ∧ field_at key s v r.
Proof.
  unfold string_field_tokens, field_at. rewrite matches_prefix. split.
  - intros (k & ws1 & ws2 & s' & -> & Hk & Hw1 & Hw2 & Hm).
    apply matches_once_iff in Hm as (c & s1 & -> & Hc%mem_lit & Hm); [|done]. subst c.
    rewrite matches_open_iff in Hm.
    apply matches_some in Hm as (v & s2 & -> & Hv & Hne & Hm).
    apply matches_close_iff in Hm as (s0 & [= <-] & Hm). rewrite capture_eq in Hm.
    apply matches_once_iff in Hm as (c & s3 & -> & Hc%mem_lit & Hm); [|done]. subst c.
    apply matches_nil_iff in Hm as [-> ->]. exists v. split; [done|].
    exists k, ws1, ws2. split_and!; try done.
    eapply Forall_impl; [exact Hv|]. intros x. apply mem_not_dq.
  - intros (v & -> & k & ws1 & ws2 & -> & Hk & Hw1 & Hw2 & Hne & Hv).
    eexists k, ws1, ws2, _. split_and!; try done.
    apply matches_once_iff. eexists _, _. split; [done|]. split; [by apply mem_lit|].
    apply matches_open_iff, matches_some. eexists v, _. split; [done|]. split.
    { eapply Forall_impl; [exact Hv|]. intros x. apply mem_not_dq. }
    split; [done|]. apply matches_close_iff. eexists. split; [done|].
    rewrite capture_eq. apply matches_once_iff. eexists _, _. split; [done|].
    split; [by apply mem_lit|]. by apply matches_nil_iff.
Qed.

Lemma span_unique {A} (P : A → Prop) x u1 r1 y u2 r2 :
  Forall P u1 → Forall P u2 → ¬ P x → ¬ P y →
  u1 ++ x :: r1 = u2 ++ y :: r2 → u1 = u2 ∧ x = y ∧ r1 = r2.
Proof.
  intros Hu1. revert u2. induction Hu1 as [|a u1 Ha _ IH]; intros u2 Hu2 Hx Hy Heq.
  - destruct Hu2; simplify_eq/=; done.
  - destruct Hu2 as [|b u2 Hb Hu2]; simplify_eq/=; [done|].
    destruct (IH u2) as (-> & -> & ->); done.
Qed.

(** The value at a given start is unique. *)
Lemma field_at_det key s v r v' r' :
  field_at key s v r → field_at key s v' r' → v = v' ∧ r = r'.
Proof.
  intros (k & ws1 & ws2 & -> & Hk & Hw1 & Hw2 & _ & Hv)
    (k' & ws1' & ws2' & Heq & Hk' & Hw1' & Hw2' & _ & Hv').
  injection Heq as Heq. apply app_inj_1 in Heq as [-> Heq];
    [|by rewrite <-(Forall2_length _ _ _ Hk), (Forall2_length _ _ _ Hk')].
  injection Heq as Heq.
  eapply span_unique in Heq as (_ & _ & Heq); [|done|done|done|done].
  eapply span_unique in Heq as (_ & _ & Heq); [|done|done|done|done].
  eapply (span_unique (λ c, c ≠ dq)) in Heq as (-> & _ & ->);
    [done|done|done|by intros []|by intros []].
Qed.

Lemma extractJsonString_search json key :
  key_ok key →
  extractJsonString json key =
  match search_from (string_field_tokens (chars key)) (chars json) with
  | Some (_ :: v :: _) => of_chars v
  | _ => ""
  end.
Proof.
  intros Hk. unfold extractJsonString, regex_search.
  rewrite compile_string_field by done. cbn [mbind option_bind].
  destruct (search_from _ _) as [[|w [|v ms]]|]; done.
Qed.

(** The first field of a text. *)
Definition first_field (key s v : list ascii) : Prop :=
  ∃ pre mid rest, s = pre ++ mid ∧ field_at key mid v rest
    ∧ ∀ pre1 pre2 v' r', pre = pre1 ++ pre2 → pre2 ≠ [] → ¬ field_at key (pre2 ++ mid) v' r'.

Lemma search_string_field key s :
  match search_from (string_field_tokens key) s with
  | Some ms => ∃ w v, ms = [w; v] ∧ first_field key s v
  | None => ∀ pre mid v r, s = pre ++ mid → ¬ field_at key mid v r
  end.
Proof.
  destruct (search_from _ s) as [ms|] eqn:Hs.
  - apply search_from_sound in Hs as (pre & mid & r & caps & -> & -> & Hm & Hleft).
    apply match_here_sound, matches_string_field in Hm as (v & -> & Hf).
    eexists _, v. split; [done|]. exists pre, mid, r. split_and!; try done.
    intros pre1 pre2 v' r' Hpre Hne Hf'. eapply Hleft; [done|done|].
    apply matches_string_field. eauto.
  - rewrite search_from_none in Hs. intros pre mid v r -> Hf.
    eapply Hs; [done|]. apply matches_string_field. eauto.
Qed.

Lemma first_field_det key s v v' : first_field key s v → first_field key s v' → v = v'.
Proof.
  intros (pre & mid & r & -> & Hf & Hleft) (pre' & mid' & r' & Heq & Hf' & Hleft').
  apply app_eq_inv in Heq as [(k & -> & ->)|(k & -> & ->)].
  - destruct k as [|c k]; [by destruct (field_at_det _ _ _ _ _ _ Hf Hf')|].
    exfalso. eapply Hleft; [done|done|exact Hf'].
  - destruct k as [|c k]; [by destruct (field_at_det _ _ _ _ _ _ Hf Hf')|].
    exfalso. eapply Hleft'; [done|done|exact Hf].
Qed.

(** ** On the compact text of a flat document *)

(** An identifier: letters, digits, underscore. *)
Definition ident_char (c : ascii) : bool :=
  in_range c ("a", "z")%char || in_range c ("A", "Z")%char || in_range c ("0", "9")%char
  || bool_decide (c = "_"%char).

Definition ident (key : string) : Prop :=
  key ≠ "" ∧ Forall (λ c, ident_char c = true) (chars key).

#[export] Instance ident_dec key : Decision (ident key).
Proof. unfold ident. apply _. Defined.

Definition scalar (v : json) : Prop :=
  match v with JNum _ => True | JStr s => plain s | _ => False end.

Definition flat (kvs : list (string * json)) : Prop :=
  Forall (λ kv, plain kv.1 ∧ scalar kv.2) kvs.

(** The first member of that name whose value [text_of] accepts, as its text. *)
Fixpoint lookup_text (text_of : json → option string) (kvs : list (string * json)) (key : string)
    : string :=
  match kvs with
  | [] => ""
  | (k, v) :: kvs =>
      match text_of v with
      | Some t => if decide (k = key) then t else lookup_text text_of kvs key
      | None => lookup_text text_of kvs key
      end
  end.

(** A non-empty string; a number without a sign. *)
Definition string_text (v : json) : option string :=
  match v with JStr s => if decide (s = "") then None else Some s | _ => None end.
Definition number_text (v : json) : option string :=
  match v with JNum z => if decide (0 ≤ z) then Some (dec z) else None | _ => None end.

Definition lookup_string : list (string * json) → string → string := lookup_text string_text.

(** The first unsigned number of that name, if it fits an int. *)
Definition lookup_int (kvs : list (string * json)) (key : string) (defaultVal : Z) : Z :=
  default defaultVal (stoi (lookup_text number_text kvs key)).

Definition found (r : option (list (list ascii))) : string :=
  match r with Some (_ :: v :: _) => of_chars v | _ => "" end.

Lemma ident_char_cases c :
  ident_char c = true → key_char c = true ∧ c ≠ "."%char ∧ c ≠ dq ∧ c ≠ ","%char
    ∧ c ≠ ":"%char ∧ c ≠ "}"%char.
Proof. destruct c as [[] [] [] [] [] [] [] []]; by vm_compute. Qed.

Lemma ident_key_ok key : ident key → key_ok key.
Proof. intros [_ Hk]. eapply Forall_impl; [exact Hk|]. intros c. apply ident_char_cases. Qed.

Section key.
Context (key : string) (Hid : ident key).

Lemma key_at_ident k : key_at (chars key) k → k = chars key.
Proof using Hid.
  destruct Hid as [_ Hk]. intros Hat. unfold key_at in Hat.
  induction Hat as [|c x cs xs Hc _ IH]; [done|].
  apply Forall_cons in Hk as [Hcc Hk]. apply ident_char_cases in Hcc.
  f_equal; [|by apply IH]. apply mem_lit in Hc; tauto.
Qed.

Lemma key_unquoted : unquoted (chars key).
Proof using Hid.
  destruct Hid as [_ Hk]. eapply Forall_impl; [exact Hk|].
  intros c Hc. apply ident_char_cases in Hc. tauto.
Qed.

Lemma key_no_char c : ident_char c = false → c ∉ chars key.
Proof using Hid.
  destruct Hid as [_ Hk]. intros Hc Hin. rewrite Forall_forall in Hk.
  by rewrite (Hk c Hin) in Hc.
Qed.

Lemma not_key_char (c : ascii) X : ident_char c = false → c ∈ X → X ≠ chars key.
Proof using Hid. intros Hc Hin ->. by eapply key_no_char. Qed.

(** The key matches itself. *)
Lemma match_key ts o caps s :
  match_here (map lit_token (chars key) ++ ts) o caps (chars key ++ s) = match_here ts o caps s.
Proof using Hid.
  destruct Hid as [_ Hk]. induction Hk as [|c l Hc _ IH]; [done|]. cbn [map app].
  unfold lit_token at 1. rewrite match_lit; [exact IH|]. apply ident_char_cases in Hc. apply mem_lit; tauto.
Qed.
End key.

Definition member_text (kv : string * json) : list ascii :=
  dq :: chars kv.1 ++ dq :: ":"%char :: chars (print kv.2).

(** What follows a member: the end of the object or the next members. *)
Fixpoint cont (kvs : list (string * json)) : list ascii :=
  match kvs with
  | [] => ["}"%char]
  | kv :: kvs => ","%char :: member_text kv ++ cont kvs
  end.

Lemma print_object kv kvs :
  chars (print (JObj (kv :: kvs))) = "{"%char :: member_text kv ++ cont kvs.
Proof.
  cbn [print]. rewrite <-(app_nil_r (chars _)), (chars_bracket "{"%char "}"%char). f_equal.
  revert kv. induction kvs as [|kv' kvs IH]; intros kv.
  - cbn [map join cont]. rewrite !chars_app, chars_quoted. unfold member_text. cbn.
    by rewrite <-!app_assoc.
  - cbn [map]. rewrite chars_join_cons. cbn [cont]. cbn [map] in IH.
    rewrite <-app_assoc. cbn [app]. rewrite IH. rewrite !chars_app, chars_quoted.
    unfold member_text. cbn. by rewrite <-!app_assoc.
Qed.

Lemma cont_head kvs : ∃ c l, cont kvs = c :: l ∧ (c = ","%char ∨ c = "}"%char).
Proof. destruct kvs; cbn; eauto. Qed.

Lemma plain_unquoted s : plain s → unquoted (chars s).
Proof. intros Hs. eapply Forall_impl; [exact Hs|]. by intros c Hc ->. Qed.

Lemma number_unquoted z : unquoted (":"%char :: chars (dec z))
  ∧ ∃ c l, chars (dec z) = c :: l ∧ c ≠ dq ∧ Ascii.is_space c = false.
Proof.
  assert (Hnn : ∀ z, 0 ≤ z → unquoted (chars (dec z))
    ∧ ∃ c l, chars (dec z) = c :: l ∧ c ≠ dq ∧ Ascii.is_space c = false).
  { clear. intros z Hz. destruct (dec_digits z Hz) as (Hd & _ & Hne).
    assert (Hu : unquoted (chars (dec z))).
    { eapply Forall_impl; [exact Hd|]. intros c. apply digit_not_special. }
    split; [done|]. destruct (chars (dec z)) as [|c l]; [done|].
    exists c, l. apply Forall_cons in Hu as [? _]. apply Forall_cons in Hd as [Hd _].
    split_and!; [done..|]. by destruct c as [[] [] [] [] [] [] [] []]. }
  destruct (decide (0 ≤ z)) as [Hz|Hz].
  - destruct (Hnn z Hz) as [? ?]. split; [by constructor|done].
  - rewrite dec_neg by lia. destruct (Hnn (- z)) as [? _]; [lia|].
    split; [repeat constructor; done|]. eexists _, _. split; [by rewrite chars_app|done].
Qed.

(** A pattern for a field: a match begins with the quoted key, and [follows] says what the text
    after it may be; [text_of] gives the captured text of the values that match. *)
Section fields.
Context (key : string) (Hid : ident key) (T : list token).
Context (follows : list ascii → Prop) (text_of : json → option string).
Context (Hstart : ∀ s caps r, matches T None [] s caps r →
  ∃ Y, s = dq :: chars key ++ dq :: Y ∧ follows Y).
Context (Hcomma : ∀ kvs, ¬ follows (cont kvs)).
Context (Hother : ∀ v kvs, scalar v → text_of v = None →
  ¬ follows (":"%char :: chars (print v) ++ cont kvs)).
Context (Hhit : ∀ v t kvs, scalar v → text_of v = Some t →
  found (search_from T (member_text (key, v) ++ cont kvs)) = t).

Lemma skip_start s :
  (∀ Y, s = dq :: chars key ++ dq :: Y → ¬ follows Y) →
  search_from T s = match s with [] => None | _ :: s' => search_from T s' end.
Proof using Hstart.
  intros Hno. destruct s as [|a s]; cbn [search_from];
    (destruct (match_here T None [] _) as [[caps r]|] eqn:Hm; [|done]);
    apply match_here_sound, Hstart in Hm as (Y & HY & Hf); by eapply Hno in HY.
Qed.

Lemma skip_unquoted X s : unquoted X → search_from T (X ++ s) = search_from T s.
Proof using Hstart.
  induction 1 as [|c X Hc _ IH]; [done|]. cbn [app]. rewrite skip_start; [done|].
  intros Y Heq. by simplify_eq.
Qed.

Lemma skip_quote X Y :
  unquoted X → X ≠ chars key →
  search_from T (dq :: X ++ dq :: Y) = search_from T (dq :: Y).
Proof using Hstart Hid.
  intros HX Hne. rewrite skip_start; [by apply skip_unquoted|].
  intros Y' Heq. injection Heq as Heq.
  eapply (span_unique (λ c, c ≠ dq)) in Heq as (? & _ & _);
    [done|done|by apply key_unquoted|by intros []|by intros []].
Qed.

(** The key, but what follows its closing quote is not what the pattern wants. *)
Lemma skip_key Y :
  ¬ follows Y → search_from T (dq :: chars key ++ dq :: Y) = search_from T (dq :: Y).
Proof using Hstart Hid.
  intros HY. rewrite skip_start; [by apply skip_unquoted, key_unquoted|].
  intros Y' Heq. injection Heq as Heq. by apply app_inv_head in Heq as [= ->].
Qed.

Lemma no_more Y : unquoted Y → search_from T (dq :: Y) = None.
Proof using Hstart.
  intros HY. apply search_from_none. intros pre mid c r Heq Hm.
  apply Hstart in Hm as (Y' & -> & _).
  destruct pre as [|a pre]; simplify_eq/=; apply Forall_app in HY as [_ HY];
    by apply Forall_cons in HY as [? _].
Qed.

(** From the closing quote of a string, or of a key whose value is a number. *)
Lemma search_cont kvs X :
  (∀ kv kvs', kvs = kv :: kvs' →
     found (search_from T (member_text kv ++ cont kvs')) = lookup_text text_of kvs key) →
  unquoted X → found (search_from T (dq :: X ++ cont kvs)) = lookup_text text_of kvs key.
Proof using Hstart Hid.
  intros Hmain HX. destruct kvs as [|kv kvs].
  - cbn [cont]. rewrite no_more; [done|]. apply Forall_app_2; [done|]. by repeat constructor.
  - rewrite <-(Hmain kv kvs) by done. cbn [cont]. unfold member_text. cbn [app].
    rewrite (cons_middle ","%char), app_assoc. rewrite skip_quote; [done|..].
    + apply Forall_app_2; [done|]. by repeat constructor.
    + eapply (not_key_char key Hid ","); [done|]. apply elem_of_app. right. by left.
Qed.

Lemma search_members kvs kv :
  flat (kv :: kvs) →
  found (search_from T (member_text kv ++ cont kvs)) = lookup_text text_of (kv :: kvs) key.
Proof using All.
  revert kv. induction kvs as [kvs IH] using (induction_ltof1 _ length).
  intros [k v] [[Hk Hv] Hflat]%Forall_cons. cbn [fst snd] in *.
  assert (Hcont : ∀ X, unquoted X →
    found (search_from T (dq :: X ++ cont kvs)) = lookup_text text_of kvs key).
  { intros X. apply search_cont. intros kv kvs' ->. apply IH; [|done].
    unfold ltof. simpl. lia. }
  pose proof (plain_unquoted _ Hk) as Hku.
  (* past the key and the value *)
  assert (Hpast : text_of v = None ∨ k ≠ key →
    found (search_from T (member_text (k, v) ++ cont kvs)) = lookup_text text_of kvs key).
  { intros Hno. unfold member_text. cbn [fst snd]. rewrite <-app_comm_cons, <-app_assoc. cbn [app].
    transitivity (found (search_from T (dq :: ":"%char :: chars (print v) ++ cont kvs))).
    { f_equal. destruct (decide (chars k = chars key)) as [Heq|Hne]; [|by apply skip_quote].
      rewrite Heq. apply skip_key. apply Hother; [done|]. apply chars_inj in Heq. tauto. }
    destruct v as [z|s|?|?]; [| |done|done].
    - apply (Hcont (":"%char :: chars (dec z))), number_unquoted.
    - cbn [print scalar] in *. rewrite chars_quoted. cbn [app]. rewrite <-app_assoc. cbn [app].
      rewrite <-(Hcont []) by constructor. cbn [app]. f_equal.
      transitivity (search_from T (dq :: chars s ++ dq :: cont kvs)).
      + apply (skip_quote [":"%char]); [by repeat constructor|].
        eapply (not_key_char key Hid ":"); [done|by left].
      + destruct (decide (chars s = chars key)) as [->|Hne];
          [by apply skip_key|apply skip_quote; [by apply plain_unquoted|done]]. }
  cbn [lookup_text]. destruct (text_of v) as [t|] eqn:Ht; [|by apply Hpast; left].
  destruct (decide (k = key)) as [->|Hne]; [by apply Hhit|by apply Hpast; right].
Qed.

Lemma search_object kvs :
  flat kvs → found (search_from T (chars (print (JObj kvs)))) = lookup_text text_of kvs key.
Proof using All.
  intros Hflat. destruct kvs as [|kv kvs].
  - change (chars (print (JObj []))) with ["{"%char; "}"%char].
    do 2 (rewrite skip_start; [|by intros Y]). rewrite skip_start; [done|by intros Y].
  - rewrite print_object, <-(search_members kvs kv) by done. f_equal.
    rewrite skip_start; [done|by intros Y].
Qed.
End fields.

(** *** Strings and numbers *)

(** Past the closing quote of the key: a colon and a non-empty string, or a digit. *)
Definition string_follows (Y : list ascii) : Prop :=
  ∃ ws1 ws2 v r, Y = ws1 ++ ":"%char :: ws2 ++ dq :: v ++ dq :: r
    ∧ spaces ws1 ∧ spaces ws2 ∧ v ≠ [] ∧ unquoted v.
Definition int_follows (Y : list ascii) : Prop :=
  ∃ ws1 ws2 d r, Y = ws1 ++ ":"%char :: ws2 ++ d :: r
    ∧ spaces ws1 ∧ spaces ws2 ∧ is_digit d = true.

(** No white space before the first character. *)
Lemma no_space c l ws Y :
  Ascii.is_space c = false → spaces ws → c :: l = ws ++ Y → Y = c :: l.
Proof. intros Hc Hw Heq. destruct Hw as [|w ws Hw _]; simplify_eq/=; congruence. Qed.

Lemma not_colon_cont kvs ws Y : spaces ws → cont kvs ≠ ws ++ ":"%char :: Y.
Proof.
  intros Hw Heq. destruct (cont_head kvs) as (c & l & Hc & Hcc). rewrite Hc in Heq.
  apply no_space in Heq; [|by destruct Hcc as [-> | ->]|done]. destruct Hcc; by simplify_eq.
Qed.

Lemma string_start key s caps r :
  ident key → matches (string_field_tokens (chars key)) None [] s caps r →
  ∃ Y, s = dq :: chars key ++ dq :: Y ∧ string_follows Y.
Proof.
  intros Hid (v & _ & k & ws1 & ws2 & -> & Hk & ? & ? & ? & ?)%matches_string_field.
  apply key_at_ident in Hk as ->; [|done]. eexists. split; [done|]. by exists ws1, ws2, v, r.
Qed.

Lemma string_other v kvs :
  scalar v → string_text v = None → ¬ string_follows (":"%char :: chars (print v) ++ cont kvs).
Proof.
  intros Hv Ht (ws1 & ws2 & w & r & Heq & Hw1 & Hw2 & Hne & Hu).
  apply no_space in Heq; [|done|done]. injection Heq as Heq.
  destruct v as [z|s|?|?]; [| |done|done]; cbn [print] in Heq.
  - destruct (number_unquoted z) as [_ (d & n & Hn & Hd1 & Hd2)]. rewrite Hn in Heq. symmetry in Heq.
    apply no_space in Heq; [|done|done]. by simplify_eq.
  - cbn in Ht. case_decide; [subst s|done]. rewrite chars_quoted in Heq. symmetry in Heq.
    apply no_space in Heq; [|done|done]. injection Heq as Heq.
    destruct Hu as [|x w Hx _]; by simplify_eq/=.
Qed.

Lemma string_hit key v t kvs :
  ident key → scalar v → string_text v = Some t →
  found (search_from (string_field_tokens (chars key)) (member_text (key, v) ++ cont kvs)) = t.
Proof.
  intros Hid Hv Ht. destruct v as [z|s|?|?]; try done. cbn in Ht, Hv. case_decide as Hne; simplify_eq.
  pose proof (plain_unquoted _ Hv) as Hu.
  set (u := member_text (key, JStr t) ++ cont kvs).
  assert (Hf : field_at (chars key) u (chars t) (cont kvs)).
  { exists (chars key), [], []. subst u. unfold member_text. cbn [fst snd print].
    rewrite chars_quoted. split_and!; try done; try constructor.
    - cbn [app]. rewrite <-!app_assoc. cbn [app]. by rewrite <-!app_assoc.
    - apply Forall_Forall2_diag. destruct Hid as [_ Hk]. eapply Forall_impl; [exact Hk|].
      intros c Hc. apply ident_char_cases in Hc. apply mem_lit; tauto.
    - intros Hs. apply Hne. by apply (chars_inj t ""). }
  assert (first_field (chars key) u (chars t)).
  { exists [], u, (cont kvs). split_and!; try done. intros pre1 pre2 ? ? Heq ?.
    symmetry in Heq. by apply app_nil in Heq as [_ ->]. }
  pose proof (search_string_field (chars key) u) as Hs.
  destruct (search_from _ u) as [ms|].
  - destruct Hs as (w & v' & -> & Hv'). cbn [found]. rewrite <-(of_chars_chars t). f_equal.
    by eapply first_field_det.
  - exfalso. by eapply (Hs []).
Qed.

Lemma int_start key s caps r :
  ident key → matches (int_field_tokens (chars key)) None [] s caps r →
  ∃ Y, s = dq :: chars key ++ dq :: Y ∧ int_follows Y.
Proof.
  intros Hid Hm. unfold int_field_tokens in Hm.
  apply matches_prefix in Hm as (k & ws1 & ws2 & s' & -> & Hk & Hw1 & Hw2 & Hm).
  apply key_at_ident in Hk as ->; [|done].
  rewrite matches_open_iff in Hm. apply matches_some in Hm as ([|d u] & s2 & -> & Hv & Hne & Hm); [done|].
  apply Forall_cons in Hv as [Hd _]. eexists. split; [done|]. exists ws1, ws2, d, (u ++ s2).
  by split_and!.
Qed.

Lemma int_other v kvs :
  scalar v → number_text v = None → ¬ int_follows (":"%char :: chars (print v) ++ cont kvs).
Proof.
  intros Hv Ht (ws1 & ws2 & d & r & Heq & Hw1 & Hw2 & Hd).
  apply no_space in Heq; [|done|done]. injection Heq as Heq. symmetry in Heq.
  destruct v as [z|s|?|?]; [| |done|done]; cbn [print] in Heq.
  - cbn in Ht. case_decide; [done|]. rewrite dec_neg, chars_app in Heq by lia.
    apply no_space in Heq; [|done|done]. by simplify_eq.
  - rewrite chars_quoted in Heq. apply no_space in Heq; [|done|done]. by simplify_eq.
Qed.

(** The digits of a number are all taken. *)
Lemma int_hit key v t kvs :
  ident key → scalar v → number_text v = Some t →
  found (search_from (int_field_tokens (chars key)) (member_text (key, v) ++ cont kvs)) = t.
Proof.
  intros Hid Hv Ht. destruct v as [z|s|?|?]; try done. cbn in Ht. case_decide as Hz; simplify_eq.
  destruct (dec_digits z Hz) as (Hd & _ & Hne). destruct (cont_head kvs) as (c & l & Hc & Hcc).
  assert (Hnd : mem CDigit c = false) by by destruct Hcc as [-> | ->].
  assert (Hns : match chars (dec z) ++ cont kvs with x :: _ => mem CSpace x = false | [] => True end).
  { destruct (number_unquoted z) as [_ (d & n & -> & _ & Hd2)]. exact Hd2. }
  assert (Hend : ∀ o s0, match_here [TClose] (Some o) [] s0 = Some ([take (length o - length s0) o], s0))
    by done.
  assert (Hm : match_here (int_field_tokens (chars key)) None [] (member_text (key, JNum z) ++ cont kvs)
    = Some ([chars (dec z)], cont kvs)).
  { unfold int_field_tokens, member_text. cbn [fst snd print]. rewrite <-app_comm_cons, <-app_assoc.
    unfold lit_token at 1. rewrite match_lit by done. rewrite match_key by done.
    unfold colon_tokens. cbn [app]. unfold lit_token at 1. rewrite match_lit by done.
    unfold many at 1. rewrite match_skip by done.
    unfold lit_token at 1. rewrite match_lit by done. unfold many. rewrite match_skip by exact Hns.
    cbn [match_here]; unfold some.
    change (rep ?k CDigit true 1 None ?s) with
      (match_here (TChar CDigit (Quant 1 None true) :: [TClose]) (Some s) [] s).
    rewrite match_greedy; [by rewrite Hend, capture_eq|exact Hd| |by rewrite Hc|by rewrite Hend].
    destruct (chars (dec z)); [done|simpl; lia]. }
  set (u := member_text _ ++ _) in *.
  assert (Hs : search_from (int_field_tokens (chars key)) u
    = Some [take (length u - length (cont kvs)) u; chars (dec z)]).
  { destruct u as [|a u]; cbn [search_from]; by rewrite Hm. }
  rewrite Hs. cbn [found]. apply of_chars_chars.
Qed.

Lemma extractJsonString_flat kvs key :
  ident key → flat kvs → extractJsonString (print (JObj kvs)) key = lookup_string kvs key.
Proof.
  intros Hid Hflat. rewrite extractJsonString_search by by apply ident_key_ok.
  apply (search_object key Hid _ string_follows string_text); [..|done].
  - intros. by eapply string_start.
  - intros kvs' (ws1 & ? & ? & ? & Heq & Hw & _). by apply not_colon_cont in Heq.
  - apply string_other.
  - intros. by apply string_hit.
Qed.

Lemma extractJsonInt_search json key d :
  key_ok key →
  extractJsonInt json key d
  = default d (stoi (found (search_from (int_field_tokens (chars key)) (chars json)))).
Proof.
  intros Hk. unfold extractJsonInt, regex_search. rewrite compile_int_field by done.
  cbn [mbind option_bind]. by destruct (search_from _ _) as [[|w [|v ms]]|].
Qed.

Lemma extractJsonInt_flat kvs key d :
  ident key → flat kvs → extractJsonInt (print (JObj kvs)) key d = lookup_int kvs key d.
Proof.
  intros Hid Hflat. rewrite extractJsonInt_search by by apply ident_key_ok.
  unfold lookup_int. do 2 f_equal.
  apply (search_object key Hid _ int_follows number_text); [..|done].
  - intros. by eapply int_start.
  - intros kvs' (ws1 & ? & ? & ? & Heq & Hw & _). by apply not_colon_cont in Heq.
  - apply int_other.
  - intros. by apply int_hit.
Qed.

(** ** Properties *)

(** C35: extraction by key is exact.  A non-empty result is the value of the leftmost
    ["key" : "value"] of the text (white space allowed around the colon, the value
    non-empty and without quotes, a dot in the key standing for any character but a
    line end); an empty result means the text has none. *)
Theorem extractJsonString_spec json key :
  key_ok key →
  (∀ v, v ≠ "" →
     extractJsonString json key = v ↔ first_field (chars key) (chars json) (chars v))
  ∧ (extractJsonString json key = "" ↔
     ∀ pre mid v r, chars json = pre ++ mid → ¬ field_at (chars key) mid v r).
Proof.
  intros Hk. rewrite extractJsonString_search by done.
  pose proof (search_string_field (chars key) (chars json)) as Hs.
  destruct (search_from _ _) as [ms|].
  - destruct Hs as (w & v & -> & Hf). pose proof Hf as (pre & mid & r & Heq & Hat & _).
    pose proof Hat as (? & ? & ? & _ & _ & _ & _ & Hne & _). split.
    + intros v' Hv'. split; [intros <-; by rewrite chars_of_chars|].
      intros Hf'. rewrite <-(of_chars_chars v'). f_equal. by eapply first_field_det.
    + split; [|intros Hno; by eapply Hno in Hat].
      intros Hv. apply (f_equal chars) in Hv. by rewrite chars_of_chars in Hv.
  - split; [|done]. intros v Hv. split; [done|].
    intros (pre & mid & r & Heq & Hat & _). by eapply Hs in Hat.
Qed.

Lemma extractJsonString_spec_witness :
  key_ok "container_id" ∧
  (extractJsonString ("{" +:+ quoted "container_id" +:+ " : " +:+ quoted "web" +:+ "}") "container_id"
   = "web" ↔ first_field (chars "container_id")
       (chars ("{" +:+ quoted "container_id" +:+ " : " +:+ quoted "web" +:+ "}")) (chars "web"))
  ∧ extractJsonString ("{" +:+ quoted "container_id" +:+ " : " +:+ quoted "web" +:+ "}")
      "container_id" = "web".
Proof.
  assert (Hk : key_ok "container_id") by (unfold key_ok; repeat constructor).
  split; [exact Hk|]. split; [|vm_compute; reflexivity].
  apply (extractJsonString_spec _ "container_id" Hk). discriminate.
Defined.

(** C36: on the compact text of any flat JSON object (numbers and strings that need no
    escape), looking up an identifier returns the first non-empty string member of
    that name, whatever the other members and values hold, a value equal to the key
    included. *)
Theorem extractJsonString_lookup kvs key :
  ident key → flat kvs →
  extractJsonString (print (JObj kvs)) key = lookup_string kvs key.
Proof. apply extractJsonString_flat. Qed.

Lemma extractJsonString_lookup_witness :
  ident "type" ∧ extractJsonString (print (JObj
    [("container_id", JStr "type"); ("n", JNum (-5)); ("policy_id", JStr "p1"); ("type", JStr "SECCOMP")]))
    "type" = "SECCOMP".
Proof.
  assert (Hi : ident "type") by (split; [discriminate|repeat constructor]).
  split; [exact Hi|]. rewrite (extractJsonString_lookup _ "type" Hi); [reflexivity|].
  repeat constructor; unfold plain; repeat constructor.
Defined.
