(* ===== verification/IO.v ===== *)
(** * IO: the operating system as the agent sees it

    The agent is a user-space process: it reads clocks, files and the
    environment, talks to sockets through libcurl and the BSD API, runs shell
    commands and polls the BPF ring buffer.  None of that code is in the
    repository, so the model keeps it abstract: [syscall A] lists the requests
    the agent's sources make, with the type [A] of the answer each one gets,
    and [OS W] is an arbitrary machine with state [W] answering them.  A
    component's method is an [IO] action: it runs against any [OS], and it
    records every request with its answer in a trace, so that a theorem can
    speak of what was posted, written or executed.

    [holds m Q] says that, in every world, [m] returns a value and extends the
    trace by a list of events that together satisfy [Q]. *)

From S2P Require Export Prelude.

#[local] Open Scope Z_scope.

(** ** Requests *)

(** One libcurl transfer: which socket (None is TCP), the URL, the body of a
    POST (None is GET), the time-out in seconds. *)
Record curl_request := CurlRequest {
  cr_socket : option string;
  cr_url : string;
  cr_post : option string;
  cr_timeout : Z;
}.

(** What libcurl answers: [curl_easy_init] may fail; otherwise the chunks handed
    to the write callback in order, whether [curl_easy_perform] returned
    [CURLE_OK], and the HTTP status line's code. *)
Inductive curl_result :=
  | CurlInitFailed
  | CurlDone (chunks : list string) (curle_ok : bool) (status : Z).

(** The broken-down time of day: [struct tm], its fields as the C library counts them. *)
Record tm := MkTm {
  tm_year : Z;   (* since 1900 *)
  tm_mon : Z;    (* 0 to 11 *)
  tm_mday : Z;
  tm_hour : Z;
  tm_min : Z;
  tm_sec : Z;    (* 0 to 60 *)
}.

Inductive syscall : Type → Type :=
  | SteadyNowNs : syscall Z                (* steady_clock::now(), as uint64_t ns *)
  | LocalTime : syscall tm                   (* localtime of system_clock::now() *)
  | GetEnv (key : string) : syscall (option string)
  | StatOk (path : string) : syscall bool
  | ReadFile (path : string) : syscall (option string)   (* ifstream, whole text *)
  | CreateDirectories (path : string) : syscall bool     (* false: throws *)
  | OpenTrunc (path : string) : syscall bool             (* ofstream::open *)
  | WriteStream (path : string) (data : list Z) : syscall bool
  | CloseStream (path : string) : syscall bool
  | CurlPerform (req : curl_request) : syscall curl_result
  | System (cmd : string) : syscall Z
  | Popen (cmd : string) : syscall (option string)
  | SleepMs (ms : Z) : syscall unit
  (* the iteration order of an unordered_map with these keys *)
  | HashOrder (keys : list string) : syscall (list string)
  (* BSD sockets; a negative answer is an error *)
  | Socket : syscall Z
  | SetReuseAddr (fd : Z) : syscall unit
  | Bind (fd port : Z) : syscall Z
  | Listen (fd backlog : Z) : syscall Z
  | Shutdown (fd : Z) : syscall unit
  | CloseFd (fd : Z) : syscall unit
  | Select (nfds fd seconds : Z) : syscall Z         (* of the set that holds fd *)
  | Accept (fd : Z) : syscall Z
  | Recv (fd size : Z) : syscall (option string)   (* None: error *)
  (* send without MSG_NOSIGNAL; None: the peer is gone and SIGPIPE ends the process *)
  | Send (fd : Z) (data : string) : syscall (option Z)
  (* threads and the flags they share *)
  | ThreadStart : syscall unit
  | ThreadJoin : syscall unit
  | LoadRunning : syscall bool
  | LoadSignalStop : syscall bool
  (* libbpf; false is a null or an error *)
  | BpfOpen (file : string) : syscall bool
  | BpfLoad : syscall bool
  | BpfFindProgram (name : string) : syscall bool
  | BpfAttachTracepoint (category name : string) : syscall bool
  | BpfFindMap (name : string) : syscall Z
  | RingBufferNew (fd : Z) : syscall bool
  (* the samples the callback is given, in order, and the return value *)
  | RingBufferPoll (ms : Z) : syscall (list (list Z) * Z)
  | BpfRelease (handle : string) : syscall unit.

(** ** Machines, traces and actions *)

Class OS (W : Type) := { os_step : ∀ A : Type, syscall A → W → A * W }.
#[export] Hint Mode OS ! : typeclass_instances.

Inductive event := | Ev {A : Type} (c : syscall A) (a : A).

Record io_state (W : Type) := IOState { io_world : W; io_trace : list event }.
Arguments IOState {W}.
Arguments io_world {W}.
Arguments io_trace {W}.

Definition IO (W A : Type) : Type := io_state W → A * io_state W.

#[export] Instance io_ret W : MRet (IO W) := λ A a s, (a, s).
#[export] Instance io_bind W : MBind (IO W) := λ A B k m s,
  let r := m s in k r.1 r.2.

Definition call {W} `{OS W} {A} (c : syscall A) : IO W A := λ s,
  let r := os_step A c (io_world s) in
  (r.1, IOState r.2 (io_trace s ++ [Ev c r.1])).

(** The events an action produces and the value it returns, from an empty trace. *)
Definition run {W A} (m : IO W A) (w : W) : A * list event :=
  let r := m (IOState w []) in (r.1, io_trace r.2).

(** The order a loop over an [unordered_map] with these keys visits them in: any
    permutation, chosen by the machine. *)
Definition hash_order {W} `{OS W} (keys : list string) : IO W (list string) :=
  order ← call (HashOrder keys);
  mret (if decide (order ≡ₚ keys) then order else keys).

(** [nowNs() + cacheTTLSeconds_ * 1'000'000'000ULL]. *)
Definition expiry (now ttl : Z) : Z := u64 (now + u64 (ttl * 1000000000)).

(** Iterate an action over a list, threading a state. *)
Fixpoint io_fold {W A S} (f : S → A → IO W S) (s : S) (l : list A) : IO W S :=
  match l with
  | [] => mret s
  | a :: l => s' ← f s a; io_fold f s' l
  end.

(** ** Reasoning about actions *)

Definition holds {W A} (m : IO W A) (Q : A → list event → Prop) : Prop :=
  ∀ s, ∃ t, io_trace (m s).2 = io_trace s ++ t ∧ Q (m s).1 t.

Section rules.
Context {W : Type} `{OS W}.

Lemma holds_ret {A} (a : A) (Q : A → list event → Prop) :
  Q a [] → holds (W:=W) (mret a) Q.
Proof. intros HQ s. exists []. by rewrite app_nil_r. Qed.

Lemma holds_call {A} (c : syscall A) (Q : A → list event → Prop) :
  (∀ a, Q a [Ev c a]) → holds (call (W:=W) c) Q.
Proof. intros HQ s. eexists. split; [done|]. apply HQ. Qed.

Lemma holds_bind {A B} (m : IO W A) (k : A → IO W B) (Q : B → list event → Prop) :
  holds m (λ a t, holds (k a) (λ b t', Q b (t ++ t'))) →
  holds (m ≫= k) Q.
Proof.
  intros Hm s. destruct (Hm s) as (t & Ht & Hk).
  destruct (Hk (m s).2) as (t' & Ht' & HQ).
  exists (t ++ t'). split; [|done].
  change ((m ≫= k) s) with (k (m s).1 (m s).2).
  by rewrite Ht', Ht, app_assoc.
Qed.

Lemma holds_mono {A} (m : IO W A) (P Q : A → list event → Prop) :
  holds m P → (∀ a t, P a t → Q a t) → holds m Q.
Proof. intros Hm HPQ s. destruct (Hm s) as (t & ? & ?). eauto. Qed.

Lemma holds_and {A} (m : IO W A) (P Q : A → list event → Prop) :
  holds m P → holds m Q → holds m (λ a t, P a t ∧ Q a t).
Proof.
  intros HP HQ s. destruct (HP s) as (t & Ht & ?), (HQ s) as (t' & Ht' & ?).
  rewrite Ht in Ht'. apply app_inv_head in Ht' as <-. eauto.
Qed.

(** What holds of the value alone. *)
Lemma holds_value {A} (m : IO W A) (Q : A → list event → Prop) (V : A → Prop) :
  holds m Q → (∀ s, V (m s).1) → holds m (λ a t, Q a t ∧ V a).
Proof. intros HQ HV s. destruct (HQ s) as (t & Ht & ?). eauto. Qed.

(** A hypothesis of the post-condition alone. *)
Lemma holds_impl {A} (P : Prop) (m : IO W A) (Q : A → list event → Prop) :
  holds m (λ _ _, True) → (P → holds m Q) → holds m (λ a t, P → Q a t).
Proof.
  intros Hm HQ s. destruct (Hm s) as (t & Ht & _). exists t. split; [done|]. intros HP.
  destruct (HQ HP s) as (t' & Ht' & HQ'). rewrite Ht in Ht'. by apply app_inv_head in Ht' as <-.
Qed.

(** A loop: the invariant is indexed by what has been done and what is left. *)
Lemma holds_fold {A S} (I : list A → S → list event → Prop)
    (f : S → A → IO W S) s l :
  I [] s [] →
  (∀ done_ a s t, I done_ s t →
    holds (f s a) (λ s' t', I (done_ ++ [a]) s' (t ++ t'))) →
  holds (io_fold f s l) (λ s' t, I l s' t).
Proof.
  intros H0 Hstep.
  cut (∀ l done_ s t0, I done_ s t0 →
    holds (io_fold f s l) (λ s' t, I (done_ ++ l) s' (t0 ++ t))).
  { intros Hgen. apply (Hgen l [] s []) in H0. done. }
  clear s l H0. intros l. induction l as [|a l IH]; intros done_ s t0 HI; simpl.
  - apply holds_ret. by rewrite !app_nil_r.
  - apply holds_bind. eapply holds_mono; [by eapply Hstep, HI|].
    intros s' t HI'. eapply holds_mono; [by eapply IH, HI'|].
    intros s'' t'. by rewrite <-!app_assoc.
Qed.
End rules.

(** Two actions that always return the same value and state. *)
Definition io_eq {W A} (m n : IO W A) : Prop := ∀ s, m s = n s.

#[export] Instance io_eq_equiv {W A} : Equivalence (io_eq (W:=W) (A:=A)).
Proof.
  split; [by intros m s| by intros m n Hmn s| by intros m n p Hmn Hnp s; rewrite Hmn].
Qed.

#[export] Instance io_bind_proper {W A B} :
  Proper (pointwise_relation A (io_eq (W:=W) (A:=B)) ==> io_eq ==> io_eq)
    (@mbind (IO W) _ A B).
Proof.
  intros k k' Hk m m' Hm s. change (k (m s).1 (m s).2 = k' (m' s).1 (m' s).2).
  rewrite (Hm s). apply Hk.
Qed.

#[export] Instance holds_proper {W A} :
  Proper (io_eq ==> pointwise_relation A (pointwise_relation _ iff) ==> iff)
    (holds (W:=W) (A:=A)).
Proof.
  intros m m' Hm Q Q' HQ. unfold holds. split; intros Hh s;
    destruct (Hh s) as (t & Ht & HQt); exists t.
  - rewrite <-(Hm s). split; [done|]. by apply HQ.
  - rewrite (Hm s). split; [done|]. by apply HQ.
Qed.

#[export] Hint Resolve holds_ret holds_call : dk.

(** Step through one action of a [holds] goal. *)
Ltac io_step :=
  lazymatch goal with
  | |- holds (mbind _ _) _ => apply holds_bind
  | |- holds (call _) _ => apply holds_call; intros ?
  | |- holds (mret _) _ => apply holds_ret
  | |- holds (if ?b then _ else _) _ => destruct b eqn:?
  | |- holds (match ?x with _ => _ end) _ => destruct x eqn:?
  end; cbn beta.

(** ** Projections of a trace *)

Definition clock_reading (e : event) : option Z :=
  match e with Ev SteadyNowNs now => Some now | _ => None end.

Lemma clock_event_inj a b t t' :
  Ev SteadyNowNs a :: t = Ev SteadyNowNs b :: t' → a = b ∧ t = t'.
Proof.
  intros Heq. split; [|by apply (f_equal tail) in Heq].
  apply (f_equal (λ l, e ← head l; clock_reading e)) in Heq. by simplify_eq/=.
Qed.

(** The files that could not be opened for writing, in order. *)
Definition failed_opens (t : list event) : list string :=
  omap (λ e, match e with Ev (OpenTrunc p) false => Some p | _ => None end) t.

Lemma failed_opens_app t t' : failed_opens (t ++ t') = failed_opens t ++ failed_opens t'.
Proof. apply omap_app. Qed.

(** The bodies POSTed to a URL over TCP, in order. *)
Definition posted_bodies (url : string) (t : list event) : list string :=
  omap (λ e, match e with
             | Ev (CurlPerform (CurlRequest None u (Some b) _)) _ =>
                 if decide (u = url) then Some b else None
             | _ => None
             end) t.

(** The bytes written to a path, in order (streams that were open and good). *)
Definition written (path : string) (t : list event) : list Z :=
  concat (omap (λ e, match e with
                     | Ev (WriteStream p d) _ => if decide (p = path) then Some d else None
                     | _ => None
                     end) t).

(** Shell commands run, in order. *)
Definition commands (t : list event) : list string :=
  omap (λ e, match e with Ev (System c) _ => Some c | _ => None end) t.

Lemma posted_bodies_app u t t' :
  posted_bodies u (t ++ t') = posted_bodies u t ++ posted_bodies u t'.
Proof. apply omap_app. Qed.

Lemma written_app p t t' : written p (t ++ t') = written p t ++ written p t'.
Proof. unfold written. by rewrite omap_app, concat_app. Qed.

Lemma commands_app t t' : commands (t ++ t') = commands t ++ commands t'.
Proof. apply omap_app. Qed.

(** ** Frames

    [Emits P m]: every event of [m] satisfies [P].  The instances follow the
    structure of an action, so that for a method it is found by resolution. *)

Class Emits {W A} (P : event → Prop) (m : IO W A) : Prop :=
  { emits : holds m (λ _ t, Forall P t) }.
#[export] Hint Mode Emits ! ! - ! : typeclass_instances.

#[export] Instance emits_ret {W A} P (a : A) : Emits (W:=W) P (mret a).
Proof. constructor. by apply holds_ret. Qed.

#[export] Instance emits_bind {W} `{OS W} {A B} P (m : IO W A) (k : A → IO W B) :
  Emits P m → (∀ a, Emits P (k a)) → Emits P (m ≫= k).
Proof.
  intros Hm Hk. constructor. apply holds_bind. eapply holds_mono; [apply Hm|].
  intros a t Ht. eapply holds_mono; [apply Hk|]. intros b t' Ht'. by apply Forall_app_2.
Qed.

Lemma emits_call {W} `{OS W} {A} (P : event → Prop) (c : syscall A) :
  (∀ a, P (Ev c a)) → Emits P (call (W:=W) c).
Proof. intros HP. constructor. apply holds_call. intros a. by constructor. Qed.

#[export] Instance emits_if {W A} P (b : bool) (m n : IO W A) :
  Emits P m → Emits P n → Emits P (if b then m else n).
Proof. by destruct b. Qed.

Lemma emits_mono {W A} (P Q : event → Prop) (m : IO W A) :
  (∀ e, P e → Q e) → Emits P m → Emits Q m.
Proof.
  intros HPQ [Hm]. constructor. eapply holds_mono; [exact Hm|].
  intros a t Ht. eapply Forall_impl; [exact Ht|exact HPQ].
Qed.

#[export] Hint Extern 2 (Emits _ (call _)) =>
  (apply emits_call; intros ?; exact I) : typeclass_instances.
#[export] Hint Extern 3 (Emits _ (match ?x with _ => _ end)) =>
  destruct x : typeclass_instances.

#[export] Instance emits_io_fold {W A S} P (f : S → A → IO W S) s l :
  (∀ s a, Emits P (f s a)) → Emits P (io_fold f s l).
Proof.
  intros Hf. constructor. revert s. induction l as [|a l IH]; intros s; cbn [io_fold].
  - by apply holds_ret.
  - apply holds_bind. eapply holds_mono; [apply Hf|]. intros s' t Ht.
    eapply holds_mono; [apply IH|]. intros s'' t' Ht'. by apply Forall_app_2.
Qed.

(** A step whose value and events do not matter. *)
Lemma holds_any {W A} (m : IO W A) (Q : A → list event → Prop) :
  Emits (λ _, True) m → (∀ a t, Q a t) → holds m Q.
Proof. intros [Hm] HQ. eapply holds_mono; [exact Hm|]. auto. Qed.

(** An event that changes nothing outside: no POST over TCP, no file opened,
    written or closed, no command run, nothing sent. *)
Definition silent (e : event) : Prop :=
  match e with
  | Ev (CurlPerform (CurlRequest None _ (Some _) _)) _ => False
  | Ev (CreateDirectories _) _ | Ev (OpenTrunc _) _ | Ev (WriteStream _ _) _
  | Ev (CloseStream _) _ | Ev (System _) _ | Ev (Send _ _) _ => False
  | _ => True
  end.

(** Nothing is posted. *)
Definition unposted (e : event) : Prop :=
  match e with Ev (CurlPerform (CurlRequest None _ (Some _) _)) _ => False | _ => True end.

Lemma posted_bodies_silent u t : Forall silent t → posted_bodies u t = [].
Proof.
  unfold posted_bodies. induction 1 as [|[A c a] t He _ IH]; [done|].
  cbn [omap list_omap]. destruct c; try exact IH.
  destruct req as [[sk|] ? [b|] ?]; try exact IH. done.
Qed.

Lemma written_silent p t : Forall silent t → written p t = [].
Proof.
  unfold written. induction 1 as [|[A c a] t He _ IH]; [done|].
  cbn [omap list_omap]. by destruct c; try exact IH.
Qed.

Lemma commands_silent t : Forall silent t → commands t = [].
Proof.
  unfold commands. induction 1 as [|[A c a] t He _ IH]; [done|].
  cbn [omap list_omap]. by destruct c; try exact IH.
Qed.

Lemma holds_emits {W A} (P : event → Prop) (m : IO W A) Q :
  Emits P m → holds m Q → holds m (λ a t, Q a t ∧ Forall P t).
Proof. intros [Hm] HQ. by apply holds_and. Qed.

(** ** A scripted machine

    A concrete [OS] for evaluating the model: the clock advances by one at each
    reading, transfers are answered from a list, files and the environment are
    functions, shell commands return the codes of a list. *)

Record script := Script {
  sc_clock : Z;
  sc_curl : list curl_result;
  sc_env : string → option string;
  sc_file : string → option string;
  sc_exists : string → bool;
  sc_popen : string → option string;
  sc_system : list Z;
  sc_open_ok : bool;
  sc_recv : option string;
  sc_polls : list (list (list Z) * Z);   (* stop is signalled when they run out *)
}.

(** Setters. *)
Definition with_clock (z : Z) (w : script) : script :=
  let 'Script _ b c d e f g h i j := w in Script z b c d e f g h i j.
Definition with_curl (l : list curl_result) (w : script) : script :=
  let 'Script a _ c d e f g h i j := w in Script a l c d e f g h i j.
Definition with_env (v : string → option string) (w : script) : script :=
  let 'Script a b _ d e f g h i j := w in Script a b v d e f g h i j.
Definition with_file (v : string → option string) (w : script) : script :=
  let 'Script a b c _ e f g h i j := w in Script a b c v e f g h i j.
Definition with_exists (v : string → bool) (w : script) : script :=
  let 'Script a b c d _ f g h i j := w in Script a b c d v f g h i j.
Definition with_popen (v : string → option string) (w : script) : script :=
  let 'Script a b c d e _ g h i j := w in Script a b c d e v g h i j.
Definition with_system (l : list Z) (w : script) : script :=
  let 'Script a b c d e f _ h i j := w in Script a b c d e f l h i j.
Definition with_recv (r : option string) (w : script) : script :=
  let 'Script a b c d e f g h _ j := w in Script a b c d e f g h r j.
Definition with_polls (l : list (list (list Z) * Z)) (w : script) : script :=
  let 'Script a b c d e f g h i _ := w in Script a b c d e f g h i l.

Definition script_step (A : Type) (c : syscall A) (w : script) : A * script :=
  match c in syscall A return A * script with
  | SteadyNowNs => (sc_clock w, with_clock (sc_clock w + 1) w)
  | LocalTime => (MkTm 125 0 1 0 0 0, w)
  | GetEnv k => (sc_env w k, w)
  | StatOk p => (sc_exists w p, w)
  | ReadFile p => (sc_file w p, w)
  | CreateDirectories _ => (true, w)
  | OpenTrunc _ => (sc_open_ok w, w)
  | WriteStream _ _ => (true, w)
  | CloseStream _ => (true, w)
  | CurlPerform _ => (default CurlInitFailed (head (sc_curl w)), with_curl (tail (sc_curl w)) w)
  | System _ => (default 1 (head (sc_system w)), with_system (tail (sc_system w)) w)
  | Popen c => (sc_popen w c, w)
  | SleepMs _ => (tt, w)
  | HashOrder keys => (keys, w)
  | Socket => (3, w)
  | SetReuseAddr _ => (tt, w)
  | Bind _ _ => (0, w)
  | Listen _ _ => (0, w)
  | Shutdown _ => (tt, w)
  | CloseFd _ => (tt, w)
  | Select _ _ _ => (1, w)
  | Accept _ => (4, w)
  | Recv _ _ => (sc_recv w, w)
  | Send _ data => (Some (str_len data), w)
  | ThreadStart => (tt, w)
  | ThreadJoin => (tt, w)
  | LoadRunning => (true, w)
  | LoadSignalStop => (match sc_polls w with [] => true | _ => false end, w)
  | BpfOpen _ => (true, w)
  | BpfLoad => (true, w)
  | BpfFindProgram _ => (true, w)
  | BpfAttachTracepoint _ _ => (true, w)
  | BpfFindMap _ => (5, w)
  | RingBufferNew _ => (true, w)
  | RingBufferPoll _ => (default ([], 0) (head (sc_polls w)), with_polls (tail (sc_polls w)) w)
  | BpfRelease _ => (tt, w)
  end.

#[export] Instance script_os : OS script := {| os_step := script_step |}.

(** Nothing there: no environment, no files, every transfer and command fails. *)
Definition bare : script :=
  Script 0 [] (λ _, None) (λ _, None) (λ _, false) (λ _, None) [] true None [].
