(* ===== verification/HttpClient.v ===== *)
(** * HttpClient: posting to the server

    [agent/src/http_client.cpp]: one POST, and the retry loop with its
    exponential back-off.  The specification describes the whole conversation
    with the network: which requests are made, which pauses are taken between
    them and how the outcome follows from the answers. *)

From S2P Require Export IO.

#[local] Open Scope Z_scope.

Section HttpClient.
Context {W : Type} `{OS W}.

Definition post_request (url body : string) (timeoutSeconds : Z) : curl_request :=
  CurlRequest None (c_str url) (Some (c_str body)) timeoutSeconds.

Definition postJson (url body : string) (timeoutSeconds : Z) : IO W bool :=
  res ← call (CurlPerform (post_request url body timeoutSeconds));
  mret match res with
       | CurlInitFailed => false
       | CurlDone _ curle_ok _ => curle_ok
       end.

(** [100 * (1 << attempt)] milliseconds. *)
Definition delayMs (attempt : Z) : Z := 100 * Z.shiftl 1 attempt.

(** [for (attempt = ...; attempt < maxRetries; ++attempt)], [n] turns left. *)
Fixpoint retryFrom (n : nat) (attempt : Z) (url body : string) (maxRetries timeoutSeconds : Z)
    : IO W bool :=
  match n with
  | O => mret false
  | S n =>
      ok ← postJson url body timeoutSeconds;
      if ok : bool then mret true
      else
        _ ← (if attempt <? maxRetries - 1 then call (SleepMs (delayMs attempt)) else mret tt);
        retryFrom n (attempt + 1) url body maxRetries timeoutSeconds
  end.

Definition postJsonWithRetry (url body : string) (maxRetries timeoutSeconds : Z) : IO W bool :=
  retryFrom (Z.to_nat maxRetries) 0 url body maxRetries timeoutSeconds.

(** ** The conversation *)

Definition delivered (r : curl_result) : bool :=
  match r with CurlDone _ ok _ => ok | CurlInitFailed => false end.

(** The events of attempts [attempt], [attempt + 1], ... that got the answers [rs]. *)
Fixpoint conversation (req : curl_request) (maxRetries attempt : Z) (rs : list curl_result)
    : list event :=
  match rs with
  | [] => []
  | r :: rs =>
      Ev (CurlPerform req) r ::
      (if delivered r then []
       else (if attempt <? maxRetries - 1 then [Ev (SleepMs (delayMs attempt)) tt] else []))
      ++ conversation req maxRetries (attempt + 1) rs
  end.

(** The answers of a run: failures, then either a success or the end of the budget. *)
Definition outcome (n : nat) (ok : bool) (rs : list curl_result) : Prop :=
  if ok then ∃ fails r, rs = fails ++ [r] ∧ Forall (λ r, delivered r = false) fails
               ∧ delivered r = true ∧ (length rs ≤ n)%nat
  else Forall (λ r, delivered r = false) rs ∧ length rs = n.

Lemma postJson_holds url body t Q :
  (∀ r, Q (delivered r) [Ev (CurlPerform (post_request url body t)) r]) →
  holds (postJson url body t) Q.
Proof.
  intros HQ. unfold postJson. io_step. io_step. io_step. rewrite app_nil_r.
  match goal with |- Q ?b _ => replace b with (delivered a) by by destruct a end. apply HQ.
Qed.

Lemma retryFrom_holds n attempt url body maxRetries t :
  holds (retryFrom n attempt url body maxRetries t)
    (λ ok tr, ∃ rs, tr = conversation (post_request url body t) maxRetries attempt rs
                 ∧ outcome n ok rs).
Proof.
  revert attempt. induction n as [|n IH]; intros attempt; cbn [retryFrom].
  - io_step. exists []. by split; [|split].
  - io_step. apply postJson_holds. intros r. destruct (delivered r) eqn:Hr.
    + io_step. exists [r]. split; [cbn; by rewrite Hr|]. exists [], r. split_and!; try done.
      simpl. lia.
    + io_step.
      assert (Hrest : ∀ pause, pause = (if attempt <? maxRetries - 1
            then [Ev (SleepMs (delayMs attempt)) tt] else []) →
          holds (retryFrom n (attempt + 1) url body maxRetries t)
            (λ ok t', ∃ rs, [Ev (CurlPerform (post_request url body t)) r] ++ pause ++ t'
                = conversation (post_request url body t) maxRetries attempt rs
              ∧ outcome (S n) ok rs)).
      { intros pause ->. eapply holds_mono; [apply IH|]. intros ok t' (rs & -> & Ho).
        exists (r :: rs). split; [cbn [conversation]; by rewrite Hr|].
        destruct ok; cbn [outcome] in *.
        - destruct Ho as (fails & r' & -> & ? & ? & Hl). exists (r :: fails), r'.
          split_and!; try done; [by constructor|simpl; lia].
        - destruct Ho as [? <-]. split; [by constructor|done]. }
      destruct (attempt <? maxRetries - 1).
      * io_step. destruct a. by apply Hrest.
      * io_step. by apply Hrest.
Qed.
End HttpClient.

(** The pauses of a conversation and how long they add up to. *)
Definition pauses (t : list event) : list Z :=
  omap (λ e, match e with Ev (SleepMs ms) _ => Some ms | _ => None end) t.

Definition attempts (t : list event) : nat :=
  length (omap (λ e, match e with Ev (CurlPerform _) _ => Some tt | _ => None end) t).

Lemma pauses_app t t' : pauses (t ++ t') = pauses t ++ pauses t'.
Proof. apply omap_app. Qed.

(** The pauses double from one attempt to the next. *)
Lemma pauses_conversation req maxRetries attempt rs :
  0 ≤ attempt → Z.of_nat (length rs) ≤ maxRetries - attempt →
  foldr Z.add 0 (pauses (conversation req maxRetries attempt rs))
  ≤ 100 * (2 ^ Z.max attempt (maxRetries - 1) - 2 ^ attempt)
  ∧ Forall (λ ms, 100 ≤ ms ≤ 100 * 2 ^ (maxRetries - 2)) 
      (pauses (conversation req maxRetries attempt rs)).
Proof.
  revert attempt. induction rs as [|r rs IH]; intros attempt Ha Hl.
  - cbn. split; [|constructor].
    pose proof (Z.pow_le_mono_r 2 attempt (Z.max attempt (maxRetries - 1))). lia.
  - cbn [conversation length] in *. 
    assert (0 < 2 ^ attempt) by (apply Z.pow_pos_nonneg; lia).
    destruct (IH (attempt + 1)) as [IH1 IH2]; [lia|lia|].
    assert (Hp : 2 ^ (attempt + 1) = 2 * 2 ^ attempt) by (rewrite Z.pow_add_r by lia; lia).
    rewrite Hp in IH1.
    change (pauses (Ev (CurlPerform req) r :: ?l)) with (pauses l).
    rewrite pauses_app. destruct (delivered r); [|destruct (attempt <? maxRetries - 1) eqn:Hlt];
      cbn [app]; bool_to_prop; try change (pauses []) with (@nil Z); cbn [app].
    + split; [|done]. destruct (decide (attempt < maxRetries - 1)).
      * rewrite Z.max_r in IH1 |- * by lia. lia.
      * assert (length rs = 0%nat) as ->%nil_length_inv by lia. cbn.
        pose proof (Z.pow_le_mono_r 2 attempt (Z.max attempt (maxRetries - 1))). lia.
    + change (pauses [Ev (SleepMs (delayMs attempt)) tt]) with [delayMs attempt].
      cbn [app foldr]. unfold delayMs. rewrite Z.shiftl_1_l.
      rewrite Z.max_r in IH1 |- * by lia. split; [lia|]. constructor; [|done].
      pose proof (Z.pow_le_mono_r 2 attempt (maxRetries - 2)).
      pose proof (Z.pow_le_mono_r 2 0 attempt). change (2 ^ 0) with 1 in *. lia.
    + assert (length rs = 0%nat) as ->%nil_length_inv by lia. cbn. split; [|constructor].
      pose proof (Z.pow_le_mono_r 2 attempt (Z.max attempt (maxRetries - 1))). lia.
Qed.

Lemma attempts_conversation req maxRetries attempt rs :
  attempts (conversation req maxRetries attempt rs) = length rs.
Proof.
  unfold attempts. revert attempt. induction rs as [|r rs IH]; intros attempt; [done|].
  cbn [conversation omap list_omap length]. rewrite omap_app, length_app, IH.
  by repeat case_bool.
Qed.

(** What a conversation posts: the body, once per attempt, to its own URL only. *)
Lemma posted_conversation u url body t maxRetries attempt rs :
  posted_bodies u (conversation (post_request url body t) maxRetries attempt rs)
  = if decide (c_str url = u) then replicate (length rs) (c_str body) else [].
Proof.
  revert attempt. induction rs as [|r rs IH]; intros attempt; [by case_decide|].
  cbn [conversation]. unfold posted_bodies in *. cbn [omap list_omap post_request].
  rewrite omap_app, IH.
  assert (Hp : ∀ b : bool, omap (λ e, match e with
      | Ev (CurlPerform (CurlRequest None u' (Some b) _)) _ => if decide (u' = u) then Some b else None
      | _ => None end) (if delivered r then [] else if b then [Ev (SleepMs (delayMs attempt)) tt] else [])
    = []) by (intros []; by destruct (delivered r)).
  rewrite Hp. cbn [app length replicate]. by case_decide.
Qed.

(** A request to [url] is made at least once and at most [n] times, and nothing else is
    posted, written or executed. *)
Definition posts (n : nat) (url body : string) (t : list event) : Prop :=
  ∃ k, (1 ≤ k ≤ n)%nat
    ∧ (∀ u, posted_bodies u t = if decide (c_str url = u) then replicate k (c_str body) else [])
    ∧ (∀ p, written p t = []) ∧ commands t = [].

Lemma written_conversation p req maxRetries attempt rs :
  written p (conversation req maxRetries attempt rs) = []
  ∧ commands (conversation req maxRetries attempt rs) = [].
Proof.
  revert attempt. induction rs as [|r rs IH]; intros attempt; [done|].
  destruct (IH (attempt + 1)) as [IH1 IH2]. cbn [conversation].
  change (Ev (CurlPerform req) r :: ?l) with ([Ev (CurlPerform req) r] ++ l).
  rewrite !written_app, !commands_app, IH1, IH2. by repeat case_match.
Qed.

(** A predicate true of every transfer and every pause. *)
Lemma postJsonWithRetry_emits {W} `{OS W} (P : event → Prop) url body maxRetries t :
  (∀ req r, P (Ev (CurlPerform req) r)) → (∀ ms u, P (Ev (SleepMs ms) u)) →
  Emits P (postJsonWithRetry (W:=W) url body maxRetries t).
Proof.
  intros Hc Hs. constructor. eapply holds_mono; [apply retryFrom_holds|].
  intros ok tr (rs & -> & _). generalize 0 at 1. induction rs as [|r rs IH]; intros n;
    cbn [conversation]; [constructor|].
  constructor; [apply Hc|]. apply Forall_app_2; [|apply IH].
  repeat case_match; repeat constructor. apply Hs.
Qed.

Lemma postJsonWithRetry_posts {W} `{OS W} url body maxRetries t :
  1 ≤ maxRetries →
  holds (postJsonWithRetry (W:=W) url body maxRetries t)
    (λ _ tr, posts (Z.to_nat maxRetries) url body tr).
Proof.
  intros Hr. eapply holds_mono; [apply retryFrom_holds|]. intros ok tr (rs & -> & Ho).
  exists (length rs). split_and!.
  - destruct ok; cbn [outcome] in Ho; [|lia].
    destruct Ho as (fails & r & -> & _). rewrite length_app. simpl. lia.
  - destruct ok; cbn [outcome] in Ho; [|lia]. by destruct Ho as (? & ? & _ & _ & _ & ?).
  - intros u. apply posted_conversation.
  - intros p. apply written_conversation.
  - apply written_conversation. exact "".
Qed.

(** ** The retries, written out *)

(** The attempts that failed: the [i]-th is followed by a pause of 100 * 2^i ms. *)
Fixpoint failed_attempts (req : curl_request) (i : nat) (rs : list curl_result) : list event :=
  match rs with
  | [] => []
  | r :: rs =>
      Ev (CurlPerform req) r :: Ev (SleepMs (100 * 2 ^ Z.of_nat i)) tt
      :: failed_attempts req (S i) rs
  end.

Lemma conversation_failed req maxRetries i fails r :
  Forall (λ r, delivered r = false) fails →
  Z.of_nat i + Z.of_nat (length fails) < maxRetries →
  (delivered r = false → Z.of_nat i + Z.of_nat (length fails) = maxRetries - 1) →
  conversation req maxRetries (Z.of_nat i) (fails ++ [r])
  = failed_attempts req i fails ++ [Ev (CurlPerform req) r].
Proof.
  intros Hf. revert i. induction Hf as [|r0 fails Hr0 _ IH]; intros i Hl Hlast;
    cbn [app conversation failed_attempts length] in *.
  - rewrite app_nil_r. destruct (delivered r); [done|]. specialize (Hlast eq_refl).
    by rewrite (proj2 (Z.ltb_ge _ _)) by lia.
  - rewrite Hr0, (proj2 (Z.ltb_lt _ _)) by lia. unfold delayMs. rewrite Z.shiftl_1_l. cbn [app].
    replace (Z.of_nat i + 1) with (Z.of_nat (S i)) by lia. do 2 f_equal. apply IH; [lia|]. intros Hd. specialize (Hlast Hd). lia.
Qed.

(** ** Properties *)

(** C31: whatever the network answers, [postJsonWithRetry] terminates.  It makes the same request
    again after each failed transfer, with a pause of 100 ms after the first failure, 200 after
    the second and so on, doubling, but none after the last attempt; it stops at the first
    success and returns true then, or false after [maxRetries] failures; with no attempt
    allowed it does nothing and returns false.  With at most 26 attempts every pause is an
    int, as the code computes it. *)
Theorem postJsonWithRetry_spec {W} `{OS W} url body maxRetries timeoutSeconds :
  maxRetries ≤ 26 →
  holds (postJsonWithRetry (W:=W) url body maxRetries timeoutSeconds) (λ ok tr,
    let req := CurlRequest None (c_str url) (Some (c_str body)) timeoutSeconds in
    maxRetries ≤ 0 ∧ ok = false ∧ tr = []
    ∨ ∃ fails r, tr = failed_attempts req 0 fails ++ [Ev (CurlPerform req) r]
        ∧ Forall (λ r, delivered r = false) fails ∧ delivered r = ok
        ∧ Z.of_nat (length fails) < maxRetries
        ∧ (ok = false → Z.of_nat (length fails) = maxRetries - 1)
        ∧ Forall (λ ms, 0 ≤ ms ≤ INT_MAX) (pauses tr)).
Proof.
  intros H26. eapply holds_mono; [apply retryFrom_holds|]. intros ok tr (rs & -> & Ho). cbv zeta.
  destruct (decide (maxRetries ≤ 0)) as [Hz|Hpos].
  { left. rewrite Z2Nat.nonpos in Ho by done. destruct ok; cbn [outcome] in Ho.
    - destruct Ho as (fails & r & -> & _ & _ & Hl). rewrite length_app in Hl. simpl in Hl. lia.
    - destruct Ho as [_ ->%nil_length_inv]. done. }
  right.
  assert (Hrs : ∃ fails r, rs = fails ++ [r] ∧ Forall (λ r, delivered r = false) fails ∧ delivered r = ok
    ∧ Z.of_nat (length fails) < maxRetries ∧ (ok = false → Z.of_nat (length fails) = maxRetries - 1)).
  { destruct ok; cbn [outcome] in Ho.
    - destruct Ho as (fails & r & -> & Hf & Hr & Hl). exists fails, r. rewrite length_app in Hl. simpl in Hl.
      split_and!; [done..|lia|done].
    - destruct Ho as [Hf Hl]. destruct rs as [|r fails _] using rev_ind; [simpl in Hl; lia|].
      apply Forall_app in Hf as [Hf [Hr _]%Forall_cons]. rewrite length_app in Hl. simpl in Hl.
      exists fails, r. split_and!; [done..|lia|lia]. }
  destruct Hrs as (fails & r & -> & Hf & Hr & Hl & Hlast). exists fails, r.
  destruct (pauses_conversation (post_request url body timeoutSeconds) maxRetries 0 (fails ++ [r]))
    as [_ Hall]; [lia|rewrite length_app; simpl; lia|].
  split_and!; [|done..|].
  - apply (conversation_failed _ _ 0); [done|lia|]. intros Hd. rewrite Hr in Hd. specialize (Hlast Hd). lia.
  - eapply Forall_impl; [exact Hall|]. cbn beta. intros ms Hms. unfold INT_MAX.
    pose proof (Z.pow_le_mono_r 2 (maxRetries - 2) 24). change (2 ^ 24) with 16777216 in *. lia.
Qed.

(** The back-off stays in range.  With at most 26 retries no delay leaves the int
    range (the shift 1 << attempt and its product by 100 do not overflow), at most
    [maxRetries] requests are made, and the pauses add up to at most
    100 * (2^(maxRetries - 1) - 1) ms: 300 ms for the three retries the agent asks
    for. *)
Theorem postJsonWithRetry_bounds {W} `{OS W} url body maxRetries timeoutSeconds :
  1 ≤ maxRetries ≤ 26 →
  holds (postJsonWithRetry (W:=W) url body maxRetries timeoutSeconds) (λ _ tr,
    Z.of_nat (attempts tr) ≤ maxRetries
    ∧ foldr Z.add 0 (pauses tr) ≤ 100 * (2 ^ (maxRetries - 1) - 1)
    ∧ Forall (λ ms, 0 ≤ ms ≤ INT_MAX) (pauses tr)).
Proof.
  intros Hr. eapply holds_mono; [apply retryFrom_holds|]. intros ok tr (rs & -> & Ho).
  assert (Hl : (length rs ≤ Z.to_nat maxRetries)%nat).
  { destruct ok; cbn [outcome] in Ho; [by destruct Ho as (? & ? & _ & _ & _ & ?)|].
    destruct Ho as [_ ->]. done. }
  rewrite attempts_conversation.
  destruct (pauses_conversation (post_request url body timeoutSeconds) maxRetries 0 rs)
    as [Hsum Hall]; [lia|lia|].
  split; [lia|]. split.
  - rewrite Z.max_r in Hsum by lia. exact Hsum.
  - eapply Forall_impl; [exact Hall|]. cbn beta. intros ms Hms. unfold INT_MAX.
    pose proof (Z.pow_le_mono_r 2 (maxRetries - 2) 24). change (2 ^ 24) with 16777216 in *. lia.
Qed.

Definition flaky : script := with_curl [CurlInitFailed; CurlDone [] false 0; CurlDone [] true 200] bare.

Lemma postJsonWithRetry_spec_witness :
  let req := CurlRequest None "http://s/api" (Some "{}") 5 in
  holds (postJsonWithRetry (W:=script) "http://s/api" "{}" 3 5) (λ ok tr,
    3 ≤ 0 ∧ ok = false ∧ tr = []
    ∨ ∃ fails r, tr = failed_attempts req 0 fails ++ [Ev (CurlPerform req) r]
        ∧ Forall (λ r, delivered r = false) fails ∧ delivered r = ok
        ∧ Z.of_nat (length fails) < 3 ∧ (ok = false → Z.of_nat (length fails) = 3 - 1)
        ∧ Forall (λ ms, 0 ≤ ms ≤ INT_MAX) (pauses tr))
  ∧ run (postJsonWithRetry "http://s/api" "{}" 3 5) flaky
    = (true, [Ev (CurlPerform req) CurlInitFailed; Ev (SleepMs 100) tt;
              Ev (CurlPerform req) (CurlDone [] false 0); Ev (SleepMs 200) tt;
              Ev (CurlPerform req) (CurlDone [] true 200)]).
Proof.
  cbv zeta. split; [|vm_compute; reflexivity].
  apply (postJsonWithRetry_spec "http://s/api" "{}" 3 5). lia.
Defined.

Lemma postJsonWithRetry_bounds_witness :
  1 ≤ 3 ≤ 26 ∧
  holds (postJsonWithRetry (W:=script) "http://s/api" "{}" 3 5) (λ _ tr,
    Z.of_nat (attempts tr) ≤ 3 ∧ foldr Z.add 0 (pauses tr) ≤ 300
    ∧ Forall (λ ms, 0 ≤ ms ≤ INT_MAX) (pauses tr))
  ∧ (run (postJsonWithRetry "http://s/api" "{}" 3 5) flaky).1 = true
  ∧ pauses (run (postJsonWithRetry "http://s/api" "{}" 3 5) flaky).2 = [100; 200].
Proof.
  split; [lia|]. split; [|split; reflexivity].
  apply (postJsonWithRetry_bounds "http://s/api" "{}" 3 5). lia.
Defined.

(** An attempt makes exactly one request and its result is libcurl's transport
    result alone: the HTTP status of the answer plays no part, so an answer of 500
    counts as delivered and is not retried. *)
Theorem postJson_ignores_status {W} `{OS W} url body timeoutSeconds :
  holds (postJson (W:=W) url body timeoutSeconds) (λ ok tr,
    ∃ res, tr = [Ev (CurlPerform (post_request url body timeoutSeconds)) res]
      ∧ (ok = true ↔ ∃ chunks status, res = CurlDone chunks true status)).
Proof.
  apply postJson_holds. intros r. exists r. split; [done|].
  destruct r as [|chunks ok status]; cbn; [naive_solver|].
  destruct ok; naive_solver.
Qed.
