(* ===== verification/Config.v ===== *)
(** * Config: the agent's settings

    [agent/include/config.h] and [agent/src/config.cpp]: the record of settings
    with its defaults, and [loadConfig], which overrides each field from its own
    environment variable. *)

From S2P Require Export IO Decimal.

#[local] Open Scope Z_scope.

Record AgentConfig := MkAgentConfig {
  agentId : string;
  serverUrl : string;
  nodeName : string;
  shortWindowSec : Z;
  sendIntervalSec : Z;
  minEventsPerWindow : Z;
  longDumpDefaultDurationSec : Z;
  dumpDir : string;
  syscallVocabSize : Z;
  autoBaselineDump : bool;
  containerRuntime : string;
  dockerSocketPath : string;
  containerdSocketPath : string;
  crioSocketPath : string;
  crictlPath : string;
  containerMapCacheTTL : Z;
  useLegacyDockerMapper : bool;
  enableKubernetesApi : bool;
  preferPodName : bool;
  agentListenPort : Z;
  containerFilterRegex : string;
  policyDir : string;
  policyEnforcementMode : string;
}.

(** The member initialisers of the struct. *)
Definition default_config : AgentConfig := {|
  agentId := "node-1";
  serverUrl := "http://localhost:9090";
  nodeName := "worker-01";
  shortWindowSec := 5;
  sendIntervalSec := 5;
  minEventsPerWindow := 20;
  longDumpDefaultDurationSec := 1200;
  dumpDir := "/var/lib/deepkernel/dumps";
  syscallVocabSize := 256;
  autoBaselineDump := false;
  containerRuntime := "docker";
  dockerSocketPath := "/var/run/docker.sock";
  containerdSocketPath := "/run/containerd/containerd.sock";
  crioSocketPath := "/var/run/crio/crio.sock";
  crictlPath := "/usr/bin/crictl";
  containerMapCacheTTL := 60;
  useLegacyDockerMapper := true;
  enableKubernetesApi := false;
  preferPodName := false;
  agentListenPort := 8082;
  containerFilterRegex := "";
  policyDir := "/var/lib/deepkernel/policies";
  policyEnforcementMode := "ERRNO";
|}.

(** [strtol] with base 10: blanks, one optional sign, digits; the value is clamped
    to the range of a 64-bit long.  No digits gives 0. *)
Definition strtol (s : string) : Z :=
  let l := skip_spaces (chars s) in
  let '(neg, l) := match l with
                   | "-"%char :: l => (true, l)
                   | "+"%char :: l => (false, l)
                   | _ => (false, l)
                   end in
  let v := dec_value (span_digits l).1 in
  let v := if neg : bool then - v else v in
  Z.max (- 2 ^ 63) (Z.min (2 ^ 63 - 1) v).

(** [atoi]: [(int) strtol(s, NULL, 10)]. *)
Definition atoi (s : string) : Z := s32 (strtol s).

Section loadConfig.
Context {W : Type} `{OS W}.

(** The pure part of each [envOrDefault...]: the answer of [getenv] and the
    fallback. *)
Definition value_or (val : option string) (fallback : string) : string :=
  match val with
  | Some v => if empty v then fallback else v
  | None => fallback
  end.

Definition int_value_or (val : option string) (fallback : Z) : Z :=
  match val with
  | Some v => if empty v then fallback else atoi v
  | None => fallback
  end.

Definition bool_value_or (val : option string) (fallback : bool) : bool :=
  match val with
  | Some v =>
      if empty v then fallback else bool_decide (v ∈ ["1"; "true"; "yes"; "on"])
  | None => fallback
  end.

Definition envOrDefault (key fallback : string) : IO W string :=
  val ← call (GetEnv key); mret (value_or val fallback).

Definition envOrDefaultInt (key : string) (fallback : Z) : IO W Z :=
  val ← call (GetEnv key); mret (int_value_or val fallback).

Definition envOrDefaultBool (key : string) (fallback : bool) : IO W bool :=
  val ← call (GetEnv key); mret (bool_value_or val fallback).

Definition loadConfig : IO W AgentConfig :=
  let cfg := default_config in
  agentId' ← envOrDefault "DK_AGENT_ID" (agentId cfg);
  serverUrl' ← envOrDefault "DK_SERVER_URL" (serverUrl cfg);
  nodeName' ← envOrDefault "DK_NODE_NAME" (nodeName cfg);
  shortWindowSec' ← envOrDefaultInt "DK_SHORT_WINDOW_SEC" (shortWindowSec cfg);
  sendIntervalSec' ← envOrDefaultInt "DK_SEND_INTERVAL_SEC" (sendIntervalSec cfg);
  minEventsPerWindow' ← envOrDefaultInt "DK_MIN_EVENTS_PER_WINDOW" (minEventsPerWindow cfg);
  longDumpDefaultDurationSec' ←
    envOrDefaultInt "DK_LONG_DUMP_DURATION_SEC" (longDumpDefaultDurationSec cfg);
  dumpDir' ← envOrDefault "DK_DUMP_DIR" (dumpDir cfg);
  syscallVocabSize' ← envOrDefaultInt "DK_SYSCALL_VOCAB_SIZE" (syscallVocabSize cfg);
  autoBaselineDump' ← envOrDefaultBool "DK_AUTO_BASELINE_DUMP" (autoBaselineDump cfg);
  useLegacyDockerMapper' ← envOrDefaultBool "DK_USE_LEGACY_MAPPER" (useLegacyDockerMapper cfg);
  containerRuntime' ← envOrDefault "DK_CONTAINER_RUNTIME" (containerRuntime cfg);
  dockerSocketPath' ← envOrDefault "DK_DOCKER_SOCKET" (dockerSocketPath cfg);
  containerdSocketPath' ← envOrDefault "DK_CONTAINERD_SOCKET" (containerdSocketPath cfg);
  crioSocketPath' ← envOrDefault "DK_CRIO_SOCKET" (crioSocketPath cfg);
  crictlPath' ← envOrDefault "DK_CRICTL_PATH" (crictlPath cfg);
  containerMapCacheTTL' ← envOrDefaultInt "DK_CONTAINER_CACHE_TTL" (containerMapCacheTTL cfg);
  enableKubernetesApi' ← envOrDefaultBool "DK_ENABLE_K8S_API" (enableKubernetesApi cfg);
  preferPodName' ← envOrDefaultBool "DK_PREFER_POD_NAME" (preferPodName cfg);
  agentListenPort' ← envOrDefaultInt "DK_AGENT_LISTEN_PORT" (agentListenPort cfg);
  containerFilterRegex' ← envOrDefault "DK_CONTAINER_FILTER" (containerFilterRegex cfg);
  policyDir' ← envOrDefault "DK_POLICY_DIR" (policyDir cfg);
  policyEnforcementMode' ←
    envOrDefault "DK_POLICY_ENFORCEMENT_MODE" (policyEnforcementMode cfg);
  mret {|
    agentId := agentId';
    serverUrl := serverUrl';
    nodeName := nodeName';
    shortWindowSec := shortWindowSec';
    sendIntervalSec := sendIntervalSec';
    minEventsPerWindow := minEventsPerWindow';
    longDumpDefaultDurationSec := longDumpDefaultDurationSec';
    dumpDir := dumpDir';
    syscallVocabSize := syscallVocabSize';
    autoBaselineDump := autoBaselineDump';
    containerRuntime := containerRuntime';
    dockerSocketPath := dockerSocketPath';
    containerdSocketPath := containerdSocketPath';
    crioSocketPath := crioSocketPath';
    crictlPath := crictlPath';
    containerMapCacheTTL := containerMapCacheTTL';
    useLegacyDockerMapper := useLegacyDockerMapper';
    enableKubernetesApi := enableKubernetesApi';
    preferPodName := preferPodName';
    agentListenPort := agentListenPort';
    containerFilterRegex := containerFilterRegex';
    policyDir := policyDir';
    policyEnforcementMode := policyEnforcementMode';
  |}.
End loadConfig.

(** ** Specification: the documented table of variables

    Each row of the README's table: the variable, how its text is read, and the
    field it sets, with the documented default. *)

Definition env_table (env : string → option string) : AgentConfig := {|
  agentId := value_or (env "DK_AGENT_ID") "node-1";
  serverUrl := value_or (env "DK_SERVER_URL") "http://localhost:9090";
  nodeName := value_or (env "DK_NODE_NAME") "worker-01";
  shortWindowSec := int_value_or (env "DK_SHORT_WINDOW_SEC") 5;
  sendIntervalSec := int_value_or (env "DK_SEND_INTERVAL_SEC") 5;
  minEventsPerWindow := int_value_or (env "DK_MIN_EVENTS_PER_WINDOW") 20;
  longDumpDefaultDurationSec := int_value_or (env "DK_LONG_DUMP_DURATION_SEC") 1200;
  dumpDir := value_or (env "DK_DUMP_DIR") "/var/lib/deepkernel/dumps";
  syscallVocabSize := int_value_or (env "DK_SYSCALL_VOCAB_SIZE") 256;
  autoBaselineDump := bool_value_or (env "DK_AUTO_BASELINE_DUMP") false;
  containerRuntime := value_or (env "DK_CONTAINER_RUNTIME") "docker";
  dockerSocketPath := value_or (env "DK_DOCKER_SOCKET") "/var/run/docker.sock";
  containerdSocketPath :=
    value_or (env "DK_CONTAINERD_SOCKET") "/run/containerd/containerd.sock";
  crioSocketPath := value_or (env "DK_CRIO_SOCKET") "/var/run/crio/crio.sock";
  crictlPath := value_or (env "DK_CRICTL_PATH") "/usr/bin/crictl";
  containerMapCacheTTL := int_value_or (env "DK_CONTAINER_CACHE_TTL") 60;
  useLegacyDockerMapper := bool_value_or (env "DK_USE_LEGACY_MAPPER") true;
  enableKubernetesApi := bool_value_or (env "DK_ENABLE_K8S_API") false;
  preferPodName := bool_value_or (env "DK_PREFER_POD_NAME") false;
  agentListenPort := int_value_or (env "DK_AGENT_LISTEN_PORT") 8082;
  containerFilterRegex := value_or (env "DK_CONTAINER_FILTER") "";
  policyDir := value_or (env "DK_POLICY_DIR") "/var/lib/deepkernel/policies";
  policyEnforcementMode := value_or (env "DK_POLICY_ENFORCEMENT_MODE") "ERRNO";
|}.

Definition variables : list string :=
  ["DK_AGENT_ID"; "DK_SERVER_URL"; "DK_NODE_NAME"; "DK_SHORT_WINDOW_SEC";
   "DK_SEND_INTERVAL_SEC"; "DK_MIN_EVENTS_PER_WINDOW"; "DK_LONG_DUMP_DURATION_SEC";
   "DK_DUMP_DIR"; "DK_SYSCALL_VOCAB_SIZE"; "DK_AUTO_BASELINE_DUMP"; "DK_USE_LEGACY_MAPPER";
   "DK_CONTAINER_RUNTIME"; "DK_DOCKER_SOCKET"; "DK_CONTAINERD_SOCKET"; "DK_CRIO_SOCKET";
   "DK_CRICTL_PATH"; "DK_CONTAINER_CACHE_TTL"; "DK_ENABLE_K8S_API"; "DK_PREFER_POD_NAME";
   "DK_AGENT_LISTEN_PORT"; "DK_CONTAINER_FILTER"; "DK_POLICY_DIR";
   "DK_POLICY_ENFORCEMENT_MODE"].

(** The events of reading the variables [ks] from the environment [env]. *)
Definition env_reads (env : string → option string) (ks : list string) : list event :=
  map (λ k, Ev (GetEnv k) (env k)) ks.

(** ** Lemmas *)

Lemma no_space_digit c : is_digit c = true → Ascii.is_space c = false.
Proof. by destruct c as [[] [] [] [] [] [] [] []]. Qed.

Lemma digit_head_match {A} c (l : list ascii) (f g : list ascii → A) (h : A) :
  is_digit c = true →
  match c :: l with "-"%char :: l => f l | "+"%char :: l => g l | _ => h end = h.
Proof. by destruct c as [[] [] [] [] [] [] [] []]. Qed.

Lemma strtol_dec z : - 2 ^ 63 ≤ z < 2 ^ 63 → strtol (dec z) = z.
Proof.
  intros Hz. unfold strtol. destruct (decide (0 ≤ z)).
  - destruct (dec_digits z) as (Hd & Hv & Hn); [lia|].
    destruct (chars (dec z)) as [|c ds]; [done|].
    pose proof Hd as [Hc _]%Forall_cons. cbn [skip_spaces].
    rewrite no_space_digit, digit_head_match by done.
    rewrite <-(app_nil_r (c :: ds)), span_digits_app by done. cbn [fst]. rewrite Hv. lia.
  - rewrite dec_neg, chars_app by lia. cbn [app String.list_ascii_of_string skip_spaces].
    change (Ascii.is_space "-") with false. cbn iota beta.
    destruct (dec_digits (- z)) as (Hd & Hv & Hn); [lia|].
    rewrite <-(app_nil_r (chars (dec (- z)))), span_digits_app by done. cbn [fst].
    rewrite Hv. lia.
Qed.

Lemma atoi_dec z : INT_MIN ≤ z ≤ INT_MAX → atoi (dec z) = z.
Proof.
  intros Hz. unfold atoi. rewrite strtol_dec; [by apply s32_small|].
  unfold INT_MIN, INT_MAX in *. lia.
Qed.

Lemma dec_not_empty z : empty (dec z) = false.
Proof.
  apply empty_false. intros Hd. destruct (decide (0 ≤ z)).
  - destruct (dec_digits z) as (_ & _ & Hn); [lia|]. by rewrite Hd in Hn.
  - by rewrite dec_neg in Hd by lia.
Qed.

(** Text that does not begin, after blanks and one sign, with a digit. *)
Definition no_number (s : string) : Prop :=
  match skip_spaces (chars s) with
  | c :: l => if bool_decide (c ∈ ["-"; "+"]%char) then stops l else is_digit c = false
  | [] => True
  end.

Lemma span_digits_stops l : stops l → (span_digits l).1 = [].
Proof. destruct l as [|c l]; [done|]. cbn. by intros ->. Qed.

Lemma strtol_no_number s : no_number s → strtol s = 0.
Proof.
  unfold no_number, strtol. destruct (skip_spaces (chars s)) as [|c l]; [done|].
  case_bool_decide as Hc; intros Hn.
  - rewrite !elem_of_cons in Hc. destruct Hc as [->|[->|Hc%not_elem_of_nil]]; [..|done];
      by rewrite (span_digits_stops _ Hn).
  - rewrite !not_elem_of_cons in Hc. destruct Hc as (Hm & Hp & _).
    assert (Hnil : (span_digits (c :: l)).1 = []) by by apply span_digits_stops.
    assert (Hmatch : match c :: l with
      | "-"%char :: l => (true, l) | "+"%char :: l => (false, l) | _ => (false, c :: l)
      end = (false, c :: l)) by by destruct c as [[] [] [] [] [] [] [] []].
    rewrite Hmatch. by rewrite Hnil.
Qed.

Lemma int_value_range val fallback :
  INT_MIN ≤ fallback ≤ INT_MAX → INT_MIN ≤ int_value_or val fallback ≤ INT_MAX.
Proof.
  intros Hf. destruct val as [s|]; cbn [int_value_or]; [|done].
  case_match; [done|]. apply s32_range.
Qed.

Definition lookup_answer (l : list (string * option string)) (k : string) : option string :=
  default None (snd <$> List.find (λ p, bool_decide (p.1 = k)) l).

(** ** Properties *)

(** In every environment, [loadConfig] reads exactly the documented variables,
    each once and in order, and returns the documented table: each field is its own
    variable's value, or the documented default when the variable is unset or
    empty. *)
Theorem loadConfig_table {W} `{OS W} :
  holds (loadConfig (W:=W)) (λ cfg tr,
    ∃ env, tr = env_reads env variables ∧ cfg = env_table env).
Proof.
  unfold loadConfig, envOrDefault, envOrDefaultInt, envOrDefaultBool.
  do 23 (apply holds_bind, holds_bind, holds_call; intros ?; apply holds_ret).
  apply holds_ret.
  exists (lookup_answer (zip variables
    [a; a0; a1; a2; a3; a4; a5; a6; a7; a8; a9; a10; a11; a12; a13; a14; a15; a16; a17;
     a18; a19; a20; a21])).
  split; reflexivity.
Qed.

(** Integer settings.  Unset or empty gives the default; the decimal text of any
    int gives that int; text with no number gives 0, never the default; and whatever
    the text, the setting is an int (a value beyond 64 bits is clamped, then cut to
    32 bits). *)
Theorem int_setting val fallback :
  INT_MIN ≤ fallback ≤ INT_MAX →
  int_value_or None fallback = fallback ∧ int_value_or (Some "") fallback = fallback
  ∧ (∀ z, INT_MIN ≤ z ≤ INT_MAX → int_value_or (Some (dec z)) fallback = z)
  ∧ (∀ s, s ≠ "" → no_number s → int_value_or (Some s) fallback = 0)
  ∧ INT_MIN ≤ int_value_or val fallback ≤ INT_MAX.
Proof.
  intros Hf. split_and!; try done.
  - intros z Hz. cbn [int_value_or]. by rewrite dec_not_empty, atoi_dec.
  - intros s Hs Hn. cbn [int_value_or]. apply empty_false in Hs. rewrite Hs.
    unfold atoi. by rewrite strtol_no_number.
  - by apply int_value_range.
  - by apply int_value_range.
Qed.

Lemma int_setting_witness :
  int_value_or (Some "-17") 5 = -17 ∧ int_value_or (Some "fast") 5 = 0
  ∧ int_value_or (Some "4294967303") 5 = 7.
Proof.
  pose proof (int_setting (Some "x") 5 ltac:(unfold INT_MIN, INT_MAX; lia))
    as (_ & _ & H1 & H2 & _).
  split; [apply (H1 (-17)); unfold INT_MIN, INT_MAX; lia|].
  split; [apply (H2 "fast"); [discriminate|vm_compute; reflexivity]|].
  vm_compute. reflexivity.
Defined.

(** Boolean settings.  A variable that is set and non-empty decides alone, and
    only the four exact words are true: any other text, "True" and "TRUE" included,
    is false even where the default is true. *)
Theorem bool_setting val fallback :
  bool_value_or val fallback =
  match val with
  | None | Some "" => fallback
  | Some s => (s =? "1")%string || (s =? "true")%string || (s =? "yes")%string
              || (s =? "on")%string
  end.
Proof.
  destruct val as [[|c s]|]; [done| |done]. cbn [bool_value_or empty].
  apply eq_true_iff_eq. rewrite bool_decide_eq_true, !orb_true_iff, !String.eqb_eq.
  rewrite !elem_of_cons, elem_of_nil. tauto.
Qed.
