(* ===== verification/Cgroup.v ===== *)
(** * Cgroup: container ids in /proc/<pid>/cgroup

    What the two container mappers share: the path, the shortening of an id to
    twelve characters, and the language of the patterns they look for, a marker
    followed by a run of hexadecimal characters. *)

From S2P Require Export JsonField.

#[local] Open Scope Z_scope.

Definition cgroup_path (pid : Z) : string := "/proc/" +:+ dec pid +:+ "/cgroup".

(** [hash.length() > 12 ? hash.substr(0, 12) : hash]. *)
Definition short_hash (hash : string) : string :=
  if (12 <? String.length hash)%nat then str_take 12 hash else hash.

(** ** Hexadecimal runs *)

Definition hex_class : charset := CClass false [("a", "f"); ("0", "9")]%char.

(** A short container id: twelve lower-case hexadecimal characters. *)
Definition short_id (h : string) : Prop :=
  String.length h = 12%nat ∧ Forall (λ c, mem hex_class c = true) (chars h).

Lemma take_12_short_id h :
  Forall (λ c, mem hex_class c = true) (chars h) → (12 ≤ String.length h)%nat →
  short_id (str_take 12 h).
Proof.
  intros Hx Hl. unfold short_id, str_take. rewrite of_chars_length, chars_of_chars. split.
  - rewrite length_take, chars_length. lia.
  - by apply Forall_take.
Qed.

Lemma short_hash_short_id h :
  Forall (λ c, mem hex_class c = true) (chars h) → (12 ≤ String.length h)%nat →
  short_id (short_hash h).
Proof.
  intros Hx Hl. unfold short_hash. case_match eqn:Hlen.
  - by apply take_12_short_id.
  - split; [|done]. apply Nat.ltb_ge in Hlen. lia.
Qed.

Definition hex (u : list ascii) : Prop := Forall (λ c, mem hex_class c = true) u.
Definition no_break (u : list ascii) : Prop := Forall (λ c, mem CDot c = true) u.

Lemma group_hex pattern mn gs line h :
  (ts ← compile pattern; groups ts) = Some ((hex_class, Quant mn (Some 64%nat) true) :: gs) →
  (12 ≤ mn)%nat → search_group line pattern = Some h →
  Forall (λ c, mem hex_class c = true) (chars h) ∧ (12 ≤ String.length h)%nat.
Proof.
  intros Hc Hmn Hs. destruct (search_group_captures _ _ _ _ _ Hc Hs) as (Hm & Hl & _).
  rewrite <-chars_length. cbn in Hl. split; [done|lia].
Qed.

(** A full container id: a run of 12 to 64 hexadecimal characters. *)
Definition container_id_ok (h : string) : Prop :=
  hex (chars h) ∧ (12 ≤ String.length h ≤ 64)%nat.

Lemma captures_id h mn g :
  (12 ≤ mn)%nat → captures (hex_class, Quant mn (Some 64%nat) g) (chars h) → container_id_ok h.
Proof.
  intros Hmn (Hm & Hl & Hu). cbn in Hl, Hu. rewrite chars_length in Hl, Hu.
  split; [done|lia].
Qed.

Lemma group_id pattern mn gs line h :
  (ts ← compile pattern; groups ts) = Some ((hex_class, Quant mn (Some 64%nat) true) :: gs) →
  (12 ≤ mn)%nat → search_group line pattern = Some h → container_id_ok h.
Proof. intros Hc Hmn Hs. eapply captures_id; [exact Hmn|by eapply search_group_captures]. Qed.

(** A first group that was found holds a container id. *)
Ltac group_of H := eapply group_id in H; [|vm_compute; reflexivity|lia].

Lemma short_hash_id h : container_id_ok h → short_id (short_hash h).
Proof. intros [? ?]. apply short_hash_short_id; [done|lia]. Qed.

(** No dot in a concrete marker. *)
Ltac literal := by apply (bool_decide_unpack _); vm_compute.

Definition hex_tail (mn : nat) : list token :=
  [TOpen; TChar hex_class (Quant mn (Some 64%nat) true); TClose].

(** A pattern has an occurrence in a line. *)
Definition occurs (ts : list token) (line : string) : Prop :=
  ∃ pre mid caps r, chars line = pre ++ mid ∧ matches ts None [] mid caps r.

Lemma matches_hex_tail mn s :
  (mn ≤ 64)%nat →
  (∃ caps r, matches (hex_tail mn) None [] s caps r) ↔
  ∃ u b, s = u ++ b ∧ hex u ∧ length u = mn.
Proof.
  intros Hmn. unfold hex_tail. setoid_rewrite matches_open_iff.
  setoid_rewrite matches_char_iff. setoid_rewrite matches_close_iff.
  setoid_rewrite matches_nil_iff. split.
  - intros (caps & r & u & s' & -> & Hu & Hl & _). exists (take mn u), (drop mn u ++ s').
    rewrite app_assoc, take_drop, length_take. split_and!; [done|by apply Forall_take|lia].
  - intros (u & b & -> & Hu & Hl). eexists _, b, u, b. split_and!; try done; [lia|cbn; lia|].
    eexists. split; [done|]. by split.
Qed.

(** A marker, some items, then the group. *)
Lemma occurs_literal (marker : string) ts line :
  Forall (λ c, c ≠ "."%char) (chars marker) →
  occurs (map lit_token (chars marker) ++ ts) line ↔
  ∃ a s, chars line = a ++ chars marker ++ s ∧ ∃ caps r, matches ts None [] s caps r.
Proof.
  intros Hm. unfold occurs. setoid_rewrite matches_key. split.
  - intros (pre & mid & caps & r & Hl & k & s' & -> & Hk & Hr).
    apply key_at_literal in Hk as ->; [|done]. eauto 8.
  - intros (a & s & Hl & caps & r & Hr). exists a, (chars marker ++ s), caps, r.
    split; [done|]. exists (chars marker), s. split_and!; [done|by apply key_at_literal|done].
Qed.

Lemma search_group_occurs line pattern ts g gs :
  compile pattern = Some ts → groups ts = Some (g :: gs) →
  search_group line pattern = None ↔ ¬ occurs ts line.
Proof.
  intros Hc Hg. rewrite (search_group_none _ _ _ _ _ Hc Hg). unfold occurs. naive_solver.
Qed.

Lemma occurs_plain (marker : string) line :
  Forall (λ c, c ≠ "."%char) (chars marker) →
  occurs (map lit_token (chars marker) ++ hex_tail 12) line ↔
  ∃ a u b, chars line = a ++ chars marker ++ u ++ b ∧ hex u ∧ length u = 12%nat.
Proof.
  intros Hm. rewrite occurs_literal by done. setoid_rewrite matches_hex_tail; [|lia].
  split; [|naive_solver].
  intros (a & s & Hl & u & b & -> & ?). naive_solver.
Qed.
