(* ===== verification/DockerMapper.v ===== *)
(** * DockerMapper: cgroup id to Docker container name

    [agent/include/docker_mapper.h] and [agent/src/docker_mapper.cpp]: the name
    cache with its expiry, the hash extraction from /proc/<pid>/cgroup and the
    name lookup through the Docker socket.  Log lines and the static flags that
    only silence them are left out. *)

From S2P Require Export Cgroup IO.

#[local] Open Scope Z_scope.

Module DockerMapper.

Record CacheEntry := MkCacheEntry {
  containerName : string;
  expiresAtNs : Z;        (* uint64_t *)
}.

Record t := Mk {
  dockerSocketPath_ : string;
  cacheTTLSeconds_ : Z;   (* int *)
  cgroupToNameCache_ : gmap Z CacheEntry;
}.

Definition create (dockerSocketPath : string) (cacheTTLSeconds : Z) : t :=
  Mk dockerSocketPath cacheTTLSeconds ∅.

Definition set_cache (m : t) (c : gmap Z CacheEntry) : t :=
  Mk (dockerSocketPath_ m) (cacheTTLSeconds_ m) c.

Definition clearCache (m : t) : t := set_cache m ∅.

(** The file-local [extractJsonStringField], a copy of the server's. *)
Definition extractJsonStringField (json field : string) : string :=
  extractJsonString json field.

Definition dockerPattern : string := "docker[/-]([a-f0-9]{12,64})".
Definition containerdPattern : string := "cri-containerd-([a-f0-9]{12,64})".
Definition kubePattern : string := "kubepods.*?([a-f0-9]{64})".
Definition podmanPattern : string := "libpod-([a-f0-9]{12,64})".

(** One turn of the loop over the lines: the hash to return, if a pattern matched. *)
Definition line_hash (line : string) : option string :=
  match search_group line dockerPattern with
  | Some hash => Some (short_hash hash)
  | None =>
  match search_group line containerdPattern with
  | Some hash => Some (short_hash hash)
  | None =>
  match search_group line kubePattern with
  | Some hash => Some (str_take 12 hash)
  | None =>
  match search_group line podmanPattern with
  | Some hash => Some (short_hash hash)
  | None => None
  end end end end.

Fixpoint first_hash (ls : list string) : string :=
  match ls with
  | [] => ""
  | line :: ls => match line_hash line with Some h => h | None => first_hash ls end
  end.

(** The name a Docker API response gives, or the hash. *)
Definition name_of_response (containerHash response : string) : string :=
  let name := extractJsonStringField response "Name" in
  let name := match name with String "/" rest => rest | _ => name end in
  let name :=
    if empty name then
      let serviceLabel := extractJsonStringField response "com.docker.compose.service" in
      if negb (empty serviceLabel) then serviceLabel else name
    else name in
  let name :=
    if empty name then
      let project := extractJsonStringField response "com.docker.compose.project" in
      let service := extractJsonStringField response "com.docker.compose.service" in
      if negb (empty project) && negb (empty service)
      then project +:+ "-" +:+ service else name
    else name in
  if empty name then containerHash else name.

Section methods.
Context {W : Type} `{OS W}.

Definition nowNs : IO W Z := call SteadyNowNs.

(** [writeCallback] appends each chunk; the transfer's result is not looked at. *)
Definition httpGetUnixSocket (socketPath path : string) : IO W string :=
  r ← call (CurlPerform
        (CurlRequest (Some (c_str socketPath)) (c_str ("http://localhost" +:+ path)) None 2));
  mret match r with
       | CurlInitFailed => ""
       | CurlDone chunks _ _ => foldr String.append "" chunks
       end.

Definition extractContainerHashFromCgroup (pid : Z) : IO W string :=
  file ← call (ReadFile (cgroup_path pid));
  mret match file with
       | None => ""
       | Some text => first_hash (lines text)
       end.

Definition isDockerContainer (pid : Z) : IO W bool :=
  hash ← extractContainerHashFromCgroup pid; mret (negb (empty hash)).

Definition queryDockerForName (m : t) (containerHash : string) : IO W string :=
  if empty containerHash then mret ""
  else
    let path := "/containers/" +:+ containerHash +:+ "/json" in
    response ← httpGetUnixSocket (dockerSocketPath_ m) path;
    if empty response then mret containerHash
    else mret (name_of_response containerHash response).

(** [cgroupToNameCache_[cgroupId] = {name, nowNs() + ttl}]. *)
Definition store (m : t) (cgroupId : Z) (name : string) : IO W t :=
  now ← nowNs;
  mret (set_cache m (<[cgroupId := MkCacheEntry name (expiry now (cacheTTLSeconds_ m))]>
    (cgroupToNameCache_ m))).

(** The part after a cache miss. *)
Definition resolve (m : t) (cgroupId pid : Z) : IO W (string * t) :=
  containerHash ← extractContainerHashFromCgroup pid;
  if empty containerHash then
    m ← store m cgroupId ""; mret ("", m)
  else
    name ← queryDockerForName m containerHash;
    m ← store m cgroupId name;
    mret (name, m).

Definition getContainerName (m : t) (cgroupId pid : Z) : IO W (string * t) :=
  match cgroupToNameCache_ m !! cgroupId with
  | Some entry =>
      now ← nowNs;
      if now <? expiresAtNs entry then mret (containerName entry, m)
      else resolve (set_cache m (delete cgroupId (cgroupToNameCache_ m))) cgroupId pid
  | None => resolve m cgroupId pid
  end.
End methods.
(** ** Lemmas *)

Lemma line_hash_short_id line h : line_hash line = Some h → short_id h.
Proof.
  unfold line_hash. intros Hh. repeat case_match; simplify_eq;
    match goal with H : search_group _ _ = Some _ |- _ =>
      eapply group_hex in H as [? ?]; [|vm_compute; reflexivity|lia] end;
    auto using short_hash_short_id, take_12_short_id.
Qed.

Lemma first_hash_short_id ls : first_hash ls = "" ∨ short_id (first_hash ls).
Proof.
  induction ls as [|line ls IH]; [by left|]. cbn [first_hash].
  case_match eqn:Hl; [|done]. right. by eapply line_hash_short_id.
Qed.

(** *** Which lines name a container *)

(** A line with the shape of one of the four formats: a marker, and after it at least
    twelve hexadecimal characters (sixty-four for the generic Kubernetes format). *)
Definition names_container (line : string) : Prop :=
  ∃ a u b, hex u ∧
    ((∃ c, chars line = a ++ chars "docker" ++ c :: u ++ b ∧ (c = "/" ∨ c = "-")%char
        ∧ length u = 12%nat)
     ∨ (chars line = a ++ chars "cri-containerd-" ++ u ++ b ∧ length u = 12%nat)
     ∨ (∃ x, chars line = a ++ chars "kubepods" ++ x ++ u ++ b ∧ no_break x
          ∧ length u = 64%nat)
     ∨ (chars line = a ++ chars "libpod-" ++ u ++ b ∧ length u = 12%nat)).

Definition any_lazy : token := TChar CDot (Quant 0 None false).
Definition docker_sep : token := TChar (CClass false [("/", "/"); ("-", "-")]%char) once.
Lemma occurs_docker line :
  occurs (map lit_token (chars "docker") ++ docker_sep :: hex_tail 12) line ↔
  ∃ a c u b, chars line = a ++ chars "docker" ++ c :: u ++ b ∧ (c = "/" ∨ c = "-")%char
    ∧ hex u ∧ length u = 12%nat.
Proof.
  rewrite occurs_literal by literal. unfold docker_sep.
  setoid_rewrite matches_once_iff. split.
  - intros (a & s & Hl & caps & r & c & s' & -> & Hc & Hm).
    destruct (proj1 (matches_hex_tail 12 s' ltac:(lia))) as (u & b & -> & ? & ?); [eauto|].
    exists a, c, u, b. split_and!; try done.
    clear -Hc. destruct c as [[] [] [] [] [] [] [] []]; try done; auto.
  - intros (a & c & u & b & Hl & Hc & ? & ?).
    destruct (proj2 (matches_hex_tail 12 (u ++ b) ltac:(lia))) as (caps & r & Hm); [eauto|].
    exists a, (c :: u ++ b). split; [done|]. exists caps, r, c, (u ++ b).
    split_and!; [done|by destruct Hc as [-> | ->]|done].
Qed.

Lemma occurs_kube line :
  occurs (map lit_token (chars "kubepods") ++ any_lazy :: hex_tail 64) line ↔
  ∃ a x u b, chars line = a ++ chars "kubepods" ++ x ++ u ++ b ∧ no_break x
    ∧ hex u ∧ length u = 64%nat.
Proof.
  rewrite occurs_literal by literal. unfold any_lazy.
  setoid_rewrite matches_char_iff. split.
  - intros (a & s & Hl & caps & r & x & s' & -> & Hx & _ & _ & Hm).
    destruct (proj1 (matches_hex_tail 64 s' ltac:(lia))) as (u & b & -> & ? & ?); [eauto|].
    exists a, x, u, b. done.
  - intros (a & x & u & b & Hl & Hx & ? & ?).
    destruct (proj2 (matches_hex_tail 64 (u ++ b) ltac:(lia))) as (caps & r & Hm); [eauto|].
    exists a, (x ++ u ++ b). split; [done|]. exists caps, r, x, (u ++ b).
    split_and!; try done. lia.
Qed.

Lemma line_hash_none line : line_hash line = None ↔ ¬ names_container line.
Proof.
  pose proof (search_group_occurs line dockerPattern _ _ _ ltac:(vm_compute; reflexivity)
    ltac:(vm_compute; reflexivity)) as H1.
  pose proof (search_group_occurs line containerdPattern _ _ _ ltac:(vm_compute; reflexivity)
    ltac:(vm_compute; reflexivity)) as H2.
  pose proof (search_group_occurs line kubePattern _ _ _ ltac:(vm_compute; reflexivity)
    ltac:(vm_compute; reflexivity)) as H3.
  pose proof (search_group_occurs line podmanPattern _ _ _ ltac:(vm_compute; reflexivity)
    ltac:(vm_compute; reflexivity)) as H4.
  pose proof (occurs_docker line) as O1.
  pose proof (occurs_plain "cri-containerd-" line ltac:(literal)) as O2.
  pose proof (occurs_kube line) as O3.
  pose proof (occurs_plain "libpod-" line ltac:(literal)) as O4.
  unfold line_hash, names_container. split.
  - intros Hn (a & u & b & Hu & Hcase).
    destruct (search_group line dockerPattern), (search_group line containerdPattern),
      (search_group line kubePattern), (search_group line podmanPattern); try done.
    destruct Hcase as [(c & ? & ? & ?)|[[? ?]|[(x & ? & ? & ?)|[? ?]]]].
    + apply (proj1 H1 eq_refl), O1. by exists a, c, u, b.
    + apply (proj1 H2 eq_refl), O2. by exists a, u, b.
    + apply (proj1 H3 eq_refl), O3. by exists a, x, u, b.
    + apply (proj1 H4 eq_refl), O4. by exists a, u, b.
  - intros Hn. rewrite (proj2 H1), (proj2 H2), (proj2 H3), (proj2 H4); [done|..]; intros Ho; apply Hn.
    + apply O4 in Ho as (a & u & b & ? & ? & ?). exists a, u, b. auto 6.
    + apply O3 in Ho as (a & x & u & b & ? & ? & ? & ?). exists a, u, b. eauto 10.
    + apply O2 in Ho as (a & u & b & ? & ? & ?). exists a, u, b. auto 6.
    + apply O1 in Ho as (a & c & u & b & ? & ? & ? & ?). exists a, u, b. eauto 10.
Qed.

Lemma first_hash_none ls : first_hash ls = "" ↔ Forall (λ l, ¬ names_container l) ls.
Proof.
  induction ls as [|line ls IH]; [done|]. cbn [first_hash]. rewrite Forall_cons, <-line_hash_none.
  destruct (line_hash line) as [h|] eqn:Hl; [|naive_solver].
  apply line_hash_short_id in Hl as [Hl _]. split; [|naive_solver]. by intros ->.
Qed.

(** *** The cache *)

#[export] Instance getContainerName_silent {W} `{OS W} m cg pid :
  Emits silent (getContainerName (W:=W) m cg pid).
Proof.
  unfold getContainerName, resolve, queryDockerForName, extractContainerHashFromCgroup,
    httpGetUnixSocket, store, nowNs. cbv zeta. apply _.
Qed.

(** The hash the text of the cgroup file gives. *)
Definition hash_of (file : option string) : string :=
  match file with None => "" | Some text => first_hash (lines text) end.

(** The name the answer of the Docker socket gives. *)
Definition docker_name (h : string) (r : curl_result) : string :=
  match r with
  | CurlInitFailed => h
  | CurlDone chunks _ _ =>
      let response := foldr String.append "" chunks in
      if empty response then h else name_of_response h response
  end.

Definition inspect_request (m : t) (h : string) : curl_request :=
  CurlRequest (Some (c_str (dockerSocketPath_ m)))
    (c_str ("http://localhost" +:+ ("/containers/" +:+ h +:+ "/json"))) None 2.

Definition with_entry (m : t) (cg : Z) (name : string) (now : Z) : t :=
  set_cache m (<[cg := MkCacheEntry name (expiry now (cacheTTLSeconds_ m))]>
    (cgroupToNameCache_ m)).

(** A resolution: the cgroup file is read; without a container id the empty name is
    cached, with one the Docker socket is asked first. *)
Definition resolution (m : t) (cg pid : Z) (name : string) (m' : t) (tr : list event) : Prop :=
  ∃ file now,
    let h := hash_of file in
    m' = with_entry m cg name now ∧
    if empty h then name = "" ∧
      tr = [Ev (ReadFile (cgroup_path pid)) file; Ev SteadyNowNs now]
    else ∃ r, name = docker_name h r ∧
      tr = [Ev (ReadFile (cgroup_path pid)) file; Ev (CurlPerform (inspect_request m h)) r;
            Ev SteadyNowNs now].

Lemma resolve_holds {W} `{OS W} m cg pid :
  holds (resolve (W:=W) m cg pid) (λ r tr, resolution m cg pid r.1 r.2 tr).
Proof.
  unfold resolve, extractContainerHashFromCgroup, store, nowNs, queryDockerForName.
  io_step. io_step. io_step. io_step. fold (hash_of a).
  destruct (empty (hash_of a)) eqn:Hh.
  - io_step. io_step. io_step. io_step. io_step.
    exists a, a0. cbv zeta. rewrite Hh. split_and!; done.
  - io_step. cbv zeta. unfold httpGetUnixSocket. io_step. io_step. io_step. io_step.
    match goal with |- holds (if empty ?x then _ else _) _ => set (resp := x) end.
    assert (Hname : docker_name (hash_of a) a0 =
      if empty resp then hash_of a else name_of_response (hash_of a) resp) by by destruct a0.
    assert (Hend : holds (W:=W) (m' ← (now ← call SteadyNowNs; mret (with_entry m cg (docker_name (hash_of a) a0) now));
        mret (docker_name (hash_of a) a0, m'))
      (λ r t', resolution m cg pid r.1 r.2
        ([Ev (ReadFile (cgroup_path pid)) a] ++ [Ev (CurlPerform (inspect_request m (hash_of a))) a0] ++ t'))).
    { io_step. io_step. io_step. io_step. io_step. exists a, a1. cbv zeta. rewrite Hh.
      split; [done|]. exists a0. done. }
    rewrite Hname in Hend. destruct (empty resp); io_step; exact Hend.
Qed.

Lemma name_of_response_cases h response :
  name_of_response h response =
  let name := extractJsonStringField response "Name" in
  let name := match name with String "/" rest => rest | _ => name end in
  let service := extractJsonStringField response "com.docker.compose.service" in
  if empty name then if empty service then h else service else name.
Proof.
  unfold name_of_response. cbv zeta. set (name := match _ with String _ _ => _ | _ => _ end).
  set (service := extractJsonStringField response "com.docker.compose.service").
  clearbody name service. destruct (empty name) eqn:Hn; [|rewrite Hn; cbn; rewrite Hn; done].
  destruct (empty service) eqn:Hs; cbn [negb]; [|rewrite Hs; cbn; rewrite Hs; done].
  rewrite Hn, andb_false_r, Hn. done.
Qed.

Lemma docker_name_nonempty h r : h ≠ "" → docker_name h r ≠ "".
Proof.
  intros Hh. destruct r as [|chunks ok st]; cbn [docker_name]; [done|].
  case_bool; [done|]. rewrite name_of_response_cases. cbv zeta.
  destruct (empty (match _ with String _ _ => _ | _ => _ end)) eqn:Hn; [|by apply empty_false].
  case_bool; [done|by apply empty_false].
Qed.

Lemma resolution_entry m cg pid name m' tr :
  resolution m cg pid name m' tr →
  (∃ now, cgroupToNameCache_ m' !! cg = Some (MkCacheEntry name (expiry now (cacheTTLSeconds_ m))))
  ∧ (∀ cg', cg' ≠ cg → cgroupToNameCache_ m' !! cg' = cgroupToNameCache_ m !! cg').
Proof.
  intros (file & now & -> & _). cbn. split.
  - exists now. by simplify_map_eq.
  - intros cg' Hne. by simplify_map_eq.
Qed.

Lemma getContainerName_holds {W} `{OS W} m cg pid :
  holds (getContainerName (W:=W) m cg pid) (λ r tr,
    match cgroupToNameCache_ m !! cg with
    | None => resolution m cg pid r.1 r.2 tr
    | Some entry =>
        ∃ now tr', tr = Ev SteadyNowNs now :: tr' ∧
          if now <? expiresAtNs entry
          then r = (containerName entry, m) ∧ tr' = []
          else resolution m cg pid r.1 r.2 tr'
    end).
Proof.
  unfold getContainerName. destruct (cgroupToNameCache_ m !! cg) as [entry|]; [|apply resolve_holds].
  unfold nowNs. io_step. io_step. io_step.
  - io_step. eexists a, []. split; [done|]. by rewrite Heqb.
  - eapply holds_mono; [apply resolve_holds|]. intros r tr (file & now & Hm & Htr).
    eexists a, tr. split; [done|]. rewrite Heqb. exists file, now. split; [|exact Htr].
    rewrite Hm. unfold with_entry, set_cache. cbn. by rewrite insert_delete_eq.
Qed.

(** *** Properties *)

(** C38: the container id found in /proc/<pid>/cgroup.  The answer is empty exactly when
    the file cannot be read or none of its lines has one of the four container
    formats; otherwise it is a short id, twelve lower-case hexadecimal characters. *)
Theorem extractContainerHash_spec {W} `{OS W} pid :
  holds (extractContainerHashFromCgroup (W:=W) pid) (λ h tr,
    ∃ file, tr = [Ev (ReadFile (cgroup_path pid)) file]
      ∧ (h = "" ∨ short_id h)
      ∧ (h = "" ↔ match file with
                  | None => True
                  | Some text => Forall (λ l, ¬ names_container l) (lines text)
                  end)).
Proof.
  unfold extractContainerHashFromCgroup. io_step. io_step. io_step. exists a.
  split; [done|]. destruct a as [text|]; [|split; [by left|by split]].
  split; [apply first_hash_short_id|apply first_hash_none].
Qed.

(** C32: [getContainerName] on every branch.  A fresh entry is returned after one clock
    reading, nothing else happening; a missing or expired entry leads to a full
    resolution, whose name is stored under the id with the expiry computed from the
    clock, all other entries staying as they were (an expired one is dropped
    first). *)
Theorem getContainerName_spec {W} `{OS W} m cg pid :
  holds (getContainerName (W:=W) m cg pid) (λ r tr,
    match cgroupToNameCache_ m !! cg with
    | None => resolution m cg pid r.1 r.2 tr
    | Some entry =>
        ∃ now tr', tr = Ev SteadyNowNs now :: tr' ∧
          if now <? expiresAtNs entry
          then r = (containerName entry, m) ∧ tr' = []
          else resolution m cg pid r.1 r.2 tr'
    end).
Proof. apply getContainerName_holds. Qed.

(** The cache is coherent.  After any call the id's entry holds the name that was
    returned and no other id's entry has changed: until that entry expires, every
    further call for the id returns the same name. *)
Theorem getContainerName_cached {W} `{OS W} m cg pid :
  holds (getContainerName (W:=W) m cg pid) (λ r _,
    (∃ entry, cgroupToNameCache_ r.2 !! cg = Some entry ∧ containerName entry = r.1)
    ∧ ∀ cg', cg' ≠ cg → cgroupToNameCache_ r.2 !! cg' = cgroupToNameCache_ m !! cg').
Proof.
  eapply holds_mono; [apply getContainerName_holds|]. intros [name m'] tr.
  assert (Hres : ∀ tr, resolution m cg pid name m' tr →
    (∃ entry, cgroupToNameCache_ m' !! cg = Some entry ∧ containerName entry = name)
    ∧ ∀ cg', cg' ≠ cg → cgroupToNameCache_ m' !! cg' = cgroupToNameCache_ m !! cg').
  { intros tr' [[now Hnow] Ho]%resolution_entry. split; [|done]. rewrite Hnow. eauto. }
  cbn [fst snd]. destruct (cgroupToNameCache_ m !! cg) as [entry|] eqn:Hc; [|apply Hres].
  intros (now & tr' & _ & Hr). destruct (now <? expiresAtNs entry); [|by eapply Hres].
  destruct Hr as [[= -> ->] _]. eauto.
Qed.

(** A process with a container id always gets a name: whatever Docker answers, the
    resolved name is empty only when the process is in no container. *)
Theorem resolve_name_nonempty {W} `{OS W} m cg pid :
  holds (resolve (W:=W) m cg pid) (λ r tr,
    ∃ file t, tr = Ev (ReadFile (cgroup_path pid)) file :: t
      ∧ (r.1 = "" ↔ hash_of file = "")).
Proof.
  eapply holds_mono; [apply resolve_holds|]. intros [name m'] tr (file & now & _ & Hr).
  cbv zeta in Hr. cbn [fst snd] in *. exists file. destruct (empty (hash_of file)) eqn:Hh; bool_to_prop.
  - destruct Hr as [-> ->]. eexists. split; [done|]. by rewrite Hh.
  - destruct Hr as (r & -> & ->). eexists. split; [done|]. split; [|done].
    intros Hn. by apply docker_name_nonempty in Hn.
Qed.

(** *** On a sample machine *)

Definition sample_cgroup : string :=
  "0::/system.slice/docker-0123456789abcdef0123456789abcdef0123456789abcdef0123456789abcdef.scope"
  +:+ nl.

Definition sample_machine : script :=
  with_curl [CurlDone ["{" +:+ quoted "Name"; ":" +:+ quoted "/web" +:+ "}"] true 200]
    (with_file (λ p, if (p =? "/proc/42/cgroup")%string then Some sample_cgroup else None) bare).

Example sample_hash :
  (run (extractContainerHashFromCgroup 42) sample_machine).1 = "0123456789ab".
Proof. vm_compute. reflexivity. Qed.

Example sample_name :
  (run (getContainerName (create "/var/run/docker.sock" 60) 7 42) sample_machine).1.1 = "web".
Proof. vm_compute. reflexivity. Qed.
End DockerMapper.
