(* ===== verification/ContainerMapper.v ===== *)
(** * ContainerMapper: cgroup id to container name, any runtime

    [agent/include/container_mapper.h] and [agent/src/container_mapper.cpp]: the
    runtime detection, the parser of /proc/<pid>/cgroup, the look-ups through
    the Docker socket, crictl and the Kubernetes downward API, and the cache of
    container descriptions with its expiry.  Log lines and the cache's mutex
    (one caller at a time) are left out. *)

From S2P Require Export Cgroup IO.

#[local] Open Scope Z_scope.

Module ContainerMapper.

Inductive Runtime := UNKNOWN | DOCKER | CONTAINERD | CRIO.

#[export] Instance Runtime_eq_dec : EqDecision Runtime.
Proof. solve_decision. Defined.

Record ContainerInfo := MkContainerInfo {
  id : string;
  fullId : string;
  name : string;
  podName : string;
  podNamespace : string;
  image : string;
  runtime : Runtime;
}.

(** A default-constructed [ContainerInfo]. *)
Definition empty_info : ContainerInfo := MkContainerInfo "" "" "" "" "" "" UNKNOWN.

Record Config := MkConfig {
  dockerSocket : string;
  containerdSocket : string;
  crioSocket : string;
  crictlPath : string;
  cacheTTLSeconds : Z;          (* int *)
  enableKubernetesApi : bool;
  preferPodName : bool;
}.

Definition default_Config : Config :=
  MkConfig "/var/run/docker.sock" "/run/containerd/containerd.sock" "/var/run/crio/crio.sock"
    "/usr/bin/crictl" 60 true true.

Record CacheEntry := MkCacheEntry {
  info : ContainerInfo;
  expiresAtNs : Z;              (* uint64_t *)
}.

Record CgroupInfo := MkCgroupInfo {
  containerId : string;
  podUid : string;
  cg_runtime : Runtime;
}.

Record t := Mk {
  config_ : Config;
  detectedRuntime_ : Runtime;
  cache_ : gmap Z CacheEntry;
}.

Definition set_cache (m : t) (c : gmap Z CacheEntry) : t :=
  Mk (config_ m) (detectedRuntime_ m) c.

Definition clearCache (m : t) : t := set_cache m ∅.

Definition extractJsonField (json field : string) : string := extractJsonString json field.

(** ** Parsing a cgroup line *)

Definition dockerPattern : string := "docker[/-]([a-f0-9]{12,64})".
Definition containerdPattern : string := "cri-containerd-([a-f0-9]{12,64})".
Definition crioPattern : string := "crio-([a-f0-9]{12,64})".
Definition podPattern : string := "kubepods[^/]*/[^/]*/pod([a-f0-9-]{36})".
Definition kubePattern : string := "kubepods[^/]*/[^/]*/pod([a-f0-9-]{36})/([a-f0-9]{64})".
Definition podmanPattern : string := "libpod-([a-f0-9]{12,64})".

(** [regex_search(...) && match.size() > 2], with the first two groups. *)
Definition search_groups2 (subject pattern : string) : option (string * string) :=
  m ← regex_search subject pattern;
  if (2 <? length m)%nat then Some (sub_match m 1, sub_match m 2) else None.

(** One turn of the loop over the lines; [Some] is the early return. *)
Definition line_info (detected : Runtime) (line : string) : option CgroupInfo :=
  match search_group line dockerPattern with
  | Some c => Some (MkCgroupInfo c "" DOCKER)
  | None =>
  match search_group line containerdPattern with
  | Some c => Some (MkCgroupInfo c (default "" (search_group line podPattern)) CONTAINERD)
  | None =>
  match search_group line crioPattern with
  | Some c => Some (MkCgroupInfo c (default "" (search_group line podPattern)) CRIO)
  | None =>
  match search_groups2 line kubePattern with
  | Some (pod, c) => Some (MkCgroupInfo c pod detected)
  | None =>
  match search_group line podmanPattern with
  | Some c => Some (MkCgroupInfo c "" UNKNOWN)
  | None => None
  end end end end end.

Definition no_cgroup : CgroupInfo := MkCgroupInfo "" "" UNKNOWN.

Fixpoint first_info (detected : Runtime) (ls : list string) : CgroupInfo :=
  match ls with
  | [] => no_cgroup
  | line :: ls =>
      match line_info detected line with Some i => i | None => first_info detected ls end
  end.

(** ** Reading answers *)

(** [fgets] with a buffer of [4096]: pieces of at most 4095 characters, each up to
    and including its line feed; [room] is what the current piece may still take. *)
Fixpoint fgets_pieces (room : nat) (acc : list ascii) (l : list ascii) : list (list ascii) :=
  match l with
  | [] => match acc with [] => [] | _ => [rev acc] end
  | c :: l =>
      if bool_decide (c = lf) || (room <=? 1)%nat
      then rev (c :: acc) :: fgets_pieces 4095 [] l
      else fgets_pieces (pred room) (c :: acc) l
  end.

(** [result += buffer.data()] for every piece: each is cut at its first NUL. *)
Definition command_output (text : string) : string :=
  foldl (λ result piece, result +:+ c_str (of_chars piece)) ""
    (fgets_pieces 4095 [] (chars text)).

(** Docker's description of a container. *)
Definition docker_info (shortId containerId response : string) : ContainerInfo :=
  let name := extractJsonField response "Name" in
  let name := match name with String "/" rest => rest | _ => name end in
  let image := extractJsonField response "Image" in
  let podName := extractJsonField response "io.kubernetes.pod.name" in
  let podNamespace := extractJsonField response "io.kubernetes.pod.namespace" in
  let name :=
    if empty name then
      let service := extractJsonField response "com.docker.compose.service" in
      let project := extractJsonField response "com.docker.compose.project" in
      if negb (empty project) && negb (empty service) then project +:+ "_" +:+ service
      else if negb (empty service) then service else name
    else name in
  MkContainerInfo shortId containerId name podName podNamespace image DOCKER.

Definition namePattern : string := string_field_pattern "name".
Definition imagePattern : string := string_field_pattern "image".
Definition podNamePattern : string := string_field_pattern "io\.kubernetes\.pod\.name".
Definition podNsPattern : string := string_field_pattern "io\.kubernetes\.pod\.namespace".

(** crictl's description of a container. *)
Definition crictl_info (detected : Runtime) (shortId containerId output : string)
    : ContainerInfo :=
  MkContainerInfo shortId containerId
    (default "" (search_group output namePattern))
    (default "" (search_group output podNamePattern))
    (default "" (search_group output podNsPattern))
    (default "" (search_group output imagePattern))
    detected.

(** The first line of a file, as [std::getline] into an empty string leaves it. *)
Definition first_line (file : option string) : string :=
  match file with Some text => default "" (head (lines text)) | None => "" end.

Section methods.
Context {W : Type} `{OS W}.

Definition nowNs : IO W Z := call SteadyNowNs.

Definition fileExists (path : string) : IO W bool := call (StatOk (c_str path)).

Definition execCommand (cmd : string) : IO W string :=
  out ← call (Popen (c_str cmd));
  mret match out with None => "" | Some text => command_output text end.

Definition httpGetUnixSocket (socketPath path : string) : IO W string :=
  found ← fileExists socketPath;
  if negb found then mret ""
  else
    r ← call (CurlPerform
          (CurlRequest (Some (c_str socketPath)) (c_str ("http://localhost" +:+ path)) None 2));
    mret match r with
         | CurlInitFailed => ""
         | CurlDone chunks curle_ok _ =>
             if curle_ok then foldr String.append "" chunks else ""
         end.

Definition detectRuntime (cfg : Config) : IO W Runtime :=
  docker ← fileExists (dockerSocket cfg);
  if docker : bool then mret DOCKER
  else
    containerd ← fileExists (containerdSocket cfg);
    if containerd : bool then mret CONTAINERD
    else
      crio ← fileExists (crioSocket cfg);
      if crio : bool then mret CRIO
      else
        crictl ← fileExists (crictlPath cfg);
        if crictl : bool then
          result ← execCommand (crictlPath cfg +:+ " info 2>/dev/null | head -1");
          mret (if negb (empty result) then
                  if str_contains result "containerd" then CONTAINERD
                  else if str_contains result "cri-o" then CRIO
                  else UNKNOWN
                else UNKNOWN)
        else mret UNKNOWN.

(** The constructor. *)
Definition create (cfg : Config) : IO W t :=
  r ← detectRuntime cfg; mret (Mk cfg r ∅).

Definition parseCgroup (m : t) (pid : Z) : IO W CgroupInfo :=
  file ← call (ReadFile (cgroup_path pid));
  mret match file with
       | None => no_cgroup
       | Some text => first_info (detectedRuntime_ m) (lines text)
       end.

Definition isContainer (m : t) (pid : Z) : IO W bool :=
  cgroup ← parseCgroup m pid; mret (negb (empty (containerId cgroup))).

Definition queryDocker (m : t) (containerId : string) : IO W (option ContainerInfo) :=
  let shortId := short_hash containerId in
  let path := "/containers/" +:+ shortId +:+ "/json" in
  response ← httpGetUnixSocket (dockerSocket (config_ m)) path;
  mret (if empty response then None else Some (docker_info shortId containerId response)).

Definition queryCrictl (m : t) (containerId : string) : IO W (option ContainerInfo) :=
  found ← fileExists (crictlPath (config_ m));
  if negb found then mret None
  else
    let shortId := short_hash containerId in
    let cmd := crictlPath (config_ m) +:+ " inspect " +:+ shortId +:+ " 2>/dev/null" in
    output ← execCommand cmd;
    mret (if empty output then None
          else Some (crictl_info (detectedRuntime_ m) shortId containerId output)).

Definition queryContainerd (m : t) (containerId : string) : IO W (option ContainerInfo) :=
  queryCrictl m containerId.

Definition queryCrio (m : t) (containerId : string) : IO W (option ContainerInfo) :=
  queryCrictl m containerId.

Definition pod_info (pod ns : string) : ContainerInfo :=
  MkContainerInfo "" "" "" pod ns "" UNKNOWN.

(** The environment, then the service account: the part after the mounted files. *)
Definition queryKubernetesEnv : IO W (option ContainerInfo) :=
  podName ← call (GetEnv "KUBERNETES_POD_NAME");
  podNamespace ← call (GetEnv "KUBERNETES_NAMESPACE");
  match podName with
  | Some pod => mret (Some (pod_info pod (default "default" podNamespace)))
  | None =>
      let tokenPath := "/var/run/secrets/kubernetes.io/serviceaccount/token" in
      found ← fileExists tokenPath;
      if negb found then mret None
      else
        token ← call (ReadFile tokenPath);
        match token with None => mret None | Some _ => mret None end
  end.

Definition queryKubernetes (podUid : string) : IO W (option ContainerInfo) :=
  let podInfoPath := "/etc/podinfo/" in
  found ← fileExists (podInfoPath +:+ "name");
  if found : bool then
    nameFile ← call (ReadFile (podInfoPath +:+ "name"));
    nsFile ← call (ReadFile (podInfoPath +:+ "namespace"));
    if negb (empty (first_line nameFile))
    then mret (Some (pod_info (first_line nameFile) (first_line nsFile)))
    else queryKubernetesEnv
  else queryKubernetesEnv.

(** The [switch] on the runtime of the cgroup line. *)
Definition queryRuntime (m : t) (cgroup : CgroupInfo) : IO W (option ContainerInfo) :=
  match cg_runtime cgroup with
  | DOCKER => queryDocker m (containerId cgroup)
  | CONTAINERD | CRIO => queryCrictl m (containerId cgroup)
  | UNKNOWN =>
      info ← queryDocker m (containerId cgroup);
      match info with
      | None => queryCrictl m (containerId cgroup)
      | Some _ => mret info
      end
  end.

(** [info->podName = k8sInfo->podName; info->podNamespace = ...]. *)
Definition set_pod (i k8s : ContainerInfo) : ContainerInfo :=
  MkContainerInfo (id i) (fullId i) (name i) (podName k8s) (podNamespace k8s) (image i) (runtime i).

Definition basic_info (cgroup : CgroupInfo) : ContainerInfo :=
  MkContainerInfo (str_take 12 (containerId cgroup)) (containerId cgroup)
    (str_take 12 (containerId cgroup)) "" "" "" (cg_runtime cgroup).

(** The part after a cache miss. *)
Definition resolveInfo (m : t) (cgroupId pid : Z) : IO W (option ContainerInfo * t) :=
  cgroup ← parseCgroup m pid;
  if empty (containerId cgroup) then mret (None, m)
  else
    info ← queryRuntime m cgroup;
    info ← match info with
           | Some i =>
               if enableKubernetesApi (config_ m) && negb (empty (podUid cgroup)) then
                 k8sInfo ← queryKubernetes (podUid cgroup);
                 mret (Some match k8sInfo with Some k => set_pod i k | None => i end)
               else mret (Some i)
           | None => mret None
           end;
    let i := default (basic_info cgroup) info in
    now ← nowNs;
    mret (Some i, set_cache m
      (<[cgroupId := MkCacheEntry i (expiry now (cacheTTLSeconds (config_ m)))]> (cache_ m))).

Definition getContainerInfo (m : t) (cgroupId pid : Z) : IO W (option ContainerInfo * t) :=
  match cache_ m !! cgroupId with
  | Some entry =>
      now ← nowNs;
      if now <? expiresAtNs entry then mret (Some (info entry), m)
      else resolveInfo (set_cache m (delete cgroupId (cache_ m))) cgroupId pid
  | None => resolveInfo m cgroupId pid
  end.

(** The name shown for a description. *)
Definition display_name (cfg : Config) (i : ContainerInfo) : string :=
  if preferPodName cfg && negb (empty (podName i)) then
    if negb (empty (podNamespace i)) && negb (bool_decide (podNamespace i = "default"))
    then podNamespace i +:+ "/" +:+ podName i
    else podName i
  else if negb (empty (name i)) then name i
  else id i.

Definition getContainerName (m : t) (cgroupId pid : Z) : IO W (string * t) :=
  r ← getContainerInfo m cgroupId pid;
  mret (match r.1 with None => "" | Some i => display_name (config_ m) i end, r.2).
End methods.

(** ** Lemmas *)

#[export] Instance getContainerName_silent {W} `{OS W} m cg pid :
  Emits silent (getContainerName (W:=W) m cg pid).
Proof.
  unfold getContainerName, getContainerInfo, resolveInfo, parseCgroup, queryRuntime, queryDocker,
    queryCrictl, httpGetUnixSocket, execCommand, queryKubernetes, queryKubernetesEnv, fileExists,
    nowNs.
  cbv zeta. apply _.
Qed.

Definition uid_class : charset := CClass false [("a", "f"); ("0", "9"); ("-", "-")]%char.

(** What a line can yield: a container id of 12 to 64 hexadecimal characters, and no
    pod UID or one of 36 characters. *)
Definition cgroup_ok (i : CgroupInfo) : Prop :=
  container_id_ok (containerId i)
  ∧ (podUid i = "" ∨ String.length (podUid i) = 36%nat).

Lemma group_uid line : default "" (search_group line podPattern) = ""
  ∨ String.length (default "" (search_group line podPattern)) = 36%nat.
Proof.
  destruct (search_group line podPattern) as [u|] eqn:Hs; [|by left]. right.
  eapply search_group_captures in Hs as (_ & Hl & Hu); [|vm_compute; reflexivity].
  cbn in *. rewrite chars_length in *. lia.
Qed.

Lemma line_info_ok detected line i : line_info detected line = Some i → cgroup_ok i.
Proof.
  unfold line_info. intros Hi.
  destruct (search_group line dockerPattern) as [c|] eqn:H1.
  { simplify_eq. split; [|by left]. group_of H1. exact H1. }
  destruct (search_group line containerdPattern) as [c|] eqn:H2.
  { simplify_eq. split; [|apply group_uid].
    group_of H2. exact H2. }
  destruct (search_group line crioPattern) as [c|] eqn:H3.
  { simplify_eq. split; [|apply group_uid].
    group_of H3. exact H3. }
  destruct (search_groups2 line kubePattern) as [[pod c]|] eqn:H4.
  { clear H1 H2 H3. simplify_eq. unfold search_groups2 in H4.
    destruct (regex_search line kubePattern) as [ms|] eqn:Hr; [|done].
    eapply regex_search_groups in Hr as (m & us & -> & Hus); [|vm_compute; reflexivity].
    apply Forall2_cons_inv_l in Hus as (u & us1 & (_ & Hl & Hu) & Hus & ->).
    apply Forall2_cons_inv_l in Hus as (v & us2 & Hv & _ & ->).
    injection H4 as <- <-. cbn in Hl, Hu. rewrite chars_length in Hl, Hu.
    split; [|right; cbn; lia].
    refine (captures_id _ 64 true _ Hv). lia. }
  destruct (search_group line podmanPattern) as [c|] eqn:H5; [|done].
  simplify_eq. split; [|by left]. group_of H5. exact H5.
Qed.

Lemma first_info_ok detected ls :
  first_info detected ls = no_cgroup ∨ cgroup_ok (first_info detected ls).
Proof.
  induction ls as [|line ls IH]; [by left|]. cbn [first_info].
  case_match eqn:Hl; [|done]. right. by eapply line_info_ok.
Qed.

Lemma parseCgroup_holds {W} `{OS W} m pid :
  holds (parseCgroup (W:=W) m pid) (λ i tr,
    ∃ file, tr = [Ev (ReadFile (cgroup_path pid)) file] ∧ (i = no_cgroup ∨ cgroup_ok i)).
Proof.
  unfold parseCgroup. io_step. io_step. io_step. exists a. split; [done|].
  destruct a; [apply first_info_ok|by left].
Qed.

(** Piecewise reading and the cut at NUL change nothing in a text without NUL. *)
Lemma fgets_pieces_concat room acc l :
  concat (fgets_pieces room acc l) = rev acc ++ l.
Proof.
  revert room acc. induction l as [|c l IH]; intros room acc; cbn [fgets_pieces].
  - rewrite app_nil_r. destruct acc; [done|]. cbn [concat]. by rewrite app_nil_r.
  - case_bool; cbn [concat]; rewrite IH; cbn [rev app]; by rewrite <-?app_assoc.
Qed.

Lemma foldl_pieces ps acc :
  Forall (Forall (λ c, c ≠ nul)) ps →
  foldl (λ result piece, result +:+ c_str (of_chars piece)) acc ps
  = acc +:+ of_chars (concat ps).
Proof.
  intros Hps. revert acc. induction Hps as [|p ps Hp _ IH]; intros acc; cbn [foldl concat].
  - by rewrite str_app_nil_r.
  - rewrite IH, c_str_no_nul by by rewrite chars_of_chars.
    by rewrite of_chars_app, str_app_assoc.
Qed.

Lemma command_output_id text : Forall (λ c, c ≠ nul) (chars text) → command_output text = text.
Proof.
  intros Ht. unfold command_output.
  assert (Hc : concat (fgets_pieces 4095 [] (chars text)) = chars text)
    by by rewrite fgets_pieces_concat.
  rewrite foldl_pieces.
  - by rewrite Hc, of_chars_chars.
  - rewrite <-Hc in Ht. clear Hc. induction (fgets_pieces _ _ _) as [|p ps IH]; [done|].
    cbn [concat] in Ht. apply Forall_app in Ht as [? ?]. constructor; auto.
Qed.

(** ** The cache invariant *)
















(** ** Properties *)

(** C39: what a process's cgroup file yields.  Either nothing is found, or a container id
    of 12 to 64 lower-case hexadecimal characters together with no pod UID or one of
    exactly 36 characters; the file is read once and nothing else is done. *)
Theorem parseCgroup_spec {W} `{OS W} m pid :
  holds (parseCgroup (W:=W) m pid) (λ i tr,
    ∃ file, tr = [Ev (ReadFile (cgroup_path pid)) file] ∧ (i = no_cgroup ∨ cgroup_ok i)).
Proof. apply parseCgroup_holds. Qed.



(** The runtime is the first of the Docker, containerd and CRI-O sockets that exists;
    only when none does and crictl is installed is crictl asked, and only its answer
    decides; everything else is unknown. *)
Theorem detectRuntime_spec {W} `{OS W} cfg :
  holds (detectRuntime (W:=W) cfg) (λ r tr,
    let probe p b := Ev (StatOk (c_str p)) b in
    tr = [probe (dockerSocket cfg) true] ∧ r = DOCKER
    ∨ tr = [probe (dockerSocket cfg) false; probe (containerdSocket cfg) true] ∧ r = CONTAINERD
    ∨ tr = [probe (dockerSocket cfg) false; probe (containerdSocket cfg) false;
            probe (crioSocket cfg) true] ∧ r = CRIO
    ∨ tr = [probe (dockerSocket cfg) false; probe (containerdSocket cfg) false;
            probe (crioSocket cfg) false; probe (crictlPath cfg) false] ∧ r = UNKNOWN
    ∨ ∃ out, tr = [probe (dockerSocket cfg) false; probe (containerdSocket cfg) false;
            probe (crioSocket cfg) false; probe (crictlPath cfg) true;
            Ev (Popen (c_str (crictlPath cfg +:+ " info 2>/dev/null | head -1"))) out]
        ∧ r = match out with
              | None => UNKNOWN
              | Some text =>
                  if str_contains (command_output text) "containerd" then CONTAINERD
                  else if str_contains (command_output text) "cri-o" then CRIO else UNKNOWN
              end).
Proof.
  unfold detectRuntime, fileExists, execCommand. cbv zeta.
  do 2 io_step. io_step; [io_step; auto|].
  do 2 io_step. io_step; [io_step; auto|].
  do 2 io_step. io_step; [io_step; auto 6|].
  do 2 io_step. io_step; [|io_step; auto 8].
  do 2 io_step. io_step. io_step. io_step. do 4 right. eexists. split; [done|].
  destruct a3 as [text|]; [|done]. destruct (command_output text); done.
Qed.

(** Reading a command's output piecewise, 4095 characters or a line at a time, loses
    nothing: without NUL characters the result is the whole output, whatever its
    length. *)
Theorem execCommand_output {W} `{OS W} cmd :
  holds (execCommand (W:=W) cmd) (λ s tr,
    ∃ out, tr = [Ev (Popen (c_str cmd)) out] ∧
      (Forall (λ c, c ≠ nul) (chars (default "" out)) → s = default "" out)).
Proof.
  unfold execCommand. io_step. io_step. io_step. eexists. split; [done|].
  destruct a as [text|]; [|done]. apply command_output_id.
Qed.

(** The pod UID plays no part: the description found is the agent's own pod's. *)
Lemma queryKubernetes_ignores_uid {W} `{OS W} u v :
  queryKubernetes (W:=W) u = queryKubernetes v.
Proof. done. Qed.

(** *** On a sample machine *)

Definition sample_pod (c : ascii) : string := of_chars (replicate 64 c).

Definition sample_cgroup (c : ascii) : string :=
  "0::/kubepods/besteffort/pod01234567-89ab-cdef-0123-456789abcdef/cri-containerd-"
  +:+ sample_pod c +:+ nl.

Definition sample_machine : script :=
  with_env (λ k, if (k =? "KUBERNETES_POD_NAME")%string then Some "deepkernel-agent" else None)
    (with_file (λ p, if (p =? "/proc/1/cgroup")%string then Some (sample_cgroup "a")
                     else if (p =? "/proc/2/cgroup")%string then Some (sample_cgroup "b") else None)
      (with_exists (λ p, (p =? "/usr/bin/crictl")%string)
        (with_popen (λ _, Some ("{" +:+ quoted "name" +:+ ": " +:+ quoted "app" +:+ "}")) bare))).

(** With the Kubernetes look-up enabled, two containers of the node are both named after
    the agent's own pod. *)
Lemma two_containers_one_name :
  let m := Mk default_Config UNKNOWN ∅ in
  (run (getContainerName m 1 1) sample_machine).1.1 = "deepkernel-agent" ∧
  (run (getContainerName m 2 2) sample_machine).1.1 = "deepkernel-agent".
Proof. split; vm_compute; reflexivity. Qed.

End ContainerMapper.
