(* ===== verification/NameCache.v ===== *)
(** * NameCache: how old a name can be

    Both mappers keep a table from cgroup ids to names that expire.  The interface
    [NameMapper] says what one look-up does to such a table; the two mappers implement it;
    and from it alone follows what any sequence of look-ups answers: every name was found by
    reading the cgroup file of a process, either now or, for the same cgroup id, within the
    time to live. *)

From S2P Require Export DockerMapper ContainerMapper.

#[local] Open Scope Z_scope.

(** ** The interface *)

Class NameMapper (M : Type) := {
  look {W} `{OS W} : M → Z → Z → IO W (string * M);
  ttl : M → Z;
  well : M → Prop;
  entry_of : M → Z → option (string * Z);   (* the name, and when it expires *)
}.

(** The cgroup file of the process is read. *)
Definition inspects (pid : Z) (tr : list event) : Prop :=
  ∃ t1 file t2, tr = t1 ++ Ev (ReadFile (cgroup_path pid)) file :: t2.

(** The last thing done is to read the clock. *)
Definition stamped (now : Z) (tr : list event) : Prop := ∃ t, tr = t ++ [Ev SteadyNowNs now].

(** A look-up leaves the other entries alone; it answers from an entry that has not expired,
    after one reading of the clock, or inspects the process and then keeps no entry or a new
    one with the name it answers. *)
Definition looked {M} `{NameMapper M} (m : M) (cg pid : Z) (r : string * M) (tr : list event)
    : Prop :=
  well r.2 ∧ ttl r.2 = ttl m ∧ (∀ cg', cg' ≠ cg → entry_of r.2 cg' = entry_of m cg') ∧
  ((∃ x now, entry_of m cg = Some (r.1, x) ∧ now < x ∧ tr = [Ev SteadyNowNs now] ∧ r.2 = m)
   ∨ inspects pid tr
     ∧ (entry_of r.2 cg = None
        ∨ ∃ now, stamped now tr ∧ entry_of r.2 cg = Some (r.1, expiry now (ttl m)))).

Class NameMapperLaws (M : Type) `{NameMapper M} := {
  look_law {W} `{OS W} (m : M) cg pid : well m → holds (look (W:=W) m cg pid) (looked m cg pid)
}.

(** ** A history of look-ups *)

Record visit := Visit {
  v_cgroup : Z;
  v_pid : Z;
  v_name : string;
  v_events : list event;
}.

(** The answer came from the table. *)
Definition from_table (v : visit) : Prop := ∃ now, v_events v = [Ev SteadyNowNs now].

(** The entry for [cg] was made by a visit of the history, and only read since. *)
Definition made_by (life : Z) (h : list visit) (cg : Z) (name : string) (x : Z) : Prop :=
  ∃ h1 v h2 t, h = h1 ++ v :: h2 ∧ v_cgroup v = cg ∧ v_name v = name
    ∧ inspects (v_pid v) (v_events v) ∧ stamped t (v_events v) ∧ x = expiry t life
    ∧ Forall (λ v', v_cgroup v' = cg → from_table v') h2.

(** An answer is justified by what came before. *)
Definition justified (life : Z) (h : list visit) (v : visit) : Prop :=
  inspects (v_pid v) (v_events v)
  ∨ ∃ now x, v_events v = [Ev SteadyNowNs now] ∧ now < x
      ∧ made_by life h (v_cgroup v) (v_name v) x.

Inductive justified_all (life : Z) : list visit → Prop :=
  | justified_nil : justified_all life []
  | justified_snoc h v : justified_all life h → justified life h v → justified_all life (h ++ [v]).

Lemma made_by_snoc life h cg name x v :
  (v_cgroup v = cg → from_table v) → made_by life h cg name x → made_by life (h ++ [v]) cg name x.
Proof.
  intros Hv (h1 & v0 & h2 & t & -> & Hc & Hn & Hi & Hs & Hx & Hf).
  exists h1, v0, (h2 ++ [v]), t. rewrite <-app_assoc. split_and!; try done.
  apply Forall_app_2; [done|]. by repeat constructor.
Qed.

Section client.
Context {M : Type} `{NameMapperLaws M} {W : Type} `{OS W}.

Definition visits (m : M) (l : list (Z * Z)) : IO W (list string * M) :=
  io_fold (λ s cp, r ← look s.2 cp.1 cp.2; mret (s.1 ++ [r.1], r.2)) ([], m) l.

(** The table after a history. *)
Definition table_of (life : Z) (h : list visit) (m : M) : Prop :=
  well m ∧ ttl m = life
  ∧ ∀ cg name x, entry_of m cg = Some (name, x) → made_by life h cg name x.

Definition recorded (life : Z) (l : list (Z * Z)) (names : list string) (tr : list event)
    (h : list visit) : Prop :=
  map (λ v, (v_cgroup v, v_pid v)) h = l ∧ map v_name h = names ∧ concat (map v_events h) = tr
  ∧ justified_all life h.

Lemma recorded_snoc life l names tr h cp name t :
  recorded life l names tr h → justified life h (Visit cp.1 cp.2 name t) →
  recorded life (l ++ [cp]) (names ++ [name]) (tr ++ t) (h ++ [Visit cp.1 cp.2 name t]).
Proof.
  intros (<- & <- & <- & Hj) Hv. unfold recorded. rewrite !map_app, concat_app. cbn.
  rewrite app_nil_r. split_and!; [by destruct cp|done|done|by constructor].
Qed.

Lemma visits_holds m l :
  well m → (∀ cg, entry_of m cg = None) →
  holds (visits m l) (λ r tr, ∃ h, recorded (ttl m) l r.1 tr h ∧ table_of (ttl m) h r.2).
Proof.
  intros Hw He. unfold visits.
  apply (holds_fold (λ done s tr, ∃ h, recorded (ttl m) done s.1 tr h ∧ table_of (ttl m) h s.2)).
  { exists []. split; [split_and!; try done; constructor|]. split_and!; [done|done|].
    intros cg name x. by rewrite He. }
  intros l0 [cg pid] [names s] tr (h & Hrec & Hws & Httl & Htab). cbn [fst snd] in *. io_step.
  eapply holds_mono; [by apply look_law|]. intros [name s'] t (Hw' & Ht' & Ho & Hcase).
  io_step. rewrite app_nil_r. cbn [fst snd] in *. set (v := Visit cg pid name t).
  exists (h ++ [v]). destruct Hcase as [(x & now & Hx & Hlt & Htr & ->)|[Hin Hnew]].
  - apply Htab in Hx. split.
    + apply (recorded_snoc _ _ _ _ _ (cg, pid)); [done|]. right. by exists now, x.
    + split_and!; [done|done|]. intros cg' name' x' Hx'. apply made_by_snoc; [|by apply Htab].
      intros _. by exists now.
  - split; [apply (recorded_snoc _ _ _ _ _ (cg, pid)); [done|by left]|].
    split_and!; [done|congruence|]. intros cg' name' x' Hx'.
    destruct (decide (cg' = cg)) as [->|Hne].
    + destruct Hnew as [Hnone|(now & Hst & Hent)]; [congruence|]. rewrite Hent in Hx'. simplify_eq.
      exists h, v, [], now. rewrite <-Httl. split_and!; done || constructor.
    + rewrite Ho in Hx' by done. apply made_by_snoc; [|by apply Htab]. intros Hcg. by subst.
Qed.
End client.

(** ** The Docker mapper *)

#[export] Instance docker_mapper : NameMapper DockerMapper.t := {
  look W _ := DockerMapper.getContainerName;
  ttl := DockerMapper.cacheTTLSeconds_;
  well _ := True;
  entry_of m cg := (λ e, (DockerMapper.containerName e, DockerMapper.expiresAtNs e))
                     <$> DockerMapper.cgroupToNameCache_ m !! cg;
}.

Lemma docker_resolution m cg pid name m' tr pre :
  DockerMapper.resolution m cg pid name m' tr → looked m cg pid (name, m') (pre ++ tr).
Proof.
  intros (file & now & -> & Htr). cbv zeta in Htr. split_and!; [done|done| |].
  { intros cg' Hne. cbn. by rewrite lookup_insert_ne. }
  right. cbn [fst snd entry_of docker_mapper]. split.
  - destruct (empty _); [destruct Htr as [_ ->]|destruct Htr as (r & _ & ->)]; by eexists pre, file, _.
  - right. exists now. split; [|cbn; by rewrite lookup_insert_eq].
    destruct (empty _); [destruct Htr as [_ ->]; exists (pre ++ [Ev (ReadFile (cgroup_path pid)) file])
      |destruct Htr as (r & _ & ->); eexists (pre ++ [_; _])]; by rewrite <-app_assoc.
Qed.

#[export] Instance docker_mapper_laws : NameMapperLaws DockerMapper.t.
Proof.
  constructor. intros W HW m cg pid _. eapply holds_mono; [apply DockerMapper.getContainerName_holds|].
  intros [name m'] tr. destruct (DockerMapper.cgroupToNameCache_ m !! cg) as [e|] eqn:He.
  - intros (now & tr' & -> & Hr). destruct (now <? DockerMapper.expiresAtNs e) eqn:Hlt; bool_to_prop.
    + destruct Hr as [[= -> ->] ->]. split_and!; [done|done|done|]. left.
      exists (DockerMapper.expiresAtNs e), now. cbn. by rewrite He.
    + by apply (docker_resolution _ _ _ _ _ _ [_]).
  - apply (docker_resolution _ _ _ _ _ _ []).
Qed.

(** ** The container mapper *)

#[export] Instance container_mapper : NameMapper ContainerMapper.t := {
  look W _ := ContainerMapper.getContainerName;
  ttl m := ContainerMapper.cacheTTLSeconds (ContainerMapper.config_ m);
  well _ := True;
  entry_of m cg := (λ e, (ContainerMapper.display_name (ContainerMapper.config_ m) (ContainerMapper.info e),
                          ContainerMapper.expiresAtNs e)) <$> ContainerMapper.cache_ m !! cg;
}.

(** A description that was found is stored, stamped with the clock. *)
Lemma resolveInfo_stamped {W} `{OS W} m cg pid :
  holds (ContainerMapper.resolveInfo (W:=W) m cg pid) (λ r tr, inspects pid tr ∧
    match r.1 with
    | None => r.2 = m
    | Some i => ∃ now, stamped now tr
        ∧ r.2 = ContainerMapper.set_cache m (<[cg := ContainerMapper.MkCacheEntry i
            (expiry now (ContainerMapper.cacheTTLSeconds (ContainerMapper.config_ m)))]>
            (ContainerMapper.cache_ m))
    end).
Proof.
  unfold ContainerMapper.resolveInfo. io_step. eapply holds_mono; [apply ContainerMapper.parseCgroup_holds|].
  intros cgroup tr (file & -> & _). io_step; [io_step; split; [by eexists [], file, _|done]|].
  io_step. apply holds_any; [unfold ContainerMapper.queryRuntime, ContainerMapper.queryDocker,
    ContainerMapper.queryCrictl, ContainerMapper.httpGetUnixSocket, ContainerMapper.execCommand,
    ContainerMapper.fileExists; apply _|]. intros r t. io_step.
  apply holds_any; [unfold ContainerMapper.queryKubernetes, ContainerMapper.queryKubernetesEnv,
    ContainerMapper.fileExists; apply _|]. intros r' t'. cbv zeta. unfold ContainerMapper.nowNs.
  io_step. io_step. io_step. split; [by eexists [], file, _|]. cbn [fst snd]. exists a.
  split; [|done]. eexists ([_] ++ t ++ t'). rewrite app_nil_r. by rewrite <-!app_assoc.
Qed.

#[export] Instance container_mapper_laws : NameMapperLaws ContainerMapper.t.
Proof.
  constructor. intros W HW m cg pid _. cbn [look container_mapper].
  unfold ContainerMapper.getContainerName, ContainerMapper.getContainerInfo, ContainerMapper.nowNs.
  assert (Hres : ∀ m0 pre, ContainerMapper.config_ m0 = ContainerMapper.config_ m →
    (∀ cg', cg' ≠ cg → ContainerMapper.cache_ m0 !! cg' = ContainerMapper.cache_ m !! cg') →
    ContainerMapper.cache_ m0 !! cg = None →
    holds (W:=W) (ContainerMapper.resolveInfo m0 cg pid) (λ r tr,
      looked m cg pid (match r.1 with
        | None => "" | Some i => ContainerMapper.display_name (ContainerMapper.config_ m) i end, r.2)
        (pre ++ tr))).
  { intros m0 pre Hcfg Ho Hn. eapply holds_mono; [apply resolveInfo_stamped|].
    intros [[i|] m'] tr [(t1 & file & t2 & Htr) Hr]; cbn [fst snd] in *.
    - destruct Hr as (now & (t & Ht) & ->). unfold looked. cbn. rewrite Hcfg. split_and!; [done|done| |].
      + intros cg' Hne. rewrite lookup_insert_ne by done. by rewrite Ho.
      + right. split; [exists (pre ++ t1), file, t2; by rewrite Htr, app_assoc|].
        right. exists now. split; [exists (pre ++ t); by rewrite Ht, app_assoc|]. by rewrite lookup_insert_eq.
    - subst m'. unfold looked. cbn. rewrite Hcfg. split_and!; [done|done| |].
      + intros cg' Hne. by rewrite Ho.
      + right. split; [exists (pre ++ t1), file, t2; by rewrite Htr, app_assoc|]. left. by rewrite Hn. }
  destruct (ContainerMapper.cache_ m !! cg) as [e|] eqn:He.
  - io_step. io_step. io_step. io_step; bool_to_prop.
    + io_step. io_step. unfold looked. cbn. split_and!; [done|done|done|]. left.
      exists (ContainerMapper.expiresAtNs e), a. by rewrite He.
    + eapply holds_mono.
      { apply (Hres (ContainerMapper.set_cache m (delete cg (ContainerMapper.cache_ m))) [Ev SteadyNowNs a]);
          [done| |apply lookup_delete_eq]. intros cg' Hne. by apply lookup_delete_ne. }
      intros r t Hr. io_step. rewrite app_nil_r. cbn [fst snd] in Hr. exact Hr.
  - io_step. eapply holds_mono; [by apply (Hres m [])|]. intros r t Hr. io_step. rewrite app_nil_r.
    exact Hr.
Qed.

(** ** Property *)

(** C33: no name is older than the time to live.  For either mapper, from its construction, and
    any sequence of look-ups: each answer was given by a look-up that read the cgroup file of the
    process it is about; or it is the answer such a look-up gave before for the same cgroup id,
    look-ups of that id have only read the table since, and the clock, read once now, is before
    the time read then plus the time to live (in 64-bit arithmetic). *)
Theorem names_justified {W} `{OS W} :
  (∀ path life l, holds (W:=W) (visits (DockerMapper.create path life) l) (λ r tr,
     ∃ h, recorded life l r.1 tr h))
  ∧ (∀ cfg l, holds (W:=W) (m ← ContainerMapper.create cfg; visits m l) (λ r tr,
     ∃ h t0 t, tr = t0 ++ t ∧ recorded (ContainerMapper.cacheTTLSeconds cfg) l r.1 t h)).
Proof.
  split.
  - intros path life l. eapply holds_mono; [by apply visits_holds|]. intros r tr (h & Hh & _). eauto.
  - intros cfg l. apply holds_bind. unfold ContainerMapper.create. apply holds_bind.
    apply holds_any; [unfold ContainerMapper.detectRuntime, ContainerMapper.fileExists,
      ContainerMapper.execCommand; apply _|]. intros rt t0. apply holds_ret. cbn.
    eapply holds_mono; [by apply visits_holds|]. intros r tr (h & Hh & _). exists h, t0, tr.
    by rewrite app_nil_r.
Qed.
