(* ===== verification/Stream.v ===== *)
(** * Stream: std::ofstream and paths

    What the agent uses of [std::ofstream] and [std::filesystem::path]: a stream
    remembers the file it has open and whether its error bits are clear.  Opening
    an open stream fails and leaves the first file open; a stream with an error
    bit set writes nothing; [close] does not clear the error bits. *)

From S2P Require Export IO.

#[local] Open Scope Z_scope.

Record ofstream := MkOfstream {
  st_file : option string;   (* the file buffer's open file *)
  st_good : bool;            (* neither failbit nor badbit *)
}.

(** A default-constructed stream. *)
Definition unopened : ofstream := MkOfstream None true.

Definition is_open (s : ofstream) : bool :=
  match st_file s with Some _ => true | None => false end.

(** [dir / file] on POSIX paths. *)
Definition path_join (dir file : string) : string :=
  match file with
  | String "/" _ => file
  | _ =>
      match last (chars dir) with
      | None => file
      | Some "/"%char => dir +:+ file
      | Some _ => dir +:+ "/" +:+ file
      end
  end.

Lemma path_join_nonempty dir file : file ≠ "" → path_join dir file ≠ "".
Proof.
  intros Hf. assert (Hdir : ∀ s, dir +:+ s = "" → dir = "") by by destruct dir.
  destruct file as [|c f]; [done|]. unfold path_join.
  destruct (last (chars dir)) as [d|] eqn:Hl.
  - assert (dir ≠ "") by by intros ->. repeat case_match; eauto.
  - by repeat case_match.
Qed.

(** What comes before a relative name. *)
Definition dir_prefix (dir : string) : string :=
  match last (chars dir) with
  | None => ""
  | Some "/"%char => dir
  | Some _ => dir +:+ "/"
  end.

Lemma path_join_relative dir file :
  head (chars file) ≠ Some "/"%char → path_join dir file = dir_prefix dir +:+ file.
Proof.
  intros Hf. assert (Hj : path_join dir file = match last (chars dir) with
    | None => file | Some "/"%char => dir +:+ file | Some _ => dir +:+ "/" +:+ file end).
  { destruct file as [|c f]; [done|]. unfold path_join. repeat case_match; subst; try done. }
  rewrite Hj. unfold dir_prefix. repeat case_match; by rewrite ?str_app_assoc.
Qed.

(** The bytes of a text. *)
Definition bytes_of (s : string) : list Z := map (λ c, Z.of_N (Ascii.N_of_ascii c)) (chars s).

Section stream.
Context {W : Type} `{OS W}.

Definition stream_open (s : ofstream) (path : string) : IO W ofstream :=
  match st_file s with
  | Some _ => mret (MkOfstream (st_file s) false)
  | None =>
      ok ← call (OpenTrunc (c_str path));
      mret (if ok : bool then MkOfstream (Some (c_str path)) true else MkOfstream None false)
  end.

Definition stream_write (s : ofstream) (data : list Z) : IO W ofstream :=
  if st_good s then
    match st_file s with
    | Some path => ok ← call (WriteStream path data); mret (MkOfstream (Some path) ok)
    | None => mret (MkOfstream None false)
    end
  else mret s.

Definition stream_close (s : ofstream) : IO W ofstream :=
  match st_file s with
  | Some path => ok ← call (CloseStream path); mret (MkOfstream None (st_good s && ok))
  | None => mret (MkOfstream None false)
  end.
End stream.
