(* ===== verification/PolicyEnforcer.v ===== *)
(** * PolicyEnforcer: Seccomp policies

    [agent/include/policy_enforcer.h] and [agent/src/policy_enforcer.cpp]: the
    generated profile, its file, the container look-up through the Docker socket,
    the two Docker commands and the table of applied policies.  Log lines are
    left out. *)

From S2P Require Export JsonField Stream.

#[local] Open Scope Z_scope.

Module PolicyEnforcer.

Record AppliedPolicy := MkAppliedPolicy {
  containerId : string;
  policyType : string;
  profilePath : string;
  appliedAtNs : Z;
}.

Record t := Mk {
  dockerSocketPath_ : string;
  policyDir_ : string;
  enforcementMode_ : string;
  appliedPolicies_ : gmap string AppliedPolicy;
}.

(** [appliedPolicies_[policyId] = policy]. *)
Definition record_policy (m : t) (policyId : string) (p : AppliedPolicy) : t :=
  Mk (dockerSocketPath_ m) (policyDir_ m) (enforcementMode_ m)
    (<[policyId := p]> (appliedPolicies_ m)).

Definition isPolicyApplied (m : t) (policyId : string) : bool :=
  bool_decide (is_Some (appliedPolicies_ m !! policyId)).

Definition extractJsonString (json key : string) : string := JsonField.extractJsonString json key.

(** The lines of the profile.  [specJson] plays no part. *)
Definition generateSeccompProfile (m : t) (specJson : string) : string :=
  let profile := "{" +:+ nl in
  let profile := profile +:+ "  " +:+ quoted "defaultAction" +:+ ": " +:+ quoted "SCMP_ACT_ALLOW" +:+ "," +:+ nl in
  let profile := profile +:+ "  " +:+ quoted "architectures" +:+ ": [" +:+ quoted "SCMP_ARCH_X86_64"
    +:+ ", " +:+ quoted "SCMP_ARCH_X86" +:+ ", " +:+ quoted "SCMP_ARCH_X32" +:+ "]," +:+ nl in
  let profile := profile +:+ "  " +:+ quoted "comment" +:+ ": "
    +:+ quoted ("DeepKernel generated policy - mode=" +:+ enforcementMode_ m +:+ " (block connect)")
    +:+ "," +:+ nl in
  let profile := profile +:+ "  " +:+ quoted "syscalls" +:+ ": [" +:+ nl in
  let effectiveAction :=
    if (enforcementMode_ m =? "LOG")%string then "SCMP_ACT_LOG" else "SCMP_ACT_ERRNO" in
  let profile := profile +:+ "    {" +:+ nl in
  let profile := profile +:+ "      " +:+ quoted "names" +:+ ": [" +:+ quoted "connect" +:+ "]," +:+ nl in
  let profile := profile +:+ "      " +:+ quoted "action" +:+ ": " +:+ quoted effectiveAction +:+ "," +:+ nl in
  let profile := profile +:+ "      " +:+ quoted "comment" +:+ ": "
    +:+ quoted "Deny/log connect(2) for demo containment" +:+ nl in
  let profile := profile +:+ "    }" +:+ nl in
  let profile := profile +:+ nl +:+ "  ]" +:+ nl in
  profile +:+ "}" +:+ nl.

Definition redirect : string := " > /dev/null 2>&1".

Definition updateCmd (containerName profilePath : string) : string :=
  "docker update --security-opt seccomp=" +:+ quoted profilePath +:+ " " +:+ quoted containerName
  +:+ redirect.

Definition restartCmd (containerName : string) : string :=
  "docker restart " +:+ quoted containerName +:+ redirect.

(** One turn of the loop of [getAppliedPoliciesJson]. *)
Definition appendPolicy (st : bool * string) (e : string * AppliedPolicy) : bool * string :=
  let '(first, oss) := st in
  let oss := if negb first then oss +:+ "," else oss in
  (false,
   oss +:+ "{" +:+ q +:+ "policy_id" +:+ q +:+ ":" +:+ q +:+ e.1 +:+ q +:+ ","
       +:+ q +:+ "container_id" +:+ q +:+ ":" +:+ q +:+ containerId e.2 +:+ q +:+ ","
       +:+ q +:+ "type" +:+ q +:+ ":" +:+ q +:+ policyType e.2 +:+ q +:+ ","
       +:+ q +:+ "profile_path" +:+ q +:+ ":" +:+ q +:+ profilePath e.2 +:+ q +:+ "}").

Section methods.
Context {W : Type} `{OS W}.

Definition nowNs : IO W Z := call SteadyNowNs.

(** The constructor; [None] when [create_directories] throws. *)
Definition create (dockerSocketPath policyDir enforcementMode : string) : IO W (option t) :=
  ok ← call (CreateDirectories policyDir);
  if negb ok then mret None
  else
    let mode :=
      if negb (enforcementMode =? "ERRNO")%string && negb (enforcementMode =? "LOG")%string
      then "ERRNO" else enforcementMode in
    mret (Some (Mk dockerSocketPath policyDir mode ∅)).

(** The answer of a transfer, as both HTTP helpers return it. *)
Definition response_of (r : curl_result) : string :=
  match r with
  | CurlInitFailed => ""
  | CurlDone chunks curle_ok _ => if curle_ok then foldr String.append "" chunks else ""
  end.

Definition httpDockerGet (m : t) (path : string) : IO W string :=
  r ← call (CurlPerform (CurlRequest (Some (c_str (dockerSocketPath_ m)))
         (c_str ("http://localhost" +:+ path)) None 5));
  mret (response_of r).

Definition httpDockerPost (m : t) (path body : string) : IO W string :=
  r ← call (CurlPerform (CurlRequest (Some (c_str (dockerSocketPath_ m)))
         (c_str ("http://localhost" +:+ path)) (Some (c_str body)) 5));
  mret (response_of r).

(** The path written, or the empty string when the file cannot be opened; what
    becomes of the write itself is not looked at. *)
Definition writeSeccompProfile (m : t) (policyId profileJson : string) : IO W string :=
  let path := path_join (policyDir_ m) (policyId +:+ ".json") in
  file ← stream_open unopened path;
  if negb (is_open file) then mret ""
  else
    file ← stream_write file (bytes_of profileJson);
    _ ← stream_close file;
    mret path.

Definition getContainerIdFromName (m : t) (containerName : string) : IO W string :=
  response ← httpDockerGet m ("/containers/" +:+ containerName +:+ "/json");
  mret (if empty response then "" else extractJsonString response "Id").

Definition updateContainerSeccomp (containerName profilePath : string) : IO W bool :=
  rcUpdate ← call (System (c_str (updateCmd containerName profilePath)));
  if negb (rcUpdate =? 0) then mret false
  else
    rcRestart ← call (System (c_str (restartCmd containerName)));
    if negb (rcRestart =? 0) then mret false
    else mret true.

Definition apply (m : t) (containerName policyId policyType specJson : string)
    : IO W (bool * t) :=
  if negb (policyType =? "SECCOMP")%string then
    now ← nowNs;
    mret (true, record_policy m policyId (MkAppliedPolicy containerName policyType "" now))
  else
    let profileJson := generateSeccompProfile m specJson in
    if empty profileJson then mret (false, m)
    else
      profilePath ← writeSeccompProfile m policyId profileJson;
      if empty profilePath then mret (false, m)
      else
        containerId ← getContainerIdFromName m containerName;
        if empty containerId then
          now ← nowNs;
          mret (true, record_policy m policyId
            (MkAppliedPolicy containerName policyType profilePath now))
        else
          success ← updateContainerSeccomp containerName profilePath;
          now ← nowNs;
          mret (if success : bool
                then (true, record_policy m policyId
                  (MkAppliedPolicy containerId policyType profilePath now))
                else (true, record_policy m policyId
                  (MkAppliedPolicy containerId policyType profilePath now))).

Definition getAppliedPoliciesJson (m : t) : IO W string :=
  order ← hash_order (map_to_list (appliedPolicies_ m)).*1;
  let entries := omap (λ id, p ← appliedPolicies_ m !! id; Some (id, p)) order in
  mret ((foldl appendPolicy (true, "[") entries).2 +:+ "]").
End methods.

(** ** Specification *)

Definition profile_path (m : t) (policyId : string) : string :=
  path_join (policyDir_ m) (policyId +:+ ".json").

Definition inspect_request (m : t) (containerName : string) : curl_request :=
  CurlRequest (Some (c_str (dockerSocketPath_ m)))
    (c_str ("http://localhost" +:+ ("/containers/" +:+ containerName +:+ "/json"))) None 5.

(** The container id in Docker's answer. *)
Definition answered_id (r : curl_result) : string :=
  if empty (response_of r) then "" else extractJsonString (response_of r) "Id".

(** The events of writing a profile that could be opened, then asking Docker. *)
Definition profile_events (m : t) (containerName policyId spec : string) (wrote closed : bool)
    (r : curl_result) : list event :=
  let path := c_str (profile_path m policyId) in
  [Ev (OpenTrunc path) true; Ev (WriteStream path (bytes_of (generateSeccompProfile m spec))) wrote;
   Ev (CloseStream path) closed; Ev (CurlPerform (inspect_request m containerName)) r].

(** The enforcement: an update, and a restart when it succeeded. *)
Definition enforcement (containerName path : string) (tr : list event) : Prop :=
  ∃ rc, (rc ≠ 0 ∧ tr = [Ev (System (c_str (updateCmd containerName path))) rc])
    ∨ (rc = 0 ∧ ∃ rc', tr = [Ev (System (c_str (updateCmd containerName path))) rc;
                              Ev (System (c_str (restartCmd containerName))) rc']).

(** What [apply] does, case by case. *)
Definition applied (m : t) (containerName policyId policyType spec : string)
    (r : bool * t) (tr : list event) : Prop :=
  if negb (policyType =? "SECCOMP")%string then
    ∃ now, tr = [Ev SteadyNowNs now]
      ∧ r = (true, record_policy m policyId (MkAppliedPolicy containerName policyType "" now))
  else
    tr = [Ev (OpenTrunc (c_str (profile_path m policyId))) false] ∧ r = (false, m)
    ∨ ∃ wrote closed res now rest,
        tr = profile_events m containerName policyId spec wrote closed res ++ rest
               ++ [Ev SteadyNowNs now]
        ∧ (if empty (answered_id res) then rest = []
           else enforcement containerName (profile_path m policyId) rest)
        ∧ r = (true, record_policy m policyId (MkAppliedPolicy
            (if empty (answered_id res) then containerName else answered_id res)
            policyType (profile_path m policyId) now)).

Definition rule_doc (action : string) : json :=
  JObj [("names", JArr [JStr "connect"]); ("action", JStr action);
        ("comment", JStr "Deny/log connect(2) for demo containment")].

Definition profile_doc (mode : string) : json :=
  JObj [("defaultAction", JStr "SCMP_ACT_ALLOW");
        ("architectures",
          JArr [JStr "SCMP_ARCH_X86_64"; JStr "SCMP_ARCH_X86"; JStr "SCMP_ARCH_X32"]);
        ("comment", JStr ("DeepKernel generated policy - mode=" +:+ mode +:+ " (block connect)"));
        ("syscalls", JArr [rule_doc (if (mode =? "LOG")%string then "SCMP_ACT_LOG"
                                     else "SCMP_ACT_ERRNO")])].

Definition mode_ok (m : t) : Prop := enforcementMode_ m = "ERRNO" ∨ enforcementMode_ m = "LOG".

Definition policy_doc (e : string * AppliedPolicy) : json :=
  JObj [("policy_id", JStr e.1); ("container_id", JStr (containerId e.2));
        ("type", JStr (policyType e.2)); ("profile_path", JStr (profilePath e.2))].

Definition policy_plain (e : string * AppliedPolicy) : Prop :=
  plain e.1 ∧ plain (containerId e.2) ∧ plain (policyType e.2) ∧ plain (profilePath e.2).

(** ** Lemmas *)

Lemma profile_nonempty m spec : empty (generateSeccompProfile m spec) = false.
Proof. done. Qed.

Lemma profile_path_nonempty m policyId : empty (profile_path m policyId) = false.
Proof.
  apply empty_false, path_join_nonempty. by destruct policyId.
Qed.

Lemma writeSeccompProfile_holds {W} `{OS W} m policyId json (Q : string → list event → Prop) :
  Q "" [Ev (OpenTrunc (c_str (profile_path m policyId))) false] →
  (∀ wrote closed, Q (profile_path m policyId)
     [Ev (OpenTrunc (c_str (profile_path m policyId))) true;
      Ev (WriteStream (c_str (profile_path m policyId)) (bytes_of json)) wrote;
      Ev (CloseStream (c_str (profile_path m policyId))) closed]) →
  holds (writeSeccompProfile (W:=W) m policyId json) Q.
Proof.
  intros H1 H2. unfold writeSeccompProfile. cbv zeta. fold (profile_path m policyId).
  unfold stream_open, stream_write, stream_close. cbn [st_file unopened].
  io_step. io_step. io_step. io_step. destruct a; cbn [is_open st_file st_good negb].
  - io_step. io_step. io_step. io_step. io_step. cbn [st_file st_good]. io_step. io_step. io_step.
    io_step. apply H2.
  - by io_step.
Qed.

Lemma updateContainerSeccomp_holds {W} `{OS W} c path :
  holds (updateContainerSeccomp (W:=W) c path) (λ ok tr, enforcement c path tr).
Proof.
  unfold updateContainerSeccomp. io_step. io_step. io_step; bool_to_prop.
  - io_step. exists a. by left.
  - io_step. io_step. io_step; io_step; exists a; right; eauto.
Qed.

Lemma apply_holds {W} `{OS W} m c p ty spec :
  holds (apply (W:=W) m c p ty spec) (λ r tr, applied m c p ty spec r tr).
Proof.
  unfold apply, applied, nowNs. cbv zeta. destruct (negb (ty =? "SECCOMP")%string).
  { io_step. io_step. io_step. eauto. }
  rewrite profile_nonempty. io_step. apply writeSeccompProfile_holds.
  { cbn [empty]. io_step. by left. }
  intros wrote closed. rewrite profile_path_nonempty. io_step.
  unfold getContainerIdFromName, httpDockerGet. do 5 io_step. fold (answered_id a).
  destruct (empty (answered_id a)) eqn:Hid.
  - io_step. io_step. io_step. right. exists wrote, closed, a, a0, []. by rewrite Hid.
  - io_step. eapply holds_mono; [apply updateContainerSeccomp_holds|]. intros ok tr Htr.
    io_step. io_step. io_step. right. exists wrote, closed, a, a0, tr. rewrite Hid.
    split_and!; [by rewrite app_nil_r|done|by destruct ok].
Qed.

Lemma appendPolicy_app b oss e :
  appendPolicy (b, oss) e = (false, oss +:+ (if b then "" else ",") +:+ print (policy_doc e)).
Proof.
  unfold appendPolicy, policy_doc. f_equal. cbn [print map Json.join fst snd]. unfold quoted.
  destruct b; cbn [negb]; rewrite ?str_app_assoc; done.
Qed.

Lemma foldl_appendPolicy es oss :
  (foldl appendPolicy (false, oss) es).2
  = oss +:+ foldr (λ e r, "," +:+ print (policy_doc e) +:+ r) "" es.
Proof.
  revert oss. induction es as [|e es IH]; intros oss; cbn [foldl foldr].
  - by rewrite str_app_nil_r.
  - rewrite appendPolicy_app, IH. by rewrite !str_app_assoc.
Qed.

Lemma appendPolicy_print es :
  (foldl appendPolicy (true, "[") es).2 +:+ "]" = print (JArr (map policy_doc es)).
Proof.
  destruct es as [|e es]; [done|]. cbn [foldl]. rewrite appendPolicy_app, foldl_appendPolicy.
  change (print (JArr ?l)) with ("[" +:+ Json.join "," (map print l) +:+ "]").
  cbn [map]. rewrite join_comma, !str_app_assoc, str_app_nil_l. do 3 f_equal.
  clear. induction es as [|e es IH]; [done|]. cbn [foldr map]. by rewrite IH.
Qed.

Lemma omap_lookup_order {A} (m : gmap string A) (order : list string) :
  order ≡ₚ (map_to_list m).*1 →
  omap (λ id, p ← m !! id; Some (id, p)) order ≡ₚ map_to_list m.
Proof.
  intros ->. apply reflexive_eq.
  assert (Hl : ∀ l, (∀ kv, kv ∈ l → m !! kv.1 = Some kv.2) →
    omap (λ id, p ← m !! id; Some (id, p)) l.*1 = l).
  { induction l as [|[k v] l IH]; [done|]. intros Hl. cbn.
    pose proof (Hl (k, v) ltac:(by left)) as Hk. cbn in Hk. rewrite Hk. cbn. f_equal. apply IH. intros kv Hkv. apply Hl. by right. }
  apply Hl. intros [k v]. by rewrite elem_of_map_to_list.
Qed.

Lemma policy_doc_wf e : policy_plain e → wf (policy_doc e).
Proof. intros (? & ? & ? & ?). cbn. split_and!; try done; unfold plain; repeat constructor. Qed.

#[export] Instance apply_unposted {W} `{OS W} m c p ty spec :
  Emits unposted (apply (W:=W) m c p ty spec).
Proof.
  unfold apply, writeSeccompProfile, getContainerIdFromName, httpDockerGet, updateContainerSeccomp,
    nowNs, stream_open, stream_write, stream_close.
  cbv zeta. apply _.
Qed.

(** ** Properties *)


(** The answer to the server is exact: after [apply], the policy is in the table exactly
    when it was there before or the answer is true; other policies are untouched, and the
    settings never change. *)
Theorem apply_records {W} `{OS W} m containerName policyId policyType spec :
  holds (apply (W:=W) m containerName policyId policyType spec) (λ r _,
    (isPolicyApplied r.2 policyId = true ↔ isPolicyApplied m policyId = true ∨ r.1 = true)
    ∧ (∀ p, p ≠ policyId → appliedPolicies_ r.2 !! p = appliedPolicies_ m !! p)
    ∧ enforcementMode_ r.2 = enforcementMode_ m ∧ policyDir_ r.2 = policyDir_ m).
Proof.
  eapply holds_mono; [apply apply_holds|]. intros r tr Ha.
  assert (Hr : r = (false, m) ∨ ∃ p, r = (true, record_policy m policyId p)).
  { unfold applied in Ha. destruct (negb _); [naive_solver|].
    destruct Ha as [[_ ?]|(? & ? & ? & ? & ? & _ & _ & ?)]; [by left|right; eauto]. }
  unfold isPolicyApplied. destruct Hr as [->|[p ->]]; cbn.
  - split_and!; [naive_solver|done..].
  - rewrite !bool_decide_eq_true. split_and!; [|by intros; simplify_map_eq|done..].
    simplify_map_eq. split; [by right|by eexists].
Qed.

(** The profile.  Whatever policy was sent, a well-formed enforcer writes the JSON
    document that allows everything except one rule on connect(2), whose action is
    SCMP_ACT_LOG in LOG mode and SCMP_ACT_ERRNO otherwise. *)
Theorem profile_is_json m spec :
  mode_ok m → read_text (generateSeccompProfile m spec) = Some (profile_doc (enforcementMode_ m)).
Proof.
  unfold generateSeccompProfile. intros [Hm|Hm]; rewrite Hm; vm_compute; reflexivity.
Qed.

Lemma profile_is_json_witness :
  mode_ok (Mk "/s" "/p" "LOG" ∅) ∧
  read_text (generateSeccompProfile (Mk "/s" "/p" "LOG" ∅) "{}") = Some (profile_doc "LOG").
Proof.
  assert (Hm : mode_ok (Mk "/s" "/p" "LOG" ∅)) by (right; reflexivity).
  split; [exact Hm|]. apply (profile_is_json _ "{}" Hm).
Defined.

(** Construction.  It fails only when the policy directory cannot be created; otherwise
    the mode is ERRNO or LOG (any other setting becomes ERRNO) and no policy is
    applied. *)
Theorem create_spec {W} `{OS W} socket dir mode :
  holds (create (W:=W) socket dir mode) (λ r tr, ∃ ok,
    tr = [Ev (CreateDirectories dir) ok] ∧
    if ok then ∃ m, r = Some m ∧ mode_ok m
      ∧ (enforcementMode_ m = "LOG" ↔ mode = "LOG")
      ∧ policyDir_ m = dir ∧ ∀ p, isPolicyApplied m p = false
    else r = None).
Proof.
  unfold create. io_step. io_step. destruct a; cbn [negb]; cbv zeta; io_step;
    [exists true|by exists false]. split; [done|]. eexists. split; [done|]. unfold mode_ok. cbn.
  destruct (String.eqb_spec mode "ERRNO") as [->|]; cbn; [naive_solver|].
  destruct (String.eqb_spec mode "LOG") as [->|]; cbn; naive_solver.
Qed.

(** The list of applied policies is valid JSON that reads back as exactly the policies of
    the table, each once, in the order the hash table happens to have. *)
Theorem getAppliedPoliciesJson_spec {W} `{OS W} m :
  map_Forall (λ id p, policy_plain (id, p)) (appliedPolicies_ m) →
  holds (getAppliedPoliciesJson (W:=W) m) (λ s _, ∃ es,
    es ≡ₚ map_to_list (appliedPolicies_ m)
    ∧ read s = Some (JArr (map policy_doc es))).
Proof.
  intros Hp. unfold getAppliedPoliciesJson, hash_order. io_step. io_step. io_step. io_step. cbv zeta.
  io_step. set (order := if decide _ then a else _).
  assert (Ho : order ≡ₚ (map_to_list (appliedPolicies_ m)).*1)
    by (subst order; by case_decide).
  pose proof (omap_lookup_order _ _ Ho) as He. eexists. split; [exact He|].
  rewrite appendPolicy_print. apply read_print. cbn [wf]. apply foldr_and, Forall_map.
  rewrite He. apply Forall_forall. intros [k v] Hkv%elem_of_map_to_list.
  apply policy_doc_wf, (Hp _ _ Hkv).
Qed.

Definition sample_enforcer : t :=
  Mk "/var/run/docker.sock" "/p" "ERRNO" {["pol" := MkAppliedPolicy "web" "SECCOMP" "/p/pol.json" 5]}.

Lemma getAppliedPoliciesJson_spec_witness :
  holds (getAppliedPoliciesJson (W:=script) sample_enforcer) (λ s _, ∃ es,
    es ≡ₚ map_to_list (appliedPolicies_ sample_enforcer)
    ∧ read s = Some (JArr (map policy_doc es)))
  ∧ (run (getAppliedPoliciesJson sample_enforcer) bare).1 =
    "[" +:+ print (policy_doc ("pol", MkAppliedPolicy "web" "SECCOMP" "/p/pol.json" 5)) +:+ "]".
Proof.
  split; [|vm_compute; reflexivity]. apply getAppliedPoliciesJson_spec.
  apply map_Forall_singleton. unfold policy_plain, plain. cbn. repeat split; repeat constructor.
Defined.

(** The container name goes unquoted to the shell: a name carrying a command
    substitution, and accepted by the Docker socket as a path with a query, has it
    executed. *)
Lemma apply_runs_injected_command :
  let name := "web/json?x=$(reboot)" in
  commands (run (apply sample_enforcer name "p2" "SECCOMP" "")
    (with_system [0; 0]
      (with_curl [CurlDone ["{" +:+ quoted "Id" +:+ ":" +:+ quoted "abc" +:+ "}"] true 200] bare))).2
  = ["docker update --security-opt seccomp=" +:+ quoted "/p/p2.json" +:+ " "
       +:+ quoted "web/json?x=$(reboot)" +:+ redirect;
     "docker restart " +:+ quoted "web/json?x=$(reboot)" +:+ redirect].
Proof. vm_compute. reflexivity. Qed.

(** The policy id is not confined to the policy directory. *)
Lemma policy_path_escapes :
  profile_path sample_enforcer "../../etc/cron.d/x" = "/p/../../etc/cron.d/x.json"
  ∧ profile_path sample_enforcer "/etc/x" = "/etc/x.json".
Proof. split; reflexivity. Qed.
End PolicyEnforcer.
