(* ===== verification/AgentServer.v ===== *)
(** * AgentServer: the agent's HTTP command server

    [agent/include/agent_server.h] and [agent/src/agent_server.cpp]: parsing a
    request, routing it to the two handlers, the responses, the life cycle of
    the listening socket and the accept loop.  The handlers are parameters, as
    the [std::function] members are; [None] as a handler's result stands for an
    exception, which nothing in this component catches. *)

From S2P Require Export JsonField IO.

#[local] Open Scope Z_scope.

Module AgentServer.

Record HttpRequest := MkHttpRequest {
  method : string;
  path : string;
  body : string;
}.

(** ** Parsing *)

Fixpoint span_word (l : list ascii) : list ascii * list ascii :=
  match l with
  | c :: l' => if Ascii.is_space c then ([], l) else let r := span_word l' in (c :: r.1, r.2)
  | [] => ([], [])
  end.

(** [stream >> word]: the word and what is left. *)
Definition next_word (l : list ascii) : list ascii * list ascii := span_word (skip_spaces l).

(** [lineStream >> req.method >> req.path]. *)
Definition request_line (line : string) : string * string :=
  let m := next_word (chars line) in
  let p := next_word m.2 in
  (of_chars m.1, of_chars p.1).

(** The lines after the headers: up to a line that is empty or a lone CR. *)
Fixpoint skip_headers (ls : list string) : list string :=
  match ls with
  | [] => []
  | line :: ls =>
      if negb (line =? String cr "")%string && negb (empty line) then skip_headers ls else ls
  end.

Definition parseRequest (raw : string) : HttpRequest :=
  match lines raw with
  | [] => MkHttpRequest "" "" ""
  | line :: rest =>
      let '(method, path) := request_line line in
      MkHttpRequest method path (foldl String.append "" (skip_headers rest))
  end.

(** ** Responses *)

Definition response_text (statusCode : Z) (statusText body : string) : string :=
  let response := "HTTP/1.1 " +:+ dec statusCode +:+ " " +:+ statusText +:+ crlf in
  let response := response +:+ "Content-Type: application/json" +:+ crlf in
  let response := response +:+ "Content-Length: " +:+ dec (str_len body) +:+ crlf in
  let response := response +:+ "Connection: close" +:+ crlf in
  let response := response +:+ crlf in
  response +:+ body.

Definition member (k v : string) : string := quoted k +:+ ":" +:+ quoted v.

Definition healthy : string := "{" +:+ member "status" "healthy" +:+ "}".
Definition dump_requested : string := "{" +:+ member "status" "dump_requested" +:+ "}".
Definition id_required : string := "{" +:+ member "error" "container_id required" +:+ "}".
Definition ids_required : string :=
  "{" +:+ member "error" "container_id and policy_id required" +:+ "}".
Definition not_found : string := "{" +:+ member "error" "not found" +:+ "}".
Definition policy_status (status policyId : string) : string :=
  "{" +:+ member "status" status +:+ "," +:+ member "policy_id" policyId +:+ "}".

(** ** The listening socket *)

Record t := Mk {
  port_ : Z;              (* int *)
  serverFd_ : Z;          (* int *)
  running_ : bool;
  joinable : bool;        (* of serverThread_ *)
}.

Definition create (port : Z) : t := Mk port (-1) false false.

Definition isRunning (s : t) : bool := running_ s.

(** How a bounded run of the accept loop ends. *)
Inductive loop_end (S : Type) :=
  | Stopped (s : S)        (* the loop was left *)
  | Killed                 (* a handler threw, or SIGPIPE: the process terminates *)
  | StillRunning (s : S).  (* the bound was reached *)
Arguments Stopped {S}.
Arguments Killed {S}.
Arguments StillRunning {S}.

Section server.
Context {W : Type} `{OS W} {S : Type}.

Definition LongDumpHandler : Type := S → string → Z → string → IO W (option S).
Definition PolicyHandler : Type := S → string → string → string → string → IO W (bool * S).

Context (longDumpHandler_ : option LongDumpHandler) (policyHandler_ : option PolicyHandler).

(** [None] when the process does not survive the call. *)
Definition sendResponse (clientFd statusCode : Z) (statusText body : string)
    : IO W (option unit) :=
  sent ← call (Send clientFd (response_text statusCode statusText body));
  mret ((λ _, tt) <$> sent).

Definition handleClient (s : S) (clientFd : Z) : IO W (option S) :=
  received ← call (Recv clientFd 8191);
  match received with
  | None | Some "" => mret (Some s)
  | Some bytes =>
      let req := parseRequest (str_take (Z.to_nat 8191) bytes) in
      if (method req =? "GET")%string && (path req =? "/health")%string then
        sent ← sendResponse clientFd 200 "OK" healthy;
        mret ((λ _, s) <$> sent)
      else if (method req =? "POST")%string && (path req =? "/long-dump-requests")%string then
        let containerId := extractJsonString (body req) "container_id" in
        let durationSec := extractJsonInt (body req) "duration_sec" 1200 in
        let reason := extractJsonString (body req) "reason" in
        if empty containerId then
          sent ← sendResponse clientFd 400 "Bad Request" id_required;
          mret ((λ _, s) <$> sent)
        else
          s' ← match longDumpHandler_ with
               | Some handler => handler s containerId durationSec reason
               | None => mret (Some s)
               end;
          match s' with
          | None => mret None
          | Some s =>
              sent ← sendResponse clientFd 202 "Accepted" dump_requested;
              mret ((λ _, s) <$> sent)
          end
      else if (method req =? "POST")%string && (path req =? "/policies")%string then
        let containerId := extractJsonString (body req) "container_id" in
        let policyId := extractJsonString (body req) "policy_id" in
        let policyType := extractJsonString (body req) "type" in
        if empty containerId || empty policyId then
          sent ← sendResponse clientFd 400 "Bad Request" ids_required;
          mret ((λ _, s) <$> sent)
        else
          '(success, s) ← match policyHandler_ with
                          | Some handler => handler s containerId policyId policyType (body req)
                          | None => mret (true, s)
                          end;
          if success : bool then
            sent ← sendResponse clientFd 200 "OK" (policy_status "APPLIED" policyId);
            mret ((λ _, s) <$> sent)
          else
            sent ← sendResponse clientFd 500 "Internal Server Error" (policy_status "FAILED" policyId);
            mret ((λ _, s) <$> sent)
      else
        sent ← sendResponse clientFd 404 "Not Found" not_found;
        mret ((λ _, s) <$> sent)
  end.

(** The accept loop on the socket [fd], at most [fuel] turns.  Another thread clears
    [running_], so each test of it is a request. *)
Fixpoint serverLoop (fuel : nat) (fd : Z) (s : S) : IO W (loop_end S) :=
  match fuel with
  | O => mret (StillRunning s)
  | Datatypes.S fuel =>
      running ← call LoadRunning;
      if negb running then mret (Stopped s)
      else
        result ← call (Select (fd + 1) fd 1);
        if result <? 0 then mret (Stopped s)
        else if result =? 0 then serverLoop fuel fd s
        else
          clientFd ← call (Accept fd);
          if clientFd <? 0 then serverLoop fuel fd s
          else
            s' ← handleClient s clientFd;
            match s' with
            | None => mret Killed
            | Some s =>
                _ ← call (CloseFd clientFd);
                serverLoop fuel fd s
            end
  end.

(** [start]: the result and the new state. *)
Definition start (srv : t) : IO W (bool * t) :=
  fd ← call Socket;
  if fd <? 0 then mret (false, Mk (port_ srv) fd (running_ srv) (joinable srv))
  else
    _ ← call (SetReuseAddr fd);
    bound ← call (Bind fd (u16 (port_ srv)));
    if bound <? 0 then
      _ ← call (CloseFd fd);
      mret (false, Mk (port_ srv) (-1) (running_ srv) (joinable srv))
    else
      listening ← call (Listen fd 10);
      if listening <? 0 then
        _ ← call (CloseFd fd);
        mret (false, Mk (port_ srv) (-1) (running_ srv) (joinable srv))
      else
        _ ← call ThreadStart;
        mret (true, Mk (port_ srv) fd true true).

Definition stop (srv : t) : IO W t :=
  fd ← (if 0 <=? serverFd_ srv then
          _ ← call (Shutdown (serverFd_ srv));
          _ ← call (CloseFd (serverFd_ srv));
          mret (-1)
        else mret (serverFd_ srv));
  _ ← (if joinable srv then call ThreadJoin else mret tt);
  mret (Mk (port_ srv) fd false false).
End server.

(** ** Specification *)

(** A request as an HTTP client writes it. *)
Definition render_request (method path : string) (headers : list string) (body : string)
    : string :=
  method +:+ " " +:+ path +:+ " HTTP/1.1" +:+ crlf
  +:+ foldr (λ h r, h +:+ crlf +:+ r) (crlf +:+ body) headers.

(** A word of the request line, and a header line. *)
Definition word (w : string) : Prop :=
  w ≠ "" ∧ Forall (λ c, Ascii.is_space c = false) (chars w).
Definition header (h : string) : Prop := h ≠ "" ∧ lf ∉ chars h.

Definition without_lf (s : string) : string :=
  of_chars (List.filter (λ c, negb (bool_decide (c = lf))) (chars s)).

(** What a request asks for. *)
Inductive route :=
  | Health
  | BadDump
  | Dump (containerId : string) (durationSec : Z) (reason : string)
  | BadPolicy
  | Policy (containerId policyId policyType spec : string)
  | Unknown.

Definition route_of (req : HttpRequest) : route :=
  if decide (method req = "GET" ∧ path req = "/health") then Health
  else if decide (method req = "POST" ∧ path req = "/long-dump-requests") then
    let c := extractJsonString (body req) "container_id" in
    if decide (c = "") then BadDump
    else Dump c (extractJsonInt (body req) "duration_sec" 1200)
           (extractJsonString (body req) "reason")
  else if decide (method req = "POST" ∧ path req = "/policies") then
    let c := extractJsonString (body req) "container_id" in
    let p := extractJsonString (body req) "policy_id" in
    if decide (c = "" ∨ p = "") then BadPolicy
    else Policy c p (extractJsonString (body req) "type") (body req)
  else Unknown.

(** A reader of responses: the head up to the first blank line, the status code in the first
    line, and as many characters of the rest as Content-Length says. *)
Fixpoint split_head (l : list ascii) : option (list ascii * list ascii) :=
  match l with
  | [] => None
  | c :: l' =>
      if bool_decide (take 4 l = [cr; lf; cr; lf]) then Some ([], drop 3 l')
      else '(h, b) ← split_head l'; Some (c :: h, b)
  end.

Definition number_after (prefix : string) (line : string) : option Z :=
  if bool_decide ((take (String.length prefix) (chars line)) = chars prefix)
  then Some (dec_value (span_digits (drop (String.length prefix) (chars line))).1)
  else None.

Definition read_response (raw : string) : option (Z * string) :=
  '(h, b) ← split_head (chars raw);
  let ls := lines (of_chars h) in
  first ← head ls;
  code ← number_after "HTTP/1.1 " first;
  n ← head (omap (number_after "Content-Length: ") ls);
  Some (code, of_chars (take (Z.to_nat n) b)).

(** ** Lemmas: parsing *)

Lemma lines_from_line acc a l :
  lf ∉ a → lines_from acc (a ++ lf :: l) = of_chars (rev acc ++ a) :: lines_from [] l.
Proof.
  revert acc. induction a as [|c a IH]; intros acc Ha; cbn [app lines_from].
  - by rewrite app_nil_r.
  - apply not_elem_of_cons in Ha as [Hc Ha]. rewrite bool_decide_false by done.
    rewrite IH by done. cbn [rev]. by rewrite <-app_assoc.
Qed.

Lemma lines_cons a b : lf ∉ chars a → lines (a +:+ nl +:+ b) = a :: lines b.
Proof.
  intros Ha. unfold lines. rewrite !chars_app. cbn [app chars nl].
  change (chars nl ++ chars b) with (lf :: chars b).
  rewrite lines_from_line by done. cbn [rev app]. by rewrite of_chars_chars.
Qed.

Lemma lines_cons_crlf a b : lf ∉ chars a → lines (a +:+ crlf +:+ b) = (a +:+ String cr "") :: lines b.
Proof.
  intros Ha. rewrite <-lines_cons.
  - f_equal. by rewrite !str_app_assoc.
  - rewrite chars_app, elem_of_app. intros [?|Hc]; [done|]. by apply list_elem_of_singleton in Hc.
Qed.

Lemma concat_lines_from acc l :
  foldl String.append "" (lines_from acc l)
  = of_chars (rev acc ++ List.filter (λ c, negb (bool_decide (c = lf))) l).
Proof.
  assert (Hfold : ∀ ls x, foldl String.append x ls = x +:+ foldl String.append "" ls).
  { induction ls as [|y ls IH]; intros x; cbn [foldl]; [by rewrite str_app_nil_r|].
    rewrite IH, (IH (String.append "" y)), str_app_nil_l. by rewrite str_app_assoc. }
  revert acc. induction l as [|c l IH]; intros acc; cbn [lines_from List.filter].
  - rewrite app_nil_r. by destruct acc.
  - case_bool_decide; cbn [negb].
    + cbn [foldl]. rewrite Hfold, IH, str_app_nil_l. by rewrite <-of_chars_app.
    + rewrite IH. cbn [rev]. by rewrite <-app_assoc.
Qed.

Lemma concat_lines s : foldl String.append "" (lines s) = without_lf s.
Proof. apply concat_lines_from. Qed.

Lemma span_word_app w l :
  Forall (λ c, Ascii.is_space c = false) w →
  match l with c :: _ => Ascii.is_space c = true | [] => True end →
  span_word (w ++ l) = (w, l).
Proof.
  intros Hw Hl. induction Hw as [|c w Hc _ IH]; cbn [app span_word].
  - destruct l as [|c l]; [done|]. cbn. by rewrite Hl.
  - by rewrite Hc, IH.
Qed.

Lemma next_word_app w l :
  word w → match l with c :: _ => Ascii.is_space c = true | [] => True end →
  next_word (chars w ++ l) = (chars w, l).
Proof.
  intros [Hne Hw] Hl. unfold next_word. destruct w as [|c w]; [done|]. cbn [chars app] in *.
  pose proof Hw as [Hc _]%Forall_cons. cbn [skip_spaces]. rewrite Hc.
  by apply (span_word_app (c :: chars w)).
Qed.

Lemma request_line_words m p rest :
  word m → word p → request_line (m +:+ " " +:+ p +:+ " " +:+ rest) = (m, p).
Proof.
  intros Hm Hp. unfold request_line. rewrite chars_app, next_word_app by done. cbn [fst snd].
  rewrite !chars_app.
  change (next_word (chars " " ++ ?l)) with (next_word l).
  rewrite next_word_app by done. cbn [fst]. by rewrite !of_chars_chars.
Qed.

Lemma word_no_lf w : word w → lf ∉ chars w.
Proof. intros [_ Hw] Hin. rewrite Forall_forall in Hw. by apply Hw in Hin. Qed.

Lemma skip_headers_render hs b :
  Forall header hs →
  skip_headers (lines (foldr (λ h r, h +:+ crlf +:+ r) (crlf +:+ b) hs)) = lines b.
Proof.
  induction 1 as [|h hs [Hne Hlf] _ IH]; cbn [foldr].
  - rewrite <-(str_app_nil_l (crlf +:+ b)), lines_cons_crlf by apply not_elem_of_nil. done.
  - rewrite lines_cons_crlf by done. cbn [skip_headers].
    assert ((h +:+ String cr "" =? String cr "")%string = false) as ->.
    { apply String.eqb_neq. intros Heq. apply (f_equal chars) in Heq. rewrite chars_app in Heq.
      apply (f_equal length) in Heq. rewrite length_app, chars_length in Heq. cbn in Heq.
      destruct h; [done|cbn in Heq; lia]. }
    assert (empty (h +:+ String cr "") = false) as -> by by destruct h.
    exact IH.
Qed.

Lemma parseRequest_render_eq m p hs b :
  word m → word p → Forall header hs →
  parseRequest (render_request m p hs b) = MkHttpRequest m p (without_lf b).
Proof.
  intros Hm Hp Hhs. unfold parseRequest, render_request.
  assert (Hl : ∀ r, m +:+ " " +:+ p +:+ " HTTP/1.1" +:+ crlf +:+ r
    = (m +:+ " " +:+ p +:+ " HTTP/1.1") +:+ crlf +:+ r) by (intros; by rewrite !str_app_assoc).
  rewrite Hl, lines_cons_crlf.
  - rewrite !str_app_assoc.
    change (" HTTP/1.1" +:+ String cr "") with (" " +:+ ("HTTP/1.1" +:+ String cr "")).
    rewrite request_line_words by done. by rewrite skip_headers_render, concat_lines.
  - rewrite !chars_app, !elem_of_app. pose proof (word_no_lf _ Hm). pose proof (word_no_lf _ Hp).
    assert (lf ∉ chars " ") by (apply (bool_decide_unpack _); by vm_compute).
    assert (lf ∉ chars " HTTP/1.1") by (apply (bool_decide_unpack _); by vm_compute). tauto.
Qed.

(** ** Lemmas: responses *)

Lemma split_head_skip c l :
  take 4 (c :: l) ≠ [cr; lf; cr; lf] →
  split_head (c :: l) = ('(h, b) ← split_head l; Some (c :: h, b)).
Proof. intros Hne. cbn [split_head]. by rewrite bool_decide_false. Qed.

Lemma split_head_app a l :
  cr ∉ a → split_head (a ++ l) = ('(h, b) ← split_head l; Some (a ++ h, b)).
Proof.
  induction a as [|c a IH]; intros Ha; cbn [app]; [by destruct (split_head l) as [[h b]|]|].
  apply not_elem_of_cons in Ha as [Hc Ha].
  rewrite split_head_skip by (intros [=]; congruence). rewrite IH by done.
  by destruct (split_head l) as [[h b]|].
Qed.

Lemma split_head_line a l :
  cr ∉ a → match l with c :: _ => c ≠ cr | [] => True end →
  split_head (a ++ cr :: lf :: l)
  = ('(h, b) ← split_head l; Some (a ++ cr :: lf :: h, b)).
Proof.
  intros Ha Hl. rewrite split_head_app by done.
  rewrite split_head_skip by (destruct l; intros [=]; congruence).
  rewrite split_head_skip by (intros [=]).
  by destruct (split_head l) as [[h b]|].
Qed.

Lemma split_head_end a b :
  cr ∉ a → split_head (a ++ cr :: lf :: cr :: lf :: b) = Some (a, b).
Proof. intros Ha. rewrite split_head_app by done.
  change (split_head (cr :: lf :: cr :: lf :: b)) with (Some (@nil ascii, drop 3 (lf :: cr :: lf :: b))).
  cbn [mbind option_bind drop]. by rewrite app_nil_r, drop_0.
Qed.

Lemma number_after_dec prefix z rest :
  0 ≤ z → stops rest →
  number_after prefix (prefix +:+ dec z +:+ of_chars rest) = Some z.
Proof.
  intros Hz Hr. unfold number_after. rewrite !chars_app, chars_of_chars.
  rewrite take_app_length', drop_app_length' by by rewrite chars_length.
  rewrite bool_decide_true by done.
  destruct (dec_digits z Hz) as (Hd & Hv & _). rewrite span_digits_app by done. cbn [fst].
  by rewrite Hv.
Qed.

Lemma dec_no_break c z : 0 ≤ z → (c = cr ∨ c = lf) → c ∉ chars (dec z).
Proof.
  intros Hz Hc Hin. destruct (dec_digits z Hz) as (Hd & _). rewrite Forall_forall in Hd.
  apply Hd in Hin. by destruct Hc as [-> | ->].
Qed.

Lemma number_after_other c d prefix line :
  c ≠ d → number_after (String c prefix) (String d line) = None.
Proof. intros Hne. unfold number_after. by rewrite bool_decide_false by (intros [=]; congruence). Qed.

(** The four lines of the head. *)
Lemma response_text_lines code text b :
  response_text code text b =
  ("HTTP/1.1 " +:+ dec code +:+ " " +:+ text) +:+ crlf +:+ "Content-Type: application/json" +:+ crlf
  +:+ ("Content-Length: " +:+ dec (str_len b)) +:+ crlf +:+ "Connection: close" +:+ crlf +:+ crlf
  +:+ b.
Proof. unfold response_text. by rewrite !str_app_assoc. Qed.

Definition no_break (s : string) : Prop := (cr ∉ chars s) ∧ (lf ∉ chars s).

Lemma no_break_app a b : no_break a → no_break b → no_break (a +:+ b).
Proof. unfold no_break. rewrite chars_app. setoid_rewrite elem_of_app. tauto. Qed.

Lemma chars_crlf a b : chars (a +:+ crlf +:+ b) = chars a ++ cr :: lf :: chars b.
Proof. by rewrite chars_app. Qed.

Ltac concrete_no_break := by split; apply (bool_decide_unpack _); vm_compute.

Lemma read_response_text code text b :
  0 ≤ code → no_break text → read_response (response_text code text b) = Some (code, b).
Proof.
  intros Hcode Htext. pose proof (str_len_nonneg b) as Hlen.
  assert (H1 : no_break ("HTTP/1.1 " +:+ dec code +:+ " " +:+ text)).
  { repeat apply no_break_app; try done; try concrete_no_break. split; apply dec_no_break; auto. }
  assert (H3 : no_break ("Content-Length: " +:+ dec (str_len b))).
  { apply no_break_app; [concrete_no_break|]. split; apply dec_no_break; auto. }
  assert (H2 : no_break "Content-Type: application/json") by concrete_no_break.
  assert (H4 : no_break "Connection: close") by concrete_no_break.
  unfold read_response. rewrite response_text_lines.
  rewrite !chars_crlf. 
  change (chars (crlf +:+ b)) with (cr :: lf :: chars b).
  assert (Hhead : split_head (chars ("HTTP/1.1 " +:+ dec code +:+ " " +:+ text) ++ cr :: lf ::
      chars "Content-Type: application/json" ++ cr :: lf ::
      chars ("Content-Length: " +:+ dec (str_len b)) ++ cr :: lf ::
      chars "Connection: close" ++ cr :: lf :: cr :: lf :: chars b)
    = Some (chars (("HTTP/1.1 " +:+ dec code +:+ " " +:+ text) +:+ crlf
        +:+ "Content-Type: application/json" +:+ crlf
        +:+ ("Content-Length: " +:+ dec (str_len b)) +:+ crlf +:+ "Connection: close"), chars b)).
  { rewrite split_head_line; [|apply H1|done]. rewrite split_head_line; [|apply H2|done].
    rewrite split_head_line; [|apply H3|done]. rewrite split_head_end by apply H4.
    cbn [mbind option_bind]. by rewrite !chars_crlf. }
  rewrite Hhead. cbn [mbind option_bind]. cbv zeta. rewrite of_chars_chars.
  rewrite !lines_cons_crlf; [|apply H3|apply H2|apply H1]. cbn [head mbind option_bind].
  rewrite !str_app_assoc.
  assert (N1 : number_after "HTTP/1.1 " ("HTTP/1.1 " +:+ dec code +:+ " " +:+ text +:+ String cr "")
    = Some code).
  { rewrite <-(of_chars_chars (" " +:+ text +:+ String cr "")). by apply number_after_dec. }
  assert (N3 : number_after "Content-Length: " ("Content-Length: " +:+ dec (str_len b) +:+ String cr "")
    = Some (str_len b)) by by apply (number_after_dec _ _ [cr]).
  rewrite N1. cbn [mbind option_bind omap list_omap].
  assert (N2 : ∀ l, number_after "Content-Length: " ("HTTP/1.1 " +:+ l) = None)
    by (intros l; by apply (number_after_other "C" "H")).
  rewrite N2.
  change (number_after "Content-Length: " ("Content-Type: application/json" +:+ String cr ""))
    with (@None Z). cbv iota. rewrite N3. cbn [head mbind option_bind].
  unfold str_len. rewrite Nat2Z.id, <-chars_length, firstn_all. by rewrite of_chars_chars.
Qed.

(** ** Lemmas: routing *)

(** One response; the client's part of the server goes on unless SIGPIPE ended it. *)
Definition reply {S} (fd code : Z) (text b : string) (s : S) (r : option S) (tr : list event) : Prop :=
  ∃ n, tr = [Ev (Send fd (response_text code text b)) n] ∧ r = (λ _, s) <$> n.

Lemma reply_holds {W} `{OS W} {S} fd code text b (s : S) :
  holds (sent ← sendResponse (W:=W) fd code text b; mret ((λ _, s) <$> sent))
    (λ r tr, reply fd code text b s r tr).
Proof.
  unfold sendResponse. do 5 io_step. exists a. split; [done|]. by destruct a.
Qed.

Section reaction.
Context {W : Type} `{OS W} {S : Type}.
Context (dump : option (LongDumpHandler (W:=W) (S:=S))) (policy : option (PolicyHandler (W:=W) (S:=S))).
Context (Qd : S → string → Z → string → option S → list event → Prop).
Context (Qp : S → string → string → string → string → bool * S → list event → Prop).

(** What the two handlers do, when a request reaches them; an unset handler does nothing
    and accepts. *)
Definition dump_handled : Prop := ∀ s c d r,
  holds (match dump with Some h => h s c d r | None => mret (Some s) end) (Qd s c d r).
Definition policy_handled : Prop := ∀ s c p ty b,
  holds (match policy with Some h => h s c p ty b | None => mret (true, s) end) (Qp s c p ty b).

(** The reaction to a route: the handler's work, then one response. *)
Definition reaction (s : S) (fd : Z) (rt : route) (r : option S) (tr : list event) : Prop :=
  match rt with
  | Health => reply fd 200 "OK" healthy s r tr
  | BadDump => reply fd 400 "Bad Request" id_required s r tr
  | Dump c d reason => ∃ r1 t1 t2, Qd s c d reason r1 t1 ∧ tr = t1 ++ t2 ∧
      match r1 with
      | Some s' => reply fd 202 "Accepted" dump_requested s' r t2
      | None => r = None ∧ t2 = []
      end
  | BadPolicy => reply fd 400 "Bad Request" ids_required s r tr
  | Policy c p ty b => ∃ ok s' t1 t2, Qp s c p ty b (ok, s') t1 ∧ tr = t1 ++ t2 ∧
      if ok : bool then reply fd 200 "OK" (policy_status "APPLIED" p) s' r t2
      else reply fd 500 "Internal Server Error" (policy_status "FAILED" p) s' r t2
  | Unknown => reply fd 404 "Not Found" not_found s r tr
  end.

Lemma handleClient_holds s fd :
  dump_handled → policy_handled →
  holds (handleClient dump policy s fd) (λ r tr,
    ∃ got t, tr = Ev (Recv fd 8191) got :: t ∧
      match got with
      | None | Some "" => r = Some s ∧ t = []
      | Some bytes =>
          reaction s fd (route_of (parseRequest (str_take (Z.to_nat 8191) bytes))) r t
      end).
Proof.
  intros Hd Hp. unfold handleClient. io_step. io_step.
  destruct a as [[|ch bytes]|]; [io_step; by eexists _, []| |io_step; by eexists _, []].
  destruct (parseRequest _) as [m p b] eqn:Hreq. cbv zeta.
  eapply holds_mono; [|intros r tr Hr; exists (Some (String ch bytes)), tr; split;
    [reflexivity|rewrite Hreq; exact Hr]].
  unfold route_of. cbv zeta. cbn [method path body].
  destruct (String.eqb_spec m "GET") as [->|HG];
    [destruct (String.eqb_spec p "/health") as [->|Hpa]|].
  { cbn [andb]. rewrite decide_True by done. apply reply_holds. }
  all: cbn [andb]; rewrite decide_False by tauto.
  1: rewrite !decide_False by (intros [[=] _]); cbn [andb];
    change ("GET" =? "POST")%string with false; cbn [andb]; apply reply_holds.
  destruct (String.eqb_spec m "POST") as [->|HP]; cbn [andb]; cycle 1.
  { rewrite !decide_False by tauto. apply reply_holds. }
  destruct (String.eqb_spec p "/long-dump-requests") as [->|Hpa].
  - rewrite decide_True by done. destruct (empty _) eqn:He; bool_to_prop.
    + rewrite decide_True by done. apply reply_holds.
    + rewrite decide_False by done. io_step. eapply holds_mono; [apply Hd|].
      intros [s'|] t1 Hq.
      * eapply holds_mono; [apply reply_holds|]. intros r t2 Ht. by exists (Some s'), t1, t2.
      * io_step. by exists None, t1, [].
  - rewrite decide_False by tauto.
    destruct (String.eqb_spec p "/policies") as [->|Hpb]; cycle 1.
    { rewrite decide_False by tauto. apply reply_holds. }
    rewrite decide_True by done. destruct (empty _ || empty _) eqn:He; bool_to_prop.
    + rewrite decide_True by (destruct He; bool_to_prop; auto). apply reply_holds.
    + rewrite decide_False by tauto. io_step. eapply holds_mono; [apply Hp|].
      intros [ok s'] t1 Hq. destruct ok; (eapply holds_mono; [apply reply_holds|]);
        intros r t2 Ht; by eexists _, s', t1, t2.
Qed.
End reaction.

(** ** Lemmas: descriptors *)

(** The descriptors a trace obtains (listening or accepted) and gives back, in order. *)
Definition obtained (tr : list event) : list Z :=
  omap (λ e, match e with
             | Ev Socket fd | Ev (Accept _) fd => if 0 <=? fd then Some fd else None
             | _ => None
             end) tr.

Definition given_back (tr : list event) : list Z :=
  omap (λ e, match e with Ev (CloseFd fd) _ => Some fd | _ => None end) tr.

(** The answers to the tests of [running_]. *)
Definition running_tests (tr : list event) : list bool :=
  omap (λ e, match e with Ev LoadRunning b => Some b | _ => None end) tr.

Lemma obtained_app t t' : obtained (t ++ t') = obtained t ++ obtained t'.
Proof. apply omap_app. Qed.
Lemma given_back_app t t' : given_back (t ++ t') = given_back t ++ given_back t'.
Proof. apply omap_app. Qed.
Lemma running_tests_app t t' : running_tests (t ++ t') = running_tests t ++ running_tests t'.
Proof. apply omap_app. Qed.

(** An event of a handler: no descriptor, no test of the flag. *)
Definition elsewhere (e : event) : Prop :=
  match e with
  | Ev Socket _ | Ev (Accept _) _ | Ev (CloseFd _) _ | Ev LoadRunning _ => False
  | _ => True
  end.

Lemma elsewhere_nil t :
  Forall elsewhere t → obtained t = [] ∧ given_back t = [] ∧ running_tests t = [].
Proof.
  unfold obtained, given_back, running_tests.
  induction 1 as [|[A c a] t He _ (I1 & I2 & I3)]; [done|].
  cbn [omap list_omap]. by destruct c.
Qed.

#[export] Instance handleClient_elsewhere {W} `{OS W} {S} dump policy (s : S) fd :
  (∀ h s c d r, dump = Some h → Emits elsewhere (h s c d r)) →
  (∀ h s c p ty b, policy = Some h → Emits elsewhere (h s c p ty b)) →
  Emits elsewhere (handleClient (W:=W) dump policy s fd).
Proof.
  intros Hd Hp. unfold handleClient, sendResponse. cbv zeta.
  destruct dump as [h|], policy as [h'|]; try pose proof (λ s c d r, Hd h s c d r eq_refl);
    try pose proof (λ s c p ty b, Hp h' s c p ty b eq_refl); apply _.
Qed.

(** What a bounded run of the loop leaves behind. *)
Definition loop_balance {S} (n : nat) (r : loop_end S) (tr : list event) : Prop :=
  match r with
  | StillRunning _ => obtained tr = given_back tr ∧ running_tests tr = replicate n true
  | Stopped _ => obtained tr = given_back tr
      ∧ ∃ k b, (k < n)%nat ∧ running_tests tr = replicate k true ++ [b]
  | Killed => (∃ fd, obtained tr = given_back tr ++ [fd])
      ∧ ∃ k, (k < n)%nat ∧ running_tests tr = replicate (Datatypes.S k) true
  end.

(** One more turn in front of a run. *)
Lemma loop_balance_cons {S} n (r : loop_end S) t tr :
  obtained t = given_back t → running_tests t = [true] →
  loop_balance n r tr → loop_balance (Datatypes.S n) r (t ++ tr).
Proof.
  intros Ho Hr Hb. destruct r; cbn [loop_balance] in *;
    rewrite obtained_app, given_back_app, running_tests_app, Ho, Hr.
  - destruct Hb as [-> (k & b & Hk & ->)]. split; [done|]. exists (Datatypes.S k), b.
    split; [lia|done].
  - destruct Hb as [(f & ->) (k & Hk & ->)]. split; [exists f; by rewrite app_assoc|].
    exists (Datatypes.S k). split; [lia|done].
  - by destruct Hb as [-> ->].
Qed.

Lemma serverLoop_balance {W} `{OS W} {S} dump policy n fd (s : S) :
  (∀ h s c d r, dump = Some h → Emits elsewhere (h s c d r)) →
  (∀ h s c p ty b, policy = Some h → Emits elsewhere (h s c p ty b)) →
  holds (serverLoop (W:=W) dump policy n fd s) (loop_balance n).
Proof.
  intros Hd Hp. revert s. induction n as [|n IH]; intros s; cbn [serverLoop]; [by io_step|].
  io_step. io_step. destruct a; cbn [negb]; cycle 1.
  { io_step. split; [done|]. exists 0%nat, false. split; [lia|done]. }
  io_step. io_step. destruct (a <? 0).
  { io_step. split; [done|]. exists 0%nat, true. split; [lia|done]. }
  assert (Hgo : ∀ s t, obtained t = given_back t → running_tests t = [true] →
    holds (serverLoop dump policy n fd s) (λ r tr, loop_balance (Datatypes.S n) r (t ++ tr))).
  { intros s' t Ho Hr. eapply holds_mono; [apply IH|]. intros r tr. by apply loop_balance_cons. }
  destruct (a =? 0); [eapply holds_mono; [by apply (Hgo s [Ev LoadRunning true; Ev (Select (fd + 1) fd 1) a])|done]|].
  io_step. io_step. destruct (a0 <? 0) eqn:Ha.
  { eapply holds_mono; [apply (Hgo s [Ev LoadRunning true; Ev (Select (fd + 1) fd 1) a; Ev (Accept fd) a0])|done];
      [|done]. unfold obtained. cbn [omap list_omap]. by rewrite Z.leb_antisym, Ha. }
  assert (Hacc : obtained [Ev (Accept fd) a0] = [a0])
    by (unfold obtained; cbn [omap list_omap]; by rewrite Z.leb_antisym, Ha).
  io_step. apply (holds_mono _ (λ _ t, Forall elsewhere t)); [apply emits|].
  intros [s'|] t (T1 & T2 & T3)%elsewhere_nil.
  - io_step. io_step. 
    eapply holds_mono; [apply (Hgo s' ([Ev LoadRunning true; Ev (Select (fd + 1) fd 1) a] ++
      [Ev (Accept fd) a0] ++ t ++ [Ev (CloseFd a0) a1]))|].
    + rewrite !obtained_app, !given_back_app, Hacc, T1, T2. done.
    + rewrite !running_tests_app, T3. done.
    + intros r tr. cbn [app]. by rewrite <-!app_assoc.
  - io_step. rewrite app_nil_r. cbn [loop_balance]. split.
    + exists a0. change ([Ev LoadRunning true] ++ [Ev (Select (fd + 1) fd 1) a] ++ [Ev (Accept fd) a0] ++ t)
        with ([Ev LoadRunning true; Ev (Select (fd + 1) fd 1) a] ++ [Ev (Accept fd) a0] ++ t).
      rewrite !obtained_app, !given_back_app, Hacc, T1, T2. done.
    + exists 0%nat. split; [lia|]. rewrite !running_tests_app, T3. done.
Qed.

(** ** Lemmas: the life cycle *)

(** A start that fails has given back what it obtained; one that succeeds holds exactly
    the socket the state names, and a thread. *)
Definition started (srv : t) (r : bool * t) (tr : list event) : Prop :=
  port_ r.2 = port_ srv ∧
  if r.1 then 0 <= serverFd_ r.2 ∧ running_ r.2 = true ∧ joinable r.2 = true
    ∧ obtained tr = [serverFd_ r.2] ∧ given_back tr = []
  else serverFd_ r.2 < 0 ∧ running_ r.2 = running_ srv ∧ joinable r.2 = joinable srv
    ∧ obtained tr = given_back tr.

Lemma start_holds {W} `{OS W} srv : holds (start (W:=W) srv) (started srv).
Proof.
  unfold start. io_step. io_step. destruct (a <? 0) eqn:Ha.
  { bool_to_prop. io_step. unfold started, obtained. cbn [fst snd app serverFd_ running_ joinable].
    cbn [omap list_omap]. rewrite (proj2 (Z.leb_gt 0 a)) by done. done. }
  assert (Hs : obtained [Ev Socket a] = [a])
    by (unfold obtained; cbn [omap list_omap]; by rewrite Z.leb_antisym, Ha).
  bool_to_prop. do 4 io_step. destruct (a1 <? 0); [|do 2 io_step; destruct (a2 <? 0)];
    do 3 io_step; unfold started; rewrite ?obtained_app, ?given_back_app, Hs;
    cbn [fst snd serverFd_ running_ joinable]; split_and!; done || lia.
Qed.

Lemma stop_holds {W} `{OS W} srv :
  holds (stop (W:=W) srv) (λ s tr,
    serverFd_ s < 0 ∧ running_ s = false ∧ joinable s = false ∧ port_ s = port_ srv
    ∧ obtained tr = []
    ∧ given_back tr = (if 0 <=? serverFd_ srv then [serverFd_ srv] else [])
    ∧ (serverFd_ srv < 0 → joinable srv = false → tr = [] ∧ serverFd_ s = serverFd_ srv)).
Proof.
  unfold stop. io_step.
  assert (Hrest : ∀ fd' t, fd' < 0 → obtained t = [] →
    given_back t = (if 0 <=? serverFd_ srv then [serverFd_ srv] else []) →
    (serverFd_ srv < 0 → t = [] ∧ fd' = serverFd_ srv) →
    holds (W:=W) (_ ← (if joinable srv then call ThreadJoin else mret tt);
      mret (Mk (port_ srv) fd' false false))
    (λ s tr, serverFd_ s < 0 ∧ running_ s = false ∧ joinable s = false ∧ port_ s = port_ srv
      ∧ obtained (t ++ tr) = []
      ∧ given_back (t ++ tr) = (if 0 <=? serverFd_ srv then [serverFd_ srv] else [])
      ∧ (serverFd_ srv < 0 → joinable srv = false → t ++ tr = [] ∧ serverFd_ s = serverFd_ srv))).
  { intros fd' t Hfd Ho Hg Hn. io_step. destruct (joinable srv).
    - io_step. io_step. rewrite !obtained_app, !given_back_app, Ho, Hg. cbn. by rewrite app_nil_r.
    - io_step. io_step. rewrite !app_nil_r. split_and!; try done. auto. }
  destruct (0 <=? serverFd_ srv) eqn:Hfd; bool_to_prop.
  - do 4 io_step. io_step. eapply holds_mono; [apply (Hrest (-1) [Ev (Shutdown (serverFd_ srv)) a;
      Ev (CloseFd (serverFd_ srv)) a0]); [lia|done|done|lia]|]. done.
  - io_step. eapply holds_mono; [apply (Hrest (serverFd_ srv) []); [lia|done|done|done]|]. done.
Qed.

(** ** Lemmas: the body of a request *)

Lemma no_lf_filter l : lf ∉ l → List.filter (λ c, negb (bool_decide (c = lf))) l = l.
Proof.
  induction l as [|c l IH]; [done|]. intros [Hc Hl]%not_elem_of_cons. cbn.
  rewrite bool_decide_false by done. cbn. by rewrite IH.
Qed.

Lemma without_lf_id s : lf ∉ chars s → without_lf s = s.
Proof. intros Hs. unfold without_lf. by rewrite no_lf_filter, of_chars_chars. Qed.

Lemma plain_no_lf s : plain s → lf ∉ chars s.
Proof. intros Hs Hin. unfold plain in Hs. rewrite Forall_forall in Hs. by apply Hs in Hin. Qed.

Lemma quoted_no_lf s : plain s → lf ∉ chars (quoted s).
Proof.
  intros Hs%plain_no_lf. rewrite chars_quoted, elem_of_cons, elem_of_app, list_elem_of_singleton.
  intros [?|[?|?]]; done.
Qed.

Lemma dec_no_lf z : lf ∉ chars (dec z).
Proof.
  destruct (decide (0 ≤ z)); [by apply dec_no_break; auto|].
  rewrite dec_neg, chars_app by lia. rewrite elem_of_app. intros [?%list_elem_of_singleton|Hin]; [done|].
  revert Hin. apply dec_no_break; [lia|auto].
Qed.

Lemma join_no_lf l : Forall (λ s, lf ∉ chars s) l → lf ∉ chars (Json.join "," l).
Proof.
  induction 1 as [|x [|y l] Hx _ IH]; [by apply not_elem_of_nil|done|].
  change (Json.join "," (x :: y :: l)) with (x +:+ "," +:+ Json.join "," (y :: l)).
  rewrite !chars_app, !elem_of_app. intros [?|[?%list_elem_of_singleton|?]]; done.
Qed.

Lemma flat_no_lf kvs : flat kvs → lf ∉ chars (print (JObj kvs)).
Proof.
  intros Hf. change (print (JObj kvs)) with
    ("{" +:+ Json.join "," (map (λ kv, quoted kv.1 +:+ ":" +:+ print kv.2) kvs) +:+ "}").
  rewrite !chars_app, !elem_of_app. intros [?%list_elem_of_singleton|[Hin|?%list_elem_of_singleton]];
    [done| |done].
  revert Hin. apply join_no_lf, Forall_map. eapply Forall_impl; [exact Hf|].
  intros [k v] [Hk Hv]. cbn [compose fst snd] in *.
  rewrite !chars_app, !elem_of_app. intros [Hin|[?%list_elem_of_singleton|Hin]];
    [by apply quoted_no_lf in Hin|done|].
  destruct v; cbn in Hv; try done; revert Hin; [apply dec_no_lf|by apply quoted_no_lf].
Qed.

(** ** Properties *)

(** C28: parsing inverts an HTTP client's rendering.  Whatever the headers, the method, the
    path and the body of a rendered request are recovered exactly, except that line
    feeds inside the body are dropped. *)
Theorem parseRequest_render m p headers b :
  word m → word p → Forall header headers →
  parseRequest (render_request m p headers b) = MkHttpRequest m p (without_lf b).
Proof. apply parseRequest_render_eq. Qed.

Ltac a_word := split; [discriminate|apply (bool_decide_unpack _); vm_compute; exact I].

Lemma parseRequest_render_witness :
  parseRequest (render_request "POST" "/policies" ["Host: a"; "Content-Length: 9"] ("ab" +:+ nl +:+ "cd"))
  = MkHttpRequest "POST" "/policies" "abcd".
Proof.
  apply (parseRequest_render "POST" "/policies" ["Host: a"; "Content-Length: 9"] ("ab" +:+ nl +:+ "cd"));
    [a_word|a_word|].
  apply Forall_cons; split; [a_word|]. apply Forall_cons; split; [a_word|constructor].
Defined.

(** A response is well formed: a client that reads the status line, the headers and then
    Content-Length characters gets the status and exactly the body, whatever the body
    holds. *)
Theorem response_roundtrip code text b :
  0 ≤ code → no_break text → read_response (response_text code text b) = Some (code, b).
Proof. apply read_response_text. Qed.

Lemma response_roundtrip_witness :
  read_response (response_text 404 "Not Found" not_found) = Some (404, not_found).
Proof.
  apply (response_roundtrip 404 "Not Found" not_found); [lia|].
  split; apply (bool_decide_unpack _); vm_compute; exact I.
Defined.

(** C15: the reaction to a client.  Nothing is sent to a client that sends nothing; any other
    gets exactly one response, the one its route calls for: a handler runs only for a
    POST to its path with the identifiers present, before the response, and the status
    tells its outcome; when the dump handler throws, nothing is sent at all.  The server
    goes on with the state the handler left, unless the handler threw or the client was gone
    when it was answered, which ends the process by SIGPIPE. *)
Theorem handleClient_spec {W} `{OS W} {S} dump policy Qd Qp (s : S) fd :
  dump_handled (W:=W) dump Qd → policy_handled (W:=W) policy Qp →
  holds (handleClient dump policy s fd) (λ r tr,
    ∃ got t, tr = Ev (Recv fd 8191) got :: t ∧
      match got with
      | None | Some "" => r = Some s ∧ t = []
      | Some bytes =>
          reaction Qd Qp s fd (route_of (parseRequest (str_take (Z.to_nat 8191) bytes))) r t
      end).
Proof. apply handleClient_holds. Qed.

(** A request that is received whole, as it was rendered, and what the server reads in it. *)
Definition receives {W} `{OS W} (σ : io_state W) (fd : Z) (path body : string) : Prop :=
  ∃ headers, Forall header headers
    ∧ (call (Recv fd 8191) σ).1 = Some (render_request "POST" path headers body)
    ∧ str_len (render_request "POST" path headers body) ≤ 8191.

Lemma receives_whole {W} `{OS W} (σ : io_state W) fd path kvs :
  word path → flat kvs → receives σ fd path (print (JObj kvs)) →
  ∃ ch rest, (call (Recv fd 8191) σ).1 = Some (String ch rest)
    ∧ parseRequest (str_take (Z.to_nat 8191) (String ch rest)) = MkHttpRequest "POST" path (print (JObj kvs)).
Proof.
  intros Hp Hf (headers & Hh & Hr & Hl).
  pose proof (parseRequest_render_eq "POST" path headers (print (JObj kvs))) as Hparse.
  rewrite without_lf_id in Hparse by by apply flat_no_lf.
  destruct (render_request "POST" path headers _) as [|ch rest] eqn:Ht; [discriminate Ht|].
  exists ch, rest. split; [done|]. rewrite str_take_all by (rewrite Z2Nat.id; lia).
  apply Hparse; [a_word|done|done].
Qed.

(** C27: a policy sent as the server sends it reaches the policy handler intact.  Whatever the
    headers, when a POST to /policies with a flat JSON body and both identifiers is received
    whole (in one [recv] of at most 8191 bytes), the handler is called, once, with the first
    string members container_id, policy_id and type and with the whole body; then the client is
    answered 200 APPLIED or 500 FAILED, as the handler says, and nothing else happens. *)
Theorem policy_request_route {W} `{OS W} {S} dump (handler : PolicyHandler (W:=W) (S:=S)) s fd kvs σ :
  flat kvs → lookup_string kvs "container_id" ≠ "" → lookup_string kvs "policy_id" ≠ "" →
  receives σ fd "/policies" (print (JObj kvs)) →
  handleClient dump (Some handler) s fd σ =
  ('(ok, s') ← handler s (lookup_string kvs "container_id") (lookup_string kvs "policy_id")
                 (lookup_string kvs "type") (print (JObj kvs));
   sent ← call (Send fd
     (if ok : bool
      then response_text 200 "OK" (policy_status "APPLIED" (lookup_string kvs "policy_id"))
      else response_text 500 "Internal Server Error"
             (policy_status "FAILED" (lookup_string kvs "policy_id"))));
   mret ((λ _, s') <$> sent)) (call (Recv fd 8191) σ).2.
Proof.
  intros Hf Hc Hp Hr. apply receives_whole in Hr as (ch & rest & Hgot & Hreq); [|a_word|done].
  unfold handleClient. unfold mbind at 1, io_bind at 1. rewrite Hgot. cbv zeta. rewrite Hreq.
  cbn [method path body].
  rewrite !extractJsonString_flat by (done || by apply (bool_decide_unpack _); vm_compute).
  rewrite (proj2 (empty_false _) Hc), (proj2 (empty_false _) Hp). cbn [andb orb String.eqb Ascii.eqb Bool.eqb].
  unfold mbind, io_bind. cbn beta.
  destruct (handler _ _ _ _ _ _) as [[[] s'] σ']; unfold sendResponse, mbind, io_bind; cbn [fst snd];
    by destruct (call _ σ') as [[u|] σ''].
Qed.

(** C26: a dump request sent as the server sends it starts the dump it asks for.  Whatever the
    headers, when a POST to /long-dump-requests with a flat JSON body and a container id is
    received whole (in one [recv] of at most 8191 bytes), the handler is called, once, with the
    first string members container_id and reason and, as duration, the first member
    duration_sec that is a number without a sign, or 1200 when there is none or it does not
    fit an int; then, unless the handler threw, the client is answered 202, and nothing else
    happens. *)
Theorem dump_request_route {W} `{OS W} {S} (handler : LongDumpHandler (W:=W) (S:=S)) policy s fd kvs σ :
  flat kvs → lookup_string kvs "container_id" ≠ "" →
  receives σ fd "/long-dump-requests" (print (JObj kvs)) →
  handleClient (Some handler) policy s fd σ =
  (r ← handler s (lookup_string kvs "container_id") (lookup_int kvs "duration_sec" 1200)
         (lookup_string kvs "reason");
   match r with
   | None => mret None
   | Some s' =>
       sent ← call (Send fd (response_text 202 "Accepted" dump_requested));
       mret ((λ _, s') <$> sent)
   end) (call (Recv fd 8191) σ).2.
Proof.
  intros Hf Hc Hr. apply receives_whole in Hr as (ch & rest & Hgot & Hreq); [|a_word|done].
  unfold handleClient. unfold mbind at 1, io_bind at 1. rewrite Hgot. cbv zeta. rewrite Hreq.
  cbn [method path body].
  rewrite !extractJsonString_flat, extractJsonInt_flat
    by (done || by apply (bool_decide_unpack _); vm_compute).
  rewrite (proj2 (empty_false _) Hc). cbn [andb String.eqb Ascii.eqb Bool.eqb].
  unfold mbind, io_bind. cbn beta.
  destruct (handler _ _ _ _ _) as [[s'|] σ']; cbn [fst snd]; [|done].
  unfold sendResponse, mbind, io_bind. cbn [fst snd]. by destruct (call _ σ') as [[u|] σ''].
Qed.

(** The life of the listening socket.  However the system answers, a server that is
    started and stopped has given back every descriptor it obtained, runs no thread and
    is not running; its state holds a socket exactly between a successful start and the
    stop; and stopping it again does nothing. *)
Theorem start_stop_balanced {W} `{OS W} port :
  holds (W:=W) (r ← start (create port); srv ← stop r.2; mret (r, srv)) (λ '(r, srv) tr,
    (r.1 = true ↔ 0 ≤ serverFd_ r.2) ∧ (r.1 = true ↔ isRunning r.2 = true)
    ∧ obtained tr = given_back tr
    ∧ isRunning srv = false ∧ joinable srv = false ∧ serverFd_ srv < 0
    ∧ holds (W:=W) (stop srv) (λ srv' t, srv' = srv ∧ t = [])).
Proof.
  io_step. eapply holds_mono; [apply start_holds|]. intros [ok s1] t1 [Hport Hs].
  io_step. eapply holds_mono; [apply stop_holds|]. cbn [fst snd] in *.
  intros s2 t2 (Hfd & Hr & Hj & _ & Ho & Hg & _). io_step. unfold isRunning. cbn [fst snd].
  rewrite app_nil_r, obtained_app, given_back_app, Ho, Hg, app_nil_r.
  assert (Hagain : holds (W:=W) (stop s2) (λ srv' t, srv' = s2 ∧ t = [])).
  { eapply holds_mono; [apply stop_holds|]. intros [p f r j] t (_ & ? & ? & ? & _ & _ & Hq).
    destruct s2 as [p2 f2 r2 j2]. cbn in *. destruct Hq as [-> ->]; [done..|]. by subst. }
  destruct ok.
  - destruct Hs as (H1 & H2 & H3 & -> & ->). rewrite (proj2 (Z.leb_le _ _) H1). split_and!; done.
  - destruct Hs as (H1 & H2 & H3 & ->). rewrite (proj2 (Z.leb_gt _ _) H1), app_nil_r, H2. cbn.
    split_and!; (done || (split; [done|lia]) || idtac). all: split; done.
Qed.

(** The accept loop.  For any number of turns and whatever clients do, every accepted
    descriptor is closed, in order, before the next is accepted (but one, when the
    process ends); and the loop goes on exactly as long as the flag is set and select works: it
    is still running after [n] turns only if all [n] tests of the flag said so. *)
Theorem serverLoop_spec {W} `{OS W} {S} dump policy n fd (s : S) :
  (∀ h s c d r, dump = Some h → Emits elsewhere (h s c d r)) →
  (∀ h s c p ty b, policy = Some h → Emits elsewhere (h s c p ty b)) →
  holds (serverLoop (W:=W) dump policy n fd s) (loop_balance n).
Proof. apply serverLoop_balance. Qed.

(** A client that sends its headers and its body in two segments is refused: the one [recv] gets
    the headers alone, and a body that comes later is never read. *)
Lemma headers_alone_refused headers :
  Forall header headers →
  route_of (parseRequest (render_request "POST" "/long-dump-requests" headers "")) = BadDump
  ∧ route_of (parseRequest (render_request "POST" "/policies" headers "")) = BadPolicy.
Proof. intros Hh. by split; rewrite parseRequest_render_eq by (done || a_word). Qed.

(** A client that is gone when it is answered ends the process. *)
Lemma reply_to_gone_client {W} `{OS W} {S} fd code text b (s : S) σ :
  (call (W:=W) (Send fd (response_text code text b)) σ).1 = None →
  ((sent ← sendResponse fd code text b; mret ((λ _, s) <$> sent)) σ).1 = None.
Proof. intros Hsent. unfold sendResponse, mbind, io_bind. cbn [fst snd mret io_ret]. by rewrite Hsent. Qed.

(** *** On a sample machine *)

(** Handlers that write down what they are asked for. *)
Definition note_dump : LongDumpHandler (W:=script) (S:=list string) :=
  λ s c d r, mret (Some (s ++ [c; dec d; r])).
Definition note_policy : PolicyHandler (W:=script) (S:=list string) :=
  λ s c p ty b, mret (false, s ++ [c; p; ty]).

Definition policy_request : string :=
  render_request "POST" "/policies" ["Host: x"]
    (print (JObj [("policy_id", JStr "p1"); ("container_id", JStr "web"); ("type", JStr "SECCOMP")])).

Lemma handleClient_spec_witness :
  holds (handleClient (W:=script) (Some note_dump) (Some note_policy) [] 4) (λ r tr,
    ∃ got t, tr = Ev (Recv 4 8191) got :: t ∧
      match got with
      | None | Some "" => r = Some [] ∧ t = []
      | Some bytes =>
          reaction (λ s c d r r' t, r' = Some (s ++ [c; dec d; r]) ∧ t = [])
            (λ s c p ty b r' t, r' = (false, s ++ [c; p; ty]) ∧ t = [])
            [] 4 (route_of (parseRequest (str_take (Z.to_nat 8191) bytes))) r t
      end)
  ∧ (run (handleClient (Some note_dump) (Some note_policy) [] 4)
      (with_recv (Some policy_request) bare)).1 = Some ["web"; "p1"; "SECCOMP"].
Proof.
  split; [|vm_compute; reflexivity].
  apply handleClient_spec; intros ?; intros; apply holds_ret; split; reflexivity.
Defined.

Definition dump_request : string :=
  render_request "POST" "/long-dump-requests" ["Host: x"]
    (print (JObj [("container_id", JStr "web"); ("duration_sec", JNum 300); ("reason", JStr "alert")])).

(** The machine after the request was read, and the answer. *)
Definition answered {S} (m : IO script (option S)) (request : string) : option S * list event :=
  run m (with_recv (Some request) bare).

Lemma policy_request_route_witness :
  let kvs := [("policy_id", JStr "p1"); ("container_id", JStr "web"); ("type", JStr "SECCOMP")] in
  let σ := IOState (with_recv (Some policy_request) bare) [] in
  handleClient (Some note_dump) (Some note_policy) [] 4 σ =
  ('(ok, s') ← note_policy [] "web" "p1" "SECCOMP" (print (JObj kvs));
   sent ← call (Send 4
     (if ok : bool then response_text 200 "OK" (policy_status "APPLIED" "p1")
      else response_text 500 "Internal Server Error" (policy_status "FAILED" "p1")));
   mret ((λ _, s') <$> sent)) (call (Recv 4 8191) σ).2
  ∧ answered (handleClient (Some note_dump) (Some note_policy) [] 4) policy_request
    = (Some ["web"; "p1"; "SECCOMP"],
       [Ev (Recv 4 8191) (Some policy_request);
        Ev (Send 4 (response_text 500 "Internal Server Error" (policy_status "FAILED" "p1")))
          (Some (str_len (response_text 500 "Internal Server Error" (policy_status "FAILED" "p1"))))]).
Proof.
  cbv zeta. split; [|vm_compute; reflexivity].
  apply (policy_request_route (Some note_dump) note_policy [] 4
    [("policy_id", JStr "p1"); ("container_id", JStr "web"); ("type", JStr "SECCOMP")]).
  - repeat constructor; unfold plain; repeat constructor.
  - discriminate.
  - discriminate.
  - exists ["Host: x"]. split; [apply Forall_cons; split; [a_word|constructor]|].
    split; [reflexivity|vm_compute; discriminate].
Defined.

Lemma dump_request_route_witness :
  let σ := IOState (with_recv (Some dump_request) bare) [] in
  handleClient (Some note_dump) (Some note_policy) [] 4 σ =
  (r ← note_dump [] "web" 300 "alert";
   match r with
   | None => mret None
   | Some s' =>
       sent ← call (Send 4 (response_text 202 "Accepted" dump_requested));
       mret ((λ _, s') <$> sent)
   end) (call (Recv 4 8191) σ).2
  ∧ (answered (handleClient (Some note_dump) (Some note_policy) [] 4) dump_request).1
    = Some ["web"; "300"; "alert"].
Proof.
  cbv zeta. split; [|vm_compute; reflexivity].
  apply (dump_request_route note_dump (Some note_policy) [] 4
    [("container_id", JStr "web"); ("duration_sec", JNum 300); ("reason", JStr "alert")]).
  - repeat constructor; unfold plain; repeat constructor.
  - discriminate.
  - exists ["Host: x"]. split; [apply Forall_cons; split; [a_word|constructor]|].
    split; [reflexivity|vm_compute; discriminate].
Defined.

Lemma serverLoop_spec_witness :
  holds (serverLoop (W:=script) (Some note_dump) (Some note_policy) 3 3 []) (loop_balance 3)
  ∧ obtained (run (serverLoop (Some note_dump) (Some note_policy) 3 3 [])
      (with_recv (Some policy_request) bare)).2 = [4; 4; 4].
Proof.
  split; [|vm_compute; reflexivity].
  apply serverLoop_spec; intros ?; intros; simplify_eq; unfold note_dump, note_policy; apply _.
Defined.
End AgentServer.
