(* ===== verification/Buffer.v ===== *)
(** * Buffer: one container's window and dump

    [agent/include/buffer_manager.h] and the methods of [agent/src/agent.cpp] that
    work on one [ContainerBuffer]: queueing an event, flushing the short window,
    starting, feeding and finishing a long dump.  The buffer is threaded as a
    value; [Agent.v] keeps it in the map of buffers. *)

From S2P Require Export Serialization Config HttpClient Stream.

#[local] Open Scope Z_scope.

Record ContainerBuffer := MkContainerBuffer {
  containerId : string;
  windowStartTsNs : Z;
  lastEventTsNs : Z;
  currentShortWindow : list SyscallEvent;
  isLongDumpActive : bool;
  longDumpStartTsNs : Z;
  longDumpEndTsNs : Z;
  lastDumpTsNs : Z;
  longDumpStream : ofstream;
  longDumpFilePath : string;
  longDumpRecordCount : Z;      (* uint64_t *)
  longDumpDurationSec : Z;      (* int *)
}.

(** A default-constructed buffer. *)
Definition new_buffer : ContainerBuffer :=
  MkContainerBuffer "" 0 0 [] false 0 0 0 unopened "" 0 0.

(** Assignments to one member, or to the members one statement group sets. *)
Definition set_id (id : string) (b : ContainerBuffer) : ContainerBuffer :=
  let 'MkContainerBuffer _ ws le w a s e l st p n d := b in
  MkContainerBuffer id ws le w a s e l st p n d.
Definition set_window (start : Z) (w : list SyscallEvent) (b : ContainerBuffer) : ContainerBuffer :=
  let 'MkContainerBuffer i _ le _ a s e l st p n d := b in
  MkContainerBuffer i start le w a s e l st p n d.
Definition set_last (ts : Z) (b : ContainerBuffer) : ContainerBuffer :=
  let 'MkContainerBuffer i ws _ w a s e l st p n d := b in
  MkContainerBuffer i ws ts w a s e l st p n d.
Definition set_active (act : bool) (b : ContainerBuffer) : ContainerBuffer :=
  let 'MkContainerBuffer i ws le w _ s e l st p n d := b in
  MkContainerBuffer i ws le w act s e l st p n d.
Definition set_stream (st : ofstream) (b : ContainerBuffer) : ContainerBuffer :=
  let 'MkContainerBuffer i ws le w a s e l _ p n d := b in
  MkContainerBuffer i ws le w a s e l st p n d.
Definition set_recorded (ts count : Z) (b : ContainerBuffer) : ContainerBuffer :=
  let 'MkContainerBuffer i ws le w a s e _ st p _ d := b in
  MkContainerBuffer i ws le w a s e ts st p count d.
Definition set_dump (start end_ : Z) (path : string) (dur : Z) (b : ContainerBuffer)
    : ContainerBuffer :=
  let 'MkContainerBuffer i ws le w _ _ _ _ st _ _ _ := b in
  MkContainerBuffer i ws le w true start end_ 0 st path 0 dur.
Definition clear_dump (b : ContainerBuffer) : ContainerBuffer :=
  let 'MkContainerBuffer i ws le w a s e l st _ _ _ := b in
  MkContainerBuffer i ws le w a s e l st "" 0 0.

Definition kTraceVersion : Z := 1.

(** [%m], [%d], [%H], [%M], [%S] of [strftime]: two digits. *)
Definition two_digits (z : Z) : string := if z <? 10 then "0" +:+ dec z else dec z.

(** [strftime] with "%Y%m%d-%H%M%S". *)
Definition file_time (t : tm) : string :=
  dec (tm_year t + 1900) +:+ two_digits (tm_mon t + 1) +:+ two_digits (tm_mday t) +:+ "-"
  +:+ two_digits (tm_hour t) +:+ two_digits (tm_min t) +:+ two_digits (tm_sec t).

(** [static_cast<uint64_t>(sec) * 1'000'000'000ULL] of an int. *)
Definition seconds_ns (sec : Z) : Z := u64 (u64 sec * 1000000000).

(** Slashes of either kind become underscores. *)
Definition sanitizeContainerId (id : string) : string :=
  of_chars (map (λ ch, if bool_decide (ch = "/"%char) || bool_decide (ch = bslash)
                       then "_"%char else ch) (chars id)).

(** [snprintf(field, 64, "%s", id)] into a zeroed 64-byte field. *)
Definition id_field (id : string) : list Z :=
  let l := take 63 (bytes_of (c_str id)) in l ++ replicate (64 - length l) 0.

Definition trace_header (cfg : AgentConfig) (containerId : string) (start : Z) : TraceHeader :=
  MkTraceHeader kTraceVersion (u32 (syscallVocabSize cfg)) (id_field containerId) start.

Definition windows_url (cfg : AgentConfig) : string := serverUrl cfg +:+ "/api/v1/agent/windows".
Definition complete_url (cfg : AgentConfig) : string :=
  serverUrl cfg +:+ "/api/v1/agent/long-dump-complete".

(** The file of a dump requested at a time. *)
Definition dump_file_name (cid : string) (t : tm) : string :=
  sanitizeContainerId cid +:+ "-" +:+ file_time t +:+ ".dkdump".
Definition dump_path (cfg : AgentConfig) (cid : string) (t : tm) : string :=
  path_join (dumpDir cfg) (dump_file_name cid t).

(** The file [open] is given: the path up to its first NUL. *)
Definition dump_file (cfg : AgentConfig) (cid : string) (t : tm) : string :=
  c_str (dump_path cfg cid t).

(** The part of [handleEvent] that queues the event. *)
Definition queue_event (evt : SyscallEvent) (b : ContainerBuffer) : ContainerBuffer :=
  let start := match currentShortWindow b with [] => tsNs evt | _ => windowStartTsNs b end in
  set_window start (currentShortWindow b ++ [evt]) (set_last (tsNs evt) b).

(** The condition under which [handleEvent] flushes the window. *)
Definition window_due (cfg : AgentConfig) (b : ContainerBuffer) (evt : SyscallEvent) : bool :=
  (seconds_ns (shortWindowSec cfg) <=? u64 (tsNs evt - windowStartTsNs b))
  && (minEventsPerWindow cfg <=? s32 (Z.of_nat (length (currentShortWindow b)))).

Section methods.
Context {W : Type} `{OS W}.

Definition monotonicNowNs : IO W Z := call SteadyNowNs.

Definition nowTimestampForFile : IO W string := t ← call LocalTime; mret (file_time t).

Definition processShortWindow (cfg : AgentConfig) (b : ContainerBuffer) : IO W ContainerBuffer :=
  match currentShortWindow b with
  | [] => mret b
  | _ =>
      let payload := buildWindowJson (agentId cfg) (containerId b) (windowStartTsNs b)
                       (currentShortWindow b) in
      _ ← postJsonWithRetry (windows_url cfg) payload 3 5;
      mret (set_window 0 [] b)
  end.

Definition notifyDumpComplete (cfg : AgentConfig) (b : ContainerBuffer) : IO W ContainerBuffer :=
  let payload := buildDumpCompleteJson (agentId cfg) (containerId b) (longDumpFilePath b)
                   (longDumpStartTsNs b) (longDumpDurationSec b) (longDumpRecordCount b) in
  _ ← postJsonWithRetry (complete_url cfg) payload 3 5;
  mret (clear_dump b).

Definition appendLongDump (cfg : AgentConfig) (b : ContainerBuffer) (evt : SyscallEvent)
    : IO W ContainerBuffer :=
  if negb (isLongDumpActive b) || negb (is_open (longDumpStream b)) then mret b
  else if longDumpEndTsNs b <=? tsNs evt then
    st ← stream_close (longDumpStream b);
    notifyDumpComplete cfg (set_active false (set_stream st b))
  else
    let prev := if lastDumpTsNs b =? 0 then longDumpStartTsNs b else lastDumpTsNs b in
    let rec := makeTraceRecord evt prev in
    st ← stream_write (longDumpStream b) (TraceRecord_bytes rec);
    mret (set_recorded (tsNs evt) (u64 (longDumpRecordCount b + 1)) (set_stream st b)).

(** [requestLongDump] on its buffer; [None] when [create_directories] throws. *)
Definition startLongDump (cfg : AgentConfig) (containerId : string) (durationSec : Z)
    (b : ContainerBuffer) : IO W (option ContainerBuffer) :=
  created ← call (CreateDirectories (dumpDir cfg));
  if negb created then mret None
  else
    stamp ← nowTimestampForFile;
    let safeId := sanitizeContainerId containerId in
    let fileName := safeId +:+ "-" +:+ stamp +:+ ".dkdump" in
    let filePath := path_join (dumpDir cfg) fileName in
    st ← stream_open (longDumpStream b) filePath;
    let b := set_stream st b in
    if negb (is_open st) then mret (Some b)
    else
      start ← (if negb (lastEventTsNs b =? 0) then mret (lastEventTsNs b) else monotonicNowNs);
      let end_ := u64 (start + seconds_ns durationSec) in
      let b := set_dump start end_ filePath durationSec b in
      st ← stream_write (longDumpStream b) (TraceHeader_bytes (trace_header cfg containerId start));
      mret (Some (set_stream st b)).

(** One turn of the loop of [stopExpiredLongDumps]. *)
Definition stopExpired (cfg : AgentConfig) (nowNs : Z) (b : ContainerBuffer)
    : IO W ContainerBuffer :=
  if isLongDumpActive b && (longDumpEndTsNs b <=? nowNs) then
    st ← (if is_open (longDumpStream b) then stream_close (longDumpStream b)
          else mret (longDumpStream b));
    notifyDumpComplete cfg (set_active false (set_stream st b))
  else mret b.
End methods.

(** ** Specification: windows and notices *)

(** A window as it is posted, and the end of a dump as it is announced. *)
Record window := MkWindow { w_id : string; w_start : Z; w_events : list SyscallEvent }.
Record notice := MkNotice {
  n_id : string; n_path : string; n_start : Z; n_duration : Z; n_count : Z }.

Definition window_payload (cfg : AgentConfig) (w : window) : string :=
  buildWindowJson (agentId cfg) (w_id w) (w_start w) (w_events w).
Definition notice_payload (cfg : AgentConfig) (n : notice) : string :=
  buildDumpCompleteJson (agentId cfg) (n_id n) (n_path n) (n_start n) (n_duration n) (n_count n).

(** Each payload in order, each posted once to three times in a row. *)
Inductive retried : list string → list string → Prop :=
  | retried_nil : retried [] []
  | retried_cons p k ps bs :
      (1 ≤ k ≤ 3)%nat → retried ps bs → retried (p :: ps) (replicate k p ++ bs).

Definition effects (cfg : AgentConfig) (tr : list event) (ws : list window) (ns : list notice)
    : Prop :=
  retried (map (λ w, c_str (window_payload cfg w)) ws) (posted_bodies (c_str (windows_url cfg)) tr)
  ∧ retried (map (λ n, c_str (notice_payload cfg n)) ns)
      (posted_bodies (c_str (complete_url cfg)) tr).

(** The server URL is a C string, as every environment value is. *)
Definition url_ok (cfg : AgentConfig) : Prop := Forall (λ c, c ≠ nul) (chars (serverUrl cfg)).

#[export] Instance url_ok_dec cfg : Decision (url_ok cfg).
Proof. unfold url_ok. apply _. Defined.

Definition window_of (b : ContainerBuffer) : window :=
  MkWindow (containerId b) (windowStartTsNs b) (currentShortWindow b).
Definition notice_of (b : ContainerBuffer) : notice :=
  MkNotice (containerId b) (longDumpFilePath b) (longDumpStartTsNs b) (longDumpDurationSec b)
    (longDumpRecordCount b).

(** ** Lemmas: effects *)

Lemma retried_app ps bs ps' bs' :
  retried ps bs → retried ps' bs' → retried (ps ++ ps') (bs ++ bs').
Proof.
  intros Hr Hr'. induction Hr as [|p k ps bs Hk _ IH]; [done|].
  cbn [app]. rewrite <-app_assoc. by constructor.
Qed.

Lemma effects_app cfg t t' ws ws' ns ns' :
  effects cfg t ws ns → effects cfg t' ws' ns' → effects cfg (t ++ t') (ws ++ ws') (ns ++ ns').
Proof.
  intros [H1 H2] [H3 H4]. unfold effects. rewrite !posted_bodies_app, !map_app.
  split; by apply retried_app.
Qed.

Lemma effects_silent cfg t : Forall silent t → effects cfg t [] [].
Proof. intros Ht. split; rewrite posted_bodies_silent by done; constructor. Qed.

Lemma effects_unposted cfg t : Forall unposted t → effects cfg t [] [].
Proof.
  intros Ht. assert (Hp : ∀ u, posted_bodies u t = []); [|split; rewrite Hp; constructor].
  intros u. unfold posted_bodies. induction Ht as [|[A c a] t He _ IH]; [done|].
  cbn [omap list_omap]. destruct c; try exact IH.
  destruct req as [[sk|] ? [b|] ?]; try exact IH. done.
Qed.

Lemma c_str_app a b : Forall (λ c, c ≠ nul) (chars a) → c_str (a +:+ b) = a +:+ c_str b.
Proof.
  induction a as [|c a IH]; [done|]. intros [Hc Ha]%Forall_cons.
  change (String c a +:+ b) with (String c (a +:+ b)). cbn [c_str].
  rewrite bool_decide_false by done. by rewrite IH.
Qed.

Lemma urls_differ cfg : url_ok cfg → c_str (windows_url cfg) ≠ c_str (complete_url cfg).
Proof.
  intros Hu. unfold windows_url, complete_url. rewrite !c_str_app by done.
  intros Heq. apply (f_equal chars) in Heq. rewrite !chars_app in Heq.
  by apply app_inv_head in Heq.
Qed.

Lemma retried_one p k : (1 ≤ k ≤ 3)%nat → retried [p] (replicate k p).
Proof. intros Hk. rewrite <-(app_nil_r (replicate k p)). constructor; [done|constructor]. Qed.

Lemma effects_window cfg w t :
  url_ok cfg → posts 3 (windows_url cfg) (window_payload cfg w) t → effects cfg t [w] [].
Proof.
  intros Hu%urls_differ (k & Hk & Hp & _). split; rewrite Hp.
  - rewrite decide_True by done. by apply retried_one.
  - rewrite decide_False by done. constructor.
Qed.

Lemma effects_notice cfg n t :
  url_ok cfg → posts 3 (complete_url cfg) (notice_payload cfg n) t → effects cfg t [] [n].
Proof.
  intros Hu%urls_differ (k & Hk & Hp & _). split; rewrite Hp.
  - rewrite decide_False by done. constructor.
  - rewrite decide_True by done. by apply retried_one.
Qed.

(** ** Lemmas: the operations *)

#[export] Instance stream_open_unposted {W} `{OS W} st p : Emits unposted (stream_open (W:=W) st p).
Proof. unfold stream_open. apply _. Qed.
#[export] Instance stream_write_unposted {W} `{OS W} st d : Emits unposted (stream_write (W:=W) st d).
Proof. unfold stream_write. apply _. Qed.
#[export] Instance stream_close_unposted {W} `{OS W} st : Emits unposted (stream_close (W:=W) st).
Proof. unfold stream_close. apply _. Qed.

Section ops.
Context {W : Type} `{OS W} (cfg : AgentConfig) (Hurl : url_ok cfg).

Lemma processShortWindow_holds b :
  holds (W:=W) (processShortWindow cfg b) (λ b' tr,
    b' = set_window (match currentShortWindow b with [] => windowStartTsNs b | _ => 0 end) [] b
    ∧ effects cfg tr (match currentShortWindow b with [] => [] | _ => [window_of b] end) []).
Proof using Hurl.
  unfold processShortWindow. cbv zeta. destruct (currentShortWindow b) as [|e w] eqn:Hw.
  - io_step. split; [by destruct b; cbn in *; subst|]. by apply effects_silent.
  - io_step. eapply holds_mono; [by apply postJsonWithRetry_posts|]. intros ok tr Hp. io_step.
    rewrite app_nil_r. split; [done|]. apply effects_window; [done|].
    unfold window_payload, window_of. cbn. by rewrite Hw.
Qed.

Lemma notifyDumpComplete_holds b :
  holds (W:=W) (notifyDumpComplete cfg b) (λ b' tr,
    b' = clear_dump b ∧ effects cfg tr [] [notice_of b]).
Proof using Hurl.
  unfold notifyDumpComplete. cbv zeta. io_step.
  eapply holds_mono; [by apply postJsonWithRetry_posts|]. intros ok tr Hp. io_step.
  rewrite app_nil_r. split; [done|]. by apply effects_notice.
Qed.

(** Closing a dump: the stream ends closed, the flag down, the dump's fields cleared, and
    exactly its notice is posted. *)
Definition finished (b b' : ContainerBuffer) : Prop :=
  ∃ st, is_open st = false ∧ b' = clear_dump (set_active false (set_stream st b)).

Lemma stream_close_holds st :
  holds (W:=W) (stream_close st) (λ st' tr, is_open st' = false ∧ Forall unposted tr).
Proof.
  apply holds_and; [|apply emits; apply _].
  unfold stream_close. destruct (st_file st); [|by io_step]. io_step. io_step. by io_step.
Qed.

Lemma notice_set_stream b st a :
  notice_of (set_active a (set_stream st b)) = notice_of b.
Proof. by destruct b. Qed.

Lemma finish_holds b :
  holds (W:=W) (st ← stream_close (longDumpStream b);
      notifyDumpComplete cfg (set_active false (set_stream st b)))
    (λ b' tr, finished b b' ∧ effects cfg tr [] [notice_of b]).
Proof using Hurl.
  io_step. eapply holds_mono; [apply stream_close_holds|]. intros st t [Hst Ht].
  eapply holds_mono; [apply notifyDumpComplete_holds|]. intros b' t' [-> He].
  rewrite notice_set_stream in He. split; [by exists st|].
  by apply (effects_app cfg t t' [] [] [] [_]); [apply effects_unposted|].
Qed.

(** An event on a buffer with a dump: it ends the dump, or is recorded. *)
Lemma appendLongDump_holds b evt :
  holds (W:=W) (appendLongDump cfg b evt) (λ b' tr,
    if isLongDumpActive b && is_open (longDumpStream b) then
      if longDumpEndTsNs b <=? tsNs evt then finished b b' ∧ effects cfg tr [] [notice_of b]
      else (∃ st, is_open st = true ∧
          b' = set_recorded (tsNs evt) (u64 (longDumpRecordCount b + 1)) (set_stream st b))
        ∧ effects cfg tr [] []
    else b' = b ∧ tr = []).
Proof using Hurl.
  unfold appendLongDump. rewrite <-negb_andb.
  destruct (isLongDumpActive b && is_open (longDumpStream b)) eqn:Ha; cbn [negb]; [|by io_step].
  destruct (longDumpEndTsNs b <=? tsNs evt); [apply finish_holds|].
  cbv zeta. io_step.
  apply (holds_mono _ (λ st t, is_open st = true ∧ Forall unposted t)).
  - apply holds_and; [|apply emits; apply _]. unfold stream_write.
    apply andb_true_iff in Ha as [_ Ho]. destruct (st_good _); [|by io_step].
    unfold is_open in Ho. destruct (st_file _); [|done]. io_step. io_step. by io_step.
  - intros st t [Hst Ht]. io_step. rewrite app_nil_r. split; [by exists st|].
    by apply effects_unposted.
Qed.

Lemma stopExpired_holds now b :
  isLongDumpActive b = is_open (longDumpStream b) →
  holds (W:=W) (stopExpired cfg now b) (λ b' tr,
    if isLongDumpActive b && (longDumpEndTsNs b <=? now)
    then finished b b' ∧ effects cfg tr [] [notice_of b]
    else b' = b ∧ tr = []).
Proof using Hurl.
  intros Hinv. unfold stopExpired. destruct (_ && _) eqn:Ha; [|by io_step].
  apply andb_true_iff in Ha as [Ha _]. rewrite <-Hinv, Ha. apply finish_holds.
Qed.

(** A request: nothing changes but the stream when the file cannot be opened; otherwise a
    dump begins, whatever was going on before. *)
Definition dump_begun (cid : string) (dur : Z) (b b' : ContainerBuffer) : Prop :=
  ∃ now start st st', is_open st' = true ∧ (lastEventTsNs b ≠ 0 → start = lastEventTsNs b)
    ∧ b' = set_stream st' (set_dump start (u64 (start + seconds_ns dur)) (dump_path cfg cid now) dur
             (set_stream st b)).

#[export] Instance startLongDump_unposted cid dur b :
  Emits unposted (startLongDump (W:=W) cfg cid dur b).
Proof. unfold startLongDump, monotonicNowNs. cbv zeta. apply _. Qed.

Lemma stream_open_kept st path :
  holds (W:=W) (stream_open st path) (λ st' tr,
    is_open st' = false → is_open st = false ∧ failed_opens tr = [c_str path]).
Proof.
  unfold stream_open, is_open. destruct (st_file st); [by io_step|]. io_step. io_step. io_step.
  by destruct a.
Qed.

Lemma stream_write_kept st data :
  is_open st = true → holds (W:=W) (stream_write st data) (λ st' _, is_open st' = true).
Proof.
  intros Ho. unfold stream_write. destruct (st_good st); [|by io_step].
  unfold is_open in Ho. destruct (st_file st); [|done]. io_step. io_step. by io_step.
Qed.

Lemma startLongDump_result cid dur b :
  holds (W:=W) (startLongDump cfg cid dur b) (λ r tr,
    match r with
    | None => True
    | Some b' =>
        (∃ st, is_open (longDumpStream b) = false ∧ is_open st = false ∧ b' = set_stream st b)
          ∧ length (failed_opens tr) = 1%nat
        ∨ dump_begun cid dur b b'
    end).
Proof.
  unfold startLongDump, nowTimestampForFile. io_step. io_step. destruct a; cbn [negb]; [|by io_step].
  do 4 io_step. cbv zeta. io_step.
  eapply holds_mono; [apply stream_open_kept|]. intros st t Hopen.
  destruct (is_open st) eqn:Hst; cbn [negb]; cycle 1.
  { io_step. destruct (Hopen Hst) as [Ho Hf]. left. split; [eauto|].
    unfold failed_opens in *. rewrite !omap_app, Hf. done. }
  io_step. apply (holds_mono _ (λ start _, lastEventTsNs b ≠ 0 → start = lastEventTsNs b)).
  { replace (lastEventTsNs (set_stream st b)) with (lastEventTsNs b) by by destruct b.
    unfold monotonicNowNs. destruct (lastEventTsNs b =? 0) eqn:Hl; cbn [negb]; bool_to_prop; by io_step. }
  intros start t1 Hstart. io_step. eapply holds_mono; [apply stream_write_kept; by destruct b|].
  intros st' t2 Hst'. io_step. right. by eexists a, start, st, st'.
Qed.

Lemma startLongDump_holds cid dur b :
  holds (W:=W) (startLongDump cfg cid dur b) (λ r tr,
    effects cfg tr [] [] ∧
    match r with
    | None => True
    | Some b' =>
        (∃ st, is_open (longDumpStream b) = false ∧ is_open st = false ∧ b' = set_stream st b)
          ∧ length (failed_opens tr) = 1%nat
        ∨ dump_begun cid dur b b'
    end).
Proof.
  eapply holds_mono;
    [apply (holds_emits unposted); [apply _|apply startLongDump_result]|].
  intros r tr [Hr Ht]. split; [by apply effects_unposted|exact Hr].
Qed.
End ops.

(** ** The invariant of a buffer *)

Record buffer_ok (id : string) (b : ContainerBuffer) : Prop := {
  ok_id : containerId b = id;
  ok_window : windowStartTsNs b = match currentShortWindow b with [] => 0 | e :: _ => tsNs e end;
  ok_last : match last (currentShortWindow b) with
            | Some e => lastEventTsNs b = tsNs e | None => True end;
  ok_events : Forall SyscallEvent_wf (currentShortWindow b);
  ok_stream : isLongDumpActive b = is_open (longDumpStream b);
  ok_end : isLongDumpActive b = true →
    longDumpEndTsNs b = u64 (longDumpStartTsNs b + seconds_ns (longDumpDurationSec b));
  ok_idle : isLongDumpActive b = false →
    longDumpFilePath b = "" ∧ longDumpRecordCount b = 0 ∧ longDumpDurationSec b = 0;
}.

Lemma new_buffer_ok id : buffer_ok id (set_id id new_buffer).
Proof. by constructor. Qed.

Lemma set_id_ok id b : buffer_ok id b → set_id id b = b.
Proof. destruct b. intros [Hid]. cbn in *. by subst. Qed.

Lemma queue_event_ok id evt b :
  SyscallEvent_wf evt → buffer_ok id b → buffer_ok id (queue_event evt b).
Proof.
  intros He [? ? ? ? ? ? ?]. destruct b as [i ws le w a s e l st p n d].
  unfold queue_event. cbn [set_window set_last currentShortWindow windowStartTsNs] in *.
  constructor; cbn in *; try done.
  - by destruct w.
  - by rewrite last_snoc.
  - apply Forall_app_2; [done|]. by constructor.
Qed.

Lemma finished_ok id b b' : finished b b' → buffer_ok id b → buffer_ok id b'.
Proof.
  intros (st & Hst & ->) [? ? ? ? ? ? ?]. destruct b. constructor; cbn in *; try done.
Qed.

Lemma recorded_ok id b st ts n :
  isLongDumpActive b = true → is_open st = true →
  buffer_ok id b → buffer_ok id (set_recorded ts n (set_stream st b)).
Proof.
  intros Ha Hst [? ? ? ? ? ? ?]. destruct b. constructor; cbn in *; try done; congruence.
Qed.

Lemma flushed_ok id b : buffer_ok id b → buffer_ok id (set_window 0 [] b).
Proof. intros [? ? ? ? ? ? ?]. destruct b. constructor; cbn in *; done. Qed.

Lemma dump_begun_ok cfg id cid dur b b' : dump_begun cfg cid dur b b' → buffer_ok id b → buffer_ok id b'.
Proof.
  intros (now & start & st & st' & Hst & _ & ->) [? ? ? ? ? ? ?]. destruct b.
  constructor; cbn in *; try done.
Qed.

Lemma reopened_ok id b st :
  is_open (longDumpStream b) = false → is_open st = false →
  buffer_ok id b → buffer_ok id (set_stream st b).
Proof.
  intros Ho Hst [? ? ? ? ? ? ?]. destruct b. constructor; cbn in *; try done; congruence.
Qed.

(** ** The file of a dump *)

(** Every write the trace asks for succeeded. *)
Definition write_ok (e : event) : Prop :=
  match e with Ev (WriteStream _ _) ok => ok = true | _ => True end.
#[export] Instance write_ok_dec e : Decision (write_ok e).
Proof. destruct e as [A c a]. destruct c; apply _. Defined.
Definition writes_ok (tr : list event) : Prop := Forall write_ok tr.

(** What identifies a running dump. *)
Definition dump_key (b : ContainerBuffer) : string * string * Z * Z * Z :=
  (containerId b, longDumpFilePath b, longDumpStartTsNs b, longDumpEndTsNs b,
   longDumpDurationSec b).

(** A dump being recorded to [file], [n] records so far, the next one relative to [prev]. *)
Definition recording (file : string) (prev : Z) (n : nat) (b : ContainerBuffer) : Prop :=
  isLongDumpActive b = true ∧ longDumpStream b = MkOfstream (Some file) true
  ∧ (if lastDumpTsNs b =? 0 then longDumpStartTsNs b else lastDumpTsNs b) = prev
  ∧ longDumpRecordCount b = u64 (Z.of_nat n).

(** A dump from its request to its last event. *)
Definition dump_session {W} `{OS W} (cfg : AgentConfig) (cid : string) (dur : Z)
    (evts : list SyscallEvent) (final : SyscallEvent) (b : ContainerBuffer)
    : IO W (option ContainerBuffer) :=
  r ← startLongDump cfg cid dur b;
  match r with
  | None => mret None
  | Some b =>
      b ← io_fold (λ b e, appendLongDump cfg b e) b evts;
      b ← appendLongDump cfg b final;
      mret (Some b)
  end.

Section file.
Context {W : Type} `{OS W} (cfg : AgentConfig).

Lemma append_record file prev n b e :
  recording file prev n b → tsNs e < longDumpEndTsNs b →
  holds (W:=W) (appendLongDump cfg b e) (λ b' tr, ∃ ok,
    tr = [Ev (WriteStream file (TraceRecord_bytes (makeTraceRecord e prev))) ok]
    ∧ b' = set_recorded (tsNs e) (u64 (longDumpRecordCount b + 1))
             (set_stream (MkOfstream (Some file) ok) b)).
Proof.
  intros (Ha & Hs & Hp & _) He. unfold appendLongDump. rewrite Ha, Hs. cbn [is_open st_file negb orb].
  rewrite (proj2 (Z.leb_gt _ _) He), Hp. cbv zeta. unfold stream_write. cbn [st_good st_file].
  repeat io_step. by eexists.
Qed.

#[local] Instance append_any b e : Emits (λ _, True) (appendLongDump (W:=W) cfg b e).
Proof.
  unfold appendLongDump, notifyDumpComplete. cbv zeta.
  pose proof (λ url body n t, postJsonWithRetry_emits (W:=W) (λ _, True) url body n t
    ltac:(done) ltac:(done)). unfold stream_close, stream_write. apply _.
Qed.

Lemma recording_next file prev n b e :
  recording file prev n b → tsNs e ≠ 0 →
  recording file (tsNs e) (S n) (set_recorded (tsNs e) (u64 (longDumpRecordCount b + 1))
    (set_stream (MkOfstream (Some file) true) b)).
Proof.
  intros (Ha & _ & _ & Hn) Hne. destruct b. cbn in *. subst.
  split_and!; cbn; [done|done| |].
  - by rewrite (proj2 (Z.eqb_neq _ _) Hne).
  - rewrite wrap_add_l. f_equal. lia.
Qed.

(** Events before the end become records, one each, in order. *)
Lemma append_records file prev n b evts :
  recording file prev n b →
  Forall (λ e, tsNs e ≠ 0 ∧ tsNs e < longDumpEndTsNs b) evts →
  holds (W:=W) (io_fold (λ b e, appendLongDump cfg b e) b evts) (λ b' tr, writes_ok tr →
    Forall unposted tr
    ∧ written file tr = concat (map TraceRecord_bytes (dump_records prev evts))
    ∧ dump_key b' = dump_key b
    ∧ ∃ prev', recording file prev' (n + length evts) b').
Proof.
  revert prev n b. induction evts as [|e evts IH]; intros prev n b Hr Hall; cbn [io_fold].
  - io_step. intros _. split_and!; [done..|]. exists prev. by rewrite Nat.add_0_r.
  - apply Forall_cons in Hall as [[Hne Hlt] Hall]. io_step.
    eapply holds_mono; [by apply (append_record file prev n)|]. intros b1 t1 (ok & -> & ->).
    destruct ok; cycle 1.
    { apply holds_any; [apply _|]. intros b' t [Hok _]%Forall_cons. by cbn in Hok. }
    eapply holds_mono; [apply (IH (tsNs e) (S n)); [by apply (recording_next file prev)|by destruct b]|].
    intros b' t Hb' [_ Hok]%Forall_cons. destruct (Hb' Hok) as (Hu & Hw & Hk & prev' & Hr').
    split_and!; [by constructor| | |].
    + rewrite written_app, Hw. cbn [dump_records map concat]. f_equal.
      unfold written. cbn [omap list_omap]. rewrite decide_True by done. apply app_nil_r.
    + rewrite Hk. by destruct b.
    + exists prev'. cbn [length]. by rewrite <-plus_n_Sm.
Qed.

(** Starting a dump on a buffer that has seen events and has none running. *)
Lemma startLongDump_fresh cid dur b :
  is_open (longDumpStream b) = false → lastEventTsNs b ≠ 0 →
  holds (W:=W) (startLongDump cfg cid dur b) (λ r tr,
    let start := lastEventTsNs b in
    r = None
    ∨ (∃ now st, is_open st = false ∧ r = Some (set_stream st b)
        ∧ tr = [Ev (CreateDirectories (dumpDir cfg)) true; Ev LocalTime now;
                Ev (OpenTrunc (c_str (dump_path cfg cid now))) false])
    ∨ ∃ now ok, let file := c_str (dump_path cfg cid now) in
        tr = [Ev (CreateDirectories (dumpDir cfg)) true; Ev LocalTime now;
              Ev (OpenTrunc file) true;
              Ev (WriteStream file (TraceHeader_bytes (trace_header cfg cid start))) ok]
        ∧ r = Some (set_stream (MkOfstream (Some file) ok)
                (set_dump start (u64 (start + seconds_ns dur)) (dump_path cfg cid now) dur
                  (set_stream (MkOfstream (Some file) true) b)))).
Proof.
  intros Ho Hl. cbv zeta. unfold startLongDump, nowTimestampForFile. io_step. io_step.
  destruct a; cbn [negb]; [|io_step; auto].
  do 4 io_step. cbv zeta. fold (dump_file_name cid a) (dump_path cfg cid a).
  unfold stream_open. unfold is_open in Ho. destruct (st_file (longDumpStream b)); [done|].
  io_step. io_step. io_step. io_step. destruct a0; cbn [is_open st_file negb].
  - assert (Hl' : lastEventTsNs (set_stream (MkOfstream (Some (c_str (dump_path cfg cid a))) true) b)
      = lastEventTsNs b) by by destruct b.
    rewrite Hl', (proj2 (Z.eqb_neq _ _) Hl). cbn [negb]. io_step. io_step. io_step.
    unfold stream_write.
    assert (Hst : longDumpStream (set_dump (lastEventTsNs b) (u64 (lastEventTsNs b + seconds_ns dur))
        (dump_path cfg cid a) dur (set_stream (MkOfstream (Some (c_str (dump_path cfg cid a))) true) b))
      = MkOfstream (Some (c_str (dump_path cfg cid a))) true) by by destruct b.
    rewrite Hst. cbn [st_good st_file]. repeat io_step. right. right. exists a, a0. by split.
  - io_step. right. left. exists a, (MkOfstream None false). by split_and!.
Qed.
End file.

(** *** The names of dump files *)

(** A time [localtime] can answer in a year of four digits. *)
Definition tm_wf (t : tm) : Prop :=
  1000 ≤ tm_year t + 1900 < 10000 ∧ 0 ≤ tm_mon t < 12 ∧ 1 ≤ tm_mday t ≤ 31
  ∧ 0 ≤ tm_hour t < 24 ∧ 0 ≤ tm_min t < 60 ∧ 0 ≤ tm_sec t ≤ 60.

(** [n] digits that say [z]. *)
Definition numeral (n : nat) (z : Z) (l : list ascii) : Prop := length l = n ∧ dec_value l = z.

Lemma two_digits_numeral z : 0 ≤ z < 100 → numeral 2 z (chars (two_digits z)).
Proof.
  intros Hz. assert (Hall : Forall (λ z, numeral 2 z (chars (two_digits z))) (seqZ 0 100))
    by (apply (bool_decide_unpack _); vm_compute; exact I).
  rewrite Forall_forall in Hall. apply Hall, elem_of_seqZ. lia.
Qed.

Lemma year_numeral z : 1000 ≤ z < 10000 → numeral 4 z (chars (dec z)).
Proof.
  intros Hz. assert (Hall : Forall (λ z, numeral 4 z (chars (dec z))) (seqZ 1000 9000))
    by (apply (bool_decide_unpack _); vm_compute; exact I).
  rewrite Forall_forall in Hall. apply Hall, elem_of_seqZ. lia.
Qed.

(** Equal texts that start with numerals of one width. *)
Lemma numeral_app n z1 z2 l1 l2 r1 r2 :
  numeral n z1 l1 → numeral n z2 l2 → l1 ++ r1 = l2 ++ r2 → z1 = z2 ∧ r1 = r2.
Proof. intros [H1 <-] [H2 <-] [-> ->]%app_inj_1; [done|congruence]. Qed.

Lemma file_time_length t : tm_wf t → length (chars (file_time t)) = 15%nat.
Proof.
  intros (Hy & Hm & Hd & Hh & Hi & Hs). unfold file_time. autorewrite with dk_str.
  rewrite !length_app, (proj1 (year_numeral _ Hy)).
  by rewrite !(λ z Hz, proj1 (two_digits_numeral z Hz)) by lia.
Qed.

Lemma file_time_inj t1 t2 : tm_wf t1 → tm_wf t2 → file_time t1 = file_time t2 → t1 = t2.
Proof.
  intros (Hy1 & Hm1 & Hd1 & Hh1 & Hi1 & Hs1) (Hy2 & Hm2 & Hd2 & Hh2 & Hi2 & Hs2) He.
  apply (f_equal chars) in He. unfold file_time in He. autorewrite with dk_str in He.
  apply (numeral_app 4 (tm_year t1 + 1900) (tm_year t2 + 1900)) in He as [Hy He];
    [|by apply year_numeral..].
  apply (numeral_app 2 (tm_mon t1 + 1) (tm_mon t2 + 1)) in He as [Hm He];
    [|apply two_digits_numeral; lia..].
  apply (numeral_app 2 (tm_mday t1) (tm_mday t2)) in He as [Hd [= He]];
    [|apply two_digits_numeral; lia..].
  apply (numeral_app 2 (tm_hour t1) (tm_hour t2)) in He as [Hh He];
    [|apply two_digits_numeral; lia..].
  apply (numeral_app 2 (tm_min t1) (tm_min t2)) in He as [Hi He];
    [|apply two_digits_numeral; lia..].
  apply (f_equal dec_value) in He. rewrite !(λ z Hz, proj2 (two_digits_numeral z Hz)) in He by lia.
  destruct t1, t2. cbn in *. f_equal; lia.
Qed.

Lemma sanitized_no_slash id : "/"%char ∉ chars (sanitizeContainerId id).
Proof.
  unfold sanitizeContainerId. rewrite chars_of_chars.
  intros (c & Hc & _)%list_elem_of_fmap. repeat case_bool_decide; cbn in Hc; naive_solver.
Qed.

Lemma dec_without c z : is_digit c = false → 0 ≤ z → c ∉ chars (dec z).
Proof.
  intros Hc Hz Hin. destruct (dec_digits z Hz) as (Hd & _). rewrite Forall_forall in Hd.
  specialize (Hd _ Hin). cbn in Hd. congruence.
Qed.

Lemma file_time_without c t :
  is_digit c = false → c ≠ "-"%char → tm_wf t → c ∉ chars (file_time t).
Proof.
  intros Hc Hdash (Hy & Hm & Hd & Hh & Hi & Hs). unfold file_time, two_digits.
  autorewrite with dk_str. rewrite !not_elem_of_app.
  assert (H2 : ∀ z, 0 ≤ z → c ∉ chars (if z <? 10 then "0" +:+ dec z else dec z)).
  { intros z Hz. case_match; autorewrite with dk_str; [|by apply dec_without].
    apply not_elem_of_app. split; [|by apply dec_without].
    intros ->%list_elem_of_singleton. discriminate Hc. }
  split_and!; try apply H2; try (apply dec_without; [done|lia]); try lia.
  by intros ?%list_elem_of_singleton.
Qed.

Lemma dump_file_name_no_slash cid t : tm_wf t → "/"%char ∉ chars (dump_file_name cid t).
Proof.
  intros Ht. unfold dump_file_name. autorewrite with dk_str. rewrite !not_elem_of_app.
  split_and!; [apply sanitized_no_slash| |by apply file_time_without|];
    apply (bool_decide_unpack _); vm_compute; exact I.
Qed.

(** No NUL in the name of the container, none in the name of the file. *)
Definition no_nul (s : string) : Prop := Forall (λ c, c ≠ nul) (chars s).

Lemma dump_file_name_no_nul cid t : no_nul cid → tm_wf t → no_nul (dump_file_name cid t).
Proof.
  intros Hc Ht. unfold no_nul, dump_file_name. autorewrite with dk_str. rewrite !Forall_app.
  split_and!; [| |apply Forall_forall; by intros c Hin ->; apply (file_time_without nul t)|].
  - unfold sanitizeContainerId. rewrite chars_of_chars. apply Forall_map.
    eapply Forall_impl; [exact Hc|]. intros c Hn. cbn. by repeat case_bool_decide.
  - by repeat constructor.
  - by repeat constructor.
Qed.

Lemma dir_prefix_no_nul dir : no_nul dir → no_nul (dir_prefix dir).
Proof.
  unfold no_nul, dir_prefix. intros Hd.
  repeat case_match; rewrite ?chars_app, ?Forall_app; try split; try done; by repeat constructor.
Qed.

Lemma dump_path_in_dir cfg cid t :
  tm_wf t → dump_path cfg cid t = dir_prefix (dumpDir cfg) +:+ dump_file_name cid t.
Proof.
  intros Ht. apply path_join_relative. intros Hh. apply (dump_file_name_no_slash cid t Ht).
  destruct (chars _); [done|]. injection Hh as ->. by left.
Qed.

(** *** The header's fields are in range *)

Lemma bytes_of_fits s : Forall (fits 8) (bytes_of s).
Proof.
  unfold bytes_of. apply Forall_map, Forall_true. intros c. cbn [compose]. unfold fits.
  pose proof (Ascii.N_ascii_bounded c). lia.
Qed.

Lemma trace_header_wf cfg cid start : fits 64 start → TraceHeader_wf (trace_header cfg cid start).
Proof.
  intros Hs. unfold TraceHeader_wf, trace_header. cbn [version syscall_vocab_size container_id start_ts_ns].
  assert (Hl : (length (take 63 (bytes_of (c_str cid))) ≤ 63)%nat) by (rewrite length_take; lia).
  split_and!; [done|apply wrap_fits; lia| | |done].
  - unfold id_field. rewrite length_app, length_replicate. lia.
  - unfold id_field. apply Forall_app_2; [apply Forall_take, bytes_of_fits|].
    apply Forall_replicate. unfold fits. lia.
Qed.

Lemma dump_records_wf prev evts :
  Forall SyscallEvent_wf evts → Forall TraceRecord_wf (dump_records prev evts).
Proof.
  intros Hwf. revert prev. induction Hwf as [|e evts He _ IH]; intros prev; constructor; [|done].
  by apply makeTraceRecord_wf.
Qed.

Section session.
Context {W : Type} `{OS W} (cfg : AgentConfig) (Hurl : url_ok cfg).

(** On a buffer with no dump, events change nothing. *)
Lemma append_idle b evts :
  isLongDumpActive b = false →
  holds (W:=W) (io_fold (λ b e, appendLongDump cfg b e) b evts) (λ b' tr, b' = b ∧ tr = []).
Proof.
  intros Ha. induction evts as [|e evts IH]; cbn [io_fold]; [by io_step|].
  io_step. unfold appendLongDump at 1. rewrite Ha. cbn [negb orb]. io_step. exact IH.
Qed.

(** The end of a recording dump. *)
Lemma finish_recording file prev n b e :
  recording file prev n b → longDumpEndTsNs b ≤ tsNs e →
  holds (W:=W) (appendLongDump cfg b e) (λ b' tr,
    isLongDumpActive b' = false ∧ is_open (longDumpStream b') = false
    ∧ effects cfg tr [] [notice_of b] ∧ ∀ p, written p tr = []).
Proof using Hurl.
  intros (Ha & Hs & _) He. unfold appendLongDump. rewrite Ha, Hs. cbn [is_open st_file negb orb].
  rewrite (proj2 (Z.leb_le _ _) He). unfold stream_close. cbn [st_file st_good].
  io_step. io_step. io_step. io_step. unfold notifyDumpComplete. cbv zeta. io_step.
  eapply holds_mono; [by apply postJsonWithRetry_posts|]. intros ok tr Hp. io_step.
  rewrite !app_nil_r.
  pose proof (effects_notice cfg (notice_of b) tr Hurl) as Hn.
  split_and!; [by destruct b|by destruct b| |].
  - apply (effects_app cfg [Ev (CloseStream file) a] tr [] [] [] [notice_of b]).
    + by apply effects_unposted; repeat constructor.
    + apply Hn. by destruct b.
  - intros p. destruct Hp as (_ & _ & _ & Hw & _). rewrite written_app, Hw. done.
Qed.

(** From the first record to the end. *)
Lemma record_and_finish file prev b evts final :
  recording file prev 0 b →
  Forall (λ e, tsNs e ≠ 0 ∧ tsNs e < longDumpEndTsNs b) evts → longDumpEndTsNs b ≤ tsNs final →
  holds (W:=W) (b ← io_fold (λ b e, appendLongDump cfg b e) b evts;
      b ← appendLongDump cfg b final; mret (Some b)) (λ r tr, writes_ok tr →
    written file tr = concat (map TraceRecord_bytes (dump_records prev evts))
    ∧ effects cfg tr [] [MkNotice (containerId b) (longDumpFilePath b) (longDumpStartTsNs b)
                           (longDumpDurationSec b) (u64 (Z.of_nat (length evts)))]
    ∧ ∃ b', r = Some b' ∧ isLongDumpActive b' = false ∧ is_open (longDumpStream b') = false).
Proof using Hurl.
  intros Hr Hev Hfin. io_step. eapply holds_mono; [by apply append_records|]. intros b1 t1 H1.
  io_step.
  destruct (decide (writes_ok t1)) as [Hok1|Hno].
  - destruct (H1 Hok1) as (Hu1 & Hw1 & Hk & prev' & Hr').
    assert (Hn : notice_of b1 = MkNotice (containerId b) (longDumpFilePath b) (longDumpStartTsNs b)
      (longDumpDurationSec b) (u64 (Z.of_nat (length evts)))).
    { unfold dump_key in Hk. injection Hk as E1 E2 E3 E4 E5. unfold notice_of.
      rewrite E1, E2, E3, E5. f_equal. apply Hr'. }
    eapply holds_mono; [eapply (finish_recording file prev'); [exact Hr'|]|].
    { unfold dump_key in Hk. injection Hk as _ _ _ E4 _. by rewrite E4. }
    intros b2 t2 (Ha & Hs & He & Hw2). io_step. intros _. rewrite app_nil_r, <-Hn.
    split_and!; [by rewrite written_app, Hw1, Hw2, app_nil_r| |eauto].
    apply (effects_app cfg t1 t2 [] [] [] [_]); [by apply effects_unposted|exact He].
  - apply holds_any; [apply append_any|]. intros b2 t2. io_step. intros Hok.
    apply Forall_app in Hok as [Hok _]. done.
Qed.
End session.

(** ** Properties *)

(** C3: the file of a dump.  On a container that has sent events, a dump that is requested,
    fed and ended leaves a file that reads back, whatever the events, as its header (version
    1, the container's id in 63 bytes, the time of the last event before the request) and one
    record per event fed before the end, each relative to the one before; and the server is
    told, in a notice posted once (with at most two retries), of that path, start, duration and
    number of records.  When the file cannot be opened nothing is written, announced or
    changed but the stream's error bit. *)
Theorem dump_session_file {W} `{OS W} cfg cid dur evts final b :
  url_ok cfg → is_open (longDumpStream b) = false → isLongDumpActive b = false →
  lastEventTsNs b ≠ 0 → fits 64 (lastEventTsNs b) →
  let end_ := u64 (lastEventTsNs b + seconds_ns dur) in
  Forall SyscallEvent_wf evts → Forall (λ e, tsNs e ≠ 0 ∧ tsNs e < end_) evts →
  end_ ≤ tsNs final →
  holds (W:=W) (dump_session cfg cid dur evts final b) (λ r tr, writes_ok tr →
    r = None
    ∨ (∃ st, is_open st = false ∧ r = Some (set_stream st b)) ∧ effects cfg tr [] []
        ∧ (∀ p, written p tr = [])
    ∨ ∃ now, let path := dump_path cfg cid now in
        read_dump (written (c_str path) tr)
          = Some (trace_header cfg cid (lastEventTsNs b), dump_records (lastEventTsNs b) evts)
        ∧ effects cfg tr [] [MkNotice (containerId b) path (lastEventTsNs b) dur
                               (u64 (Z.of_nat (length evts)))]
        ∧ ∃ b', r = Some b' ∧ isLongDumpActive b' = false ∧ is_open (longDumpStream b') = false).
Proof.
  intros Hu Ho Hna Hl Hf end_ Hwf Hev Hfin. unfold dump_session. io_step.
  eapply holds_mono; [by apply startLongDump_fresh|]. cbv zeta.
  intros r t1 [->|[(now & st & Hst & -> & ->)|(now & ok & -> & ->)]].
  - io_step. intros _. by left.
  - io_step. 
    assert (Hna' : isLongDumpActive (set_stream st b) = false) by by destruct b.
    eapply holds_mono; [by apply append_idle|]. intros b1 t [-> ->]. io_step.
    unfold appendLongDump. rewrite Hna'. cbn [negb orb]. io_step. io_step. intros _. right. left.
    split; [by exists st|]. split; [by apply effects_unposted; repeat constructor|]. intros p.
    by unfold written.
  - set (file := c_str (dump_path cfg cid now)). set (b0 := set_stream _ _).
    destruct ok; cycle 1.
    { apply holds_any; [pose proof (append_any (W:=W) cfg); apply _|]. intros r t Hok.
      by repeat (apply Forall_cons in Hok as [? Hok]). }
    assert (Hr : recording file (lastEventTsNs b) 0 b0) by by destruct b.
    assert (Hend : longDumpEndTsNs b0 = end_) by by destruct b.
    eapply holds_mono; [apply (record_and_finish cfg Hu file (lastEventTsNs b)); [done|by rewrite Hend..]|].
    intros r t Ht Hok. right. right. exists now.
    repeat (apply Forall_cons in Hok as [_ Hok]). cbn [app] in Hok.
    destruct (Ht Hok) as (Hw & He & Hb). split_and!; [| |exact Hb].
    + rewrite written_app. fold file. rewrite Hw.
      assert (Hhead : written file [Ev (CreateDirectories (dumpDir cfg)) true; Ev LocalTime now;
          Ev (OpenTrunc file) true; Ev (WriteStream file (TraceHeader_bytes
            (trace_header cfg cid (lastEventTsNs b)))) true]
        = TraceHeader_bytes (trace_header cfg cid (lastEventTsNs b))).
      { unfold written. cbn [omap list_omap]. rewrite decide_True by done. apply app_nil_r. }
      rewrite Hhead, <-(app_nil_r (concat _)).
      apply read_dump_bytes; [by apply trace_header_wf|by apply dump_records_wf|].
      unfold TraceRecord_size. simpl. lia.
    + apply (effects_app cfg [_; _; _; _] t [] [] [] [_]);
        [by apply effects_unposted; repeat constructor|]. by destruct b.
Qed.

(** When a window is posted.  With timestamps in range, the window is due exactly when it
    holds the configured number of events and the event is at least the configured time after
    the window's start; an event older than the start also makes it due, however little time
    has passed, because the difference wraps. *)
Theorem window_due_cases cfg b evt :
  fits 64 (tsNs evt) → fits 64 (windowStartTsNs b) →
  0 ≤ shortWindowSec cfg → Z.of_nat (length (currentShortWindow b)) ≤ INT_MAX →
  windowStartTsNs b - tsNs evt ≤ 2 ^ 64 - shortWindowSec cfg * 1000000000 →
  shortWindowSec cfg ≤ INT_MAX →
  window_due cfg b evt = true ↔
    minEventsPerWindow cfg ≤ Z.of_nat (length (currentShortWindow b))
    ∧ (windowStartTsNs b + shortWindowSec cfg * 1000000000 ≤ tsNs evt
       ∨ tsNs evt < windowStartTsNs b).
Proof.
  intros He Hs Hsec Hlen Hgap Hmax. unfold window_due, seconds_ns, INT_MAX in *.
  rewrite (wrap_small 64 (shortWindowSec cfg)) by (unfold fits; lia).
  rewrite (wrap_small 64 (_ * _)) by (unfold fits; lia).
  rewrite s32_small by (unfold INT_MIN, INT_MAX; lia). rewrite andb_true_iff, !Z.leb_le.
  destruct (decide (windowStartTsNs b ≤ tsNs evt)) as [Hle|Hgt].
  - rewrite u64_sub_small by (unfold fits in *; lia). lia.
  - rewrite u64_sub_neg by (done || lia). lia.
Qed.

(** C29: the file a dump request opens, at any time in a year of four digits, for container names
    and a directory without NUL.  It is a file of the dump directory itself, whatever other
    characters the name holds; and two requests open the same file exactly when they read the same
    local time, to the second (which one clock can show twice, when it is set back), and
    their container names differ at most in their slashes and backslashes. *)
Theorem dump_path_spec cfg cid1 cid2 t1 t2 :
  no_nul (dumpDir cfg) → no_nul cid1 → no_nul cid2 → tm_wf t1 → tm_wf t2 →
  (∃ name, dump_file cfg cid1 t1 = dir_prefix (dumpDir cfg) +:+ name ∧ "/"%char ∉ chars name)
  ∧ (dump_file cfg cid1 t1 = dump_file cfg cid2 t2
     ↔ t1 = t2 ∧ sanitizeContainerId cid1 = sanitizeContainerId cid2).
Proof.
  intros Hd N1 N2 H1 H2. unfold dump_file. rewrite !dump_path_in_dir by done.
  rewrite !c_str_no_nul
    by (rewrite chars_app; apply Forall_app_2; [by apply dir_prefix_no_nul|by apply dump_file_name_no_nul]).
  split; [eexists; split; [done|by apply dump_file_name_no_slash]|].
  unfold dump_file_name. split; [|by intros [-> ->]].
  intros He%(f_equal chars). autorewrite with dk_str in He. apply app_inv_head in He.
  rewrite !(assoc_L (++)) in He. apply app_inv_tail in He.
  apply app_inj_2 in He as [He Ht]; [|by rewrite !file_time_length].
  apply app_inv_tail in He. split; [|by apply chars_inj].
  by apply file_time_inj, chars_inj.
Qed.

Lemma dump_path_spec_witness :
  let t1 := MkTm 125 0 31 23 59 59 in let t2 := MkTm 125 1 1 0 0 0 in
  tm_wf t1 ∧ tm_wf t2
  ∧ ((∃ name, dump_file default_config "../prod/api" t1 = dir_prefix (dumpDir default_config) +:+ name
        ∧ "/"%char ∉ chars name)
     ∧ (dump_file default_config "../prod/api" t1 = dump_file default_config "prod_api" t2
        ↔ t1 = t2 ∧ sanitizeContainerId "../prod/api" = sanitizeContainerId "prod_api"))
  ∧ dump_file default_config "../prod/api" t1
      = "/var/lib/deepkernel/dumps/.._prod_api-20250131-235959.dkdump".
Proof.
  cbv zeta. do 2 (split; [unfold tm_wf; cbn; lia|]). split; [|vm_compute; reflexivity].
  apply (dump_path_spec default_config "../prod/api" "prod_api" (MkTm 125 0 31 23 59 59)
    (MkTm 125 1 1 0 0 0)); try (unfold tm_wf; cbn; lia); repeat (constructor; [discriminate|]); constructor.
Defined.

(** A NUL in the name cuts the name of the file, with the time and the extension: every dump of
    the container goes to the same file, as do those of any name that goes on differently. *)
Lemma nul_cuts_file_name cfg a b b' t t' :
  no_nul (dumpDir cfg) → no_nul a → tm_wf t → tm_wf t' →
  dump_file cfg (a +:+ String nul b) t = dump_file cfg (a +:+ String nul b') t'.
Proof.
  intros Hd Ha H1 H2. unfold dump_file. rewrite !dump_path_in_dir by done.
  assert (Hcut : ∀ b t, c_str (dir_prefix (dumpDir cfg) +:+ dump_file_name (a +:+ String nul b) t)
    = dir_prefix (dumpDir cfg) +:+ sanitizeContainerId a).
  { intros b0 t0. rewrite c_str_app by by apply dir_prefix_no_nul. f_equal. unfold dump_file_name.
    assert (Hs : sanitizeContainerId (a +:+ String nul b0)
      = sanitizeContainerId a +:+ String nul (sanitizeContainerId b0)).
    { apply chars_inj. unfold sanitizeContainerId. rewrite !chars_app. cbn [chars].
      by rewrite !chars_of_chars, map_app. }
    rewrite Hs, str_app_assoc, c_str_app; [by rewrite str_app_nil_r|].
    unfold sanitizeContainerId. rewrite chars_of_chars. apply Forall_map.
    eapply Forall_impl; [exact Ha|]. intros c Hn. cbn. by repeat case_bool_decide. }
  by rewrite !Hcut.
Qed.

(** Two containers can share a dump file: the slash of a pod's qualified name becomes an
    underscore. *)
Lemma dump_path_collision cfg now :
  dump_path cfg "prod/api" now = dump_path cfg "prod_api" now.
Proof. done. Qed.

(** A second request while a dump is running: the stream keeps the first file and its error
    bit is set, so that the header is lost here and every later record with it (a write on
    such a stream does nothing), yet the dump restarts under the new path, which is the one
    that will be announced. *)
Lemma restart_loses_header {W} `{OS W} cfg cid dur b file :
  longDumpStream b = MkOfstream (Some file) true →
  holds (W:=W) (startLongDump cfg cid dur b) (λ r tr,
    (∀ p, written p tr = []) ∧
    ∀ b', r = Some b' → isLongDumpActive b' = true
      ∧ longDumpStream b' = MkOfstream (Some file) false
      ∧ ∃ now, longDumpFilePath b' = dump_path cfg cid now).
Proof.
  intros Hs. unfold startLongDump, nowTimestampForFile. io_step. io_step. destruct a; cbn [negb]; [|by io_step].
  do 4 io_step. cbv zeta. fold (dump_file_name cid a) (dump_path cfg cid a). unfold stream_open. rewrite Hs.
  cbn [st_file]. io_step. io_step. cbn [is_open st_file negb]. io_step.
  apply (holds_mono _ (λ _ t, ∀ p, written p t = [])).
  { unfold monotonicNowNs. io_step; by io_step. }
  intros start t Ht. io_step. unfold stream_write. destruct b. cbn. io_step. io_step.
  split; [intros p; rewrite ?app_nil_r; exact (Ht p)|]. intros b' [= <-]. cbn. eauto.
Qed.

(** *** Sample inputs *)

Definition sample_buffer : ContainerBuffer :=
  set_last 1000 (set_id "prod/api" new_buffer).

Definition ev (ts : Z) : SyscallEvent := MkSyscallEvent ts 1 1 10 42 2 0.

Lemma ev_wf ts : fits 64 ts → SyscallEvent_wf (ev ts).
Proof. intros Hts. unfold SyscallEvent_wf, fits in *. cbn. lia. Qed.

Lemma dump_session_file_witness :
  let m := dump_session default_config "prod/api" 1 [ev 3000; ev 9500] (ev 1000001000) sample_buffer in
  holds (W:=script) m (λ r tr, writes_ok tr →
    r = None
    ∨ (∃ st, is_open st = false ∧ r = Some (set_stream st sample_buffer))
        ∧ effects default_config tr [] [] ∧ (∀ p, written p tr = [])
    ∨ ∃ now, let path := dump_path default_config "prod/api" now in
        read_dump (written (c_str path) tr)
          = Some (trace_header default_config "prod/api" 1000, dump_records 1000 [ev 3000; ev 9500])
        ∧ effects default_config tr [] [MkNotice "prod/api" path 1000 1 2]
        ∧ ∃ b', r = Some b' ∧ isLongDumpActive b' = false ∧ is_open (longDumpStream b') = false)
  ∧ read_dump (written "/var/lib/deepkernel/dumps/prod_api-20250101-000000.dkdump" (run m bare).2)
    = Some (trace_header default_config "prod/api" 1000, dump_records 1000 [ev 3000; ev 9500]).
Proof.
  cbv zeta. split; [|vm_compute; reflexivity].
  apply (dump_session_file default_config "prod/api" 1 [ev 3000; ev 9500] (ev 1000001000) sample_buffer).
  - apply (bool_decide_unpack _). vm_compute. exact I.
  - reflexivity.
  - reflexivity.
  - discriminate.
  - unfold fits. cbn. lia.
  - repeat (apply Forall_cons; split; [apply ev_wf; unfold fits; lia|]). constructor.
  - repeat (apply Forall_cons; split; [vm_compute; split; [discriminate|reflexivity]|]). constructor.
  - vm_compute. discriminate.
Defined.

Definition waiting_buffer : ContainerBuffer :=
  set_window 2000 (replicate 20 (ev 2000)) new_buffer.

Lemma window_due_cases_witness :
  (window_due default_config waiting_buffer (ev 1999) = true ↔
    minEventsPerWindow default_config ≤ Z.of_nat (length (currentShortWindow waiting_buffer))
    ∧ (windowStartTsNs waiting_buffer + shortWindowSec default_config * 1000000000 ≤ tsNs (ev 1999)
       ∨ tsNs (ev 1999) < windowStartTsNs waiting_buffer))
  ∧ window_due default_config waiting_buffer (ev 1999) = true
  ∧ window_due default_config waiting_buffer (ev 2001) = false.
Proof.
  split; [|split; vm_compute; reflexivity].
  apply (window_due_cases default_config waiting_buffer (ev 1999));
    unfold fits, INT_MAX; cbn; lia.
Defined.
