(* ===== verification/Agent.v ===== *)
(** * Agent: the event path, the commands and the main loop

    [agent/include/agent.h], [agent/src/agent.cpp] and [agent/src/main.cpp]: naming a
    process's container, the container filter, the map of buffers with the three
    things an event triggers (window flush, expiry of dumps, clean-up of idle
    buffers), the handlers the HTTP server calls, the BPF start-up and the
    polling loop.  [regex_search] is [std::regex_search] on the operator's own
    pattern, [None] for the [std::regex_error] it may throw. *)

From S2P Require Export Ebpf Buffer.
From S2P Require Import DockerMapper ContainerMapper PolicyEnforcer AgentServer.

#[local] Open Scope Z_scope.

(** The handles [initBpf] fills; [true] is a non-null pointer. *)
Record BpfState := MkBpfState {
  ringbuf_ : bool;
  tp_link_ : bool;
  bpf_obj_ : bool;
  bpf_fd_ : Z;
}.

Definition no_bpf : BpfState := MkBpfState false false false (-1).

(** The members of [Agent] that the event path and the commands use.  The null or
    non-null mappers and enforcer are options. *)
Record Agent := MkAgent {
  config_ : AgentConfig;
  dockerMapper_ : option DockerMapper.t;
  containerMapper_ : option ContainerMapper.t;
  policyEnforcer_ : option PolicyEnforcer.t;
  buffers_ : gmap string ContainerBuffer;
  lastBufferCleanupNs_ : Z;
}.

Definition set_buffers (bs : gmap string ContainerBuffer) (a : Agent) : Agent :=
  let 'MkAgent c d m p _ l := a in MkAgent c d m p bs l.
Definition set_mappers (d : option DockerMapper.t) (m : option ContainerMapper.t) (a : Agent)
    : Agent :=
  let 'MkAgent c _ _ p b l := a in MkAgent c d m p b l.
Definition set_enforcer (p : option PolicyEnforcer.t) (a : Agent) : Agent :=
  let 'MkAgent c d m _ b l := a in MkAgent c d m p b l.
Definition set_cleanup (ts : Z) (a : Agent) : Agent :=
  let 'MkAgent c d m p b _ := a in MkAgent c d m p b ts.

Definition kCleanupIntervalNs : Z := 60 * 1000000000.
Definition kInactiveThresholdNs : Z := 300 * 1000000000.
Definition kBpfObjFile : string := "deepkernel.bpf.o".
Definition EINTR : Z := 4.

(** [buffers_[id]], inserting a default-constructed buffer. *)
Definition buffer_at (a : Agent) (id : string) : ContainerBuffer :=
  default new_buffer (buffers_ a !! id).

Definition mapped_event (evt : KernelSyscallEvent) : SyscallEvent := {|
  tsNs := ts_ns evt;
  pid := k_pid evt;
  tid := k_tid evt;
  cgroupId := cgroup_id evt;
  syscallId := syscall_id evt;
  argClass := arg_class evt;
  argBucket := arg_bucket evt;
|}.

(** The mapper settings the constructor copies from the configuration. *)
Definition mapper_config (cfg : AgentConfig) : ContainerMapper.Config :=
  ContainerMapper.MkConfig (dockerSocketPath cfg) (containerdSocketPath cfg)
    (crioSocketPath cfg) (crictlPath cfg) (containerMapCacheTTL cfg) (enableKubernetesApi cfg)
    (preferPodName cfg).

(** A buffer [cleanupInactiveBuffers] erases. *)
Definition idle (nowNs : Z) (b : ContainerBuffer) : bool :=
  (kInactiveThresholdNs <? u64 (nowNs - lastEventTsNs b))
  && negb (isLongDumpActive b)
  && match currentShortWindow b with [] => true | _ => false end.

Definition cleanupInactiveBuffers (nowNs : Z) (a : Agent) : Agent :=
  if u64 (nowNs - lastBufferCleanupNs_ a) <? kCleanupIntervalNs then a
  else set_buffers (filter (λ kv, idle nowNs kv.2 = false) (buffers_ a)) (set_cleanup nowNs a).

Section agent.
Context {W : Type} `{OS W} (regex_search : string → string → option bool).

(** The constructor; [None] when an exception leaves it. *)
Definition create (cfg : AgentConfig) : IO W (option Agent) :=
  enforcer ← PolicyEnforcer.create (dockerSocketPath cfg) (policyDir cfg)
               (policyEnforcementMode cfg);
  match enforcer with
  | None => mret None
  | Some e =>
      if useLegacyDockerMapper cfg then
        mret (Some (MkAgent cfg
          (Some (DockerMapper.create (dockerSocketPath cfg) (containerMapCacheTTL cfg)))
          None (Some e) ∅ 0))
      else
        m ← ContainerMapper.create (mapper_config cfg);
        mret (Some (MkAgent cfg None (Some m) (Some e) ∅ 0))
  end.

(** The name the mapper in use gives, and the mappers after the call. *)
Definition mapper_name (a : Agent) (cgroupId pid : Z)
    : IO W (string * option DockerMapper.t * option ContainerMapper.t) :=
  match dockerMapper_ a, containerMapper_ a with
  | Some d, m => '(name, d) ← DockerMapper.getContainerName d cgroupId pid; mret (name, Some d, m)
  | None, Some m =>
      '(name, m) ← ContainerMapper.getContainerName m cgroupId pid; mret (name, None, Some m)
  | None, None => mret ("", None, None)
  end.

Definition mapContainerId (a : Agent) (cgroupId pid : Z) : IO W (string * Agent) :=
  '(containerName, d, m) ← mapper_name a cgroupId pid;
  mret (if negb (empty containerName) then containerName else "host-" +:+ dec cgroupId,
        set_mappers d m a).

(** Whether the filter lets a container through; an invalid pattern filters nothing. *)
Definition passes_filter (cfg : AgentConfig) (containerId : string) : bool :=
  if empty (containerFilterRegex cfg) then true
  else default true (regex_search (containerFilterRegex cfg) containerId).

(** The loop over [buffers_], in the hash table's order. *)
Definition stopExpiredLongDumps (nowNs : Z) (a : Agent) : IO W Agent :=
  order ← hash_order (map_to_list (buffers_ a)).*1;
  io_fold (λ a id,
    match buffers_ a !! id with
    | Some b => b' ← stopExpired (config_ a) nowNs b; mret (set_buffers (<[id := b']> (buffers_ a)) a)
    | None => mret a
    end) a order.

(** The work on the event's own buffer. *)
Definition feed_buffer (cfg : AgentConfig) (evt : SyscallEvent) (b : ContainerBuffer)
    : IO W ContainerBuffer :=
  let b := queue_event evt b in
  b ← appendLongDump cfg b evt;
  if window_due cfg b evt then processShortWindow cfg b else mret b.

Definition handleEvent (a : Agent) (evt : KernelSyscallEvent) : IO W (Z * Agent) :=
  let mapped := mapped_event evt in
  '(containerId, a) ← mapContainerId a (cgroupId mapped) (pid mapped);
  if negb (passes_filter (config_ a) containerId) then mret (0, a)
  else
    b ← feed_buffer (config_ a) mapped (set_id containerId (buffer_at a containerId));
    let a := set_buffers (<[containerId := b]> (buffers_ a)) a in
    a ← stopExpiredLongDumps (tsNs mapped) a;
    mret (0, cleanupInactiveBuffers (tsNs mapped) a).

(** The ring-buffer callback on the bytes of one sample. *)
Definition handleEventThunk (a : Agent) (data : list Z) : IO W (Z * Agent) :=
  if (length data <? KernelSyscallEvent_size)%nat then mret (0, a)
  else handleEvent a (KernelSyscallEvent_of_bytes data).

(** [None] when [create_directories] throws. *)
Definition requestLongDump (a : Agent) (containerId : string) (durationSec : Z)
    : IO W (option Agent) :=
  b ← startLongDump (config_ a) containerId durationSec
        (set_id containerId (buffer_at a containerId));
  mret (b ← b; Some (set_buffers (<[containerId := b]> (buffers_ a)) a)).

Definition handlePolicy (a : Agent) (containerId policyId policyType specJson : string)
    : IO W (bool * Agent) :=
  match policyEnforcer_ a with
  | Some e =>
      '(ok, e) ← PolicyEnforcer.apply e containerId policyId policyType specJson;
      mret (ok, set_enforcer (Some e) a)
  | None => mret (false, a)
  end.

(** The two handlers [initServer] installs. *)
Definition long_dump_handler : AgentServer.LongDumpHandler (W:=W) (S:=Agent) :=
  λ a containerId durationSec _, requestLongDump a containerId durationSec.
Definition policy_handler : AgentServer.PolicyHandler (W:=W) (S:=Agent) := handlePolicy.

Definition initServer (cfg : AgentConfig) : IO W AgentServer.t :=
  '(_, srv) ← AgentServer.start (AgentServer.create (agentListenPort cfg));
  mret srv.

Definition initBpf : IO W (bool * BpfState) :=
  obj ← call (BpfOpen kBpfObjFile);
  if negb obj then mret (false, no_bpf)
  else
    loaded ← call BpfLoad;
    if negb loaded then mret (false, no_bpf)
    else
      prog ← call (BpfFindProgram "handle_sys_enter");
      if negb prog then mret (false, no_bpf)
      else
        link ← call (BpfAttachTracepoint "raw_syscalls" "sys_enter");
        if negb link then mret (false, no_bpf)
        else
          map_fd ← call (BpfFindMap "events");
          if map_fd <? 0 then mret (false, MkBpfState false true false (-1))
          else
            rb ← call (RingBufferNew map_fd);
            if negb rb then mret (false, MkBpfState false true false (-1))
            else mret (true, MkBpfState true true true map_fd).

(** [reset] of a handle runs its deleter when it is not null. *)
Definition release (handle : string) (held : bool) : IO W unit :=
  if held then call (BpfRelease handle) else mret tt.

Definition cleanupBpf (s : BpfState) : IO W BpfState :=
  _ ← release "ringbuf" (ringbuf_ s);
  _ ← release "link" (tp_link_ s);
  _ ← release "object" (bpf_obj_ s);
  mret (MkBpfState false false false (bpf_fd_ s)).

(** The polling loop, at most [fuel] turns; the flag says whether it was left. *)
Fixpoint poll_loop (fuel : nat) (a : Agent) : IO W (bool * Agent) :=
  match fuel with
  | O => mret (false, a)
  | S fuel =>
      stopping ← call LoadSignalStop;
      if stopping : bool then mret (true, a)
      else
        '(samples, err) ← call (RingBufferPoll 100);
        a ← io_fold (λ a data, r ← handleEventThunk a data; mret r.2) a samples;
        if err =? - EINTR then mret (true, a)
        else if err <? 0 then mret (true, a)
        else poll_loop fuel a
  end.

(** How [run] ends: the exit status, an exception, or the bound on the turns. *)
Inductive run_end :=
  | Exit (status : Z) (a : Agent) (bpf : BpfState) (srv : option AgentServer.t)
  | Terminate
  | StillRunning (a : Agent).

Definition run (fuel : nat) (a : Agent) : IO W run_end :=
  '(ok, bpf) ← initBpf;
  if negb ok then mret (Exit 1 a bpf None)
  else
    srv ← initServer (config_ a);
    started ← (if autoBaselineDump (config_ a)
               then requestLongDump a "baseline" (longDumpDefaultDurationSec (config_ a))
               else mret (Some a));
    match started with
    | None => mret Terminate
    | Some a =>
        '(finished, a) ← poll_loop fuel a;
        if negb finished then mret (StillRunning a)
        else
          srv ← AgentServer.stop srv;
          bpf ← cleanupBpf bpf;
          mret (Exit 0 a bpf (Some srv))
    end.

(** The destructor. *)
Definition destroy (bpf : BpfState) (srv : option AgentServer.t)
    : IO W (BpfState * option AgentServer.t) :=
  srv ← match srv with
        | Some s => s ← AgentServer.stop s; mret (Some s)
        | None => mret None
        end;
  bpf ← cleanupBpf bpf;
  mret (bpf, srv).

(** [main]: settings, construction, [run], destruction. *)
Definition main (fuel : nat) : IO W run_end :=
  cfg ← loadConfig;
  agent ← create cfg;
  match agent with
  | None => mret Terminate
  | Some a =>
      e ← run fuel a;
      match e with
      | Exit status a bpf srv =>
          '(bpf, srv) ← destroy bpf srv; mret (Exit status a bpf srv)
      | _ => mret e
      end
  end.

(** ** Events and commands interleaved

    The ring-buffer callback runs in the main thread and the HTTP handlers in the
    server's, on the same [Agent], without a lock.  The model interleaves them
    whole: each input is one callback or one handler call. *)

Inductive input :=
  | Sample (data : list Z)
  | LongDump (containerId : string) (durationSec : Z) (reason : string)
  | ApplyPolicy (containerId policyId policyType specJson : string).

Definition agent_step (a : Agent) (i : input) : IO W (option Agent) :=
  match i with
  | Sample data => '(_, a) ← handleEventThunk a data; mret (Some a)
  | LongDump c d r => long_dump_handler a c d r
  | ApplyPolicy c p ty s => '(_, a) ← policy_handler a c p ty s; mret (Some a)
  end.

(** A run over inputs, until a handler throws. *)
Fixpoint agent_steps (a : Agent) (l : list input) : IO W (option Agent) :=
  match l with
  | [] => mret (Some a)
  | i :: l =>
      a' ← agent_step a i;
      match a' with
      | Some a => agent_steps a l
      | None => mret None
      end
  end.
End agent.

(** ** Specification: what becomes of an event *)

(** The events of a container that wait in its window. *)
Definition pending (a : Agent) (c : string) : list SyscallEvent :=
  match buffers_ a !! c with Some b => currentShortWindow b | None => [] end.

(** The events of a container among posted windows, in order. *)
Definition flushed (c : string) (ws : list window) : list SyscallEvent :=
  concat (map w_events (filter (λ w, w_id w = c) ws)).

(** A window worth posting: it starts with its first event, holds at least the configured
    number of events and spans at least the configured time (in 64-bit arithmetic). *)
Definition window_ok (cfg : AgentConfig) (w : window) : Prop :=
  ∃ e rest, w_events w = e :: rest ∧ w_start w = tsNs e
    ∧ minEventsPerWindow cfg ≤ s32 (Z.of_nat (length (w_events w)))
    ∧ seconds_ns (shortWindowSec cfg) ≤ u64 (tsNs (List.last rest e) - w_start w).

Definition agent_ok (a : Agent) : Prop :=
  url_ok (config_ a) ∧ map_Forall buffer_ok (buffers_ a).

(** A dump whose end has come. *)
Definition expired (now : Z) (b : ContainerBuffer) : bool :=
  isLongDumpActive b && (longDumpEndTsNs b <=? now).

Definition KernelSyscallEvent_wf (e : KernelSyscallEvent) : Prop :=
  fits 64 (ts_ns e) ∧ fits 32 (k_pid e) ∧ fits 32 (k_tid e) ∧ fits 32 (cgroup_id e)
  ∧ fits 16 (syscall_id e) ∧ fits 8 (arg_class e) ∧ fits 8 (arg_bucket e).

(** ** Lemmas *)

Lemma mapped_event_wf e : KernelSyscallEvent_wf e → SyscallEvent_wf (mapped_event e).
Proof.
  intros (? & ? & ? & Hc & ? & ? & ?). split_and!; try done. eapply fits_mono; [|exact Hc]. lia.
Qed.

Lemma flushed_app c ws ws' : flushed c (ws ++ ws') = flushed c ws ++ flushed c ws'.
Proof. unfold flushed. by rewrite filter_app, map_app, concat_app. Qed.

Lemma flushed_one c w : flushed c [w] = if decide (w_id w = c) then w_events w else [].
Proof.
  unfold flushed. rewrite filter_cons, filter_nil. case_decide; [|done]. cbn. by rewrite app_nil_r.
Qed.

Lemma finished_window b b' :
  finished b b' → currentShortWindow b' = currentShortWindow b ∧ isLongDumpActive b' = false.
Proof. intros (st & _ & ->). by destruct b. Qed.

#[local] Existing Instance DockerMapper.getContainerName_silent.
#[local] Existing Instance ContainerMapper.getContainerName_silent.
#[local] Existing Instance PolicyEnforcer.apply_unposted.

Section event.
Context {W : Type} `{OS W}.

#[export] Instance mapper_name_silent a cg p : Emits silent (mapper_name (W:=W) a cg p).
Proof. unfold mapper_name. apply _. Qed.

Lemma mapContainerId_holds a cg p :
  holds (W:=W) (mapContainerId a cg p) (λ r tr,
    Forall silent tr ∧ r.1 ≠ "" ∧ ∃ d m, r.2 = set_mappers d m a).
Proof.
  unfold mapContainerId. io_step.
  apply (holds_mono _ (λ _ t, Forall silent t)); [apply emits|].
  intros [[name d] m] t Ht. io_step. cbn [fst snd]. rewrite app_nil_r. split_and!; [done| |by eauto].
  destruct (empty name) eqn:Hn; [done|by apply empty_false].
Qed.

(** Feeding an event to its buffer: it joins the window, which is posted exactly when due. *)
Lemma feed_buffer_holds cfg evt id b :
  url_ok cfg → SyscallEvent_wf evt → buffer_ok id b →
  holds (W:=W) (feed_buffer cfg evt b) (λ b' tr,
    buffer_ok id b' ∧ ∃ ns,
      let w := window_of (queue_event evt b) in
      if window_due cfg (queue_event evt b) evt
      then effects cfg tr [w] ns ∧ currentShortWindow b' = []
      else effects cfg tr [] ns ∧ currentShortWindow b' = currentShortWindow b ++ [evt]).
Proof.
  intros Hurl He Hb. unfold feed_buffer. cbv zeta.
  pose proof (queue_event_ok _ _ _ He Hb) as Hq. set (bq := queue_event evt b) in *.
  assert (Hw : currentShortWindow bq = currentShortWindow b ++ [evt]) by (subst bq; by destruct b).
  clearbody bq. io_step. eapply holds_mono; [by apply appendLongDump_holds|].
  intros b1 t1 H1.
  assert (Hb1 : buffer_ok id b1 ∧ window_of b1 = window_of bq ∧ ∃ ns, effects cfg t1 [] ns).
  { destruct (_ && _) eqn:Ha in H1.
    - apply andb_true_iff in Ha as [Ha1 Ha2]. destruct (_ <=? _).
      + destruct H1 as [Hf He1]. split; [by eapply finished_ok|]. split; [|eauto].
        destruct Hf as (st & _ & ->). by destruct bq.
      + destruct H1 as [(st & Hst & ->) He1]. split; [by apply recorded_ok|]. split; [|eauto].
        by destruct bq.
    - destruct H1 as [-> ->]. split_and!; [done|done|]. exists []. by apply effects_silent. }
  clear H1. destruct Hb1 as (Hb1 & Hsame & ns & He1).
  assert (Hdue : window_due cfg b1 evt = window_due cfg bq evt).
  { unfold window_of in Hsame. injection Hsame as _ Hs Hc. unfold window_due. by rewrite Hs, Hc. }
  assert (Hw1 : currentShortWindow b1 = currentShortWindow b ++ [evt])
    by (injection Hsame as _ _ Hc; congruence).
  rewrite Hdue. destruct (window_due cfg bq evt).
  - eapply holds_mono; [by apply processShortWindow_holds|]. intros b2 t2 [-> He2].
    rewrite Hw1 in He2. destruct (currentShortWindow b ++ [evt]) eqn:Hne in He2;
      [by destruct (currentShortWindow b)|].
    assert (Hb2 : set_window match currentShortWindow b1 with [] => windowStartTsNs b1 | _ => 0 end [] b1
      = set_window 0 [] b1) by (rewrite Hw1; by destruct (currentShortWindow b)).
    rewrite Hb2. split; [by apply flushed_ok|]. exists ns. split; [|by destruct b1].
    rewrite <-Hsame, <-(app_nil_r ns). by apply (effects_app cfg t1 t2 [] _ ns []).
  - io_step. split; [done|]. exists ns. rewrite app_nil_r. done.
Qed.

Lemma window_due_ok cfg id evt b :
  SyscallEvent_wf evt → buffer_ok id b → window_due cfg (queue_event evt b) evt = true →
  window_ok cfg (window_of (queue_event evt b)).
Proof.
  intros He Hb Hdue. pose proof (queue_event_ok _ _ _ He Hb) as [_ Hst _ _ _ _ _].
  assert (Hw : currentShortWindow (queue_event evt b) = currentShortWindow b ++ [evt])
    by by destruct b.
  unfold window_due in Hdue. apply andb_true_iff in Hdue as [Hd Hm]. bool_to_prop.
  unfold window_ok, window_of. cbn [w_events w_start]. rewrite Hw in *.
  destruct (currentShortWindow b) as [|e rest] eqn:Hc; cbn [app] in *.
  - exists evt, []. by split_and!.
  - exists e, (rest ++ [evt]). split_and!; try done.
    by rewrite last_last.
Qed.

(** *** Expiry *)

(** The dumps of a list of containers that end now. *)
Definition notices (now : Z) (a : Agent) (ids : list string) : list notice :=
  omap (λ id, b ← buffers_ a !! id; if expired now b then Some (notice_of b) else None) ids.

(** The buffers after the containers in [ids] have been looked at. *)
Definition swept (now : Z) (ids : list string) (a a' : Agent) : Prop :=
  a' = set_buffers (buffers_ a') a ∧ map_Forall buffer_ok (buffers_ a') ∧
  ∀ c, match buffers_ a !! c with
       | None => buffers_ a' !! c = None
       | Some b => ∃ b', buffers_ a' !! c = Some b'
           ∧ if bool_decide (c ∈ ids) && expired now b then finished b b' else b' = b
       end.

Lemma config_set_buffers bs a : config_ (set_buffers bs a) = config_ a.
Proof. by destruct a. Qed.
Lemma buffers_set_buffers bs a : buffers_ (set_buffers bs a) = bs.
Proof. by destruct a. Qed.
Lemma set_buffers_twice bs bs' a : set_buffers bs (set_buffers bs' a) = set_buffers bs a.
Proof. by destruct a. Qed.
Lemma set_buffers_same a : set_buffers (buffers_ a) a = a.
Proof. by destruct a. Qed.

#[local] Hint Rewrite config_set_buffers buffers_set_buffers set_buffers_twice set_buffers_same : dk_str.

Lemma swept_nil now a : map_Forall buffer_ok (buffers_ a) → swept now [] a a.
Proof.
  intros Hok. split; [by rewrite set_buffers_same|]. split; [done|].
  intros c. destruct (buffers_ a !! c) as [b|]; [|done]. exists b. split; [done|].
  by rewrite bool_decide_false by by apply not_elem_of_nil.
Qed.

(** One container, then the rest. *)
Lemma swept_cons now id ids a a1 a' :
  id ∉ ids → swept now [id] a a1 → swept now ids a1 a' → swept now (id :: ids) a a'.
Proof.
  intros Hid (H1 & _ & S1) (H2 & Hok & S2). split; [|split; [done|]].
  { rewrite H2, H1. by autorewrite with dk_str. }
  intros c. specialize (S1 c). specialize (S2 c). destruct (buffers_ a !! c) as [b|].
  - destruct S1 as (b1 & Hb1 & F1). rewrite Hb1 in S2. destruct S2 as (b2 & Hb2 & F2).
    exists b2. split; [done|]. destruct (decide (c = id)) as [->|Hne].
    + rewrite (bool_decide_true (id ∈ id :: ids)) by by left.
      rewrite bool_decide_true in F1 by by left. rewrite bool_decide_false in F2 by done.
      cbn [andb] in *. by rewrite F2.
    + rewrite bool_decide_false in F1 by by rewrite list_elem_of_singleton. cbn [andb] in F1.
      subst b1. rewrite (bool_decide_ext (c ∈ id :: ids) (c ∈ ids)); [done|].
      rewrite elem_of_cons. naive_solver.
  - by rewrite S1 in S2.
Qed.

Lemma notices_swept now id a a1 ids :
  id ∉ ids → swept now [id] a a1 → notices now a1 ids = notices now a ids.
Proof.
  intros Hid (_ & _ & S). unfold notices. induction ids as [|c ids IH]; [done|].
  apply not_elem_of_cons in Hid as [Hne Hid]. cbn [omap list_omap]. rewrite (IH Hid).
  specialize (S c). destruct (buffers_ a !! c) as [b|]; [|by rewrite S].
  destruct S as (b1 & -> & F). rewrite bool_decide_false in F by by rewrite list_elem_of_singleton.
  cbn [andb] in F. by subst.
Qed.

Definition expire_one (now : Z) (a : Agent) (id : string) : IO W Agent :=
  match buffers_ a !! id with
  | Some b => b' ← stopExpired (config_ a) now b; mret (set_buffers (<[id := b']> (buffers_ a)) a)
  | None => mret a
  end.

Lemma expire_one_holds now a id :
  agent_ok a →
  holds (W:=W) (expire_one now a id) (λ a' tr,
    swept now [id] a a' ∧ effects (config_ a) tr [] (notices now a [id])).
Proof.
  intros [Hurl Hok]. unfold expire_one, notices. cbn [omap list_omap].
  destruct (buffers_ a !! id) as [b|] eqn:Hb; cbn [mbind option_bind].
  - pose proof (Hok _ _ Hb) as Hbok. io_step.
    eapply holds_mono; [apply stopExpired_holds; [done|by apply ok_stream with id]|].
    intros b' tr Hr. io_step. rewrite app_nil_r. fold (expired now b) in Hr.
    assert (Hb' : buffer_ok id b' ∧
      if expired now b then finished b b' else b' = b).
    { destruct (expired now b); [|by destruct Hr as [-> _]].
      destruct Hr as [Hf _]. split; [by eapply finished_ok|done]. }
    split; [split_and!|].
    + by autorewrite with dk_str.
    + rewrite buffers_set_buffers. apply map_Forall_insert_2; [apply Hb'|done].
    + intros c. rewrite buffers_set_buffers. destruct (decide (c = id)) as [->|Hne].
      * rewrite Hb, lookup_insert_eq. exists b'. rewrite bool_decide_true by by left.
        split; [done|apply Hb'].
      * rewrite lookup_insert_ne by done. destruct (buffers_ a !! c) as [b2|]; [|done].
        exists b2. split; [done|].
        by rewrite bool_decide_false by by rewrite list_elem_of_singleton.
    + destruct (expired now b); [by destruct Hr|]. destruct Hr as [_ ->]. by apply effects_silent.
  - io_step. split; [|by apply effects_silent]. split; [by rewrite set_buffers_same|].
    split; [done|]. intros c. destruct (buffers_ a !! c) as [b|] eqn:Hc; [|done].
    exists b. split; [done|]. destruct (decide (c = id)) as [->|Hne]; [congruence|].
    by rewrite bool_decide_false by by rewrite list_elem_of_singleton.
Qed.

Lemma expire_all_holds now ids a :
  NoDup ids → agent_ok a →
  holds (W:=W) (io_fold (expire_one now) a ids) (λ a' tr,
    swept now ids a a' ∧ effects (config_ a) tr [] (notices now a ids)).
Proof.
  revert a. induction ids as [|id ids IH]; intros a Hnd Hok; cbn [io_fold].
  - io_step. split; [apply swept_nil, Hok|by apply effects_silent].
  - apply NoDup_cons in Hnd as [Hid Hnd]. io_step.
    eapply holds_mono; [by apply expire_one_holds|]. intros a1 t1 [S1 E1].
    assert (Hcfg : config_ a1 = config_ a) by (rewrite (proj1 S1); apply config_set_buffers).
    eapply holds_mono; [apply IH; [done|]|].
    { split; [by rewrite Hcfg; apply Hok|apply S1]. }
    intros a2 t2 [S2 E2]. split; [by eapply swept_cons|].
    rewrite Hcfg in E2. rewrite (notices_swept _ _ _ _ _ Hid S1) in E2.
    apply (effects_app _ _ _ [] [] _ _ E1) in E2.
    replace (notices now a (id :: ids)) with (notices now a [id] ++ notices now a ids); [done|].
    unfold notices. cbn [omap list_omap]. by case_match.
Qed.

Lemma stopExpiredLongDumps_holds now a :
  agent_ok a →
  holds (W:=W) (stopExpiredLongDumps now a) (λ a' tr, ∃ ids,
    ids ≡ₚ (map_to_list (buffers_ a)).*1 ∧ swept now ids a a'
    ∧ effects (config_ a) tr [] (notices now a ids)).
Proof.
  intros Hok. unfold stopExpiredLongDumps, hash_order. io_step. io_step. io_step. io_step.
  set (order := if decide _ then a0 else _).
  assert (Ho : order ≡ₚ (map_to_list (buffers_ a)).*1) by (subst order; by case_decide).
  clearbody order. eapply holds_mono; [apply (expire_all_holds now order a); [|done]|].
  - rewrite Ho. apply NoDup_fst_map_to_list.
  - intros a' tr [Hs He]. exists order. split_and!; [done..|].
    apply (effects_app _ ([Ev _ _] ++ []) tr [] [] [] (notices now a order)); [|done].
    by apply effects_silent; repeat constructor.
Qed.

(** All containers were looked at. *)
Lemma swept_all now ids a a' c :
  ids ≡ₚ (map_to_list (buffers_ a)).*1 → swept now ids a a' →
  match buffers_ a !! c with
  | None => buffers_ a' !! c = None
  | Some b => ∃ b', buffers_ a' !! c = Some b' ∧ if expired now b then finished b b' else b' = b
  end.
Proof.
  intros Hids (_ & _ & S). specialize (S c). destruct (buffers_ a !! c) as [b|] eqn:Hb; [|done].
  destruct S as (b' & ? & F). exists b'. split; [done|].
  rewrite bool_decide_true in F; [done|]. rewrite Hids. apply list_elem_of_fmap.
  exists (c, b). split; [done|]. by apply elem_of_map_to_list.
Qed.

(** *** Clean-up *)

(** Only idle buffers go, and only when a minute has passed since the last clean-up. *)
Lemma cleanup_lookup now a c :
  buffers_ (cleanupInactiveBuffers now a) !! c =
  if u64 (now - lastBufferCleanupNs_ a) <? kCleanupIntervalNs then buffers_ a !! c
  else b ← buffers_ a !! c; if idle now b then None else Some b.
Proof.
  unfold cleanupInactiveBuffers. case_bool; [done|]. rewrite buffers_set_buffers.
  rewrite map_lookup_filter. destruct (buffers_ a !! c) as [b|]; [|done].
  cbn [mbind option_bind]. case_guard as Hg; cbn [snd] in Hg;
    cbn [mret option_ret mbind option_bind].
  - by rewrite Hg.
  - by apply not_false_is_true in Hg as ->.
Qed.

Lemma idle_empty now b : idle now b = true → currentShortWindow b = [] ∧ isLongDumpActive b = false.
Proof.
  unfold idle. intros Hi. bool_to_prop. split; [by destruct (currentShortWindow b)|done].
Qed.

Lemma cleanup_pending now a c : pending (cleanupInactiveBuffers now a) c = pending a c.
Proof.
  unfold pending. rewrite cleanup_lookup. case_bool; [done|].
  destruct (buffers_ a !! c) as [b|]; [|done]. cbn [mbind option_bind].
  destruct (idle now b) eqn:Hi; [|done]. by destruct (idle_empty _ _ Hi) as [-> _].
Qed.

Lemma cleanup_config now a : config_ (cleanupInactiveBuffers now a) = config_ a.
Proof. unfold cleanupInactiveBuffers. case_bool; by destruct a. Qed.

Lemma cleanup_ok now a : agent_ok a → agent_ok (cleanupInactiveBuffers now a).
Proof.
  intros [Hu Hok]. split; [by rewrite cleanup_config|]. intros c b Hb.
  rewrite cleanup_lookup in Hb. apply Hok. destruct (_ <? _); [done|].
  destruct (buffers_ a !! c) as [b'|]; [|done]. cbn in Hb. by destruct (idle now b').
Qed.

Lemma swept_pending now ids a a' c : swept now ids a a' → pending a' c = pending a c.
Proof.
  intros (_ & _ & S). specialize (S c). unfold pending. destruct (buffers_ a !! c) as [b|].
  - destruct S as (b' & -> & F). destruct (_ && _); [by apply finished_window in F as [-> _]|by subst].
  - by rewrite S.
Qed.

Lemma swept_ok now ids a a' : url_ok (config_ a) → swept now ids a a' → agent_ok a' ∧ config_ a' = config_ a.
Proof.
  intros Hu (Ha & Hok & _).
  assert (Hc : config_ a' = config_ a) by (rewrite Ha; apply config_set_buffers).
  split; [|done]. split; [by rewrite Hc|done].
Qed.

End event.

(** *** One event *)

Section one_event.
Context {W : Type} `{OS W} (regex_search : string → string → option bool).

(** What handling one event does to the windows: [id] is the container it was given. *)
Definition conserved (cfg : AgentConfig) (a a' : Agent) (new : string → list SyscallEvent)
    (ws : list window) : Prop :=
  Forall (window_ok cfg) ws ∧ ∀ c, flushed c ws ++ pending a' c = pending a c ++ new c.

Lemma conserved_refl cfg a : conserved cfg a a (λ _, []) [].
Proof. split; [constructor|]. intros c. by rewrite app_nil_r. Qed.

Lemma conserved_trans cfg a1 a2 a3 n1 n2 w1 w2 :
  conserved cfg a1 a2 n1 w1 → conserved cfg a2 a3 n2 w2 →
  conserved cfg a1 a3 (λ c, n1 c ++ n2 c) (w1 ++ w2).
Proof.
  intros [F1 C1] [F2 C2]. split; [by apply Forall_app_2|]. intros c.
  by rewrite flushed_app, <-app_assoc, C2, !app_assoc, C1.
Qed.

Lemma config_set_mappers d m a : config_ (set_mappers d m a) = config_ a.
Proof. by destruct a. Qed.
Lemma buffers_set_mappers d m a : buffers_ (set_mappers d m a) = buffers_ a.
Proof. by destruct a. Qed.

Lemma buffer_at_ok a id : agent_ok a → buffer_ok id (set_id id (buffer_at a id)).
Proof.
  intros [_ Hok]. unfold buffer_at. destruct (buffers_ a !! id) as [b|] eqn:Hb; cbn [default].
  - pose proof (Hok _ _ Hb) as Hbok. by rewrite set_id_ok.
  - apply new_buffer_ok.
Qed.

Lemma buffer_at_window a id : currentShortWindow (set_id id (buffer_at a id)) = pending a id.
Proof. unfold buffer_at, pending. destruct (buffers_ a !! id) as [b|]; [by destruct b|done]. Qed.

(** The events a sample adds: to its container, if the filter lets it through. *)
Definition arrival (cfg : AgentConfig) (id : string) (evt : KernelSyscallEvent) (c : string)
    : list SyscallEvent :=
  if decide (c = id) then if passes_filter regex_search cfg id then [mapped_event evt] else [] else [].

Lemma pending_insert a id b' :
  ∀ c, pending (set_buffers (<[id := b']> (buffers_ a)) a) c
    = if decide (c = id) then currentShortWindow b' else pending a c.
Proof.
  intros c. unfold pending. rewrite buffers_set_buffers.
  case_decide; [subst; by rewrite lookup_insert_eq|by rewrite lookup_insert_ne].
Qed.
(** The agent after an event has been fed, before expiry and clean-up. *)
Lemma fed_conserved cfg a evt id b' ws :
  passes_filter regex_search cfg id = true →
  Forall (window_ok cfg) ws → Forall (λ w, w_id w = id) ws →
  concat (map w_events ws) ++ currentShortWindow b' = pending a id ++ [mapped_event evt] →
  conserved cfg a (set_buffers (<[id := b']> (buffers_ a)) a) (arrival cfg id evt) ws.
Proof.
  intros Hf Hok Hid Heq. split; [done|]. intros c. rewrite pending_insert. unfold arrival. rewrite Hf.
  destruct (decide (c = id)) as [->|Hne].
  - rewrite <-Heq. f_equal. unfold flushed. f_equal. f_equal. clear -Hid.
    induction Hid as [|w ws Hw _ IH]; [done|]. rewrite filter_cons, decide_True by done. by f_equal.
  - rewrite app_nil_r. assert (flushed c ws = []) as ->; [|done]. unfold flushed. clear -Hid Hne.
    induction Hid as [|w ws Hw _ IH]; [done|]. rewrite filter_cons, decide_False by congruence. done.
Qed.


Lemma set_buffers_ok a id b' : agent_ok a → buffer_ok id b' → agent_ok (set_buffers (<[id := b']> (buffers_ a)) a).
Proof.
  intros [Hu Hok] Hb. split; [by rewrite config_set_buffers|]. rewrite buffers_set_buffers.
  by apply map_Forall_insert_2.
Qed.

Lemma set_mappers_ok d m a : agent_ok a → agent_ok (set_mappers d m a).
Proof. intros [Hu Hok]. split; [by rewrite config_set_mappers|by rewrite buffers_set_mappers]. Qed.

(** What handling one event guarantees, [id] being the name its process was given. *)
Definition event_handled (a : Agent) (evt : KernelSyscallEvent) (r : Z * Agent)
    (tr : list event) : Prop :=
  r.1 = 0 ∧ agent_ok r.2 ∧ config_ r.2 = config_ a ∧
  ∃ id ws ns, id ≠ "" ∧ effects (config_ a) tr ws ns
    ∧ conserved (config_ a) a r.2 (arrival (config_ a) id evt) ws
    ∧ Forall (λ w, w_id w = id) ws ∧ (length ws ≤ 1)%nat
    ∧ (passes_filter regex_search (config_ a) id = true →
       map_Forall (λ _ b, expired (ts_ns evt) b = false) (buffers_ r.2)).

Lemma swept_none_expired now ids a a' :
  ids ≡ₚ (map_to_list (buffers_ a)).*1 → swept now ids a a' →
  map_Forall (λ _ b, expired now b = false) (buffers_ a').
Proof.
  intros Hids Hs c b' Hb'. pose proof (swept_all _ _ _ _ c Hids Hs) as Hc.
  destruct (buffers_ a !! c) as [b|]; [|congruence]. destruct Hc as (b2 & Hb2 & F).
  rewrite Hb2 in Hb'. simplify_eq. destruct (expired now b) eqn:He; [|by subst].
  apply finished_window in F as [_ F]. unfold expired. by rewrite F.
Qed.

(** The windows that feeding the buffer of [id] posts, and the events it leaves. *)
Lemma feed_conserved a id evt b' tr ns :
  agent_ok a → KernelSyscallEvent_wf evt → passes_filter regex_search (config_ a) id = true →
  (let evt := mapped_event evt in
   let b := set_id id (buffer_at a id) in
   let w := window_of (queue_event evt b) in
   if window_due (config_ a) (queue_event evt b) evt
   then effects (config_ a) tr [w] ns ∧ currentShortWindow b' = []
   else effects (config_ a) tr [] ns ∧ currentShortWindow b' = currentShortWindow b ++ [evt]) →
  ∃ ws, effects (config_ a) tr ws ns ∧ Forall (λ w, w_id w = id) ws ∧ (length ws ≤ 1)%nat
    ∧ conserved (config_ a) a (set_buffers (<[id := b']> (buffers_ a)) a)
        (arrival (config_ a) id evt) ws.
Proof.
  cbv zeta. intros Hok Hwf%mapped_event_wf Hf Hfeed. destruct (window_due _ _ _) eqn:Hdue; destruct Hfeed as [He Hw].
  - eexists [_]. split; [exact He|]. split_and!; [|simpl; lia|].
    + repeat constructor. cbn. by destruct (buffer_at a id).
    + apply fed_conserved; [done| | |].
      * repeat constructor. by eapply window_due_ok, Hdue; [|apply (buffer_at_ok a id)].
      * repeat constructor. cbn. by destruct (buffer_at a id).
      * rewrite Hw. cbn [map concat]. rewrite !app_nil_r, <-buffer_at_window.
        by destruct (set_id id (buffer_at a id)).
  - exists []. split; [exact He|]. split_and!; [constructor|simpl; lia|].
    apply fed_conserved; [done|constructor|constructor|]. by rewrite Hw, buffer_at_window.
Qed.

Lemma handleEvent_holds a evt :
  agent_ok a → KernelSyscallEvent_wf evt →
  holds (W:=W) (handleEvent regex_search a evt) (event_handled a evt).
Proof.
  intros Hok Hevt. unfold handleEvent. cbv zeta. io_step.
  eapply holds_mono; [apply mapContainerId_holds|].
  intros [id a1] t1 (Ht1 & Hid & d & m & Ha1). cbn [fst snd] in *. subst a1.
  pose proof (set_mappers_ok d m a Hok) as Hok1. rewrite config_set_mappers.
  assert (Hp1 : ∀ c, pending (set_mappers d m a) c = pending a c)
    by (intros c; unfold pending; by rewrite buffers_set_mappers).
  destruct (passes_filter regex_search (config_ a) id) eqn:Hf; cbn [negb].
  2: { io_step. split_and!; [done|done|apply config_set_mappers|]. exists id, [], [].
    cbn [fst snd]. rewrite app_nil_r, Hf. split_and!; try done; [by apply effects_silent| |simpl; lia].
    split; [constructor|]. intros c. unfold arrival. rewrite Hf, Hp1.
    by destruct (decide _); rewrite app_nil_r. }
  assert (Hcfg1 : config_ (set_mappers d m a) = config_ a) by apply config_set_mappers.
  set (am := set_mappers d m a) in *.
  pose proof (mapped_event_wf _ Hevt) as Hwf. pose proof (buffer_at_ok am id Hok1) as Hb.
  io_step. eapply holds_mono;
    [apply (feed_buffer_holds _ _ id); [apply Hok|done|done]|].
  intros b' t2 (Hb' & ns1 & Hfeed).
  destruct (feed_conserved am id evt b' t2 ns1) as (ws & He2 & Hwid & Hlen & Hfed);
    [done|done|by rewrite Hcfg1|by rewrite Hcfg1|]. rewrite Hcfg1 in He2, Hfed.
  pose proof (set_buffers_ok am id b' Hok1 Hb') as Hok2.
  set (a2 := set_buffers (<[id := b']> (buffers_ am)) am) in *.
  assert (Hcfg2 : config_ a2 = config_ a)
    by (subst a2; by rewrite config_set_buffers).
  io_step. eapply holds_mono; [by apply stopExpiredLongDumps_holds|].
  intros a3 t3 (ids & Hids & Hs & He3). rewrite Hcfg2 in He3. io_step.
  destruct (swept_ok _ _ _ _ (proj1 Hok2) Hs) as [Hok3 Hcfg3].
  unfold event_handled. cbn [fst snd]. split_and!; [done|by apply cleanup_ok| |].
  { rewrite cleanup_config. congruence. }
  exists id, ws, (ns1 ++ notices (tsNs (mapped_event evt)) a2 ids).
  split_and!; [done| | |done|done|].
  - rewrite app_nil_r. apply (effects_app _ t1 (t2 ++ t3) [] ws []); [by apply effects_silent|].
    rewrite <-(app_nil_r ws). by apply (effects_app _ t2 t3 ws [] ns1).
  - destruct Hfed as [F C]. split; [done|]. intros c.
    rewrite cleanup_pending, (swept_pending _ _ _ _ c Hs), C. by rewrite Hp1.
  - intros _ c b Hcb. rewrite cleanup_lookup in Hcb.
    pose proof (swept_none_expired _ _ _ _ Hids Hs) as Hnone.
    destruct (_ <? _); [by apply (Hnone c)|].
    destruct (buffers_ a3 !! c) as [b3|] eqn:Hb3; [|done]. cbn in Hcb.
    destruct (idle _ b3); simplify_eq. by apply (Hnone c).
Qed.

(** *** Sequences of inputs *)

(** Inputs whose samples are bytes. *)
Definition input_wf (i : input) : Prop :=
  match i with Sample data => Forall (fits 8) data | _ => True end.

(** The accepted events of a run with the containers they were given: each long enough
    sample gives its event a name, and the event is dropped exactly when the filter rejects
    that name; commands add none. *)
Inductive attributed (cfg : AgentConfig) : list input → list (string * SyscallEvent) → Prop :=
  | attributed_nil : attributed cfg [] []
  | attributed_short data l log :
      (length data < KernelSyscallEvent_size)%nat → attributed cfg l log →
      attributed cfg (Sample data :: l) log
  | attributed_drop data id l log :
      (KernelSyscallEvent_size ≤ length data)%nat → id ≠ "" →
      passes_filter regex_search cfg id = false → attributed cfg l log →
      attributed cfg (Sample data :: l) log
  | attributed_keep data id l log :
      (KernelSyscallEvent_size ≤ length data)%nat → id ≠ "" →
      passes_filter regex_search cfg id = true → attributed cfg l log →
      attributed cfg (Sample data :: l)
        ((id, mapped_event (KernelSyscallEvent_of_bytes data)) :: log)
  | attributed_dump c d r l log : attributed cfg l log → attributed cfg (LongDump c d r :: l) log
  | attributed_policy c p ty s l log :
      attributed cfg l log → attributed cfg (ApplyPolicy c p ty s :: l) log.

Definition events_of (c : string) (log : list (string * SyscallEvent)) : list SyscallEvent :=
  map snd (filter (λ p, p.1 = c) log).

Lemma events_of_app c l l' : events_of c (l ++ l') = events_of c l ++ events_of c l'.
Proof. unfold events_of. by rewrite filter_app, map_app. Qed.

Lemma attributed_app cfg i log1 l log2 :
  attributed cfg [i] log1 → attributed cfg l log2 → attributed cfg (i :: l) (log1 ++ log2).
Proof.
  intros H1 H2. inversion H1; subst;
    match goal with H : attributed cfg [] _ |- _ => inversion H; subst end;
    cbn [app]; by econstructor.
Qed.

Lemma KernelSyscallEvent_of_bytes_wf data :
  Forall (fits 8) data → KernelSyscallEvent_wf (KernelSyscallEvent_of_bytes data).
Proof.
  intros Hd. unfold KernelSyscallEvent_of_bytes.
  assert (Hf : ∀ n k, fits (8 * Z.of_nat n) (le_val (take n (drop k data)))).
  { intros n k. apply le_val_fits; [by apply Forall_take, Forall_drop|]. rewrite length_take. lia. }
  split_and!; cbn; [apply (Hf 8%nat 0%nat)|apply (Hf 4%nat 8%nat)|apply (Hf 4%nat 12%nat)
    |apply (Hf 4%nat 16%nat)|apply (Hf 2%nat 20%nat)|apply (Hf 1%nat 22%nat)|apply (Hf 1%nat 23%nat)].
Qed.

(** What a run from [a] to [a'] with a given log guarantees. *)
Definition run_ok (a a' : Agent) (l : list input) (tr : list event) : Prop :=
  agent_ok a' ∧ config_ a' = config_ a ∧
  ∃ log ws ns, attributed (config_ a) l log ∧ effects (config_ a) tr ws ns
    ∧ conserved (config_ a) a a' (λ c, events_of c log) ws.

Lemma arrival_log cfg id evt c :
  arrival cfg id evt c =
  events_of c (if passes_filter regex_search cfg id then [(id, mapped_event evt)] else []).
Proof.
  unfold arrival, events_of. destruct (passes_filter regex_search cfg id).
  - rewrite filter_cons, filter_nil. cbn [fst]. destruct (decide (c = id)) as [->|Hne].
    + by rewrite decide_True.
    + by rewrite decide_False by congruence.
  - by case_decide.
Qed.

Lemma handleEventThunk_holds a data :
  agent_ok a → Forall (fits 8) data →
  holds (W:=W) (handleEventThunk regex_search a data) (λ r tr,
    r.1 = 0 ∧ run_ok a r.2 [Sample data] tr).
Proof.
  intros Hok Hd. unfold handleEventThunk. destruct (length data <? _)%nat eqn:Hl.
  - apply Nat.ltb_lt in Hl. io_step. split; [done|]. split; [done|]. split; [done|].
    exists [], [], []. split_and!;
      [by apply attributed_short; [|constructor]|by apply effects_silent|apply conserved_refl].
  - apply Nat.ltb_ge in Hl. eapply holds_mono;
      [apply handleEvent_holds; [done|by apply KernelSyscallEvent_of_bytes_wf]|].
    intros r tr (Hr & Hok' & Hcfg & id & ws & ns & Hid & He & [F C] & _).
    split; [done|]. split; [done|]. split; [done|].
    exists (if passes_filter regex_search (config_ a) id
            then [(id, mapped_event (KernelSyscallEvent_of_bytes data))] else []), ws, ns.
    split_and!; [|done|].
    + destruct (passes_filter regex_search (config_ a) id) eqn:Hf;
        [by apply attributed_keep; [..|constructor]|by eapply attributed_drop; [..|constructor]].
    + split; [done|]. intros c. by rewrite C, arrival_log.
Qed.

(** A command: it posts nothing and leaves every window as it was. *)
Definition quiet_step (a a' : Agent) (tr : list event) : Prop :=
  agent_ok a' ∧ config_ a' = config_ a ∧ effects (config_ a) tr [] []
  ∧ ∀ c, pending a' c = pending a c.

Lemma run_ok_quiet a a' i tr :
  attributed (config_ a) [i] [] → quiet_step a a' tr → run_ok a a' [i] tr.
Proof.
  intros Ha (Hok & Hcfg & He & Hp). split; [done|]. split; [done|]. exists [], [], [].
  split_and!; [done|done|]. split; [constructor|]. intros c. cbn. by rewrite Hp, app_nil_r.
Qed.

Lemma requestLongDump_quiet a c d :
  agent_ok a →
  holds (W:=W) (requestLongDump a c d) (λ a' tr,
    match a' with None => effects (config_ a) tr [] [] | Some a' => quiet_step a a' tr end).
Proof.
  intros Hok. unfold requestLongDump. io_step. eapply holds_mono; [apply startLongDump_holds|].
  intros [b'|] tr [He Hb']; io_step; cbn [mbind option_bind]; rewrite app_nil_r; [|done].
  pose proof (buffer_at_ok a c Hok) as Hb.
  assert (Hboth : buffer_ok c b' ∧ currentShortWindow b' = pending a c).
  { rewrite <-buffer_at_window.
    destruct Hb' as [[(st & H1 & H2 & ->) _]|Hbegun].
    - split; [by apply reopened_ok|by destruct (set_id c (buffer_at a c))].
    - split; [by eapply dump_begun_ok|].
      destruct Hbegun as (now & start & st & st' & _ & _ & ->). by destruct (set_id c (buffer_at a c)). }
  destruct Hboth as [Hbok Hw].
  split_and!; [by apply set_buffers_ok|apply config_set_buffers|exact He|].
  intros c'. rewrite pending_insert. by case_decide; subst.
Qed.

Lemma requestLongDump_holds a c d r :
  agent_ok a →
  holds (W:=W) (requestLongDump a c d) (λ a' tr,
    match a' with None => True | Some a' => run_ok a a' [LongDump c d r] tr end).
Proof.
  intros Hok. eapply holds_mono; [by apply requestLongDump_quiet|]. intros [a'|] tr Hq; [|done].
  apply run_ok_quiet; [repeat constructor|done].
Qed.

Lemma set_enforcer_same e a :
  config_ (set_enforcer e a) = config_ a ∧ buffers_ (set_enforcer e a) = buffers_ a.
Proof. by destruct a. Qed.

Lemma handlePolicy_quiet a c p ty s :
  agent_ok a → holds (W:=W) (handlePolicy a c p ty s) (λ r tr, quiet_step a r.2 tr).
Proof.
  intros Hok. unfold handlePolicy. destruct (policyEnforcer_ a) as [e|].
  - io_step. apply (holds_mono _ (λ _ t, Forall unposted t));
      [apply emits|].
    intros [ok e'] t Ht. io_step. rewrite app_nil_r. cbn [snd].
    destruct (set_enforcer_same (Some e') a) as [Hc Hb].
    split_and!; [|done|by apply effects_unposted|].
    + split; [rewrite Hc; apply Hok|rewrite Hb; apply Hok].
    + intros c'. unfold pending. by rewrite Hb.
  - io_step. split_and!; [done|done|by apply effects_silent|done].
Qed.

Lemma handlePolicy_holds a c p ty s :
  agent_ok a →
  holds (W:=W) (handlePolicy a c p ty s) (λ r tr, run_ok a r.2 [ApplyPolicy c p ty s] tr).
Proof.
  intros Hok. eapply holds_mono; [by apply handlePolicy_quiet|]. intros r tr Hq.
  apply run_ok_quiet; [repeat constructor|done].
Qed.

Lemma agent_step_holds a i :
  agent_ok a → input_wf i →
  holds (W:=W) (agent_step regex_search a i) (λ r tr,
    match r with None => True | Some a' => run_ok a a' [i] tr end).
Proof.
  intros Hok Hi. destruct i as [data|c d r|c p ty s]; cbn [agent_step].
  - io_step. eapply holds_mono; [by apply handleEventThunk_holds|]. intros [z a'] tr [_ Hr].
    io_step. by rewrite app_nil_r.
  - by apply requestLongDump_holds.
  - unfold policy_handler. io_step. eapply holds_mono; [by apply handlePolicy_holds|].
    intros [ok a'] tr Hr. io_step. by rewrite app_nil_r.
Qed.

Lemma run_ok_trans a a1 a2 i l t1 t2 :
  run_ok a a1 [i] t1 → run_ok a1 a2 l t2 → run_ok a a2 (i :: l) (t1 ++ t2).
Proof.
  intros (Hok1 & Hc1 & log1 & ws1 & ns1 & A1 & E1 & C1) (Hok2 & Hc2 & log2 & ws2 & ns2 & A2 & E2 & C2).
  rewrite Hc1 in *. split; [done|]. split; [done|].
  exists (log1 ++ log2), (ws1 ++ ws2), (ns1 ++ ns2).
  split_and!; [by apply attributed_app|by apply effects_app|].
  destruct (conserved_trans _ _ _ _ _ _ _ _ C1 C2) as [F C]. split; [done|].
  intros c. by rewrite C, events_of_app.
Qed.

Lemma agent_steps_holds a l :
  agent_ok a → Forall input_wf l →
  holds (W:=W) (agent_steps regex_search a l) (λ r tr,
    match r with None => True | Some a' => run_ok a a' l tr end).
Proof.
  intros Hok Hl. revert a Hok. induction Hl as [|i l Hi _ IH]; intros a Hok; cbn [agent_steps].
  - io_step. split; [done|]. split; [done|]. exists [], [], [].
    split_and!; [constructor|by apply effects_silent|apply conserved_refl].
  - io_step. eapply holds_mono; [by apply agent_step_holds|]. intros [a1|] t1 H1; [|by io_step].
    eapply holds_mono; [apply IH, H1|]. intros [a2|] t2 H2; [|done]. by eapply run_ok_trans.
Qed.
End one_event.

(** ** The main loop and the handles *)

(** An event of the event path or the commands: no socket of the server, no test of a flag,
    no BPF handle obtained or released, no sample polled, no thread started or joined. *)
Definition inner (e : event) : Prop :=
  match e with
  | Ev Socket _ | Ev (Accept _) _ | Ev (CloseFd _) _ | Ev LoadRunning _ | Ev LoadSignalStop _
  | Ev (BpfOpen _) _ | Ev (BpfAttachTracepoint _ _) _ | Ev (RingBufferNew _) _
  | Ev (BpfRelease _) _ | Ev (RingBufferPoll _) _ | Ev ThreadStart _ | Ev ThreadJoin _ => False
  | _ => True
  end.

Definition signal_tests (tr : list event) : list bool :=
  omap (λ e, match e with Ev LoadSignalStop b => Some b | _ => None end) tr.

(** The handles released, in order. *)
Definition released (tr : list event) : list string :=
  omap (λ e, match e with Ev (BpfRelease h) _ => Some h | _ => None end) tr.

Lemma signal_tests_app t t' : signal_tests (t ++ t') = signal_tests t ++ signal_tests t'.
Proof. apply omap_app. Qed.
Lemma released_app t t' : released (t ++ t') = released t ++ released t'.
Proof. apply omap_app. Qed.

Lemma inner_elsewhere t : Forall inner t → Forall AgentServer.elsewhere t.
Proof. intros Ht. eapply Forall_impl; [exact Ht|]. by intros [A []]. Qed.

Lemma inner_nil t : Forall inner t → signal_tests t = [] ∧ released t = [].
Proof.
  unfold signal_tests, released. induction 1 as [|[A c a] t He _ [I1 I2]]; [done|].
  cbn [omap list_omap]. by destruct c.
Qed.

Section loop.
Context {W : Type} `{OS W} (regex_search : string → string → option bool).

#[export] Instance post_inner url body n t : Emits inner (postJsonWithRetry (W:=W) url body n t).
Proof. by apply postJsonWithRetry_emits. Qed.

#[export] Instance mapper_name_inner a cg p : Emits inner (mapper_name (W:=W) a cg p).
Proof.
  unfold mapper_name, DockerMapper.getContainerName, DockerMapper.resolve,
    DockerMapper.queryDockerForName, DockerMapper.extractContainerHashFromCgroup,
    DockerMapper.httpGetUnixSocket, DockerMapper.store, DockerMapper.nowNs,
    ContainerMapper.getContainerName, ContainerMapper.getContainerInfo,
    ContainerMapper.resolveInfo, ContainerMapper.parseCgroup, ContainerMapper.queryRuntime,
    ContainerMapper.queryDocker, ContainerMapper.queryCrictl, ContainerMapper.httpGetUnixSocket,
    ContainerMapper.execCommand, ContainerMapper.queryKubernetes,
    ContainerMapper.queryKubernetesEnv, ContainerMapper.fileExists, ContainerMapper.nowNs.
  cbv zeta. apply _.
Qed.

#[export] Instance finish_inner cfg b : Emits inner (notifyDumpComplete (W:=W) cfg b).
Proof. unfold notifyDumpComplete. cbv zeta. apply _. Qed.

#[export] Instance feed_inner cfg evt b : Emits inner (feed_buffer (W:=W) cfg evt b).
Proof.
  unfold feed_buffer, appendLongDump, processShortWindow, stream_write, stream_close.
  cbv zeta. apply _.
Qed.

#[export] Instance thunk_inner a data : Emits inner (handleEventThunk (W:=W) regex_search a data).
Proof.
  unfold handleEventThunk, handleEvent, mapContainerId, stopExpiredLongDumps, hash_order,
    stopExpired, stream_close.
  cbv zeta. apply _.
Qed.

#[export] Instance request_inner a c d : Emits inner (requestLongDump (W:=W) a c d).
Proof.
  unfold requestLongDump, startLongDump, stream_open, stream_write, monotonicNowNs.
  cbv zeta. apply _.
Qed.

Lemma poll_loop_holds n a :
  holds (W:=W) (poll_loop regex_search n a) (λ r tr,
    Forall AgentServer.elsewhere tr ∧ released tr = []
    ∧ if r.1 then ∃ k b, (k < n)%nat ∧ signal_tests tr = replicate k false ++ [b]
      else signal_tests tr = replicate n false).
Proof.
  revert a. induction n as [|n IH]; intros a; cbn [poll_loop]; [by io_step|].
  io_step. io_step. destruct a0.
  { io_step. split; [by repeat constructor|]. split; [done|]. exists 0%nat, true. split; [lia|done]. }
  io_step. io_step. destruct a0 as [samples err]. io_step.
  apply (holds_mono _ (λ _ t, Forall inner t)); [apply emits|]. intros a' t Ht.
  destruct (inner_nil _ Ht) as [T1 T2]. pose proof (inner_elsewhere _ Ht) as T3.
  assert (Hstop : holds (W:=W) (mret (true, a')) (λ r t',
      let tr := [Ev LoadSignalStop false] ++ [Ev (RingBufferPoll 100) (samples, err)] ++ t ++ t' in
      Forall AgentServer.elsewhere tr ∧ released tr = []
      ∧ if r.1 : bool then ∃ k b, (k < S n)%nat ∧ signal_tests tr = replicate k false ++ [b]
        else signal_tests tr = replicate (S n) false)).
  { io_step. rewrite app_nil_r. cbv zeta. rewrite !released_app, !signal_tests_app, T1, T2.
    split; [by repeat apply Forall_app_2; repeat constructor|]. split; [done|].
    exists 0%nat, false. split; [lia|done]. }
  case_bool; [exact Hstop|]. case_bool; [exact Hstop|]. clear Hstop.
  eapply holds_mono; [apply IH|]. intros [fin a2] t' (F & R & S). cbn [fst] in *.
  rewrite !released_app, !signal_tests_app, T1, T2, R.
  split; [by repeat apply Forall_app_2; repeat constructor|]. split; [done|].
  destruct fin; [destruct S as (k & b & Hk & ->)|rewrite S; done].
  exists (Datatypes.S k), b. split; [lia|done].
Qed.

(** A start-up that succeeds: its six requests are granted. *)
Definition bpf_started (tr : list event) (fd : Z) : Prop :=
  tr = [Ev (BpfOpen kBpfObjFile) true; Ev BpfLoad true; Ev (BpfFindProgram "handle_sys_enter") true;
        Ev (BpfAttachTracepoint "raw_syscalls" "sys_enter") true; Ev (BpfFindMap "events") fd;
        Ev (RingBufferNew fd) true] ∧ 0 ≤ fd.

(** One that fails: the first [n] are granted, the next one is refused, and it stops there. *)
Definition bpf_refused (tr : list event) (n : nat) (fd : Z) : Prop :=
  let granted :=
    [Ev (BpfOpen kBpfObjFile) true; Ev BpfLoad true; Ev (BpfFindProgram "handle_sys_enter") true;
     Ev (BpfAttachTracepoint "raw_syscalls" "sys_enter") true; Ev (BpfFindMap "events") fd] in
  match n with
  | 0%nat => tr = [Ev (BpfOpen kBpfObjFile) false]
  | 1%nat => tr = take 1 granted ++ [Ev BpfLoad false]
  | 2%nat => tr = take 2 granted ++ [Ev (BpfFindProgram "handle_sys_enter") false]
  | 3%nat => tr = take 3 granted ++ [Ev (BpfAttachTracepoint "raw_syscalls" "sys_enter") false]
  | 4%nat => tr = granted ∧ fd < 0
  | 5%nat => tr = granted ++ [Ev (RingBufferNew fd) false] ∧ 0 ≤ fd
  | _ => False
  end.

Definition bpf_outcome (r : bool * BpfState) (tr : list event) : Prop :=
  if r.1 then ∃ fd, bpf_started tr fd ∧ r.2 = MkBpfState true true true fd
  else ∃ n fd, bpf_refused tr n fd ∧ r.2 = MkBpfState false (4 <=? n)%nat false (-1).

Lemma initBpf_holds : holds (W:=W) initBpf bpf_outcome.
Proof.
  unfold initBpf.
  do 2 io_step. destruct a; cbn [negb]; [|io_step; by exists 0%nat, 0].
  do 2 io_step. destruct a; cbn [negb]; [|io_step; by exists 1%nat, 0].
  do 2 io_step. destruct a; cbn [negb]; [|io_step; by exists 2%nat, 0].
  do 2 io_step. destruct a; cbn [negb]; [|io_step; by exists 3%nat, 0].
  do 2 io_step. io_step; bool_to_prop; [io_step; by exists 4%nat, a|].
  do 2 io_step. destruct a0; cbn [negb]; io_step; [by exists a|by exists 5%nat, a].
Qed.

(** The handles obtained, in order. *)
Definition acquired (tr : list event) : list string :=
  omap (λ e, match e with
             | Ev (BpfOpen _) true => Some "object"
             | Ev (BpfAttachTracepoint _ _) true => Some "link"
             | Ev (RingBufferNew _) true => Some "ringbuf"
             | _ => None
             end) tr.

Lemma acquired_app t t' : acquired (t ++ t') = acquired t ++ acquired t'.
Proof. apply omap_app. Qed.

(** What a start-up obtains, and that it does nothing else of note. *)
Lemma bpf_outcome_events r tr :
  bpf_outcome r tr →
  Forall AgentServer.elsewhere tr ∧ signal_tests tr = [] ∧ released tr = []
  ∧ if r.1 then acquired tr = ["object"; "link"; "ringbuf"]
    else acquired tr = [] ∧ tp_link_ r.2 = false ∨ acquired tr = ["object"] ∧ tp_link_ r.2 = false
      ∨ acquired tr = ["object"; "link"] ∧ tp_link_ r.2 = true.
Proof.
  destruct r as [[] s]; cbn [bpf_outcome fst snd].
  - intros (fd & [-> _] & ->). split_and!; [by repeat constructor|done..].
  - intros (n & fd & Hn & ->). do 6 (destruct n as [|n]; cbn [bpf_refused] in Hn;
      [first [subst tr|destruct Hn as [-> _]]; split; [by repeat constructor|]; cbn; tauto|]).
    done.
Qed.

(** The handles cleaned up: each one held is released, once. *)
Definition held (s : BpfState) : list string :=
  (if ringbuf_ s then ["ringbuf"] else []) ++ (if tp_link_ s then ["link"] else [])
  ++ (if bpf_obj_ s then ["object"] else []).

Lemma cleanupBpf_holds s :
  holds (W:=W) (cleanupBpf s) (λ s' tr,
    s' = MkBpfState false false false (bpf_fd_ s) ∧ released tr = held s
    ∧ Forall AgentServer.elsewhere tr).
Proof.
  unfold cleanupBpf, release. destruct s as [[] [] [] fd]; cbn [ringbuf_ tp_link_ bpf_obj_];
    repeat io_step; (split; [done|]); (split; [done|]); by repeat constructor.
Qed.
End loop.

(** How a run ends.  [Exit 1]: the BPF start-up failed, and then there was no server.
    [Exit 0]: the server was stopped and every handle released, once, in order.  *)
Definition run_outcome (fuel : nat) (a : Agent) (e : run_end) (tr : list event) : Prop :=
  match e with
  | Exit status a' bpf srv =>
      AgentServer.obtained tr = AgentServer.given_back tr ∧ ringbuf_ bpf = false
      ∧ bpf_obj_ bpf = false ∧
      (status = 1 ∧ a' = a ∧ srv = None ∧ released tr = [] ∧ AgentServer.obtained tr = []
       ∨ status = 0 ∧ tp_link_ bpf = false ∧ released tr = ["ringbuf"; "link"; "object"]
         ∧ ∃ s, srv = Some s ∧ AgentServer.isRunning s = false ∧ AgentServer.joinable s = false)
  | Terminate => autoBaselineDump (config_ a) = true
  | StillRunning _ => signal_tests tr = replicate fuel false
  end.

Section main.
Context {W : Type} `{OS W} (regex_search : string → string → option bool).

Lemma elsewhere_effects t :
  Forall AgentServer.elsewhere t →
  AgentServer.obtained t = [] ∧ AgentServer.given_back t = [].
Proof. intros (H1 & H2 & _)%AgentServer.elsewhere_nil. done. Qed.

(** The server's own operations release nothing and test no signal. *)
Definition no_handle (e : event) : Prop :=
  match e with Ev (BpfRelease _) _ | Ev LoadSignalStop _ => False | _ => True end.

Lemma no_handle_nil t : Forall no_handle t → signal_tests t = [] ∧ released t = [].
Proof.
  unfold signal_tests, released. induction 1 as [|[A c a] t He _ [I1 I2]]; [done|].
  cbn [omap list_omap]. by destruct c.
Qed.

#[local] Instance start_no_handle s : Emits no_handle (AgentServer.start (W:=W) s).
Proof. unfold AgentServer.start. apply _. Qed.
#[local] Instance stop_no_handle s : Emits no_handle (AgentServer.stop (W:=W) s).
Proof. unfold AgentServer.stop. apply _. Qed.

Lemma request_elsewhere a c d : Emits AgentServer.elsewhere (requestLongDump (W:=W) a c d).
Proof.
  eapply (emits_mono inner); [by intros [A []]|].
  unfold requestLongDump, startLongDump, stream_open, stream_write, monotonicNowNs.
  cbv zeta. apply _.
Qed.

Lemma request_no_handle a c d : Emits no_handle (requestLongDump (W:=W) a c d).
Proof.
  unfold requestLongDump, startLongDump, stream_open, stream_write, monotonicNowNs.
  cbv zeta. apply _.
Qed.

Lemma run_holds fuel a : holds (W:=W) (run regex_search fuel a) (run_outcome fuel a).
Proof.
  unfold run. io_step. eapply holds_mono; [apply initBpf_holds|].
  intros [ok bpf] t0 Hbpf. destruct (bpf_outcome_events _ _ Hbpf) as (He0 & S0 & R0 & _).
  destruct (elsewhere_effects _ He0) as [O0 G0]. unfold bpf_outcome in Hbpf. cbn [fst snd] in Hbpf.
  destruct ok; cbn [negb]; cycle 1.
  { io_step. rewrite app_nil_r. destruct Hbpf as (n & fd & _ & ->). cbn. rewrite O0, G0.
    split_and!; try done. left. done. }
  destruct Hbpf as (fd & _ & ->). io_step. unfold initServer. io_step.
  eapply holds_mono; [apply (holds_emits no_handle); [apply _|apply AgentServer.start_holds]|].
  intros [started srv] t1 [[_ Hsrv] Hn1]. cbn [fst snd] in *. io_step.
  destruct (no_handle_nil _ Hn1) as [S1 R1].
  io_step.
  apply (holds_mono _ (λ r t, (r = None → autoBaselineDump (config_ a) = true)
    ∧ Forall AgentServer.elsewhere t ∧ Forall no_handle t)).
  { destruct (autoBaselineDump (config_ a)); [|io_step; by repeat constructor].
    eapply holds_mono; [apply holds_and;
      [apply (@emits _ _ _ _ (request_elsewhere _ _ _))|apply (@emits _ _ _ _ (request_no_handle _ _ _))]|].
    intros r t [? ?]. done. }
  intros [a1|] t2 (Hbase & He2 & Hn2); [|io_step; by apply Hbase].
  destruct (no_handle_nil _ Hn2) as [S2 R2]. destruct (elsewhere_effects _ He2) as [O2 G2].
  io_step. eapply holds_mono; [apply poll_loop_holds|].
  intros [fin a2] t3 (He3 & R3 & Hsig). cbn [fst] in Hsig.
  destruct (elsewhere_effects _ He3) as [O3 G3]. destruct fin; cbn [negb]; cycle 1.
  { io_step. cbn. by rewrite !signal_tests_app, S0, S1, S2, Hsig, !app_nil_r. }
  io_step. eapply holds_mono; [apply (holds_emits no_handle); [apply _|apply AgentServer.stop_holds]|].
  intros srv' t4 [(Hfd & Hrun & Hjoin & _ & O4 & G4 & _) Hn4].
  destruct (no_handle_nil _ Hn4) as [S4 R4]. io_step.
  eapply holds_mono; [apply cleanupBpf_holds|]. intros bpf' t5 (-> & R5 & He5).
  destruct (elsewhere_effects _ He5) as [O5 G5]. io_step. cbn [run_outcome].
  rewrite !AgentServer.obtained_app, !AgentServer.given_back_app, !released_app.
  rewrite O0, G0, O2, G2, O3, G3, O4, G4, O5, G5, R0, R1, R2, R3, R4, R5.
  cbn [app ringbuf_ bpf_obj_ tp_link_]. split_and!; try done.
  - rewrite !app_nil_r. destruct started.
    + destruct Hsrv as (Hge & _ & _ & -> & ->). by rewrite (proj2 (Z.leb_le _ _) Hge).
    + destruct Hsrv as (Hlt & _ & _ & ->). rewrite (proj2 (Z.leb_gt _ _) Hlt). by rewrite !app_nil_r.
  - right. split_and!; [done..|]. exists srv'. unfold AgentServer.isRunning. by split_and!.
Qed.
End main.

(** ** Properties *)

(** C2: no event is lost, duplicated, reordered or given to two containers.  For any
    interleaving of samples, dump requests and policies, on any machine: every sample long
    enough to be an event is attributed to one container or dropped by the filter, and for
    each container the events of the windows posted for it, followed by the ones still
    waiting, are exactly those that were waiting before followed by those attributed to it,
    in order.  Each window is posted once (with at most two retries), starts at its first
    event, holds at least the configured number of events and spans the configured time;
    nothing else is posted to the windows URL. *)
Theorem events_conserved {W} `{OS W} regex_search a l :
  agent_ok a → Forall input_wf l →
  holds (W:=W) (agent_steps regex_search a l) (λ r tr,
    match r with
    | None => True
    | Some a' => ∃ log ws ns,
        attributed regex_search (config_ a) l log
        ∧ effects (config_ a) tr ws ns ∧ Forall (window_ok (config_ a)) ws
        ∧ ∀ c, flushed c ws ++ pending a' c = pending a c ++ events_of c log
    end).
Proof.
  intros Hok Hl. eapply holds_mono; [by apply agent_steps_holds|]. intros [a'|] tr; [|done].
  intros (_ & _ & log & ws & ns & Ha & He & Hw & Hc). by exists log, ws, ns.
Qed.

(** C4: the invariant of the agent's state.  It holds for a freshly constructed agent, and
    no interleaving of samples, dump requests and policies breaks it: every buffer knows its
    own container, its window starts at its first event, a dump is active exactly while its
    stream is open, ends when its duration says, and an inactive buffer holds no dump
    data. *)
Theorem agent_invariant {W} `{OS W} regex_search cfg l :
  url_ok cfg → Forall input_wf l →
  holds (W:=W) (a ← create cfg;
      match a with Some a => agent_steps regex_search a l | None => mret None end)
    (λ r _, match r with None => True | Some a' => agent_ok a' ∧ config_ a' = cfg end).
Proof.
  intros Hu Hl. io_step.
  apply (holds_mono _ (λ r _, ∀ a, r = Some a → agent_ok a ∧ config_ a = cfg)).
  - unfold create. io_step. apply holds_any; [unfold PolicyEnforcer.create; cbv zeta; apply _|].
    intros [e|] t; [|io_step; by intros].
    assert (Hnew : ∀ d m p, agent_ok (MkAgent cfg d m p ∅ 0)) by (intros; by split).
    io_step.
    + io_step. intros a [= <-]. by split.
    + io_step. apply holds_any; [unfold ContainerMapper.create, ContainerMapper.detectRuntime,
        ContainerMapper.execCommand, ContainerMapper.fileExists; apply _|].
      intros m t'. io_step. intros a [= <-]. by split.
  - intros [a|] t Ha; [|by io_step]. destruct (Ha a eq_refl) as [Hok Hcfg].
    eapply holds_mono; [by apply agent_steps_holds|]. intros [a'|] tr; [|done].
    intros (Hok' & Hcfg' & _). split; [done|congruence].
Qed.

(** C16: handling one event.  The callback always returns 0; at most one window is posted, and
    it is the event's own container's; and once an accepted event has been handled, no
    dump of any container is still running past its end by the event's clock. *)
Theorem handleEvent_spec {W} `{OS W} regex_search a evt :
  agent_ok a → KernelSyscallEvent_wf evt →
  holds (W:=W) (handleEvent regex_search a evt) (event_handled regex_search a evt).
Proof. apply handleEvent_holds. Qed.

(** C14: expiry.  Whatever order the hash table is walked in, every dump whose end has come is
    closed, reset and announced exactly once, with the path, start, duration and count it had,
    and every other buffer is left as it was; no window is posted. *)
Theorem stopExpiredLongDumps_spec {W} `{OS W} now a :
  agent_ok a →
  holds (W:=W) (stopExpiredLongDumps now a) (λ a' tr, ∃ ids,
    ids ≡ₚ (map_to_list (buffers_ a)).*1
    ∧ effects (config_ a) tr [] (notices now a ids)
    ∧ (∀ c, match buffers_ a !! c with
            | None => buffers_ a' !! c = None
            | Some b => ∃ b', buffers_ a' !! c = Some b'
                ∧ if expired now b then finished b b' else b' = b
            end)
    ∧ map_Forall (λ _ b, expired now b = false) (buffers_ a')).
Proof.
  intros Hok. eapply holds_mono; [by apply stopExpiredLongDumps_holds|].
  intros a' tr (ids & Hids & Hs & He). exists ids. split_and!; [done|done| |exact (swept_none_expired _ _ _ _ Hids Hs)].
  intros c. exact (swept_all _ _ _ _ c Hids Hs).
Qed.


(** The polling loop feeds every sample to the event path: a batch of samples has the
    effect of the same inputs, in order, and the callback never makes the agent throw. *)
Theorem poll_batch_is_steps {W} `{OS W} regex_search a samples :
  io_eq (W:=W)
    (a ← io_fold (λ a data, r ← handleEventThunk regex_search a data; mret r.2) a samples;
     mret (Some a))
    (agent_steps regex_search a (map Sample samples)).
Proof.
  revert a. induction samples as [|data samples IH]; intros a s; [done|].
  cbn [map agent_steps io_fold agent_step].
  change ((io_fold (λ a data, r ← handleEventThunk regex_search a data; mret r.2)
      ((handleEventThunk regex_search a data) s).1.2 samples ≫= λ a, mret (Some a))
        ((handleEventThunk regex_search a data) s).2 = 
    ((let '(_, a) := ((handleEventThunk regex_search a data) s).1 in mret (Some a) : IO W _) ≫=
      (λ a', match a' with Some a => agent_steps regex_search a (map Sample samples) | None => mret None end))
        ((handleEventThunk regex_search a data) s).2).
  destruct (handleEventThunk regex_search a data s) as [[z a1] s1]. cbn [fst snd]. apply IH.
Qed.

(** A run of the agent.  Without BPF it exits with status 1 having opened no socket and
    touched nothing; otherwise it exits with status 0 only after the loop was left, the
    server stopped with every descriptor given back, and the three BPF handles released once
    each, ring buffer first; an exception can only come from the baseline dump; and it is
    still running after [fuel] turns only if all [fuel] tests of the signal flag said so. *)
Theorem run_spec {W} `{OS W} regex_search fuel a :
  holds (W:=W) (run regex_search fuel a) (run_outcome fuel a).
Proof. apply run_holds. Qed.

(** C40: start-up.  [initBpf] makes six requests in order: it opens the object, loads it, finds
    the program, attaches it to raw_syscalls/sys_enter, finds the map and makes a ring buffer
    on it.  It succeeds exactly when all six are granted, and then holds the object, the link
    and the ring buffer; otherwise it stops at the first that is refused, and holds the link
    if that was attached, but neither the ring buffer nor the object, opened though it
    may be. *)
Theorem initBpf_spec {W} `{OS W} : holds (W:=W) initBpf bpf_outcome.
Proof. apply initBpf_holds. Qed.

(** *** On a sample machine *)

(** The filter of a machine whose regular expressions are those of [Regex]. *)
Definition subset_regex (pattern subject : string) : option bool :=
  ts ← compile pattern; Some (bool_decide (is_Some (search_from ts (chars subject)))).

Definition sample_config : AgentConfig :=
  let 'MkAgentConfig a s n _ i _ l d v b c ds cs cr cp t u k p po f pd pm := default_config in
  MkAgentConfig a s n 1 i 2 l d v b c ds cs cr cp t u k p po "host-[17]" pd pm.

Definition sample_agent : Agent :=
  MkAgent sample_config (Some (DockerMapper.create "/var/run/docker.sock" 60)) None None ∅ 0.

(** An exec of a process in the cgroup [cg] at time [ts]. *)
Definition sample_bytes (ts cg : Z) : list Z :=
  le_bytes 8 ts ++ le_bytes 4 1 ++ le_bytes 4 1 ++ le_bytes 4 cg ++ le_bytes 2 59 ++ [3; 0].

(** Two containers, a dump, a failed and a repeated transfer. *)
Definition sample_inputs : list input :=
  [Sample (sample_bytes 1000 1); Sample (sample_bytes 2000 2); Sample (sample_bytes 5000 7);
   LongDump "host-1" 1 ""; Sample (sample_bytes 1000002000 1); Sample (sample_bytes 1000002600 1);
   Sample [1; 2; 3]].

Definition sample_network : script :=
  with_curl [CurlDone [] true 200; CurlDone [] false 0; CurlDone [] true 200] bare.

Lemma sample_agent_ok : agent_ok sample_agent.
Proof.
  split; [apply (bool_decide_unpack _); vm_compute; exact I|apply map_Forall_empty].
Qed.

Lemma sample_inputs_wf : Forall input_wf sample_inputs.
Proof.
  repeat (apply Forall_cons; split; [first [exact I | apply (bool_decide_unpack _); vm_compute; exact I]|]).
  constructor.
Qed.

Lemma events_conserved_witness :
  agent_ok sample_agent ∧ Forall input_wf sample_inputs ∧
  holds (W:=script) (agent_steps subset_regex sample_agent sample_inputs) (λ r tr,
    match r with
    | None => True
    | Some a' => ∃ log ws ns,
        attributed subset_regex (config_ sample_agent) sample_inputs log
        ∧ effects (config_ sample_agent) tr ws ns
        ∧ Forall (window_ok (config_ sample_agent)) ws
        ∧ ∀ c, flushed c ws ++ pending a' c = pending sample_agent c ++ events_of c log
    end)
  ∧ let r := IO.run (agent_steps subset_regex sample_agent sample_inputs) sample_network in
    (λ a, map tsNs (pending a "host-1")) <$> r.1 = Some [1000002600]
    ∧ length (posted_bodies "http://localhost:9090/api/v1/agent/windows" r.2) = 2%nat.
Proof.
  split; [exact sample_agent_ok|]. split; [exact sample_inputs_wf|]. split.
  - apply (events_conserved subset_regex sample_agent sample_inputs);
      [exact sample_agent_ok|exact sample_inputs_wf].
  - split; vm_compute; reflexivity.
Defined.

Lemma agent_invariant_witness :
  url_ok sample_config ∧
  holds (W:=script) (a ← create sample_config;
      match a with Some a => agent_steps subset_regex a sample_inputs | None => mret None end)
    (λ r _, match r with None => True | Some a' => agent_ok a' ∧ config_ a' = sample_config end)
  ∧ match (IO.run (a ← create sample_config;
        match a with Some a => agent_steps subset_regex a sample_inputs | None => mret None end)
        sample_network).1 with
    | Some a => size (buffers_ a) = 2%nat
    | None => False
    end.
Proof.
  assert (Hu : url_ok sample_config) by (apply (bool_decide_unpack _); vm_compute; exact I).
  split; [exact Hu|]. split; [|vm_compute; reflexivity].
  apply (agent_invariant subset_regex sample_config sample_inputs Hu sample_inputs_wf).
Defined.

Definition sample_event : KernelSyscallEvent := MkKernelSyscallEvent 7000 12 12 1 59 3 0.

Lemma sample_event_wf : KernelSyscallEvent_wf sample_event.
Proof. unfold KernelSyscallEvent_wf, fits. cbn. lia. Qed.

Lemma handleEvent_spec_witness :
  agent_ok sample_agent ∧ KernelSyscallEvent_wf sample_event ∧
  holds (W:=script) (handleEvent subset_regex sample_agent sample_event)
    (event_handled subset_regex sample_agent sample_event)
  ∧ pending (IO.run (handleEvent subset_regex sample_agent sample_event) bare).1.2 "host-1"
    = [mapped_event sample_event].
Proof.
  split; [exact sample_agent_ok|]. split; [exact sample_event_wf|]. split; [|vm_compute; reflexivity].
  apply (handleEvent_spec subset_regex sample_agent sample_event sample_agent_ok sample_event_wf).
Defined.

(** A dump of "web" that ends at 500. *)
Definition dumping : ContainerBuffer :=
  MkContainerBuffer "web" 0 50 [] true 50 (u64 (50 + seconds_ns 3)) 0
    (MkOfstream (Some "/d/web.dkdump") true) "/d/web.dkdump" 4 3.

Definition dumping_agent : Agent :=
  MkAgent sample_config None None None {["web" := dumping]} 0.

Lemma dumping_agent_ok : agent_ok dumping_agent.
Proof.
  split; [apply (bool_decide_unpack _); vm_compute; exact I|].
  apply map_Forall_singleton. by constructor.
Qed.

Lemma stopExpiredLongDumps_spec_witness :
  agent_ok dumping_agent ∧
  holds (W:=script) (stopExpiredLongDumps 3000000050 dumping_agent) (λ a' tr, ∃ ids,
    ids ≡ₚ (map_to_list (buffers_ dumping_agent)).*1
    ∧ effects (config_ dumping_agent) tr [] (notices 3000000050 dumping_agent ids)
    ∧ (∀ c, match buffers_ dumping_agent !! c with
            | None => buffers_ a' !! c = None
            | Some b => ∃ b', buffers_ a' !! c = Some b'
                ∧ if expired 3000000050 b then finished b b' else b' = b
            end)
    ∧ map_Forall (λ _ b, expired 3000000050 b = false) (buffers_ a'))
  ∧ notices 3000000050 dumping_agent ["web"] = [MkNotice "web" "/d/web.dkdump" 50 3 4].
Proof.
  split; [exact dumping_agent_ok|]. split; [|vm_compute; reflexivity].
  apply (stopExpiredLongDumps_spec 3000000050 dumping_agent dumping_agent_ok).
Defined.

(** A failed start-up leaves what it had opened behind: the object is opened but never
    released. *)
Lemma failed_start_keeps_object {W} `{OS W} :
  holds (W:=W) (r ← initBpf; s ← cleanupBpf r.2; mret r.1) (λ ok tr,
    ok = false → "object" ∉ released tr).
Proof.
  io_step. eapply holds_mono; [apply initBpf_holds|]. intros [ok s] t Hr. destruct (bpf_outcome_events _ _ Hr) as (_ & _ & R & _).
  io_step. eapply holds_mono; [apply cleanupBpf_holds|]. intros s' t' (_ & Hrel & _).
  io_step. cbn [fst snd] in *. intros ->. rewrite app_nil_r, released_app, Hrel.
  destruct Hr as (n & fd & _ & Hs). cbn [snd] in Hs. subst s. rewrite R. unfold held.
  cbn [ringbuf_ bpf_obj_ tp_link_]. destruct (4 <=? n)%nat; cbn [app]; [|apply not_elem_of_nil].
  rewrite list_elem_of_singleton. done.
Qed.
