(* ===== verification/Collector.v ===== *)
(** * Collector: what the agent promises, without how

    An abstract machine for the agent: per container the events that wait, the time of
    the last one and the dump that is running with the events recorded in it.  It knows no
    stream, no HTTP, no name cache, no hash table; what it does to the outside is a list of
    [output]s.  [Agent.v] refines it: every run of the methods is one of the
    machine, and the windows and notices it posts are the machine's outputs.  What holds
    of the machine, such as the [story] of each container's dumps, therefore holds of the
    agent. *)

From S2P Require Export Agent.
From S2P Require Import PolicyEnforcer.

#[local] Open Scope Z_scope.

(** ** The state *)

Record dump := Dump {
  d_path : string;
  d_start : Z;
  d_duration : Z;
  d_events : list SyscallEvent;
}.

Definition d_end (d : dump) : Z := u64 (d_start d + seconds_ns (d_duration d)).

Record slot := Slot {
  s_waiting : list SyscallEvent;
  s_newest : Z;
  s_dump : option dump;
}.

Definition new_slot : slot := Slot [] 0 None.

Record collector := Collector { k_slots : gmap string slot; k_cleaned : Z }.

Definition slot_at (k : collector) (c : string) : slot := default new_slot (k_slots k !! c).
Definition put (c : string) (s : slot) (k : collector) : collector :=
  Collector (<[c := s]> (k_slots k)) (k_cleaned k).

(** The dump of a container that is running. *)
Definition dump_of (k : collector) (c : string) : option dump := k_slots k !! c ≫= s_dump.

(** What happens, in order. *)
Inductive output :=
  | Took (c : string) (e : SyscallEvent)
  | Posted (w : window)
  | Began (c : string) (d : dump)
  | Ended (c : string) (d : dump)
  | Replaced (c : string) (d : dump).

Definition dump_notice (c : string) (d : dump) : notice :=
  MkNotice c (d_path d) (d_start d) (d_duration d) (u64 (Z.of_nat (length (d_events d)))).

Definition windows_of (out : list output) : list window :=
  omap (λ o, match o with Posted w => Some w | _ => None end) out.
Definition notices_of (out : list output) : list notice :=
  omap (λ o, match o with Ended c d => Some (dump_notice c d) | _ => None end) out.

(** ** The operations *)

Definition window_start (l : list SyscallEvent) : Z :=
  match l with [] => 0 | e :: _ => tsNs e end.

(** The dump, if its end has come. *)
Definition expire (now : Z) (s : slot) : slot * list dump :=
  match s_dump s with
  | Some d => if d_end d <=? now then (Slot (s_waiting s) (s_newest s) None, [d]) else (s, [])
  | None => (s, [])
  end.

Definition add_event (e : SyscallEvent) (d : dump) : dump :=
  Dump (d_path d) (d_start d) (d_duration d) (d_events d ++ [e]).

Definition record (e : SyscallEvent) (s : slot) : slot :=
  Slot (s_waiting s) (s_newest s) (add_event e <$> s_dump s).

Definition due (cfg : AgentConfig) (e : SyscallEvent) (s : slot) : bool :=
  (seconds_ns (shortWindowSec cfg) <=? u64 (tsNs e - window_start (s_waiting s)))
  && (minEventsPerWindow cfg <=? s32 (Z.of_nat (length (s_waiting s)))).

Definition flush (cfg : AgentConfig) (c : string) (e : SyscallEvent) (s : slot)
    : slot * list output :=
  if due cfg e s
  then (Slot [] (s_newest s) (s_dump s),
        [Posted (MkWindow c (window_start (s_waiting s)) (s_waiting s))])
  else (s, []).

(** An event is given to its container. *)
Definition deliver (cfg : AgentConfig) (c : string) (e : SyscallEvent) (s : slot)
    : slot * list output :=
  let s := Slot (s_waiting s ++ [e]) (tsNs e) (s_dump s) in
  let '(s, ended) := expire (tsNs e) s in
  let '(s, posted) := flush cfg c e (record e s) in
  (s, Took c e :: map (Ended c) ended ++ posted).

(** The dump of a container whose end has come. *)
Definition ends (now : Z) (k : collector) (c : string) : list dump :=
  match k_slots k !! c with Some s => (expire now s).2 | None => [] end.

(** Every dump whose end has come ends, in some order of the containers. *)
Definition sweep (now : Z) (order : list string) (k : collector) : collector * list output :=
  (Collector ((λ s, (expire now s).1) <$> k_slots k) (k_cleaned k),
   concat (map (λ c, map (Ended c) (ends now k c)) order)).

(** A slot with nothing in it whose last event is old. *)
Definition unused (now : Z) (s : slot) : bool :=
  (kInactiveThresholdNs <? u64 (now - s_newest s))
  && match s_dump s with None => true | Some _ => false end
  && match s_waiting s with [] => true | _ => false end.

Definition tidy (now : Z) (k : collector) : collector :=
  if u64 (now - k_cleaned k) <? kCleanupIntervalNs then k
  else Collector (filter (λ cs, unused now cs.2 = false) (k_slots k)) now.

Definition accept (cfg : AgentConfig) (c : string) (e : SyscallEvent) (order : list string)
    (k : collector) : collector * list output :=
  let '(s, o1) := deliver cfg c e (slot_at k c) in
  let '(k, o2) := sweep (tsNs e) order (put c s k) in
  (tidy (tsNs e) k, o1 ++ o2).

Definition lists_keys (order : list string) (k : collector) : Prop :=
  NoDup order ∧ ∀ c, c ∈ order ↔ is_Some (k_slots k !! c).

(** A dump begins; one that is running is given up. *)
Definition begin_dump (c : string) (d : dump) (k : collector) : collector * list output :=
  let s := slot_at k c in
  (put c (Slot (s_waiting s) (s_newest s) (Some d)) k,
   match s_dump s with Some d0 => [Replaced c d0] | None => [] end ++ [Began c d]).

(** ** Steps *)

Section steps.
Context (regex_search : string → string → option bool) (cfg : AgentConfig).

Inductive step : collector → input → list output → collector → Prop :=
  | step_short data k :
      (length data < KernelSyscallEvent_size)%nat → step k (Sample data) [] k
  | step_drop data c k :
      (KernelSyscallEvent_size ≤ length data)%nat → c ≠ "" →
      passes_filter regex_search cfg c = false → step k (Sample data) [] k
  | step_accept data c order k :
      (KernelSyscallEvent_size ≤ length data)%nat → c ≠ "" →
      passes_filter regex_search cfg c = true →
      lists_keys order (put c new_slot k) →
      let r := accept cfg c (mapped_event (KernelSyscallEvent_of_bytes data)) order k in
      step k (Sample data) r.2 r.1
  | step_dump c dur why now start k :
      (s_newest (slot_at k c) ≠ 0 → start = s_newest (slot_at k c)) →
      let r := begin_dump c (Dump (dump_path cfg c now) start dur []) k in
      step k (LongDump c dur why) r.2 r.1
  | step_refused c dur why k :
      s_dump (slot_at k c) = None → step k (LongDump c dur why) [] (put c (slot_at k c) k)
  | step_policy c p ty s k : step k (ApplyPolicy c p ty s) [] k.

Inductive steps : collector → list input → list output → collector → Prop :=
  | steps_nil k : steps k [] [] k
  | steps_cons k1 i o1 k2 l o2 k3 :
      step k1 i o1 k2 → steps k2 l o2 k3 → steps k1 (i :: l) (o1 ++ o2) k3.
End steps.

(** ** The story of a container's dumps

    They begin, one at a time, without events; while one runs it records every event its
    container is given before its end; the first event of any container that is not before
    the end of the dump ends it, with exactly what it recorded; and a dump is given up only for
    the next one of the same container. *)

(** Neither an event nor anything of the dumps of [c]. *)
Definition quiet (c : string) (o : output) : Prop :=
  match o with
  | Took _ _ => False
  | Posted _ => True
  | Began c' _ | Ended c' _ | Replaced c' _ => c' ≠ c
  end.

Inductive story (c : string) : option dump → list output → option dump → Prop :=
  | story_done cur : story c cur [] cur
  | story_quiet cur o out cur' : quiet c o → story c cur out cur' → story c cur (o :: out) cur'
  | story_idle c' e out cur' : story c None out cur' → story c None (Took c' e :: out) cur'
  | story_running d c' e out cur' :
      tsNs e < d_end d →
      story c (Some (if decide (c' = c) then add_event e d else d)) out cur' →
      story c (Some d) (Took c' e :: out) cur'
  | story_over d c' e between out cur' :
      d_end d ≤ tsNs e → Forall (quiet c) between → story c None out cur' →
      story c (Some d) (Took c' e :: between ++ Ended c d :: out) cur'
  | story_began d out cur' :
      d_events d = [] → story c (Some d) out cur' → story c None (Began c d :: out) cur'
  | story_replaced d0 d out cur' :
      d_events d = [] → story c (Some d) out cur' →
      story c (Some d0) (Replaced c d0 :: Began c d :: out) cur'.

Lemma story_app c a b d o1 o2 : story c a o1 b → story c b o2 d → story c a (o1 ++ o2) d.
Proof.
  intros H1 H2. induction H1; cbn [app]; eauto using story. rewrite <-app_assoc. eauto using story.
Qed.

Lemma story_silent c cur out : Forall (quiet c) out → story c cur out cur.
Proof. induction 1; eauto using story. Qed.

(** What follows an event: the dump ends if its end has come. *)
Definition closes (c : string) (now : Z) (cur : option dump) (out : list output) (cur' : option dump)
    : Prop :=
  match cur with
  | Some d =>
      if d_end d <=? now then cur' = None ∧ ∃ l1 l2, out = l1 ++ Ended c d :: l2
                              ∧ Forall (quiet c) l1 ∧ Forall (quiet c) l2
      else cur' = Some d ∧ Forall (quiet c) out
  | None => cur' = None ∧ Forall (quiet c) out
  end.

Lemma closes_before c now cur l out cur' :
  Forall (quiet c) l → closes c now cur out cur' → closes c now cur (l ++ out) cur'.
Proof.
  intros Hl. unfold closes. destruct cur as [d|]; [destruct (_ <=? _)|].
  - intros (-> & l1 & l2 & -> & H1 & H2). split; [done|]. exists (l ++ l1), l2. rewrite app_assoc.
    split_and!; [done|by apply Forall_app_2|done].
  - intros [-> H]. split; [done|by apply Forall_app_2].
  - intros [-> H]. split; [done|by apply Forall_app_2].
Qed.

Lemma closes_after c now cur out cur' l :
  Forall (quiet c) l → closes c now cur out cur' → closes c now cur (out ++ l) cur'.
Proof.
  intros Hl. unfold closes. destruct cur as [d|]; [destruct (_ <=? _)|].
  - intros (-> & l1 & l2 & -> & H1 & H2). split; [done|]. exists l1, (l2 ++ l). rewrite <-app_assoc.
    split_and!; [done|done|by apply Forall_app_2].
  - intros [-> H]. split; [done|by apply Forall_app_2].
  - intros [-> H]. split; [done|by apply Forall_app_2].
Qed.

(** An event and what follows it; of its own container it is recorded if the dump goes on. *)
Lemma took_story c c' e cur out cur' :
  closes c (tsNs e) cur out cur' →
  story c cur (Took c' e :: out) (if decide (c' = c) then add_event e <$> cur' else cur').
Proof.
  unfold closes. destruct cur as [d|]; [destruct (d_end d <=? tsNs e) eqn:Hend; bool_to_prop|].
  - intros (-> & l1 & l2 & -> & H1 & H2). replace (if decide _ then _ else _) with (@None dump) by by case_decide.
    apply story_over; [done..|]. by apply story_silent.
  - intros [-> H]. apply story_running; [done|]. case_decide; by apply story_silent.
  - intros [-> H]. replace (if decide _ then _ else _) with (@None dump) by by case_decide.
    apply story_idle. by apply story_silent.
Qed.

(** What an event does to its container: the dump it finds ends, or takes it. *)
Lemma deliver_out cfg c e s :
  ∃ posted, (deliver cfg c e s).2 = Took c e :: map (Ended c) (expire (tsNs e) s).2 ++ posted
    ∧ (∀ c', Forall (quiet c') posted)
    ∧ s_dump (deliver cfg c e s).1 = add_event e <$> s_dump (expire (tsNs e) s).1.
Proof.
  unfold deliver, flush. set (s1 := Slot _ _ (s_dump s)).
  assert (He : (expire (tsNs e) s1).2 = (expire (tsNs e) s).2
    ∧ s_dump (expire (tsNs e) s1).1 = s_dump (expire (tsNs e) s).1).
  { unfold expire. subst s1. cbn [s_dump]. destruct (s_dump s) as [d|] eqn:Hd; cbn; [|by rewrite Hd].
    destruct (_ <=? _); cbn; [done|by rewrite Hd]. }
  destruct He as [<- <-]. destruct (expire (tsNs e) s1) as [s2 ended]. cbn [fst snd].
  destruct (due cfg e (record e s2)); cbn [fst snd s_dump record]; eexists; (split; [done|]);
    (split; [|done]); intros c'; by repeat constructor.
Qed.

Lemma quiet_ended c c' l : c' ≠ c → Forall (quiet c) (map (Ended c') l).
Proof. intros Hc. apply Forall_map, Forall_true. by intros d. Qed.

(** The dump of one container and its end, alone. *)
Lemma expire_closes c now s :
  closes c now (s_dump s) (map (Ended c) (expire now s).2) (s_dump (expire now s).1).
Proof.
  unfold expire, closes. destruct (s_dump s) as [d|] eqn:Hd; cbn; [|by rewrite Hd].
  destruct (d_end d <=? now); cbn; [|by rewrite Hd]. split; [done|]. by exists [], [].
Qed.

(** What the sweep does to one container. *)
Lemma sweep_closes now order k c :
  lists_keys order k →
  closes c now (dump_of k c) (sweep now order k).2 (dump_of (sweep now order k).1 c).
Proof.
  intros [Hnd Hkeys]. unfold sweep, dump_of. cbn [fst snd k_slots]. rewrite lookup_fmap.
  assert (Hrest : ∀ ids, c ∉ ids →
    Forall (quiet c) (concat (map (λ c, map (Ended c) (ends now k c)) ids))).
  { intros ids Hc. apply Forall_concat, Forall_map, List.Forall_forall.
    intros c' Hc'%list_elem_of_In. apply quiet_ended. by intros ->. }
  destruct (k_slots k !! c) as [s|] eqn:Hs; cbn [fmap option_fmap option_map mbind option_bind].
  - assert (Hin : c ∈ order) by (apply Hkeys; eauto).
    apply list_elem_of_split in Hin as (l1 & l2 & ->).
    apply NoDup_app in Hnd as (_ & Hn1 & [Hn2 _]%NoDup_cons).
    rewrite map_app, concat_app. cbn [map concat].
    apply closes_before; [apply Hrest; intros Hc; apply (Hn1 c Hc); by left|].
    apply closes_after; [by apply Hrest|]. unfold ends. rewrite Hs. apply expire_closes.
  - split; [done|]. apply Hrest. intros [s Hin]%Hkeys. congruence.
Qed.

(** Nothing is left to end once what had to has ended. *)
Lemma closes_twice c now e s out2 cur' :
  closes c now (add_event e <$> s_dump (expire now s).1) out2 cur' →
  Forall (quiet c) out2 ∧ cur' = add_event e <$> s_dump (expire now s).1.
Proof.
  unfold expire. destruct (s_dump s) as [d|] eqn:Hd; cbn.
  - destruct (d_end d <=? now) eqn:Hend; cbn; [by intros [-> ?]|]. rewrite Hd. cbn.
    change (d_end (add_event e d)) with (d_end d). rewrite Hend. by intros [-> ?].
  - rewrite Hd. cbn. by intros [-> ?].
Qed.

Lemma tidy_dump now k c : dump_of (tidy now k) c = dump_of k c.
Proof.
  unfold tidy, dump_of. case_bool; [done|]. cbn [k_slots]. rewrite map_lookup_filter.
  destruct (k_slots k !! c) as [s|]; [|done]. cbn [mbind option_bind]. case_guard as Hg; [done|].
  cbn [snd mbind option_bind] in *. apply not_false_is_true in Hg. unfold unused in Hg.
  by destruct (s_dump s); [rewrite andb_false_r in Hg|].
Qed.

Lemma dump_of_put c s k c' :
  dump_of (put c s k) c' = if decide (c' = c) then s_dump s else dump_of k c'.
Proof.
  unfold dump_of, put. cbn [k_slots]. case_decide; [subst; by rewrite lookup_insert_eq|].
  by rewrite lookup_insert_ne.
Qed.

Lemma dump_of_slot k c : dump_of k c = s_dump (slot_at k c).
Proof. unfold dump_of, slot_at. by destruct (k_slots k !! c). Qed.

Lemma lists_keys_put order c s s' k : lists_keys order (put c s k) → lists_keys order (put c s' k).
Proof.
  intros [Hnd Hkeys]. split; [done|]. intros c'. rewrite Hkeys. unfold put. cbn [k_slots].
  rewrite !lookup_insert_is_Some'. done.
Qed.

Lemma accept_story cfg c0 e order k c :
  lists_keys order (put c0 new_slot k) →
  story c (dump_of k c) (accept cfg c0 e order k).2 (dump_of (accept cfg c0 e order k).1 c).
Proof.
  intros Ho. unfold accept. destruct (deliver_out cfg c0 e (slot_at k c0)) as (posted & Hout & Hq & Hd).
  destruct (deliver cfg c0 e (slot_at k c0)) as [s o1]. cbn [fst snd] in Hout, Hd. subst o1.
  pose proof (sweep_closes (tsNs e) order (put c0 s k) c (lists_keys_put _ _ _ _ _ Ho)) as Hsw.
  destruct (sweep _ order (put c0 s k)) as [k2 o2]. cbn [fst snd] in *. rewrite tidy_dump.
  rewrite dump_of_put in Hsw. set (ended := map (Ended c0) _). cbn [app]. case_decide as Hcc.
  - subst c. rewrite Hd in Hsw. apply closes_twice in Hsw as [Hq2 ->]. rewrite dump_of_slot.
    pose proof (took_story c0 c0 e (s_dump (slot_at k c0)) ((ended ++ posted) ++ o2)
      (s_dump (expire (tsNs e) (slot_at k c0)).1)) as Ht.
    rewrite decide_True in Ht by done. apply Ht. rewrite <-app_assoc.
    apply closes_after; [by apply Forall_app_2|apply expire_closes].
  - pose proof (took_story c c0 e (dump_of k c) ((ended ++ posted) ++ o2) (dump_of k2 c)) as Ht.
    rewrite decide_False in Ht by congruence. apply Ht. apply closes_before; [|done].
    apply Forall_app_2; [by apply quiet_ended, not_eq_sym|apply Hq].
Qed.

Lemma step_story regex_search cfg k i out k' c :
  step regex_search cfg k i out k' → story c (dump_of k c) out (dump_of k' c).
Proof.
  intros Hs. destruct Hs as [| |data c0 order k Hl Hc Hp Ho|c0 dur why now start k Hst|c0 dur why k Hd|];
    try constructor.
  - by apply accept_story.
  - subst r. unfold begin_dump. cbn [fst snd]. rewrite dump_of_put. case_decide as Hcc.
    + subst c. rewrite dump_of_slot. cbn [s_dump].
      destruct (s_dump (slot_at k c0)); cbn [app]; eauto using story.
    + apply story_silent. destruct (s_dump (slot_at k c0)); cbn [app]; repeat constructor; cbn; congruence.
  - rewrite dump_of_put. case_decide; [subst c|constructor]. rewrite dump_of_slot. constructor.
Qed.

Lemma steps_story regex_search cfg k l out k' c :
  steps regex_search cfg k l out k' → story c (dump_of k c) out (dump_of k' c).
Proof. induction 1; [constructor|]. eapply story_app; [by eapply step_story|done]. Qed.

(** ** Outputs and inputs *)

(** The events taken, in order, with their containers. *)
Definition taken (out : list output) : list (string * SyscallEvent) :=
  omap (λ o, match o with Took c e => Some (c, e) | _ => None end) out.

(** The dumps begun, and those asked for, with their durations. *)
Definition begun (out : list output) : list (string * Z) :=
  omap (λ o, match o with Began c d => Some (c, d_duration d) | _ => None end) out.
Definition asked (l : list input) : list (string * Z) :=
  omap (λ i, match i with LongDump c dur _ => Some (c, dur) | _ => None end) l.

(** A dump that begins has a file of its own. *)
Definition in_own_file (cfg : AgentConfig) (o : output) : Prop :=
  match o with Began c d => ∃ now, d_path d = dump_path cfg c now | _ => True end.

Lemma taken_app o1 o2 : taken (o1 ++ o2) = taken o1 ++ taken o2.
Proof. apply omap_app. Qed.
Lemma asked_cons i l : asked (i :: l) = asked [i] ++ asked l.
Proof. by destruct i. Qed.
Lemma begun_app o1 o2 : begun (o1 ++ o2) = begun o1 ++ begun o2.
Proof. apply omap_app. Qed.

(** A step neither takes nor begins anything but what its input says. *)
Definition minor (o : output) : Prop :=
  match o with Took _ _ | Began _ _ => False | _ => True end.

Lemma minor_nothing out : Forall minor out → taken out = [] ∧ begun out = [].
Proof. induction 1 as [|o out Ho _ [I1 I2]]; [done|]. unfold taken, begun. by destruct o. Qed.

Lemma minor_ended c l : Forall minor (map (Ended c) l).
Proof. by apply Forall_map, Forall_true. Qed.

Lemma sweep_minor now order k : Forall minor (sweep now order k).2.
Proof.
  apply Forall_concat, Forall_map, Forall_true. intros c. apply minor_ended.
Qed.

Lemma accept_takes cfg c e order k :
  ∃ rest, (accept cfg c e order k).2 = Took c e :: rest ∧ Forall minor rest.
Proof.
  unfold accept. destruct (deliver_out cfg c e (slot_at k c)) as (posted & Hout & Hq & _).
  destruct (deliver cfg c e (slot_at k c)) as [s o1]. cbn [fst snd] in *. subst o1.
  pose proof (sweep_minor (tsNs e) order (put c s k)) as Hs.
  destruct (sweep _ _ _) as [k2 o2]. cbn [fst snd app] in *. eexists. split; [done|].
  apply Forall_app_2; [|done]. apply Forall_app_2; [apply minor_ended|].
  apply List.Forall_forall. intros o Ho. destruct o as [| |c' d|c' d|c' d]; try done.
  - specialize (Hq ""). rewrite List.Forall_forall in Hq. by apply (Hq _ Ho).
  - specialize (Hq c'). rewrite List.Forall_forall in Hq. by apply (Hq _ Ho).
Qed.

(** The events taken are those the inputs attribute to their containers. *)
Lemma steps_taken regex_search cfg k l out k' :
  steps regex_search cfg k l out k' → attributed regex_search cfg l (taken out).
Proof.
  induction 1 as [k|k1 i o1 k2 l o2 k3 Hs _ IH]; [constructor|]. rewrite taken_app.
  destruct Hs as [| |data c order k Hl Hc Hp Ho|c dur why now start k Hst| |];
    cbn [taken omap list_omap app]; try (by econstructor; eauto).
  - subst r. destruct (accept_takes cfg c (mapped_event (KernelSyscallEvent_of_bytes data)) order k)
      as (rest & -> & Hrest). destruct (minor_nothing _ Hrest) as [Ht _].
    unfold taken in *. cbn [omap list_omap app]. rewrite Ht. cbn [app]. by constructor.
  - subst r. unfold begin_dump. cbn [snd]. replace (taken _) with (@nil (string * SyscallEvent))
      by by destruct (s_dump (slot_at k c)). by constructor.
Qed.

(** The dumps begun are among those asked for, in order, each in a file named for its
    container and the time. *)
Lemma steps_begun regex_search cfg k l out k' :
  steps regex_search cfg k l out k' → begun out `sublist_of` asked l ∧ Forall (in_own_file cfg) out.
Proof.
  induction 1 as [k|k1 i o1 k2 l o2 k3 Hs _ [IH1 IH2]]; [by split|].
  rewrite begun_app, asked_cons.
  assert (H1 : begun o1 `sublist_of` asked [i] ∧ Forall (in_own_file cfg) o1).
  { destruct Hs as [| |data c order k Hl Hc Hp Ho|c dur why now start k Hst| |];
      try (by split; [apply sublist_nil_l|]).
    - subst r. destruct (accept_takes cfg c (mapped_event (KernelSyscallEvent_of_bytes data)) order k)
        as (rest & -> & Hrest). destruct (minor_nothing _ Hrest) as [_ Hb].
      split; [unfold begun in *; cbn [omap list_omap]; rewrite Hb; apply sublist_nil_l|].
      constructor; [done|]. eapply Forall_impl; [exact Hrest|]. by intros [].
    - subst r. unfold begin_dump. cbn [snd]. split; [by destruct (s_dump (slot_at k c))|].
      apply Forall_app_2; [destruct (s_dump _); by repeat constructor|].
      repeat constructor. by exists now. }
  destruct H1 as [H1 H1']. split; [by apply sublist_app|by apply Forall_app_2].
Qed.

(** ** The agent represents a collector *)

Definition holds_dump (b : ContainerBuffer) (d : option dump) : Prop :=
  match d with
  | None => isLongDumpActive b = false
  | Some d => isLongDumpActive b = true ∧ longDumpFilePath b = d_path d
      ∧ longDumpStartTsNs b = d_start d ∧ longDumpDurationSec b = d_duration d
      ∧ longDumpRecordCount b = u64 (Z.of_nat (length (d_events d)))
  end.

Definition represents_slot (b : ContainerBuffer) (s : slot) : Prop :=
  currentShortWindow b = s_waiting s ∧ lastEventTsNs b = s_newest s ∧ holds_dump b (s_dump s).

Definition represents (a : Agent) (k : collector) : Prop :=
  lastBufferCleanupNs_ a = k_cleaned k
  ∧ ∀ c, option_Forall2 represents_slot (buffers_ a !! c) (k_slots k !! c).

Lemma represents_stream st b s : represents_slot b s → represents_slot (set_stream st b) s.
Proof. by destruct b. Qed.

Lemma represents_at a k c :
  represents a k → represents_slot (set_id c (buffer_at a c)) (slot_at k c).
Proof.
  intros [_ H]. specialize (H c). unfold buffer_at, slot_at. inversion H as [b s Hs|]; cbn [default].
  - destruct b, s. exact Hs.
  - done.
Qed.

Lemma represents_put a k c b s :
  represents a k → represents_slot b s →
  represents (set_buffers (<[c := b]> (buffers_ a)) a) (put c s k).
Proof.
  intros [Hc H] Hs. split; [by destruct a|]. intros c'. rewrite buffers_set_buffers. unfold put.
  cbn [k_slots]. destruct (decide (c = c')) as [->|Hne];
    [by rewrite !lookup_insert_eq; constructor|by rewrite !lookup_insert_ne].
Qed.

Lemma represents_mappers d m a k : represents a k → represents (set_mappers d m a) k.
Proof. by destruct a. Qed.
Lemma represents_enforcer e a k : represents a k → represents (set_enforcer e a) k.
Proof. by destruct a. Qed.

(** *** Dumps and windows of one buffer *)

Lemma notice_of_dump c b d :
  buffer_ok c b → holds_dump b (Some d) → notice_of b = dump_notice c d.
Proof. intros Hok (_ & H1 & H2 & H3 & H4). unfold notice_of. by rewrite (ok_id c), H1, H2, H3, H4. Qed.

Lemma dump_end c b d : buffer_ok c b → holds_dump b (Some d) → longDumpEndTsNs b = d_end d.
Proof. intros Hok (Ha & _ & H2 & H3 & _). by rewrite (ok_end c b Hok Ha), H2, H3. Qed.

(** The end of a dump, on both sides. *)
Lemma expired_expire now c b s :
  buffer_ok c b → represents_slot b s →
  notices_of (map (Ended c) (expire now s).2) = (if expired now b then [notice_of b] else [])
  ∧ ∀ b', (if expired now b then finished b b' else b' = b) → represents_slot b' (expire now s).1.
Proof.
  intros Hok (Hw & Hn & Hd). unfold expire, expired. destruct (s_dump s) as [d|] eqn:Hs.
  - pose proof (dump_end c b d Hok Hd) as He. pose proof (notice_of_dump c b d Hok Hd) as Hno.
    rewrite (proj1 Hd), He. cbn [andb]. destruct (d_end d <=? now); cbn.
    + split; [by rewrite Hno|]. intros b' (st & _ & ->). by destruct b.
    + split; [done|]. intros b' ->. split_and!; [done|done|by rewrite Hs].
  - cbn in Hd. rewrite Hd. cbn. split; [done|]. intros b' ->. split_and!; [done|done|by rewrite Hs].
Qed.

Lemma windows_of_app o1 o2 : windows_of (o1 ++ o2) = windows_of o1 ++ windows_of o2.
Proof. apply omap_app. Qed.
Lemma notices_of_app o1 o2 : notices_of (o1 ++ o2) = notices_of o1 ++ notices_of o2.
Proof. apply omap_app. Qed.
Lemma windows_of_ended c l : windows_of (map (Ended c) l) = [].
Proof. by induction l. Qed.

(** Posted and announced: the outputs of the machine on the trace. *)
Definition shows (cfg : AgentConfig) (tr : list event) (out : list output) : Prop :=
  effects cfg tr (windows_of out) (notices_of out).

Lemma shows_app cfg t1 t2 o1 o2 :
  shows cfg t1 o1 → shows cfg t2 o2 → shows cfg (t1 ++ t2) (o1 ++ o2).
Proof. unfold shows. rewrite windows_of_app, notices_of_app. apply effects_app. Qed.

(** Ending or feeding the dump leaves the window alone. *)
Lemma expire_waiting now s :
  s_waiting (expire now s).1 = s_waiting s ∧ s_newest (expire now s).1 = s_newest s.
Proof. unfold expire. by repeat case_match. Qed.

Section buffer.
Context {W : Type} `{OS W} (cfg : AgentConfig) (Hurl : url_ok cfg).

(** An event on the dump: it ends, or takes the event. *)
Lemma append_represents c b s evt :
  buffer_ok c b → represents_slot b s →
  holds (W:=W) (appendLongDump cfg b evt) (λ b' tr,
    represents_slot b' (record evt (expire (tsNs evt) s).1)
    ∧ windowStartTsNs b' = windowStartTsNs b ∧ containerId b' = containerId b
    ∧ shows cfg tr (map (Ended c) (expire (tsNs evt) s).2)).
Proof using Hurl.
  intros Hok Hs. eapply holds_mono; [by apply appendLongDump_holds|]. intros b' tr Hr.
  rewrite <-(ok_stream c b Hok) in Hr.
  destruct (expired_expire (tsNs evt) c b s Hok Hs) as [Hn Hb]. unfold expired in *.
  unfold shows. rewrite windows_of_ended, Hn. destruct Hs as (Hw & Hl & Hd).
  destruct (isLongDumpActive b) eqn:Ha; cbn [andb] in *.
  - destruct (s_dump s) as [d|] eqn:Hsd; [|cbn in Hd; congruence].
    pose proof (dump_end c b d Hok Hd) as He. destruct (longDumpEndTsNs b <=? tsNs evt) eqn:Hle.
    + destruct Hr as [Hf He']. specialize (Hb b' Hf). split_and!; [| | |done].
      * unfold record. destruct Hb as (B1 & B2 & B3). split_and!; [done|done|].
        unfold expire in *. rewrite Hsd, <-He, Hle in *. exact B3.
      * destruct Hf as (st & _ & ->). by destruct b.
      * destruct Hf as (st & _ & ->). by destruct b.
    + destruct Hr as [(st & Hst & ->) He']. split_and!; [|by destruct b|by destruct b|done].
      unfold record, expire. rewrite Hsd, <-He, Hle. cbn [fst s_waiting s_newest s_dump].
      rewrite Hsd. destruct Hd as (D1 & D2 & D3 & D4 & D5). destruct b. cbn in *.
      split_and!; try done. cbn. split_and!; try done.
      rewrite length_app, D5, wrap_add_l. cbn. f_equal. lia.
  - destruct Hr as [-> ->]. split_and!; [|done|done|by apply effects_silent].
    destruct (s_dump s) as [d|] eqn:Hsd; [destruct Hd as [? _]; congruence|].
    unfold record, expire. rewrite Hsd. cbn. split_and!; [done|done|by rewrite Hsd].
Qed.

(** A buffer and the event it is given. *)
Lemma feed_represents c b s evt :
  SyscallEvent_wf evt → buffer_ok c b → represents_slot b s →
  holds (W:=W) (feed_buffer cfg evt b) (λ b' tr,
    represents_slot b' (deliver cfg c evt s).1 ∧ shows cfg tr (deliver cfg c evt s).2).
Proof using Hurl.
  intros Hwf Hok (Hw & Hl & Hd). unfold feed_buffer, deliver. cbv zeta.
  pose proof (queue_event_ok _ _ _ Hwf Hok) as Hq.
  set (s1 := Slot (s_waiting s ++ [evt]) (tsNs evt) (s_dump s)).
  assert (Hs1 : represents_slot (queue_event evt b) s1)
    by (destruct b; cbn in *; subst; by split_and!).
  io_step. eapply holds_mono; [by apply (append_represents c)|]. intros b1 t1 (R1 & Hst & Hid & E1).
  rewrite (ok_window c _ Hq), (proj1 Hs1) in Hst. rewrite (ok_id c _ Hq) in Hid.
  destruct (expire_waiting (tsNs evt) s1) as [X1 X2].
  destruct (expire (tsNs evt) s1) as [s2 ended] eqn:Hex. cbn [fst snd] in *.
  assert (Hdue : window_due cfg b1 evt = due cfg evt (record evt s2)).
  { unfold window_due, due. rewrite Hst, (proj1 R1). cbn [record s_waiting]. by rewrite X1. }
  destruct R1 as (R1 & R2 & R3). rewrite Hdue. unfold flush.
  assert (Htook : ∀ t o, shows cfg t o → shows cfg t (Took c evt :: o)) by done.
  destruct (due cfg evt (record evt s2)); cycle 1.
  { io_step. rewrite !app_nil_r. split; [done|]. by apply Htook. }
  eapply holds_mono; [by apply processShortWindow_holds|]. intros b2 t2 [-> E2].
  rewrite R1 in E2. cbn [record s_waiting] in *. rewrite X1 in *.
  assert (Hwin : window_of b1 = MkWindow c (window_start (s_waiting s1)) (s_waiting s1))
    by (unfold window_of; by rewrite Hid, Hst, R1).
  destruct (s_waiting s1) as [|e l] eqn:Hne; [subst s1; cbn in Hne; by destruct (s_waiting s)|].
  rewrite Hwin in E2. split.
  - rewrite R1. destruct b1. cbn in *. by split_and!.
  - apply Htook. by apply shows_app.
Qed.
End buffer.

(** *** The whole table *)

Lemma represents_keys order a k :
  represents a k → order ≡ₚ (map_to_list (buffers_ a)).*1 → lists_keys order k.
Proof.
  intros [_ Hr] Ho. split; [rewrite Ho; apply NoDup_fst_map_to_list|]. intros c. rewrite Ho.
  specialize (Hr c). rewrite list_elem_of_fmap. split.
  - intros ([c' b] & -> & Hb). apply elem_of_map_to_list in Hb. cbn [fst] in *. rewrite Hb in Hr.
    inversion Hr. by eexists.
  - intros [s Hs]. rewrite Hs in Hr. inversion Hr as [b ? ? Hb|]. exists (c, b). split; [done|].
    by apply elem_of_map_to_list.
Qed.

Lemma sweep_represents now order a a' k :
  agent_ok a → represents a k → order ≡ₚ (map_to_list (buffers_ a)).*1 → swept now order a a' →
  represents a' (sweep now order k).1
  ∧ windows_of (sweep now order k).2 = [] ∧ notices_of (sweep now order k).2 = notices now a order.
Proof.
  intros [_ Hok] [Hc Hr] Ho Hs. unfold sweep. cbn [fst snd]. split_and!.
  - split; [rewrite (proj1 Hs); by destruct a|]. intros c. cbn [k_slots]. rewrite lookup_fmap.
    pose proof (swept_all _ _ _ _ c Ho Hs) as Hsw. specialize (Hr c).
    inversion Hr as [b s Hbs Hb Hk|Hb Hk]; rewrite <-Hb in Hsw.
    + destruct Hsw as (b' & -> & Hf). cbn. constructor.
      by apply (expired_expire now c b s); [by apply Hok|..].
    + rewrite Hsw. constructor.
  - clear. induction order as [|c order IH]; [done|]. cbn [map concat].
    by rewrite windows_of_app, IH, windows_of_ended.
  - clear Ho Hs. unfold notices. induction order as [|c order IH]; [done|]. cbn [map concat omap list_omap].
    rewrite notices_of_app, IH. unfold ends. specialize (Hr c).
    inversion Hr as [b s Hbs Hb Hk|Hb Hk]; cbn [mbind option_bind]; [|done].
    destruct (expired_expire now c b s (Hok _ _ (eq_sym Hb)) Hbs) as [-> _].
    by destruct (expired now b).
Qed.

Lemma unused_idle now b s : represents_slot b s → idle now b = unused now s.
Proof.
  intros (Hw & Hl & Hd). unfold idle, unused. rewrite Hw, Hl. f_equal. f_equal.
  destruct (s_dump s); [by destruct Hd as [-> _]|]. cbn in Hd. by rewrite Hd.
Qed.

Lemma tidy_represents now a k :
  represents a k → represents (cleanupInactiveBuffers now a) (tidy now k).
Proof.
  intros [Hc Hr]. unfold tidy. split.
  - unfold cleanupInactiveBuffers. rewrite <-Hc. case_bool; [done|]. by destruct a.
  - intros c. rewrite cleanup_lookup, Hc. specialize (Hr c). case_bool; [done|]. cbn [k_slots].
    rewrite map_lookup_filter. inversion Hr as [b s Hbs Hb Hk|Hb Hk]; cbn [mbind option_bind]; [|constructor].
    rewrite (unused_idle now b s Hbs). case_guard as Hg; cbn [snd mret option_ret mbind option_bind] in *.
    + rewrite Hg. by constructor.
    + apply not_false_is_true in Hg as ->. constructor.
Qed.

(** ** One input, then all *)

#[local] Existing Instance PolicyEnforcer.apply_unposted.

Section refinement.
Context {W : Type} `{OS W} (regex_search : string → string → option bool).

Lemma shows_nil cfg t : Forall unposted t → shows cfg t [].
Proof. intros Ht. exact (effects_unposted cfg t Ht). Qed.
Lemma shows_silent cfg t : Forall silent t → shows cfg t [].
Proof. intros Ht. exact (effects_silent cfg t Ht). Qed.

(** The state and the trace after an input. *)
Definition follows (cfg : AgentConfig) (k : collector) (i : input) (a' : Agent) (tr : list event)
    : Prop :=
  ∃ out k', step regex_search cfg k i out k' ∧ shows cfg tr out ∧ represents a' k'
    ∧ (length (asked [i]) ≤ length (begun out) + length (failed_opens tr))%nat.

Lemma handleEvent_follows a k data :
  agent_ok a → represents a k → Forall (fits 8) data →
  (KernelSyscallEvent_size ≤ length data)%nat →
  holds (W:=W) (handleEvent regex_search a (KernelSyscallEvent_of_bytes data))
    (λ r tr, follows (config_ a) k (Sample data) r.2 tr).
Proof.
  intros Hok Hr Hd Hlen. pose proof (mapped_event_wf _ (KernelSyscallEvent_of_bytes_wf _ Hd)) as Hwf.
  unfold handleEvent. cbv zeta. set (evt := mapped_event _) in *. io_step.
  eapply holds_mono; [apply mapContainerId_holds|].
  intros [c a1] t1 (Ht1 & Hid & d & m & Ha1). cbn [fst snd] in *. subst a1.
  assert (Hcfg : config_ (set_mappers d m a) = config_ a) by apply config_set_mappers.
  pose proof (set_mappers_ok d m a Hok) as Hok1.
  pose proof (represents_mappers d m a k Hr) as Hr1. set (a1 := set_mappers d m a) in *.
  pose proof (shows_silent (config_ a) t1 Ht1) as E1.
  rewrite Hcfg. destruct (passes_filter regex_search (config_ a) c) eqn:Hf; cbn [negb]; cycle 1.
  { io_step. rewrite app_nil_r. exists [], k. split_and!; [by eapply step_drop|done|done|cbn; lia]. }
  io_step. eapply holds_mono.
  { apply holds_and; [apply (feed_buffer_holds _ _ c); [apply Hok|exact Hwf|by apply buffer_at_ok]|].
    apply (feed_represents (config_ a) (proj1 Hok) c); [exact Hwf|by apply buffer_at_ok|].
    by apply represents_at. }
  intros b' t2 [[Hb' _] [Rb E2]]. pose proof (set_buffers_ok a1 c b' Hok1 Hb') as Hok2.
  pose proof (represents_put a1 k c b' _ Hr1 Rb) as Hr2.
  set (a2 := set_buffers _ a1) in *.
  assert (Hcfg2 : config_ a2 = config_ a) by (subst a2; by rewrite config_set_buffers).
  io_step. eapply holds_mono; [by apply stopExpiredLongDumps_holds|].
  intros a3 t3 (ids & Hids & Hs & E3). rewrite Hcfg2 in E3. io_step. rewrite app_nil_r. cbn [snd].
  pose proof (represents_keys _ _ _ Hr2 Hids) as Hkeys.
  destruct (sweep_represents _ _ _ _ _ Hok2 Hr2 Hids Hs) as (Hr3 & Hw3 & Hn3).
  eexists _, _. split_and!;
    [apply (step_accept _ _ data c ids k); [done..|by eapply lists_keys_put]| | |cbn; lia].
  - fold evt. unfold accept. destruct (deliver _ _ _ _) as [s o1]. cbn [fst snd] in *.
    destruct (sweep _ _ _) as [k2 o2]. cbn [fst snd] in *.
    apply (shows_app _ _ _ [] _ E1), (shows_app _ _ _ _ _ E2). unfold shows. by rewrite Hw3, Hn3.
  - fold evt. unfold accept. destruct (deliver _ _ _ _) as [s o1]. cbn [fst snd] in *.
    destruct (sweep _ _ _) as [k2 o2]. by apply tidy_represents.
Qed.

Lemma requestLongDump_follows a k c dur why :
  agent_ok a → represents a k →
  holds (W:=W) (requestLongDump a c dur) (λ r tr,
    match r with None => True | Some a' => follows (config_ a) k (LongDump c dur why) a' tr end).
Proof.
  intros Hok Hr. unfold requestLongDump. io_step. eapply holds_mono; [apply startLongDump_holds|].
  intros [b'|] tr [E Hb']; io_step; cbn [mbind option_bind]; [rewrite app_nil_r|done].
  unfold follows. change (length (asked [_])) with 1%nat.
  pose proof (represents_at a k c Hr) as (Hw & Hl & Hd).
  pose proof (buffer_at_ok a c Hok) as Hb. set (b := set_id c (buffer_at a c)) in *.
  destruct Hb' as [[(st & Hst & _ & ->) Hf]|(now & start & st & st' & Hst & Hstart & ->)].
  - exists [], (put c (slot_at k c) k). split_and!; [|exact E| |cbn; lia].
    + apply step_refused. rewrite <-(ok_stream c b Hb) in Hst.
      destruct (s_dump (slot_at k c)); [|done]. destruct Hd as [? _]. congruence.
    + apply represents_put; [done|]. apply represents_stream. by split_and!.
  - eexists _, _. split_and!; [apply (step_dump _ _ c dur why now start k); by rewrite <-Hl| | |].
    + unfold shows, begin_dump. cbn [snd]. by destruct (s_dump (slot_at k c)).
    + apply represents_put; [done|]. destruct b. cbn in *. by split_and!.
    + unfold begin_dump. cbn [snd]. rewrite begun_app. destruct (s_dump _); cbn; lia.
Qed.

Lemma agent_step_follows a k i :
  agent_ok a → represents a k → input_wf i →
  holds (W:=W) (agent_step regex_search a i) (λ r tr,
    match r with None => True | Some a' => follows (config_ a) k i a' tr end).
Proof.
  intros Hok Hr Hi. destruct i as [data|c d why|c p ty s]; cbn [agent_step].
  - io_step. unfold handleEventThunk. destruct (length data <? _)%nat eqn:Hl.
    + apply Nat.ltb_lt in Hl. do 2 io_step. exists [], k.
      split_and!; [by apply step_short|by apply shows_silent|done|cbn; lia].
    + apply Nat.ltb_ge in Hl. eapply holds_mono; [by apply handleEvent_follows|].
      intros [z a'] tr Hf. io_step. by rewrite app_nil_r.
  - by apply requestLongDump_follows.
  - unfold policy_handler, handlePolicy. io_step. destruct (policyEnforcer_ a) as [e|].
    + io_step. apply (holds_mono _ (λ _ t, Forall unposted t)); [apply emits|].
      intros [ok e'] t Ht. do 2 io_step. rewrite !app_nil_r. exists [], k.
      split_and!; [by apply step_policy|by apply shows_nil|by apply represents_enforcer|cbn; lia].
    + do 2 io_step. exists [], k. split_and!; [by apply step_policy|by apply shows_silent|done|cbn; lia].
Qed.

Lemma agent_steps_follow a k l :
  agent_ok a → represents a k → Forall input_wf l →
  holds (W:=W) (agent_steps regex_search a l) (λ r tr,
    match r with
    | None => True
    | Some a' => ∃ out k', steps regex_search (config_ a) k l out k'
        ∧ shows (config_ a) tr out ∧ represents a' k'
        ∧ (length (asked l) ≤ length (begun out) + length (failed_opens tr))%nat
    end).
Proof.
  intros Hok Hr Hl. revert a k Hok Hr. induction Hl as [|i l Hi _ IH]; intros a k Hok Hr; cbn [agent_steps].
  - io_step. exists [], k. split_and!; [constructor|by apply shows_silent|done|cbn; lia].
  - io_step. eapply holds_mono.
    { apply holds_and; [by apply agent_step_holds|by apply agent_step_follows]. }
    intros [a1|] t1 [H1 F1]; [|by io_step]. destruct H1 as (Hok1 & Hcfg1 & _).
    destruct F1 as (o1 & k1 & S1 & E1 & R1 & N1). eapply holds_mono; [by apply IH|].
    intros [a2|] t2 H2; [|done]. rewrite Hcfg1 in H2. destruct H2 as (o2 & k2 & S2 & E2 & R2 & N2).
    exists (o1 ++ o2), k2. split_and!; [by eapply steps_cons|by apply shows_app|done|].
    rewrite asked_cons, begun_app, failed_opens_app, !length_app. lia.
Qed.
End refinement.

(** ** Properties *)

(** C5: the agent refines the collector.  From states that represent each other, whatever the
    machine answers, any sequence of samples, dump requests and policies is a run of the
    abstract machine on the same inputs, unless a handler threw: the trace posts exactly the
    windows and the completion notices of its outputs, in order (each up to three times), and
    the states at the end represent each other.  The names the mappers gave, the readings of
    the clock and the order of the hash table are the abstract machine's free choices. *)
Theorem agent_refines_collector {W} `{OS W} regex_search a k l :
  agent_ok a → represents a k → Forall input_wf l →
  holds (W:=W) (agent_steps regex_search a l) (λ r tr,
    match r with
    | None => True
    | Some a' => ∃ out k', steps regex_search (config_ a) k l out k'
        ∧ shows (config_ a) tr out ∧ represents a' k'
    end).
Proof.
  intros Hok Hr Hl. eapply holds_mono; [by apply agent_steps_follow|]. intros [a'|] tr; [|done].
  intros (out & k' & Hs & Hsh & Hr' & _). by exists out, k'.
Qed.

(** C6: every dump is accounted for.  Along any sequence of samples, dump requests and policies,
    whatever the machine answers, there is a history of what was done in which:
    - the events taken are those of the samples, in order, each given to the container it was
      attributed to (as in [events_conserved]);
    - the dumps begun are among those requested, in order, with the duration requested, each in
      the file named for its container and the time; a request that begins none could not open
      its file;
    - the dumps of each container follow its [story]: they begin one at a time, with no event;
      while one runs it takes exactly the events given to its container, in order; the first
      event of any container that is not before its end ends it; it is given up only when
      the next dump of the container begins;
    - each dump that ends, and no other, is announced, in order, with the number of events it
      took (posted up to three times), and the windows posted are those of the history;
    - what runs in the end is what the buffer of the container holds. *)
Theorem dumps_accounted {W} `{OS W} regex_search a k l :
  agent_ok a → represents a k → Forall input_wf l →
  holds (W:=W) (agent_steps regex_search a l) (λ r tr,
    match r with
    | None => True
    | Some a' => ∃ out running,
        attributed regex_search (config_ a) l (taken out)
        ∧ begun out `sublist_of` asked l ∧ Forall (in_own_file (config_ a)) out
        ∧ (length (asked l) ≤ length (begun out) + length (failed_opens tr))%nat
        ∧ shows (config_ a) tr out
        ∧ ∀ c, story c (dump_of k c) out (running c)
             ∧ match buffers_ a' !! c with
               | Some b => holds_dump b (running c)
               | None => running c = None
               end
    end).
Proof.
  intros Hok Hr Hl. eapply holds_mono; [by apply agent_steps_follow|]. intros [a'|] tr; [|done].
  intros (out & k' & Hs & Hsh & [_ Hr'] & Hn). exists out, (dump_of k').
  destruct (steps_begun _ _ _ _ _ _ Hs) as [Hb Hf].
  split_and!; [by eapply steps_taken|done..|]. intros c.
  split; [by eapply steps_story|]. unfold dump_of. specialize (Hr' c).
  inversion Hr' as [b s (_ & _ & Hd)|]; [exact Hd|done].
Qed.

(** An agent that was just constructed represents the empty collector. *)
Lemma fresh_represents cfg d m e : represents (MkAgent cfg d m e ∅ 0) (Collector ∅ 0).
Proof.
  split; [done|]. intros c. cbn [buffers_ k_slots]. rewrite !lookup_empty. constructor.
Qed.

(** *** On a sample run *)

(** A dump of "host-1" takes two events and ends with an event of another container. *)
Definition dump_inputs : list input :=
  [Sample (sample_bytes 1000 1); LongDump "host-1" 1 ""; Sample (sample_bytes 2000 1);
   Sample (sample_bytes 3000 1); Sample (sample_bytes 1000002000 7)].

Lemma dump_inputs_wf : Forall input_wf dump_inputs.
Proof.
  repeat (apply Forall_cons; split); try exact I; try apply Forall_nil;
    apply (bool_decide_unpack _); vm_compute; exact I.
Qed.

Definition dump_payload : string :=
  notice_payload sample_config
    (MkNotice "host-1" "/var/lib/deepkernel/dumps/host-1-20250101-000000.dkdump" 1000 1 2).

Lemma agent_refines_collector_witness :
  agent_ok sample_agent ∧ represents sample_agent (Collector ∅ 0) ∧ Forall input_wf dump_inputs ∧
  holds (W:=script) (agent_steps subset_regex sample_agent dump_inputs) (λ r tr,
    match r with
    | None => True
    | Some a' => ∃ out k', steps subset_regex (config_ sample_agent) (Collector ∅ 0) dump_inputs out k'
        ∧ shows (config_ sample_agent) tr out ∧ represents a' k'
    end)
  ∧ let r := IO.run (agent_steps subset_regex sample_agent dump_inputs) bare in
    (λ a, map tsNs (pending a "host-1")) <$> r.1 = Some [1000; 2000; 3000].
Proof.
  split; [exact sample_agent_ok|]. split; [apply fresh_represents|]. split; [exact dump_inputs_wf|].
  split; [|vm_compute; reflexivity].
  apply (agent_refines_collector subset_regex sample_agent (Collector ∅ 0) dump_inputs sample_agent_ok);
    [apply fresh_represents|exact dump_inputs_wf].
Defined.

Lemma dumps_accounted_witness :
  agent_ok sample_agent ∧ represents sample_agent (Collector ∅ 0) ∧ Forall input_wf dump_inputs ∧
  holds (W:=script) (agent_steps subset_regex sample_agent dump_inputs) (λ r tr,
    match r with
    | None => True
    | Some a' => ∃ out running,
        attributed subset_regex (config_ sample_agent) dump_inputs (taken out)
        ∧ begun out `sublist_of` asked dump_inputs ∧ Forall (in_own_file (config_ sample_agent)) out
        ∧ (length (asked dump_inputs) ≤ length (begun out) + length (failed_opens tr))%nat
        ∧ shows (config_ sample_agent) tr out
        ∧ ∀ c, story c (dump_of (Collector ∅ 0) c) out (running c)
             ∧ match buffers_ a' !! c with
               | Some b => holds_dump b (running c)
               | None => running c = None
               end
    end)
  ∧ posted_bodies "http://localhost:9090/api/v1/agent/long-dump-complete"
      (IO.run (agent_steps subset_regex sample_agent dump_inputs)
        (with_curl [CurlDone [] true 200; CurlDone [] true 200] bare)).2 = [dump_payload].
Proof.
  split; [exact sample_agent_ok|]. split; [apply fresh_represents|]. split; [exact dump_inputs_wf|].
  split; [|vm_compute; reflexivity].
  apply (dumps_accounted subset_regex sample_agent (Collector ∅ 0) dump_inputs sample_agent_ok);
    [apply fresh_represents|exact dump_inputs_wf].
Defined.
