(* ===== verification/Threads.v ===== *)
(** * Threads: several threads over one shared state

    The agent runs two threads on the same object.  A [thread] is a sequence of
    atomic steps: each reads and writes the shared state and may perform system
    calls, and what follows depends on what it read.  [exec] runs a thread
    alone, [par] runs two of them under a schedule that says, step by step,
    which one goes next.  A step may also end the whole process: by an exception
    no one catches ([Terminated]), or by using a reference or an iterator that
    is no longer valid ([Undefined]).

    Two ways to reason follow.  [acts_as] relates a thread that runs alone to a
    method modelled as one action.  [safe] is a rely-guarantee triple: the
    thread meets its post-condition although the other one changes the state
    between its steps, within what is relied upon; [par_safe] composes two. *)

From S2P Require Export IO.

#[local] Open Scope Z_scope.

Inductive stop := Terminated | Undefined.

#[export] Instance stop_eq_dec : EqDecision stop.
Proof. solve_decision. Defined.

(** One atomic step on the state. *)
Definition step (W S B : Type) : Type := S → IO W (stop + B * S).

Inductive thread (W S A : Type) : Type :=
  | Done (a : A)
  | Act {B : Type} (f : step W S B) (k : B → thread W S A).
Arguments Done {W S A}.
Arguments Act {W S A B}.

#[export] Instance thread_ret W S : MRet (thread W S) := λ A a, Done a.

Fixpoint thread_then {W S A B} (k : A → thread W S B) (t : thread W S A) : thread W S B :=
  match t with
  | Done a => k a
  | Act f k' => Act f (λ b, thread_then k (k' b))
  end.
#[export] Instance thread_bind W S : MBind (thread W S) := λ A B k t, thread_then k t.

(** A step that computes on the state, and one that does not look at it. *)
Definition observe {W S B} (f : S → B) : thread W S B := Act (λ s, mret (inr (f s, s))) Done.
Definition modify {W S} (g : S → S) : thread W S unit := Act (λ s, mret (inr (tt, g s))) Done.
Definition request {W S B} (m : IO W B) : thread W S B :=
  Act (λ s, b ← m; mret (inr (b, s))) Done.

(** The same for each element of a list. *)
Fixpoint each {W S A} (f : A → thread W S unit) (l : list A) : thread W S unit :=
  match l with
  | [] => Done tt
  | a :: l => _ ← f a; each f l
  end.

Fixpoint exec {W S A} (t : thread W S A) (s : S) : IO W (stop + A * S) :=
  match t with
  | Done a => mret (inr (a, s))
  | Act f k =>
      r ← f s;
      match r with inl e => mret (inl e) | inr (b, s) => exec (k b) s end
  end.

(** Two threads under a schedule: [true] is a step of the first.  At the end of the
    schedule the first runs to its end, then the second.  Every interleaving of two threads
    that end is the one of some schedule. *)
Fixpoint par {W S A B} (sched : list bool) (t1 : thread W S A) (t2 : thread W S B) (s : S)
    : IO W (stop + A * B * S) :=
  match sched with
  | [] =>
      r ← exec t1 s;
      match r with
      | inl e => mret (inl e)
      | inr (a, s) =>
          r ← exec t2 s;
          match r with inl e => mret (inl e) | inr (b, s) => mret (inr (a, b, s)) end
      end
  | true :: sched =>
      match t1 with
      | Done _ => par sched t1 t2 s
      | Act f k =>
          r ← f s;
          match r with inl e => mret (inl e) | inr (x, s) => par sched (k x) t2 s end
      end
  | false :: sched =>
      match t2 with
      | Done _ => par sched t1 t2 s
      | Act f k =>
          r ← f s;
          match r with inl e => mret (inl e) | inr (x, s) => par sched t1 (k x) s end
      end
  end.

(** A thread over a part of the state, run on the whole: the part is looked up at each step,
    and the process is undefined when it is no longer there. *)
Fixpoint focus {W S T A} (get : S → option T) (put : T → S → S) (t : thread W T A)
    : thread W S A :=
  match t with
  | Done a => Done a
  | Act f k =>
      Act (λ s, match get s with
                | None => mret (inl Undefined)
                | Some x =>
                    r ← f x;
                    mret (match r with inl e => inl e | inr (b, x') => inr (b, put x' s) end)
                end)
          (λ b, focus get put (k b))
  end.

(** ** A thread that runs alone *)

(** [acts_as t s m Q]: from [s], thread [t] makes the system calls of [m], in order, and its
    result is related by [Q] to the value of [m]. *)
Definition acts_as {W S A B} (t : thread W S A) (s : S) (m : IO W B)
    (Q : stop + A * S → B → Prop) : Prop :=
  ∀ σ, (exec t s σ).2 = (m σ).2 ∧ Q (exec t s σ).1 (m σ).1.

Section alone.
Context {W S : Type}.

Lemma exec_bind {A B} (t : thread W S A) (k : A → thread W S B) s σ :
  exec (t ≫= k) s σ =
    match (exec t s σ).1 with
    | inl e => (inl e, (exec t s σ).2)
    | inr (a, s') => exec (k a) s' (exec t s σ).2
    end.
Proof.
  change (exec (thread_then k t) s σ =
    match (exec t s σ).1 with
    | inl e => (inl e, (exec t s σ).2)
    | inr (a, s') => exec (k a) s' (exec t s σ).2
    end).
  revert s σ. induction t as [a|X f k' IH]; intros s σ; [done|].
  cbn [thread_then exec]. unfold mbind, io_bind.
  destruct ((f s σ).1) as [e|[x s']]; [done|]. apply IH.
Qed.

Lemma acts_ret {A B} (a : A) s (b : B) (Q : stop + A * S → B → Prop) :
  Q (inr (a, s)) b → acts_as (W:=W) (Done a) s (mret b) Q.
Proof. by intros HQ σ. Qed.

Lemma acts_bind {A A' B B'} (t : thread W S A) (k : A → thread W S A') s (m : IO W B)
    (k' : B → IO W B') (Q1 : stop + A * S → B → Prop) Q :
  acts_as t s m Q1 →
  (∀ e b, Q1 (inl e) b → ∀ σ, (k' b σ).2 = σ ∧ Q (inl e) (k' b σ).1) →
  (∀ a s' b, Q1 (inr (a, s')) b → acts_as (k a) s' (k' b) Q) →
  acts_as (t ≫= k) s (m ≫= k') Q.
Proof.
  intros Ht He Hk σ. rewrite exec_bind. change ((m ≫= k') σ) with (k' (m σ).1 (m σ).2).
  destruct (Ht σ) as [Hσ H1]. destruct (exec t s σ) as [[e|[a s']] σ']; cbn in *; subst.
  - destruct (He e (m σ).1 H1 (m σ).2) as [-> HQ]. by split.
  - by apply Hk.
Qed.

Lemma acts_assoc {A B B' B''} (t : thread W S A) s (m : IO W B) (k : B → IO W B') (k' : B' → IO W B'') Q :
  acts_as t s (b ← m; k b ≫= k') Q → acts_as t s ((m ≫= k) ≫= k') Q.
Proof. done. Qed.

Lemma acts_regroup {A A' A'' B} (t : thread W S A) (k : A → thread W S A') (k' : A' → thread W S A'') s
    (m : IO W B) Q :
  acts_as (a ← t; k a ≫= k') s m Q → acts_as ((t ≫= k) ≫= k') s m Q.
Proof.
  intros Ht σ. specialize (Ht σ). rewrite !exec_bind in *.
  destruct (exec t s σ) as [[e|[a s']] σ']; cbn [fst snd] in *; [done|]. by rewrite exec_bind in Ht.
Qed.

Lemma acts_post {A B C} (t : thread W S A) s (m : IO W B) (Q1 : stop + A * S → B → Prop) (f : B → C) Q :
  acts_as t s m Q1 → (∀ r b, Q1 r b → Q r (f b)) → acts_as t s (b ← m; mret (f b)) Q.
Proof. intros Ht HQ σ. destruct (Ht σ) as [Hσ H1]. split; [exact Hσ|]. by apply HQ. Qed.

Lemma acts_mono {A B} (t : thread W S A) s (m : IO W B) (P Q : stop + A * S → B → Prop) :
  acts_as t s m P → (∀ r b, P r b → Q r b) → acts_as t s m Q.
Proof. intros Ht HPQ σ. destruct (Ht σ) as [Hσ HP]. auto. Qed.

(** A thread that makes no system call. *)
Definition silently {A} (t : thread W S A) (s : S) (a : A) (s' : S) : Prop :=
  ∀ σ, exec t s σ = (inr (a, s'), σ).

Lemma silently_bind {A B} (t : thread W S A) (k : A → thread W S B) s a s1 b s2 :
  silently t s a s1 → silently (k a) s1 b s2 → silently (t ≫= k) s b s2.
Proof.
  intros Ht Hk σ. rewrite exec_bind. specialize (Ht σ). destruct (exec t s σ) as [r σ'].
  simplify_eq/=. apply Hk.
Qed.

Lemma acts_silent {A A' B} (t : thread W S A) (k : A → thread W S A') s (m : IO W B) a s' Q :
  silently t s a s' → acts_as (k a) s' m Q → acts_as (t ≫= k) s m Q.
Proof.
  intros Ht Hk σ. rewrite exec_bind. specialize (Ht σ). destruct (exec t s σ) as [r σ'].
  simplify_eq/=. apply Hk.
Qed.

Lemma acts_observe {X A' B} (f : S → X) (k : X → thread W S A') s (m : IO W B) Q :
  acts_as (k (f s)) s m Q → acts_as (observe f ≫= k) s m Q.
Proof. done. Qed.

Lemma acts_modify {A' B} (g : S → S) (k : unit → thread W S A') s (m : IO W B) Q :
  acts_as (k tt) (g s) m Q → acts_as (modify g ≫= k) s m Q.
Proof. done. Qed.

Lemma acts_request {X A' B} (m : IO W X) (k : X → thread W S A') s (k' : X → IO W B) Q :
  (∀ x, acts_as (k x) s (k' x) Q) → acts_as (request m ≫= k) s (m ≫= k') Q.
Proof. intros Hk σ. apply (Hk (m σ).1 (m σ).2). Qed.

(** A step that computes its answer and the next state from what a request returned. *)
Lemma acts_act {X Y A' B} (f : step W S Y) (k : Y → thread W S A') s (m : IO W X) (k' : X → IO W B)
    (g : X → stop + Y * S) Q :
  (∀ σ, f s σ = (g (m σ).1, (m σ).2)) →
  (∀ x, match g x with
        | inl e => ∀ σ, (k' x σ).2 = σ ∧ Q (inl e) (k' x σ).1
        | inr (y, s') => acts_as (k y) s' (k' x) Q
        end) →
  acts_as (Act f Done ≫= k) s (m ≫= k') Q.
Proof.
  intros Hf Hk σ. specialize (Hk (m σ).1).
  change ((m ≫= k') σ) with (k' (m σ).1 (m σ).2).
  change (exec (Act f Done ≫= k) s σ) with
    ((match (f s σ).1 with inl e => mret (inl e) | inr (b, s') => exec (k b) s' end) (f s σ).2).
  rewrite Hf. cbn [fst snd]. destruct (g (m σ).1) as [e|[y s']]; [|apply Hk].
  destruct (Hk (m σ).2) as [Hσ HQ]. by split.
Qed.

Lemma acts_focus {T A B} (get : S → option T) (put : T → S → S) (t : thread W T A) s x
    (m : IO W B) Q :
  get s = Some x →
  (∀ y y' s', get s' = Some y → get (put y' s') = Some y') →
  (∀ y y' s', put y (put y' s') = put y s') → (∀ y s', get s' = Some y → put y s' = s') →
  acts_as t x m (λ r b, match r with
                        | inl e => Q (inl e) b
                        | inr (a, x') => Q (inr (a, put x' s)) b
                        end) →
  acts_as (focus get put t) s m Q.
Proof.
  intros Hg Hgp Hpp Hpg Ht.
  assert (Hf : ∀ s0 x0 σ, get s0 = Some x0 →
    exec (focus get put t) s0 σ =
      (match (exec t x0 σ).1 with inl e => inl e | inr (a, x') => inr (a, put x' s0) end,
       (exec t x0 σ).2)).
  { clear -Hgp Hpp Hpg. induction t as [a|X f k IH]; intros s0 x0 σ Hx.
    - cbn. by rewrite (Hpg _ _ Hx).
    - cbn [focus exec]. unfold mbind, io_bind, mret, io_ret. rewrite Hx.
      cbn [fst snd]. destruct ((f x0 σ).1) as [e|[b x1]]; [done|].
      rewrite (IH b (put x1 s0) x1) by eauto.
      f_equal. destruct (exec (k b) x1 _).1 as [e|[a x']]; [done|]. by rewrite Hpp. }
  intros σ. rewrite (Hf s x σ Hg). destruct (Ht σ) as [Hσ HQ]. split; [done|]. cbn [fst].
  by destruct (exec t x σ).1 as [e|[a x']].
Qed.
End alone.

(** ** Rely and guarantee *)

Section rely.
Context {W S : Type}.
#[local] Abbreviation rel := (S → S → list event → Prop).

(** [R]: what the other thread may do between two steps; [G]: what each step does; [E]: how
    the process may stop. *)
Fixpoint safe (R G : rel) (E : stop → Prop) {A} (t : thread W S A)
    (Q : A → S → list event → Prop) (s : S) (tr : list event) : Prop :=
  match t with
  | Done a => Q a s tr
  | Act f k => ∀ s1 t1, R s s1 t1 →
      holds (f s1) (λ r e,
        match r with
        | inl st => E st
        | inr (b, s2) => G s1 s2 e ∧ safe R G E (k b) Q s2 (tr ++ t1 ++ e)
        end)
  end.

Class Rely (R : rel) : Prop := {
  rely_refl s : R s s [];
  rely_trans s s1 s2 t1 t2 : R s s1 t1 → R s1 s2 t2 → R s s2 (t1 ++ t2);
}.

Definition stable {A} (R : rel) (Q : A → S → list event → Prop) : Prop :=
  ∀ a s s' tr t, R s s' t → Q a s tr → Q a s' (tr ++ t).

Lemma safe_mono R G E {A} (t : thread W S A) (P Q : A → S → list event → Prop) s tr :
  safe R G E t P s tr → (∀ a s tr, P a s tr → Q a s tr) → safe R G E t Q s tr.
Proof.
  intros Ht HPQ. revert s tr Ht. induction t as [a|X f k IH]; intros s tr Ht; [by apply HPQ|].
  intros s1 t1 HR. eapply holds_mono; [by apply Ht|].
  intros [st|[b s2]] e; [done|]. intros [HG Hk]. split; [done|]. by apply IH.
Qed.

Lemma safe_bind R G E {A B} (t : thread W S A) (k : A → thread W S B) Q s tr :
  safe R G E t (λ a s tr, safe R G E (k a) Q s tr) s tr → safe R G E (t ≫= k) Q s tr.
Proof.
  change (t ≫= k) with (thread_then k t).
  revert s tr. induction t as [a|X f k' IH]; intros s tr Ht; [done|].
  intros s1 t1 HR. eapply holds_mono; [by apply Ht|].
  intros [st|[b s2]] e; [done|]. intros [HG Hk]. split; [done|]. by apply IH.
Qed.

Lemma safe_interfered R G E `{!Rely R} {A} (t : thread W S A) Q s s' tr t0 :
  stable R Q → R s s' t0 → safe R G E t Q s tr → safe R G E t Q s' (tr ++ t0).
Proof.
  intros HQ HR Ht. destruct t as [a|X f k]; [by eapply HQ|].
  intros s1 t1 HR1. eapply holds_mono; [eapply Ht, rely_trans; done|].
  intros [st|[b s2]] e; [done|]. by rewrite <-!app_assoc.
Qed.

(** To the end with no one to interfere; [P] is what the steps keep for someone else. *)
Lemma exec_keeps R G E `{!Rely R} {A} (t : thread W S A) Q (P : S → list event → Prop) s tr :
  (∀ s s' tr e, G s s' e → P s tr → P s' (tr ++ e)) →
  safe R G E t Q s tr → P s tr →
  holds (exec t s) (λ r e,
    match r with inl st => E st | inr (a, s') => Q a s' (tr ++ e) ∧ P s' (tr ++ e) end).
Proof.
  intros HP. revert s tr. induction t as [a|X f k IH]; intros s tr Ht Hs; cbn [exec].
  - io_step. by rewrite app_nil_r.
  - io_step. eapply holds_mono; [apply Ht, rely_refl|]. intros [st|[b s2]] e; [intros ?; by apply holds_ret|].
    intros [HG Hk]. cbn [app] in Hk. eapply holds_mono; [by apply IH, HP with s|].
    intros [st|[a s']] e'; [done|]. by rewrite <-app_assoc.
Qed.

Lemma exec_safe R G E `{!Rely R} {A} (t : thread W S A) Q s tr :
  safe R G E t Q s tr →
  holds (exec t s) (λ r e, match r with inl st => E st | inr (a, s') => Q a s' (tr ++ e) end).
Proof.
  intros Ht. eapply holds_mono; [by eapply (exec_keeps R G E t Q (λ _ _, True))|].
  intros [st|[a s']] e; naive_solver.
Qed.

(** Two threads, each within what the other relies upon. *)
Theorem par_safe R1 G1 R2 G2 E `{!Rely R1, !Rely R2} {A B} sched
    (t1 : thread W S A) (t2 : thread W S B) Q1 Q2 s tr :
  (∀ s s' e, G1 s s' e → R2 s s' e) → (∀ s s' e, G2 s s' e → R1 s s' e) →
  stable R1 Q1 → stable R2 Q2 →
  safe R1 G1 E t1 Q1 s tr → safe R2 G2 E t2 Q2 s tr →
  holds (par sched t1 t2 s) (λ r e,
    match r with
    | inl st => E st
    | inr (a, b, s') => Q1 a s' (tr ++ e) ∧ Q2 b s' (tr ++ e)
    end).
Proof.
  intros H12 H21 S1 S2. revert t1 t2 s tr.
  induction sched as [|[] sched IH]; intros t1 t2 s tr Ht1 Ht2; cbn [par].
  - io_step. eapply holds_mono.
    { eapply (exec_keeps R1 G1 E t1 Q1 (λ s tr, safe R2 G2 E t2 Q2 s tr)); [|done|done].
      intros. by eapply safe_interfered; eauto. }
    intros [st|[a s1]] e1; [intros ?; by apply holds_ret|]. intros [HQ1 Hs]. io_step. eapply holds_mono.
    { eapply (exec_keeps R2 G2 E t2 Q2 (λ s tr, Q1 a s tr)); [|done|done]. intros. eapply S1; eauto. }
    intros [st|[b s2]] e2; [intros ?; by apply holds_ret|]. intros [HQ2 HQ1'].
    apply holds_ret. by rewrite app_nil_r, app_assoc.
  - destruct t1 as [a|X f k]; [by apply IH|]. io_step.
    eapply holds_mono; [apply Ht1, rely_refl|]. intros [st|[x s1]] e1; [intros ?; by apply holds_ret|].
    intros [HG Hk]. eapply holds_mono; [apply IH; [exact Hk|]|].
    { cbn [app]. by eapply safe_interfered; eauto. }
    intros [st|[[a b] s2]] e2; [done|]. by rewrite <-app_assoc.
  - destruct t2 as [b|X f k]; [by apply IH|]. io_step.
    eapply holds_mono; [apply Ht2, rely_refl|]. intros [st|[x s1]] e1; [intros ?; by apply holds_ret|].
    intros [HG Hk]. eapply holds_mono; [apply IH; [|exact Hk]|].
    { cbn [app]. by eapply safe_interfered; eauto. }
    intros [st|[[a b'] s2]] e2; [done|]. by rewrite <-app_assoc.
Qed.

(** A thread each of whose steps guarantees [G] from wherever it starts, and stops only as
    [E] says. *)
Fixpoint always (G : rel) (E : stop → Prop) {A} (t : thread W S A) : Prop :=
  match t with
  | Done _ => True
  | Act f k => ∀ s, holds (f s) (λ r e,
      match r with inl st => E st | inr (b, s') => G s s' e ∧ always G E (k b) end)
  end.

Lemma always_act G E {B A} (f : step W S B) (k : B → thread W S A) :
  (∀ s, holds (f s) (λ r e, match r with inl st => E st | inr (_, s') => G s s' e end)) →
  (∀ b, always G E (k b)) → always G E (Act f k).
Proof. intros Hf Hk s. eapply holds_mono; [apply Hf|]. intros [st|[b s']] e; naive_solver. Qed.

Lemma always_bind G E {A B} (t : thread W S A) (k : A → thread W S B) :
  always G E t → (∀ a, always G E (k a)) → always G E (t ≫= k).
Proof.
  change (t ≫= k) with (thread_then k t). intros Ht Hk.
  induction t as [a|X f k' IH]; [by apply Hk|]. intros s. eapply holds_mono; [apply Ht|].
  intros [st|[b s']] e; [done|]. intros [HG Hb]. split; [done|]. by apply IH.
Qed.

Lemma always_each G E {A} (f : A → thread W S unit) l :
  (∀ a, always G E (f a)) → always G E (each f l).
Proof. intros Hf. induction l; [done|]. by apply always_bind. Qed.

Lemma safe_guarantee R G G' E {A} (t : thread W S A) Q s tr :
  (∀ s s' e, G s s' e → G' s s' e) → safe R G E t Q s tr → safe R G' E t Q s tr.
Proof.
  intros HG. revert s tr. induction t as [a|X f k IH]; intros s tr Ht; [done|].
  intros s1 t1 H1. eapply holds_mono; [by apply Ht|].
  intros [st|[b s2]] e; [done|]. intros [? ?]. auto.
Qed.

(** One step, then a loop. *)
Lemma safe_act R G E {B A} (f : step W S B) (k : B → thread W S A) Q s tr :
  (∀ s1 t1, R s s1 t1 → holds (f s1) (λ r e,
    match r with
    | inl st => E st
    | inr (b, s2) => G s1 s2 e ∧ safe R G E (k b) Q s2 ((tr ++ t1) ++ e)
    end)) →
  safe R G E (Act f k) Q s tr.
Proof.
  intros Hf s1 t1 H1. eapply holds_mono; [by apply Hf|]. intros [st|[b s2]] e; [done|].
  by rewrite app_assoc.
Qed.

Lemma safe_each R G E {A} (f : A → thread W S unit) l (I : S → list event → Prop) s tr :
  (∀ a s tr, a ∈ l → I s tr → safe R G E (f a) (λ _ s tr, I s tr) s tr) →
  I s tr → safe R G E (each f l) (λ _ s tr, I s tr) s tr.
Proof.
  revert s tr. induction l as [|a l IH]; intros s tr Hf HI; [done|].
  apply safe_bind. eapply safe_mono; [apply Hf; [by left|done]|]. intros [] s1 tr1 H1.
  apply IH; [|done]. intros. apply Hf; [by right|done].
Qed.

Lemma always_weaken G (E E' : stop → Prop) {A} (t : thread W S A) :
  always G E t → (∀ st, E st → E' st) → always G E' t.
Proof.
  intros Ht HE. induction t as [a|X f k IH]; [done|]. intros s. eapply holds_mono; [apply Ht|].
  intros [st|[b s']] e; [apply HE|]. intros [HG Hk]. auto.
Qed.

(** Such a thread keeps whatever its own steps and the other's keep. *)
Lemma always_safe R G E {A} (t : thread W S A) (I : S → list event → Prop) s tr :
  (∀ s s' tr e, R s s' e → I s tr → I s' (tr ++ e)) →
  (∀ s s' tr e, G s s' e → I s tr → I s' (tr ++ e)) →
  always G E t → I s tr → safe R G E t (λ _ s tr, I s tr) s tr.
Proof.
  intros HR HG. revert s tr. induction t as [a|X f k IH]; intros s tr Ht HI; [done|].
  intros s1 t1 H1. eapply holds_mono; [apply Ht|].
  intros [st|[b s2]] e; [done|]. intros [He Hb]. split; [done|]. apply IH; [done|]. rewrite app_assoc.
  eapply HG; [done|]. by eapply HR.
Qed.
End rely.

#[export] Hint Resolve always_bind always_each : dk.

(** A focused thread, one part after the other. *)
Lemma safe_focus_bind {W S T A B} (get : S → option T) put R G E (t : thread W T A)
    (k : A → thread W T B) Q s tr :
  safe R G E (focus get put t) (λ a s tr, safe R G E (focus get put (k a)) Q s tr) s tr →
  safe R G E (focus get put (t ≫= k)) Q s tr.
Proof.
  change (t ≫= k) with (thread_then k t).
  revert s tr. induction t as [a|X f k' IH]; intros s tr Ht; [done|].
  intros s1 t1 H1. eapply holds_mono; [by apply Ht|].
  intros [st|[b s2]] e; [done|]. intros [HG Hk]. split; [done|]. by apply IH.
Qed.

(** The steps of a focused thread guarantee on the whole what they guarantee on the part. *)
Lemma always_focus {W S T A} (get : S → option T) put (G : S → S → list event → Prop)
    (G' : T → T → list event → Prop) (E : stop → Prop) (t : thread W T A) :
  E Undefined →
  (∀ s x x' e, get s = Some x → G' x x' e → G s (put x' s) e) →
  always G' E t → always G E (focus get put t).
Proof.
  intros HE HG. induction t as [a|X f k IH]; [done|]. intros Ht s.
  destruct (get s) as [x|] eqn:Hx; [|by apply holds_ret].
  apply holds_bind. eapply holds_mono; [apply Ht|]. intros [st|[b x']] e He; apply holds_ret; [done|].
  destruct He as [He Hb]. rewrite app_nil_r. split; [by eapply HG|]. by apply IH.
Qed.

(** ** Each thread by its own events

    When what a thread promises about its events does not depend on the other's, it is
    easier to give it a trace of its own; the trace of both together merges the two. *)

Inductive merged {A} : list A → list A → list A → Prop :=
  | merged_nil : merged [] [] []
  | merged_left a l1 l2 l : merged l1 l2 l → merged (a :: l1) l2 (a :: l)
  | merged_right a l1 l2 l : merged l1 l2 l → merged l1 (a :: l2) (a :: l).

Lemma merged_app_left {A} (t l1 l2 l : list A) : merged l1 l2 l → merged (t ++ l1) l2 (t ++ l).
Proof. intros. induction t; [done|]. by constructor. Qed.
Lemma merged_app_right {A} (t l1 l2 l : list A) : merged l1 l2 l → merged l1 (t ++ l2) (t ++ l).
Proof. intros. induction t; [done|]. by constructor. Qed.
Lemma merged_one_after_other {A} (l1 l2 : list A) : merged l1 l2 (l1 ++ l2).
Proof.
  rewrite <-(app_nil_r l1) at 1. apply merged_app_left. rewrite <-(app_nil_r l2).
  apply merged_app_right. constructor.
Qed.

(** A part of the events is the two parts, whatever the order. *)
Lemma merged_omap {A B} (f : A → option B) l1 l2 l :
  merged l1 l2 l → omap f l ≡ₚ omap f l1 ++ omap f l2.
Proof.
  induction 1 as [|a l1 l2 l _ IH|a l1 l2 l _ IH]; cbn [omap list_omap]; [done|..];
    destruct (f a); rewrite IH; done || by rewrite Permutation_middle.
Qed.

(** ... and when only one has such events, they are in its order. *)
Lemma merged_omap_left {A B} (f : A → option B) l1 l2 l :
  merged l1 l2 l → omap f l2 = [] → omap f l = omap f l1.
Proof.
  induction 1 as [|a l1 l2 l _ IH|a l1 l2 l _ IH]; intros H2; cbn [omap list_omap] in *; [done|..].
  - by rewrite (IH H2).
  - destruct (f a); [done|]. by apply IH.
Qed.

Section own.
Context {W S : Type}.

(** [R], [G] and [E] as for [safe]; [tr] holds the events of this thread only. *)
Fixpoint own (R G : relation S) (E : stop → Prop) {A} (t : thread W S A)
    (Q : A → S → list event → Prop) (s : S) (tr : list event) : Prop :=
  match t with
  | Done a => Q a s tr
  | Act f k => ∀ s1, R s s1 →
      holds (f s1) (λ r e,
        match r with
        | inl st => E st
        | inr (b, s2) => G s1 s2 ∧ own R G E (k b) Q s2 (tr ++ e)
        end)
  end.

Lemma own_mono R G E {A} (t : thread W S A) (P Q : A → S → list event → Prop) s tr :
  own R G E t P s tr → (∀ a s tr, P a s tr → Q a s tr) → own R G E t Q s tr.
Proof.
  intros Ht HPQ. revert s tr Ht. induction t as [a|X f k IH]; intros s tr Ht; [by apply HPQ|].
  intros s1 HR. eapply holds_mono; [by apply Ht|].
  intros [st|[b s2]] e; [done|]. intros [HG Hk]. split; [done|]. by apply IH.
Qed.

Lemma own_observe R G E {B A} (f : S → B) (k : B → thread W S A) Q s tr :
  (∀ s1, R s s1 → G s1 s1 ∧ own R G E (k (f s1)) Q s1 tr) → own R G E (observe f ≫= k) Q s tr.
Proof. intros Hk s1 HR. apply holds_ret. rewrite app_nil_r. by apply Hk. Qed.

Lemma own_modify R G E {A} (g : S → S) (k : unit → thread W S A) Q s tr :
  (∀ s1, R s s1 → G s1 (g s1) ∧ own R G E (k tt) Q (g s1) tr) →
  own R G E (modify g ≫= k) Q s tr.
Proof. intros Hk s1 HR. apply holds_ret. rewrite app_nil_r. by apply Hk. Qed.

Lemma own_request R G E {B A} (m : IO W B) (k : B → thread W S A) Q s tr :
  (∀ s1, R s s1 → G s1 s1 ∧ holds m (λ b e, own R G E (k b) Q s1 (tr ++ e))) →
  own R G E (request m ≫= k) Q s tr.
Proof.
  intros Hk s1 HR. destruct (Hk s1 HR) as [HG Hm]. apply holds_bind. eapply holds_mono; [apply Hm|].
  intros b e He. apply holds_ret. by rewrite app_nil_r.
Qed.

Lemma own_interfered R G E `{!PreOrder R} {A} (t : thread W S A) Q s s' tr :
  (∀ a s s' tr, R s s' → Q a s tr → Q a s' tr) → R s s' → own R G E t Q s tr → own R G E t Q s' tr.
Proof. intros HQ HR Ht. destruct t as [a|X f k]; [by eapply HQ|]. intros s1 HR1. apply Ht. by etrans. Qed.

Lemma own_bind R G E {A B} (t : thread W S A) (k : A → thread W S B) Q s tr :
  own R G E t (λ a s tr, own R G E (k a) Q s tr) s tr → own R G E (t ≫= k) Q s tr.
Proof.
  change (t ≫= k) with (thread_then k t).
  revert s tr. induction t as [a|X f k' IH]; intros s tr Ht; [done|].
  intros s1 HR. eapply holds_mono; [by apply Ht|].
  intros [st|[b s2]] e; [done|]. intros [HG Hk]. split; [done|]. by apply IH.
Qed.

(** A thread known by its steps: they keep [I] and emit events that are [P]. *)
Lemma own_always R G G' E (P : event → Prop) (I : S → Prop) {A} (t : thread W S A) s tr :
  (∀ s s' e, G' s s' e → G s s' ∧ Forall P e) →
  (∀ s s', R s s' → I s → I s') → (∀ s s', G s s' → I s → I s') →
  always G' E t → I s →
  own R G E t (λ _ s' tr', I s' ∧ ∃ e, tr' = tr ++ e ∧ Forall P e) s tr.
Proof.
  intros HG HR HGI Ht Hs.
  cut (∀ e0, Forall P e0 →
    own R G E t (λ _ s' tr', I s' ∧ ∃ e, tr' = tr ++ e ∧ Forall P e) s (tr ++ e0)).
  { intros Hcut. specialize (Hcut [] (List.Forall_nil _)). by rewrite app_nil_r in Hcut. }
  revert s Hs. induction t as [a|X f k IH]; intros s Hs e0 H0; [by split; [|exists e0]|].
  intros s1 H1. eapply holds_mono; [apply Ht|]. intros [st|[b s2]] e; [done|]. intros [Hg Ha].
  destruct (HG _ _ _ Hg) as [Hg' He]. split; [done|]. rewrite <-app_assoc.
  apply IH; [done|by eauto|by apply Forall_app_2].
Qed.

(** To the end with no one to interfere. *)
Lemma exec_own R G R' E `{!PreOrder R, !PreOrder R'} {A} (t : thread W S A) Q s tr :
  (∀ s s', G s s' → R' s s') → own R G E t Q s tr →
  holds (exec t s) (λ r e,
    match r with inl st => E st | inr (a, s') => R' s s' ∧ Q a s' (tr ++ e) end).
Proof.
  intros HG. revert s tr. induction t as [a|X f k IH]; intros s tr Ht; cbn [exec].
  - io_step. by rewrite app_nil_r.
  - io_step. eapply holds_mono; [by apply Ht|].
    intros [st|[b s2]] e; [intros ?; by apply holds_ret|]. intros [Hs2 Hk].
    eapply holds_mono; [by apply IH|]. intros [st|[a s']] e'; [done|]. intros [HR' HQ].
    rewrite <-app_assoc in HQ. split; [|done]. etrans; [by apply HG|done].
Qed.

(** ** Threads that wind down

    [settles t]: once [P] holds, [t] keeps it, and ends with a value that is [ok].
    [lasts n t]: so it is now, and after any [n] steps, whatever happens in between. *)
Section winding_down.
Context {A : Type} (P : S → Prop) (ok : A → Prop).

Fixpoint settles (t : thread W S A) : Prop :=
  match t with
  | Done a => ok a
  | Act f k => ∀ s σ b s', P s → (f s σ).1 = inr (b, s') → P s' ∧ settles (k b)
  end.

Fixpoint lasts (n : nat) (t : thread W S A) : Prop :=
  settles t ∧
  match n, t with
  | Datatypes.S n, Act f k => ∀ s σ b s', (f s σ).1 = inr (b, s') → lasts n (k b)
  | _, _ => True
  end.

Lemma lasts_settles n t : lasts n t → settles t.
Proof. destruct n; by intros [? _]. Qed.

Lemma lasts_le n m t : (m ≤ n)%nat → lasts n t → lasts m t.
Proof.
  revert n t. induction m as [|m IH]; intros n t Hle Ht; [split; [by eapply lasts_settles|done]|].
  destruct n as [|n]; [lia|]. destruct Ht as [Hs Hk]. split; [done|]. destruct t as [a|X f k]; [done|].
  intros s σ b s' Hf. eapply (IH n); [lia|]. by eapply Hk.
Qed.

Lemma lasts_done n a : ok a → lasts n (Done a).
Proof. by destruct n. Qed.

(** A step that keeps [P]. *)
Lemma lasts_act n {B} (f : step W S B) k :
  (∀ s σ b s', (f s σ).1 = inr (b, s') → (P s → P s') ∧ lasts n (k b)) → lasts n (Act f k).
Proof.
  intros Hf. assert (Hs : settles (Act f k)).
  { intros s σ b s' HP Heq. destruct (Hf _ _ _ _ Heq) as [? Hk].
    split; [auto|by eapply lasts_settles]. }
  destruct n as [|n]; (split; [done|]); [done|]. intros s σ b s' Heq.
  eapply lasts_le; [|by eapply Hf]. lia.
Qed.

(** A thread all of whose steps keep [P], and what follows it. *)
Lemma lasts_bind n (G : S → S → list event → Prop) E {B} (t : thread W S B) (k : B → thread W S A) :
  (∀ s s' e, G s s' e → P s → P s') → always G E t → (∀ b, lasts n (k b)) → lasts n (t ≫= k).
Proof.
  intros HG Ht Hk. change (t ≫= k) with (thread_then k t).
  induction t as [b|X f k' IH]; [apply Hk|]. apply lasts_act. intros s σ b s' Hf.
  destruct (Ht s σ) as (e & _ & Hb). rewrite Hf in Hb. destruct Hb as [Hb Ha]. split; [by eapply HG|auto].
Qed.

Lemma settles_exec t s σ a s' : settles t → P s → (exec t s σ).1 = inr (a, s') → ok a.
Proof.
  revert s σ. induction t as [a0|X f k IH]; intros s σ Ht HP; cbn [exec]; [by intros [= -> _]|].
  unfold mbind, io_bind. destruct (f s σ).1 as [st|[b s1]] eqn:Hf; [done|].
  destruct (Ht _ _ _ _ HP Hf) as [HP1 Hk]. by apply IH.
Qed.
End winding_down.

(** Two threads, the second of which winds down when the first has ended with a value that is
    [final], having brought about [P]. *)
Theorem par_own R1 G1 R2 G2 E `{!PreOrder R1, !PreOrder R2} {A B} P ok (final : A → Prop) sched
    (t1 : thread W S A) (t2 : thread W S B) Q1 Q2 s tr1 tr2 :
  (∀ s s', G1 s s' → R2 s s') → (∀ s s', G2 s s' → R1 s s') →
  (∀ a s s' tr, R1 s s' → Q1 a s tr → Q1 a s' tr) →
  (∀ b s s' tr, R2 s s' → Q2 b s tr → Q2 b s' tr) →
  (∀ a s tr, Q1 a s tr → final a → P s) → lasts P ok (length sched) t2 →
  own R1 G1 E t1 Q1 s tr1 → own R2 G2 E t2 Q2 s tr2 →
  holds (par sched t1 t2 s) (λ r e,
    match r with
    | inl st => E st
    | inr (a, b, s') => (final a → ok b)
        ∧ ∃ e1 e2, merged e1 e2 e ∧ Q1 a s' (tr1 ++ e1) ∧ Q2 b s' (tr2 ++ e2)
    end).
Proof.
  intros H12 H21 S1 S2 HP. revert t1 t2 s tr1 tr2.
  induction sched as [|[] sched IH]; intros t1 t2 s tr1 tr2 Hl Ht1 Ht2; cbn [par].
  - io_step. eapply holds_mono; [by apply (exec_own R1 G1 R2 E)|].
    intros [st|[a s1]] e1; [intros ?; by apply holds_ret|]. intros [Hs1 HQ1]. io_step.
    eapply holds_mono.
    { eapply (holds_value _ _ (λ r, ∀ b s', r = inr (b, s') → final a → ok b)).
      - apply (exec_own R2 G2 R1 E); [done|]. by eapply own_interfered.
      - intros σ b s' Hr Ha. apply lasts_settles in Hl. by eapply settles_exec, Hr; eauto. }
    intros [st|[b s2]] e2 [He Hok]; [by apply holds_ret|]. destruct He as [Hs2 HQ2].
    io_step. rewrite app_nil_r. split; [by eapply Hok|]. exists e1, e2.
    split_and!; [apply merged_one_after_other|by eapply S1|done].
  - destruct t1 as [a|X f k]; [apply IH; [|done..]; eapply lasts_le, Hl; cbn; lia|]. io_step.
    eapply holds_mono; [by apply Ht1|]. intros [st|[x s1]] e; [intros ?; by apply holds_ret|].
    intros [HG Hk]. eapply holds_mono.
    { apply (IH _ _ _ (tr1 ++ e) tr2); [|done|].
      - eapply lasts_le, Hl. cbn. lia.
      - by eapply own_interfered; eauto. }
    intros [st|[[a b] s2]] e'; [done|]. intros (Hok & e1 & e2 & Hm & HQ1 & HQ2).
    split; [done|]. exists (e ++ e1), e2. rewrite app_assoc. split_and!; [|done..].
    by apply merged_app_left.
  - destruct t2 as [b|X f k]; [apply IH; [|done..]; eapply lasts_le, Hl; cbn; lia|]. io_step.
    eapply holds_mono.
    { eapply (holds_value _ _ (λ r, ∀ b s', r = inr (b, s') → lasts P ok (length sched) (k b)));
        [by apply Ht2|]. intros σ b s' Hr. destruct Hl as [_ Hl]. by eapply Hl. }
    intros [st|[x s1]] e [He Hx]; [by apply holds_ret|]. destruct He as [HG Hk].
    eapply holds_mono.
    { apply (IH _ _ _ tr1 (tr2 ++ e)); [by eapply Hx|by eapply own_interfered; eauto|done]. }
    intros [st|[[a b] s2]] e'; [done|]. intros (Hok & e1 & e2 & Hm & HQ1 & HQ2).
    split; [done|]. exists e1, (e ++ e2). rewrite app_assoc. split_and!; [|done..].
    by apply merged_app_right.
Qed.
End own.

(** ** A thread over a part of the state that is always there *)

(** [focus] with a part that cannot be lost. *)
Definition within {W S T A} (get : S → T) (put : T → S → S) (t : thread W T A) : thread W S A :=
  focus (λ s, Some (get s)) put t.

Lemma safe_within {W S T A} (get : S → T) put (R : T → T → list event → Prop) R' E
    (t : thread W T A) Q s tr :
  (∀ s s' e, R' s s' e → R (get s) (get s') e) → (∀ x s, get (put x s) = x) →
  safe R (λ _ _ _, True) E t Q (get s) tr →
  safe R' (λ _ _ _, True) E (within get put t) (λ a s tr, Q a (get s) tr) s tr.
Proof.
  intros HR Hgp. revert s tr. induction t as [a|X f k IH]; intros s tr Ht; [exact Ht|].
  intros s1 t1 H1. apply holds_bind. eapply holds_mono; [by apply Ht, HR|].
  intros [st|[b x]] e He; apply holds_ret; [done|]. destruct He as [_ Hk]. split; [done|].
  rewrite app_nil_r. apply IH. by rewrite Hgp.
Qed.

Lemma always_within {W S T A} (get : S → T) put (G : S → S → list event → Prop)
    (G' : T → T → list event → Prop) E (t : thread W T A) :
  (∀ s x e, G' (get s) x e → G s (put x s) e) → always G' E t → always G E (within get put t).
Proof.
  intros HG. unfold within. induction t as [a|X f k IH]; [done|]. intros Ht s.
  apply holds_bind. eapply holds_mono; [apply Ht|]. intros [st|[b x]] e He; apply holds_ret; [done|].
  destruct He as [Hg Ha]. rewrite app_nil_r. split; [by apply HG|by apply IH].
Qed.

Lemma acts_within {W S T A B} (get : S → T) put (t : thread W T A) s (m : IO W B) Q :
  (∀ x s, get (put x s) = x) → (∀ x y s, put x (put y s) = put x s) → (∀ s, put (get s) s = s) →
  acts_as t (get s) m (λ r b, match r with
                              | inl e => Q (inl e) b
                              | inr (a, x) => Q (inr (a, put x s)) b
                              end) →
  acts_as (within get put t) s m Q.
Proof.
  intros H1 H2 H3. apply acts_focus; [done|by intros; rewrite H1|by intros|by intros ? ? [= <-]].
Qed.

(** ** The events of a thread

    As [Emits] for an action: every step emits events that satisfy [P], by resolution on the
    structure of the thread. *)

Fixpoint emits_steps {W S A} (P : event → Prop) (t : thread W S A) : Prop :=
  match t with
  | Done _ => True
  | Act f k => (∀ s, Emits P (f s)) ∧ ∀ b, emits_steps P (k b)
  end.

Class EmitsT {W S A} (P : event → Prop) (t : thread W S A) : Prop := emitsT : emits_steps P t.
#[export] Hint Mode EmitsT ! ! - ! ! : typeclass_instances.

Section emits.
Context {W : Type} `{OS W} {S : Type} (P : event → Prop).

#[export] Instance emitsT_done {A} (a : A) : EmitsT (W:=W) (S:=S) P (Done a).
Proof. exact I. Qed.

#[export] Instance emitsT_ret {A} (a : A) : EmitsT (W:=W) (S:=S) P (mret a).
Proof. exact I. Qed.

#[export] Instance emitsT_act {A B} (f : step W S B) (k : B → thread W S A) :
  (∀ s, Emits P (f s)) → (∀ b, EmitsT P (k b)) → EmitsT P (Act f k).
Proof. by split. Qed.

#[export] Instance emitsT_bind {A B} (t : thread W S A) (k : A → thread W S B) :
  EmitsT P t → (∀ a, EmitsT P (k a)) → EmitsT P (t ≫= k).
Proof.
  intros Ht Hk. change (t ≫= k) with (thread_then k t). induction t as [a|X f k' IH]; [apply Hk|].
  destruct Ht as [Hf Ht]. split; [done|]. intros b. apply IH, Ht.
Qed.

#[export] Instance emitsT_observe {B} (f : S → B) : EmitsT (W:=W) P (observe f).
Proof. unfold observe. apply _. Qed.
#[export] Instance emitsT_modify (g : S → S) : EmitsT (W:=W) P (modify g).
Proof. unfold modify. apply _. Qed.
#[export] Instance emitsT_request {B} (m : IO W B) : Emits P m → EmitsT P (request (S:=S) m).
Proof. intros. unfold request. apply _. Qed.

#[export] Instance emitsT_each {A} (f : A → thread W S unit) l :
  (∀ a, EmitsT P (f a)) → EmitsT P (each f l).
Proof. intros Hf. induction l; cbn [each]; apply _. Qed.

#[export] Instance emitsT_if {A} (b : bool) (t1 t2 : thread W S A) :
  EmitsT P t1 → EmitsT P t2 → EmitsT P (if b then t1 else t2).
Proof. by destruct b. Qed.

#[export] Instance emitsT_focus {T A} (get : S → option T) put (t : thread W T A) :
  EmitsT P t → EmitsT P (focus get put t).
Proof.
  intros Ht. induction t as [a|X f k IH]; [done|]. destruct Ht as [Hf Hk]. cbn [focus].
  apply emitsT_act; [|intros b; apply IH, Hk]. intros s. apply _.
Qed.

#[export] Instance emitsT_within {T A} (get : S → T) put (t : thread W T A) :
  EmitsT P t → EmitsT P (within get put t).
Proof. intros Ht. by apply emitsT_focus. Qed.
End emits.

#[export] Hint Extern 3 (EmitsT _ (match ?x with _ => _ end)) => destruct x : typeclass_instances.

Lemma emitsT_mono {W S A} (P P' : event → Prop) (t : thread W S A) :
  (∀ e, P e → P' e) → EmitsT P t → EmitsT P' t.
Proof.
  intros HP. unfold EmitsT. induction t as [a|X f k IH]; [done|]. intros [Hf Hk].
  split; [intros s; by eapply emits_mono|intros b; apply IH, Hk].
Qed.

(** ... alone, and under any schedule. *)
#[export] Instance emits_exec {W} `{OS W} {S A} P (t : thread W S A) s : EmitsT P t → Emits P (exec t s).
Proof.
  intros Ht. revert s. induction t as [a|X f k IH]; intros s; cbn [exec]; [apply _|].
  destruct Ht as [Hf Hk]. apply emits_bind; [apply Hf|]. intros [st|[b s']]; [apply _|]. apply IH, Hk.
Qed.

#[export] Instance emits_par {W} `{OS W} {S A B} P sched (t1 : thread W S A) (t2 : thread W S B) s :
  EmitsT P t1 → EmitsT P t2 → Emits P (par sched t1 t2 s).
Proof.
  revert t1 t2 s. induction sched as [|[] sched IH]; intros t1 t2 s H1 H2; cbn [par]; [apply _|..].
  - destruct t1 as [a|X f k]; [by apply IH|]. destruct H1 as [Hf Hk].
    apply emits_bind; [apply Hf|]. intros [st|[b s']]; [apply _|]. apply IH; [apply Hk|done].
  - destruct t2 as [a|X f k]; [by apply IH|]. destruct H2 as [Hf Hk].
    apply emits_bind; [apply Hf|]. intros [st|[b s']]; [apply _|]. apply IH; [done|apply Hk].
Qed.

Lemma always_emits {W S A} G E (P : event → Prop) (t : thread W S A) :
  always G E t → EmitsT P t → always (λ s s' e, G s s' e ∧ Forall P e) E t.
Proof.
  unfold EmitsT. induction t as [a|X f k IH]; [done|]. intros Ht HP s.
  destruct HP as [Hf Hp]. eapply holds_mono; [apply (holds_emits P); [apply Hf|apply Ht]|].
  intros [st|[b s']] e; [by intros [? _]|]. intros [[HG Hk] He]. split; [done|]. apply IH; [done|apply Hp].
Qed.

Lemma emits_always {W S A} (P : event → Prop) (t : thread W S A) :
  EmitsT P t → always (λ _ _ e, Forall P e) (λ _, True) t.
Proof.
  unfold EmitsT. induction t as [a|X f k IH]; [done|]. intros [Hf Hk] s.
  eapply holds_mono; [apply Hf|]. intros [st|[b s']] e He; [done|]. split; [done|apply IH, Hk].
Qed.

Lemma own_emits {W S A} (R G : relation S) E (P : event → Prop) (t : thread W S A) Q s tr :
  EmitsT P t → Forall P tr → own R G E t Q s tr →
  own R G E t (λ a s' tr', Q a s' tr' ∧ Forall P tr') s tr.
Proof.
  unfold EmitsT. revert s tr. induction t as [a|X f k IH]; intros s tr Ht Htr Ho; [done|].
  destruct Ht as [Hf Hk]. intros s1 H1. eapply holds_mono; [apply (holds_emits P); [apply Hf|by apply Ho]|].
  intros [st|[b s2]] e; [by intros [? _]|]. intros [[HG Hb] He]. split; [done|].
  apply IH; [apply Hk|by apply Forall_app_2|done].
Qed.

Lemma own_guarantee {W S A} (R G G' : relation S) E (t : thread W S A) Q s tr :
  (∀ s s', G s s' → G' s s') → own R G E t Q s tr → own R G' E t Q s tr.
Proof.
  intros HG. revert s tr. induction t as [a|X f k IH]; intros s tr Ht; [done|].
  intros s1 H1. eapply holds_mono; [by apply Ht|]. intros [st|[b s2]] e; [done|].
  intros [? Hk]. split; [auto|by apply IH].
Qed.

(** Less to rely upon. *)
Lemma safe_rely {W S A} (R R' : S → S → list event → Prop) G E (t : thread W S A) Q s tr :
  (∀ s s' e, R' s s' e → R s s' e) → safe R G E t Q s tr → safe R' G E t Q s tr.
Proof.
  intros HR. revert s tr. induction t as [a|X f k IH]; intros s tr Ht; [done|].
  intros s1 t1 H1. eapply holds_mono; [by apply Ht, HR|]. intros [st|[b s2]] e; [done|].
  intros [HG Hk]. split; [done|]. by apply IH.
Qed.

(** What a thread is known to do, and what it emits. *)
Lemma safe_emits {W S A} (R : S → S → list event → Prop) G E (P : event → Prop)
    (t : thread W S A) Q s tr :
  (∀ s s' e, R s s' e → Forall P e) → EmitsT P t → safe R G E t Q s tr →
  safe R G E t (λ a s' tr', Q a s' tr' ∧ ∃ e, tr' = tr ++ e ∧ Forall P e) s tr.
Proof.
  intros HR Ht Hs.
  cut (∀ e0 tr0, tr = tr0 ++ e0 → Forall P e0 →
    safe R G E t (λ a s' tr', Q a s' tr' ∧ ∃ e, tr' = tr0 ++ e ∧ Forall P e) s tr).
  { intros Hcut. apply (Hcut [] tr); [by rewrite app_nil_r|constructor]. }
  revert s tr Hs. induction t as [a|X f k IH]; intros s tr Hs e0 tr0 Htr H0; [split; eauto|].
  intros s1 t1 H1. destruct Ht as [Hf Ht].
  eapply holds_mono; [apply (holds_emits P); [apply Hf|by apply Hs]|].
  intros [st|[b s2]] e; [by intros [? _]|]. intros [[HG Hk] He]. split; [done|].
  apply (IH b (Ht b) _ _ Hk (e0 ++ t1 ++ e)); [by rewrite Htr, !app_assoc|].
  apply Forall_app_2; [done|]. apply Forall_app_2; [by eapply HR|done].
Qed.

(** Step through one statement of a thread that runs alone. *)
Ltac thread_step :=
  lazymatch goal with
  | |- acts_as (observe _ ≫= _) _ _ _ => apply acts_observe; cbn beta
  | |- acts_as (modify _ ≫= _) _ _ _ => apply acts_modify
  | |- acts_as (request _ ≫= _) _ (_ ≫= _) _ => apply acts_request; intros ?
  | |- acts_as (Done _) _ (mret _) _ => apply acts_ret
  | |- acts_as (if ?b then _ else _) _ (if ?b then _ else _) _ => destruct b eqn:?
  end.
