(* ===== verification/Concurrency.v ===== *)
(** * Concurrency: the two threads of the agent, statement by statement

    The ring-buffer callback runs in the main thread and the HTTP handlers in the
    server's, on the same [Agent] and without a lock.  [Agent.v] gives every
    callback and handler as one action; here each is a [thread] whose steps are
    the statements and conditions of [agent/src/agent.cpp] that read or write what
    the two threads share, so that any interleaving of them is a schedule.
    Statements are sequentially consistent steps; work on members that only one
    thread uses (the mappers, the enforcer, the HTTP client) is one step.

    What makes the difference is what a thread holds on to between its
    statements.  [auto& buffer = buffers_[id]] is a reference to a node of the
    table, which [erase] destroys; the iterator of a loop over the table is
    invalidated by an insertion that rehashes (the model takes every insertion to
    do so).  Using either afterwards is undefined behaviour, and the model's
    process stops there.

    The theorems: alone, each thread does exactly what [Agent.v] says; whatever
    the schedule, the windows that are posted and the events that wait conserve
    the events, as long as no step is undefined; and no step is, when every
    container the server names has a buffer and no clean-up comes due.  The
    examples at the end show what the missing lock allows. *)

From S2P Require Export Threads Agent.

#[local] Open Scope Z_scope.

(** ** The shared state *)

Record Shared := MkShared {
  sh_agent : Agent;
  sh_erased : gmap string nat;   (* how often a key was erased *)
  sh_inserts : nat;              (* insertions so far *)
}.

Definition with_agent (a : Agent) (sh : Shared) : Shared :=
  let 'MkShared _ e i := sh in MkShared a e i.

Definition erased_count (id : string) (sh : Shared) : nat := default 0%nat (sh_erased sh !! id).

(** A reference to the buffer of a container: its key, and how often the key had been erased
    when it was taken. *)
Definition Ref : Type := string * nat.

Definition deref (r : Ref) (sh : Shared) : option ContainerBuffer :=
  if decide (erased_count r.1 sh = r.2) then buffers_ (sh_agent sh) !! r.1 else None.
Definition assign (r : Ref) (b : ContainerBuffer) (sh : Shared) : Shared :=
  with_agent (set_buffers (<[r.1 := b]> (buffers_ (sh_agent sh))) (sh_agent sh)) sh.

(** ** Assignments to single members *)

Definition set_start (ts : Z) (b : ContainerBuffer) : ContainerBuffer :=
  set_window ts (currentShortWindow b) b.
Definition set_events (l : list SyscallEvent) (b : ContainerBuffer) : ContainerBuffer :=
  set_window (windowStartTsNs b) l b.
Definition set_dump_start (ts : Z) (b : ContainerBuffer) : ContainerBuffer :=
  let 'MkContainerBuffer i ws le w a _ e l st p n d := b in
  MkContainerBuffer i ws le w a ts e l st p n d.
Definition set_dump_end (ts : Z) (b : ContainerBuffer) : ContainerBuffer :=
  let 'MkContainerBuffer i ws le w a s _ l st p n d := b in
  MkContainerBuffer i ws le w a s ts l st p n d.
Definition set_last_dump (ts : Z) (b : ContainerBuffer) : ContainerBuffer :=
  let 'MkContainerBuffer i ws le w a s e _ st p n d := b in
  MkContainerBuffer i ws le w a s e ts st p n d.
Definition set_path (path : string) (b : ContainerBuffer) : ContainerBuffer :=
  let 'MkContainerBuffer i ws le w a s e l st _ n d := b in
  MkContainerBuffer i ws le w a s e l st path n d.
Definition set_count (n : Z) (b : ContainerBuffer) : ContainerBuffer :=
  let 'MkContainerBuffer i ws le w a s e l st p _ d := b in
  MkContainerBuffer i ws le w a s e l st p n d.
Definition set_duration (sec : Z) (b : ContainerBuffer) : ContainerBuffer :=
  let 'MkContainerBuffer i ws le w a s e l st p n _ := b in
  MkContainerBuffer i ws le w a s e l st p n sec.

Section threads.
Context {W : Type} `{OS W}.

(** ** Threads over one buffer *)

Abbreviation bthread := (thread W ContainerBuffer).

(** One operation on the stream. *)
Definition on_stream (f : ofstream → IO W ofstream) : bthread unit :=
  Act (λ b, st ← f (longDumpStream b); mret (inr (tt, set_stream st b))) Done.

Definition notifyDumpComplete_thread (cfg : AgentConfig) : bthread unit :=
  n ← observe notice_of;
  _ ← request (postJsonWithRetry (complete_url cfg) (notice_payload cfg n) 3 5);
  _ ← modify (set_path "");
  _ ← modify (set_count 0);
  modify (set_duration 0).

Definition appendLongDump_thread (cfg : AgentConfig) (evt : SyscallEvent) : bthread unit :=
  off ← observe (λ b, negb (isLongDumpActive b) || negb (is_open (longDumpStream b)));
  if off : bool then Done tt
  else
    over ← observe (λ b, longDumpEndTsNs b <=? tsNs evt);
    if over : bool then
      _ ← on_stream stream_close;
      _ ← modify (set_active false);
      notifyDumpComplete_thread cfg
    else
      prev ← observe (λ b, if lastDumpTsNs b =? 0 then longDumpStartTsNs b else lastDumpTsNs b);
      _ ← on_stream (λ st, stream_write st (TraceRecord_bytes (makeTraceRecord evt prev)));
      _ ← modify (set_last_dump (tsNs evt));
      modify (λ b, set_count (u64 (longDumpRecordCount b + 1)) b).

Definition processShortWindow_thread (cfg : AgentConfig) : bthread unit :=
  none ← observe (λ b, match currentShortWindow b with [] => true | _ => false end);
  if none : bool then Done tt
  else
    w ← observe window_of;
    _ ← request (postJsonWithRetry (windows_url cfg) (window_payload cfg w) 3 5);
    _ ← modify (set_events []);
    modify (set_start 0).

(** The part of [handleEvent] between the reference and the loops. *)
Definition queue_thread (evt : SyscallEvent) : bthread unit :=
  none ← observe (λ b, match currentShortWindow b with [] => true | _ => false end);
  _ ← (if none : bool then modify (set_start (tsNs evt)) else Done tt);
  _ ← modify (set_last (tsNs evt));
  modify (λ b, set_events (currentShortWindow b ++ [evt]) b).

Definition flush_thread (cfg : AgentConfig) (evt : SyscallEvent) : bthread unit :=
  windowDuration ← observe (λ b, u64 (tsNs evt - windowStartTsNs b));
  due ← observe (λ b, (seconds_ns (shortWindowSec cfg) <=? windowDuration)
    && (minEventsPerWindow cfg <=? s32 (Z.of_nat (length (currentShortWindow b)))));
  if due : bool then processShortWindow_thread cfg else Done tt.

(** [requestLongDump] on its reference; [create_directories] may throw. *)
Definition startLongDump_thread (cfg : AgentConfig) (containerId : string) (durationSec : Z)
    : bthread unit :=
  _ ← Act (λ b, created ← call (CreateDirectories (dumpDir cfg));
             mret (if created : bool then inr (tt, b) else inl Terminated)) Done;
  stamp ← request nowTimestampForFile;
  let safeId := sanitizeContainerId containerId in
  let fileName := safeId +:+ "-" +:+ stamp +:+ ".dkdump" in
  let filePath := path_join (dumpDir cfg) fileName in
  _ ← on_stream (λ st, stream_open st filePath);
  opened ← observe (λ b, is_open (longDumpStream b));
  if negb opened then Done tt
  else
    _ ← Act (λ b,
          start ← (if negb (lastEventTsNs b =? 0) then mret (lastEventTsNs b) else monotonicNowNs);
          mret (inr (tt, set_dump_start start b))) Done;
    _ ← modify (λ b, set_dump_end (u64 (longDumpStartTsNs b + seconds_ns durationSec)) b);
    _ ← modify (set_last_dump 0);
    _ ← modify (set_active true);
    _ ← modify (set_path filePath);
    _ ← modify (set_count 0);
    _ ← modify (set_duration durationSec);
    start ← observe longDumpStartTsNs;
    on_stream (λ st, stream_write st (TraceHeader_bytes (trace_header cfg containerId start))).

(** The body of the loop of [stopExpiredLongDumps]. *)
Definition stopExpired_thread (cfg : AgentConfig) (nowNs : Z) : bthread unit :=
  over ← observe (λ b, isLongDumpActive b && (longDumpEndTsNs b <=? nowNs));
  if over : bool then
    opened ← observe (λ b, is_open (longDumpStream b));
    _ ← (if opened : bool then on_stream stream_close else Done tt);
    _ ← modify (set_active false);
    notifyDumpComplete_thread cfg
  else Done tt.

(** ** Threads over the agent *)

Abbreviation sthread := (thread W Shared).

Definition on (r : Ref) {A} (t : bthread A) : sthread A := focus (deref r) (assign r) t.

(** [auto& buffer = buffers_[id]]. *)
Definition buffer_ref (id : string) : sthread Ref :=
  Act (λ sh,
    mret (inr ((id, erased_count id sh),
      match buffers_ (sh_agent sh) !! id with
      | Some _ => sh
      | None =>
          MkShared (set_buffers (<[id := new_buffer]> (buffers_ (sh_agent sh))) (sh_agent sh))
            (sh_erased sh) (S (sh_inserts sh))
      end))) Done.

(** ... and [buffer.containerId = id]. *)
Definition named_ref (id : string) : sthread Ref :=
  r ← buffer_ref id;
  _ ← on r (modify (set_id id));
  Done r.

(** An iterator into the table is usable while nothing has been inserted. *)
Definition with_iterator {A} (epoch : nat) (f : Shared → A * Shared) : sthread A :=
  Act (λ sh, mret (if decide (sh_inserts sh = epoch) then inr (f sh) else inl Undefined)) Done.

(** [auto& [id, buf] = *it] and [++it]. *)
Definition iterator_ref (epoch : nat) (id : string) : sthread Ref :=
  with_iterator epoch (λ sh, ((id, erased_count id sh), sh)).
Definition advance (epoch : nat) : sthread unit := with_iterator epoch (λ sh, (tt, sh)).

(** [it = buffers_.erase(it)]. *)
Definition erase_at (epoch : nat) (id : string) : sthread unit :=
  with_iterator epoch (λ sh,
    (tt, MkShared (set_buffers (delete id (buffers_ (sh_agent sh))) (sh_agent sh))
           (<[id := S (erased_count id sh)]> (sh_erased sh)) (sh_inserts sh))).

(** [begin()], with the order the table will be walked in. *)
Definition begin_walk : sthread (list string * nat) :=
  Act (λ sh, order ← hash_order (map_to_list (buffers_ (sh_agent sh))).*1;
             mret (inr ((order, sh_inserts sh), sh))) Done.

Definition stopExpiredLongDumps_thread (cfg : AgentConfig) (nowNs : Z) : sthread unit :=
  '(order, epoch) ← begin_walk;
  each (λ id,
    r ← iterator_ref epoch id;
    _ ← on r (stopExpired_thread cfg nowNs);
    advance epoch) order.

Section handlers.
Context (regex_search : string → string → option bool).
(** The order clean-up meets the buffers in. *)
Context (erase_order : list string → list string).

Definition cleanup_one (nowNs : Z) (epoch : nat) (id : string) : sthread unit :=
  r ← iterator_ref epoch id;
  isInactive ← on r (observe (λ b, kInactiveThresholdNs <? u64 (nowNs - lastEventTsNs b)));
  hasNoDump ← on r (observe (λ b, negb (isLongDumpActive b)));
  hasNoWindow ← on r (observe (λ b, match currentShortWindow b with [] => true | _ => false end));
  if isInactive && hasNoDump && hasNoWindow then erase_at epoch id else advance epoch.

Definition cleanupInactiveBuffers_thread (nowNs : Z) : sthread unit :=
  early ← observe (λ sh, u64 (nowNs - lastBufferCleanupNs_ (sh_agent sh)) <? kCleanupIntervalNs);
  if early : bool then Done tt
  else
    _ ← modify (λ sh, with_agent (set_cleanup nowNs (sh_agent sh)) sh);
    '(order, epoch) ← observe (λ sh, (erase_order (map_to_list (buffers_ (sh_agent sh))).*1,
                                   sh_inserts sh));
    each (cleanup_one nowNs epoch) order.

(** The mappers are the main thread's. *)
Definition mapContainerId_thread (cgroupId pid : Z) : sthread string :=
  Act (λ sh, '(name, a) ← mapContainerId (sh_agent sh) cgroupId pid;
             mret (inr (name, with_agent a sh))) Done.

Definition handleEvent_thread (evt : KernelSyscallEvent) : sthread Z :=
  cfg ← observe (λ sh, config_ (sh_agent sh));
  let mapped := mapped_event evt in
  containerId ← mapContainerId_thread (cgroupId mapped) (pid mapped);
  if negb (passes_filter regex_search cfg containerId) then Done 0
  else
    r ← named_ref containerId;
    _ ← on r (queue_thread mapped);
    _ ← on r (appendLongDump_thread cfg mapped);
    _ ← on r (flush_thread cfg mapped);
    _ ← stopExpiredLongDumps_thread cfg (tsNs mapped);
    _ ← cleanupInactiveBuffers_thread (tsNs mapped);
    Done 0.

Definition handleEventThunk_thread (data : list Z) : sthread Z :=
  if (length data <? KernelSyscallEvent_size)%nat then Done 0
  else handleEvent_thread (KernelSyscallEvent_of_bytes data).

Definition requestLongDump_thread (containerId : string) (durationSec : Z) : sthread unit :=
  cfg ← observe (λ sh, config_ (sh_agent sh));
  r ← named_ref containerId;
  on r (startLongDump_thread cfg containerId durationSec).

(** The enforcer is the server thread's. *)
Definition handlePolicy_thread (containerId policyId policyType specJson : string) : sthread bool :=
  Act (λ sh, '(ok, a) ← handlePolicy (sh_agent sh) containerId policyId policyType specJson;
             mret (inr (ok, with_agent a sh))) Done.

Definition thread_of (i : input) : sthread unit :=
  match i with
  | Sample data => _ ← handleEventThunk_thread data; Done tt
  | LongDump c d _ => requestLongDump_thread c d
  | ApplyPolicy c p ty s => _ ← handlePolicy_thread c p ty s; Done tt
  end.

(** The main thread on the samples it polls, the server's on the commands it receives. *)
Definition main_thread (samples : list (list Z)) : sthread unit :=
  each thread_of (map Sample samples).
Definition server_thread (commands : list input) : sthread unit := each thread_of commands.

Definition agent_threads (sched : list bool) (samples : list (list Z)) (commands : list input)
    (sh : Shared) : IO W (stop + unit * unit * Shared) :=
  par sched (main_thread samples) (server_thread commands) sh.
End handlers.
End threads.


(** ** A thread that runs alone does what its method does *)

(** A thread over a buffer that leaves it as the method does. *)
Definition acts_buffer {W} (t : thread W ContainerBuffer unit)
    (m : ContainerBuffer → IO W ContainerBuffer) : Prop :=
  ∀ b, acts_as t b (m b) (λ r b', r = inr (tt, b')).

Section alone.
Context {W : Type} `{OS W}.

Lemma notifyDumpComplete_alone cfg :
  acts_buffer (W:=W) (notifyDumpComplete_thread cfg) (notifyDumpComplete cfg).
Proof. intros [] σ. by split. Qed.

Lemma processShortWindow_alone cfg :
  acts_buffer (W:=W) (processShortWindow_thread cfg) (processShortWindow cfg).
Proof.
  intros [i ws le w a s e l st p n d] σ. unfold processShortWindow, processShortWindow_thread.
  by destruct w.
Qed.

Lemma on_stream_alone {B} f (k : unit → thread W ContainerBuffer B) b {C} (k' : ofstream → IO W C) Q :
  (∀ st, acts_as (k tt) (set_stream st b) (k' st) Q) →
  acts_as (on_stream f ≫= k) b (f (longDumpStream b) ≫= k') Q.
Proof.
  intros Hk. by eapply (acts_act _ _ _ _ _ (λ st, inr (tt, set_stream st b))).
Qed.

Lemma appendLongDump_alone cfg evt :
  acts_buffer (W:=W) (appendLongDump_thread cfg evt) (λ b, appendLongDump cfg b evt).
Proof.
  intros b. unfold appendLongDump, appendLongDump_thread. thread_step. thread_step; [by thread_step|].
  thread_step. thread_step.
  - apply on_stream_alone. intros st. thread_step. apply notifyDumpComplete_alone.
  - cbv zeta. thread_step. apply on_stream_alone. intros st. thread_step.
    destruct b. intros σ. by split.
Qed.

Lemma stopExpired_alone cfg now :
  acts_buffer (W:=W) (stopExpired_thread cfg now) (stopExpired cfg now).
Proof.
  intros b. unfold stopExpired, stopExpired_thread. thread_step. thread_step; [|by thread_step].
  thread_step. destruct (is_open (longDumpStream b)).
  - apply on_stream_alone. intros st. thread_step. apply notifyDumpComplete_alone.
  - replace b with (set_stream (longDumpStream b) b) at 1 by by destruct b.
    apply (notifyDumpComplete_alone cfg (set_active false (set_stream (longDumpStream b) b))).
Qed.

Lemma startLongDump_alone cfg cid dur b :
  acts_as (W:=W) (startLongDump_thread cfg cid dur) b (startLongDump cfg cid dur b) (λ r b',
    r = match b' with Some b' => inr (tt, b') | None => inl Terminated end).
Proof.
  unfold startLongDump, startLongDump_thread. cbv zeta.
  eapply (acts_act _ _ _ _ _ (λ ok : bool, if ok then inr (tt, b) else inl Terminated)); [done|].
  intros []; cbn [negb]; [|done]. thread_step. apply on_stream_alone. intros st. thread_step.
  assert (Hst : longDumpStream (set_stream st b) = st) by by destruct b. rewrite Hst.
  thread_step; [by thread_step|].
  eapply (acts_act _ _ _ _ _ (λ start, inr (tt, set_dump_start start (set_stream st b)))); [done|].
  intros start. repeat thread_step.
  intros σ. destruct b. by split.
Qed.

(** Queueing, recording and flushing: [feed_buffer]. *)
Lemma queue_alone evt b σ :
  exec (W:=W) (queue_thread evt) b σ = (inr (tt, queue_event evt b), σ).
Proof. destruct b as [i ws le w a s e l st p n d]. by destruct w. Qed.

Lemma flush_alone cfg evt :
  acts_buffer (W:=W) (flush_thread cfg evt)
    (λ b, if window_due cfg b evt then processShortWindow cfg b else mret b).
Proof.
  intros b. unfold flush_thread, window_due. repeat thread_step; [apply processShortWindow_alone|done].
Qed.
End alone.

(** *** On the agent *)

Lemma deref_assign r b b' sh : deref r sh = Some b → deref r (assign r b' sh) = Some b'.
Proof.
  unfold deref, assign, erased_count. destruct sh as [[] e i]. cbn. case_decide; [|done].
  intros _. by rewrite lookup_insert_eq.
Qed.

Lemma assign_twice r b b' sh : assign r b (assign r b' sh) = assign r b sh.
Proof. destruct sh as [[] e i]. unfold assign. cbn. by rewrite insert_insert_eq. Qed.

Lemma assign_same r b sh : deref r sh = Some b → assign r b sh = sh.
Proof.
  destruct sh as [[] e i]. unfold deref, assign. cbn. case_decide; [|done].
  intros Hb. by rewrite insert_id.
Qed.

(** The agents agree. *)
Definition agrees {A B} (r : stop + A * Shared) (b : option B) (a : B → Agent) : Prop :=
  match r, b with
  | inr (_, sh), Some b => sh_agent sh = a b
  | inl Terminated, None => True
  | _, _ => False
  end.

Section agent_alone.
Context {W : Type} `{OS W} (regex_search : string → string → option bool).
Context (erase_order : list string → list string).

Lemma on_alone {A B} r (t : thread W ContainerBuffer A) sh b (m : IO W B) Q :
  deref r sh = Some b →
  acts_as t b m (λ x y, match x with
                        | inl e => Q (inl e) y
                        | inr (a, b') => Q (inr (a, assign r b' sh)) y
                        end) →
  acts_as (on r t) sh m Q.
Proof.
  intros Hd. apply acts_focus; [done|intros; by eapply deref_assign| |intros; by apply assign_same].
  intros. apply assign_twice.
Qed.

(** A statement on a live reference that makes no system call. *)
Lemma on_silently {A} r (t : thread W ContainerBuffer A) sh b a b' :
  deref r sh = Some b → silently t b a b' → silently (on r t) sh a (assign r b' sh).
Proof.
  intros Hd Ht σ.
  destruct (on_alone r t sh b (mret tt) (λ x _, x = inr (a, assign r b' sh)) Hd) with (σ := σ) as [Hσ Hr].
  { intros σ'. rewrite Ht. by split. }
  by destruct (exec (on r t) sh σ) as [? ?]; cbn in *; subst.
Qed.

Lemma on_observe {A} r (f : ContainerBuffer → A) sh b :
  deref r sh = Some b → silently (W:=W) (on r (observe f)) sh (f b) sh.
Proof. intros Hd. rewrite <-(assign_same r b sh Hd) at 2. by apply on_silently with b. Qed.

Lemma on_silent {A A' B} r (t : thread W ContainerBuffer A) (k : A → thread W Shared A') sh b
    (m : IO W B) a b' Q :
  deref r sh = Some b → silently t b a b' →
  acts_as (k a) (assign r b' sh) m Q → acts_as (on r t ≫= k) sh m Q.
Proof. intros Hd Ht. by apply acts_silent, on_silently with b. Qed.

(** A statement that acts as a method of the buffer. *)
Lemma on_buffer {A' B} r t (m : ContainerBuffer → IO W ContainerBuffer) (k : unit → thread W Shared A') sh b
    (k' : ContainerBuffer → IO W B) Q :
  acts_buffer t m → deref r sh = Some b →
  (∀ b', acts_as (k tt) (assign r b' sh) (k' b') Q) →
  acts_as (on r t ≫= k) sh (m b ≫= k') Q.
Proof.
  intros Ht Hd Hk. eapply acts_bind; [eapply on_alone; [done|]; eapply acts_mono; [apply Ht|]| |].
  - intros x b' ->. instantiate (1 := λ x b', x = inr (tt, assign r b' sh)). done.
  - by intros.
  - intros a s' b' [= -> ->]. apply Hk.
Qed.

(** Expiry.  [ids] are still to be visited; nothing is inserted meanwhile. *)
Lemma expire_alone now ids sh :
  (∀ id, id ∈ ids → is_Some (buffers_ (sh_agent sh) !! id)) →
  acts_as (W:=W) (each (λ id,
      r ← iterator_ref (sh_inserts sh) id;
      _ ← on r (stopExpired_thread (config_ (sh_agent sh)) now);
      advance (sh_inserts sh)) ids) sh
    (io_fold (expire_one now) (sh_agent sh) ids)
    (λ r a, ∃ sh', r = inr (tt, sh') ∧ sh_agent sh' = a ∧ sh_inserts sh' = sh_inserts sh).
Proof.
  revert sh. induction ids as [|id ids IH]; intros sh Hids; cbn [each io_fold].
  { apply acts_ret. by exists sh. }
  destruct (Hids id) as [b Hb]; [by left|].
  eapply (acts_bind _ _ _ _ _ (λ r a, ∃ b', r = inr (tt, assign (id, erased_count id sh) b' sh)
    ∧ a = set_buffers (<[id := b']> (buffers_ (sh_agent sh))) (sh_agent sh))).
  - unfold expire_one. rewrite Hb.
    eapply acts_silent; [intros σ; cbn; by rewrite decide_True by done|].
    eapply on_buffer; [apply stopExpired_alone| |].
    + unfold deref. cbn [fst snd]. by rewrite decide_True.
    + intros b'. intros σ. split; [|exists b']; cbn; rewrite decide_True by (by destruct sh); done.
  - by intros e b' (? & ? & ?).
  - intros [] sh' a (b' & [= ->] & ->).
    set (sh' := assign (id, erased_count id sh) b' sh).
    assert (Ha : sh_agent sh' = set_buffers (<[id := b']> (buffers_ (sh_agent sh))) (sh_agent sh))
      by by destruct sh.
    assert (Hi : sh_inserts sh' = sh_inserts sh) by by destruct sh.
    rewrite <-Ha, <-Hi. replace (config_ (sh_agent sh)) with (config_ (sh_agent sh'))
      by by rewrite Ha; destruct (sh_agent sh).
    apply IH. intros id' Hid'. rewrite Ha, buffers_set_buffers.
    destruct (decide (id = id')) as [->|Hne]; [by rewrite lookup_insert_eq|].
    rewrite lookup_insert_ne by done. apply Hids. by right.
Qed.

Lemma stopExpiredLongDumps_alone now sh :
  acts_as (W:=W) (stopExpiredLongDumps_thread (config_ (sh_agent sh)) now) sh
    (stopExpiredLongDumps now (sh_agent sh))
    (λ r a, ∃ sh', r = inr (tt, sh') ∧ sh_agent sh' = a).
Proof.
  unfold stopExpiredLongDumps_thread, stopExpiredLongDumps.
  eapply (acts_bind _ _ _ _ _ (λ r order, r = inr ((order, sh_inserts sh), sh)
    ∧ order ≡ₚ (map_to_list (buffers_ (sh_agent sh))).*1)).
  - intros σ. split; [done|]. split; [done|]. unfold hash_order, mbind, io_bind. cbn.
    by case_decide.
  - by intros e order [? _].
  - intros [? ?] sh' order [[= -> -> ->] Ho]. eapply acts_mono; [apply expire_alone|].
    + intros id Hid. rewrite Ho in Hid. apply list_elem_of_fmap in Hid as ([id' b] & -> & Hb).
      apply elem_of_map_to_list in Hb. by exists b.
    + intros r a (sh' & -> & <- & _). by exists sh'.
Qed.

(** Clean-up: one buffer, then all. *)
Definition cleaned_one (now : Z) (id : string) (sh sh' : Shared) : Prop :=
  sh_inserts sh' = sh_inserts sh
  ∧ sh_agent sh' = set_buffers (buffers_ (sh_agent sh')) (sh_agent sh)
  ∧ ∀ c, buffers_ (sh_agent sh') !! c =
      if decide (c = id) then b ← buffers_ (sh_agent sh) !! c; if idle now b then None else Some b
      else buffers_ (sh_agent sh) !! c.

Lemma cleanup_one_alone now sh id :
  is_Some (buffers_ (sh_agent sh) !! id) →
  ∃ sh', silently (W:=W) (cleanup_one now (sh_inserts sh) id) sh tt sh' ∧ cleaned_one now id sh sh'.
Proof.
  intros [b Hb].
  assert (Hd : deref (id, erased_count id sh) sh = Some b)
    by (unfold deref; cbn [fst snd]; by rewrite decide_True).
  set (sh' := if idle now b
       then MkShared (set_buffers (delete id (buffers_ (sh_agent sh))) (sh_agent sh))
              (<[id := S (erased_count id sh)]> (sh_erased sh)) (sh_inserts sh)
       else sh).
  exists sh'. split.
  - unfold cleanup_one. eapply silently_bind; [intros σ; cbn; by rewrite decide_True by done|].
    do 3 (eapply silently_bind; [by apply on_observe|]).
    change (silently (W:=W) (if idle now b then erase_at (sh_inserts sh) id else advance (sh_inserts sh))
      sh tt sh').
    subst sh'. destruct (idle now b); intros σ; cbn; by rewrite decide_True by done.
  - subst sh'. split_and!; [by destruct (idle now b)| |].
    + destruct (idle now b); cbn [sh_agent]; [by rewrite buffers_set_buffers|by rewrite set_buffers_same].
    + intros c. destruct (decide (c = id)) as [->|Hne].
      * rewrite Hb. cbn [mbind option_bind]. destruct (idle now b); [|done].
        cbn [sh_agent]. by rewrite buffers_set_buffers, lookup_delete_eq.
      * destruct (idle now b); [|done]. cbn [sh_agent].
        by rewrite buffers_set_buffers, lookup_delete_ne.
Qed.

Lemma cleanup_each_alone now ids sh :
  NoDup ids → (∀ id, id ∈ ids → is_Some (buffers_ (sh_agent sh) !! id)) →
  ∃ sh', silently (W:=W) (each (cleanup_one now (sh_inserts sh)) ids) sh tt sh'
    ∧ sh_agent sh' = set_buffers (buffers_ (sh_agent sh')) (sh_agent sh)
    ∧ ∀ c, buffers_ (sh_agent sh') !! c =
        if decide (c ∈ ids) then b ← buffers_ (sh_agent sh) !! c; if idle now b then None else Some b
        else buffers_ (sh_agent sh) !! c.
Proof.
  revert sh. induction ids as [|id ids IH]; intros sh Hnd Hids; cbn [each].
  { exists sh. split_and!; [done|by rewrite set_buffers_same|done]. }
  apply NoDup_cons in Hnd as [Hid Hnd].
  destruct (cleanup_one_alone now sh id) as (sh1 & Hs1 & Hi & Ha & Hc); [apply Hids; by left|].
  destruct (IH sh1 Hnd) as (sh2 & Hs2 & Ha2 & Hc2).
  { intros id' Hid'. rewrite Hc, decide_False by (by intros ->). apply Hids. by right. }
  exists sh2. split_and!.
  - eapply silently_bind; [exact Hs1|]. by rewrite Hi in Hs2.
  - rewrite Ha2, Ha at 1. by rewrite set_buffers_twice.
  - intros c. rewrite Hc2, Hc. destruct (decide (c = id)) as [->|Hne].
    + rewrite decide_False, decide_True by (done || by left). done.
    + apply decide_ext. rewrite elem_of_cons. naive_solver.
Qed.

Lemma cleanupInactiveBuffers_alone now sh :
  (∀ l, erase_order l ≡ₚ l) →
  ∃ sh', silently (W:=W) (cleanupInactiveBuffers_thread erase_order now) sh tt sh'
    ∧ sh_agent sh' = cleanupInactiveBuffers now (sh_agent sh).
Proof.
  intros Ho. unfold cleanupInactiveBuffers_thread, cleanupInactiveBuffers.
  destruct (_ <? kCleanupIntervalNs) eqn:He.
  { exists sh. split; [|done]. eapply silently_bind; [done|]. by rewrite He. }
  set (sh0 := with_agent (set_cleanup now (sh_agent sh)) sh).
  assert (H0 : sh_agent sh0 = set_cleanup now (sh_agent sh)) by by destruct sh.
  assert (Hb0 : buffers_ (sh_agent sh0) = buffers_ (sh_agent sh)) by (rewrite H0; by destruct (sh_agent sh)).
  destruct (cleanup_each_alone now (erase_order (map_to_list (buffers_ (sh_agent sh0))).*1) sh0)
    as (sh' & Hs & Ha & Hc).
  { rewrite Ho. apply NoDup_fst_map_to_list. }
  { intros id Hid. rewrite Ho in Hid. apply list_elem_of_fmap in Hid as ([id' b] & -> & Hb).
    apply elem_of_map_to_list in Hb. by exists b. }
  exists sh'. split.
  - eapply silently_bind; [done|]. rewrite He. eapply silently_bind; [done|].
    eapply silently_bind; [done|]. exact Hs.
  - rewrite Ha, H0. f_equal. rewrite <-Hb0 in *. apply map_eq. intros c. rewrite Hc, map_lookup_filter.
    destruct (buffers_ (sh_agent sh0) !! c) as [b|] eqn:Hb; cbn [mbind option_bind]; [|by case_decide].
    rewrite decide_True.
    + case_guard as Hg; cbn [snd] in Hg; cbn [mret option_ret mbind option_bind];
        [by rewrite Hg|by apply not_false_is_true in Hg as ->].
    + rewrite Ho. apply list_elem_of_fmap. exists (c, b). split; [done|]. by apply elem_of_map_to_list.
Qed.

(** The reference [handleEvent] and [requestLongDump] start with, and the name they store. *)
Lemma named_alone id sh :
  ∃ sh1, let r := (id, erased_count id sh) in
    silently (W:=W) (named_ref id) sh r sh1
    ∧ deref r sh1 = Some (set_id id (buffer_at (sh_agent sh) id))
    ∧ ∀ b, sh_agent (assign r b sh1) = set_buffers (<[id := b]> (buffers_ (sh_agent sh))) (sh_agent sh).
Proof.
  cbv zeta. unfold buffer_at.
  set (sh0 := match buffers_ (sh_agent sh) !! id with
      | Some _ => sh
      | None =>
          MkShared (set_buffers (<[id := new_buffer]> (buffers_ (sh_agent sh))) (sh_agent sh))
            (sh_erased sh) (S (sh_inserts sh))
      end).
  assert (Hd : deref (id, erased_count id sh) sh0 = Some (default new_buffer (buffers_ (sh_agent sh) !! id))).
  { unfold deref. cbn [fst snd]. subst sh0. destruct (buffers_ (sh_agent sh) !! id) eqn:Hb.
    - by rewrite decide_True.
    - unfold erased_count. cbn [sh_erased sh_agent]. rewrite decide_True, buffers_set_buffers by done.
      by rewrite lookup_insert_eq. }
  exists (assign (id, erased_count id sh) (set_id id (default new_buffer (buffers_ (sh_agent sh) !! id))) sh0).
  split_and!.
  - eapply silently_bind; [done|]. eapply silently_bind; [|done].
    by apply (on_silently _ _ _ _ tt _ Hd).
  - by eapply deref_assign.
  - intros b. rewrite assign_twice. subst sh0. destruct sh as [a e i]. cbn [sh_agent].
    destruct (buffers_ a !! id); [done|]. unfold assign. cbn [with_agent sh_agent fst].
    by rewrite buffers_set_buffers, set_buffers_twice, insert_insert_eq.
Qed.

Lemma handleEvent_alone evt sh :
  (∀ l, erase_order l ≡ₚ l) →
  acts_as (W:=W) (handleEvent_thread regex_search erase_order evt) sh
    (handleEvent regex_search (sh_agent sh) evt)
    (λ r b, ∃ sh', r = inr (b.1, sh') ∧ sh_agent sh' = b.2).
Proof.
  intros Ho. unfold handleEvent_thread, handleEvent. cbv zeta. thread_step.
  eapply (acts_bind _ _ _ _ _ (λ r x, r = inr (x.1, with_agent x.2 sh)
    ∧ config_ x.2 = config_ (sh_agent sh))).
  { intros σ. split; [|split]; unfold mapContainerId_thread, exec, mbind, io_bind; cbn [fst snd].
    - by destruct (mapContainerId _ _ _ σ) as [[? ?] ?].
    - by destruct (mapContainerId _ _ _ σ) as [[? ?] ?].
    - destruct (mapContainerId_holds (sh_agent sh) (cgroupId (mapped_event evt))
        (pid (mapped_event evt)) σ) as (t & _ & _ & _ & d & m & Hx).
      rewrite Hx. apply config_set_mappers. }
  { by intros e x [? _]. }
  intros id sh1 [id' a1] [[= -> ->] Hcfg]. cbn [fst snd] in *. rewrite <-Hcfg.
  set (sh1 := with_agent a1 sh).
  assert (Ha1 : sh_agent sh1 = a1) by by destruct sh. rewrite <-Ha1.
  thread_step; [apply acts_ret; by exists sh1|].
  destruct (named_alone id' sh1) as (sh2 & Hs2 & Hd2 & Has). cbv zeta in *.
  set (r := (id', erased_count id' sh1)) in *.
  set (b0 := set_id id' (buffer_at (sh_agent sh1) id')) in *.
  eapply acts_silent; [exact Hs2|]. fold r in Has.
  eapply acts_silent; [apply on_silently with b0; [done|by intros σ; apply queue_alone]|].
  set (sh3 := assign r (queue_event (mapped_event evt) b0) sh2).
  assert (Hd3 : deref r sh3 = Some (queue_event (mapped_event evt) b0)) by by eapply deref_assign.
  unfold feed_buffer. cbv zeta.
  apply acts_assoc.
  eapply (on_buffer _ _ _ _ _ _ _ _ (appendLongDump_alone _ _)); [exact Hd3|]. intros b1.
  eapply (on_buffer _ _ _ _ _ _ _ _ (flush_alone _ _)); [by eapply deref_assign|]. intros b2.
  subst sh3. rewrite !assign_twice. specialize (Has b2). rewrite <-Has.
  set (sh4 := assign r b2 sh2) in *.
  replace (config_ (sh_agent sh1)) with (config_ (sh_agent sh4))
    by by rewrite Has, config_set_buffers.
  eapply acts_bind; [apply stopExpiredLongDumps_alone|by intros e b (? & ? & ?)|].
  intros [] sh5 a5 (? & [= <-] & <-).
  destruct (cleanupInactiveBuffers_alone (tsNs (mapped_event evt)) sh5 Ho) as (sh6 & Hs6 & Ha6).
  eapply acts_silent; [exact Hs6|]. apply acts_ret. exists sh6. by rewrite Ha6.
Qed.

Lemma requestLongDump_alone cid dur sh :
  acts_as (W:=W) (requestLongDump_thread cid dur) sh (requestLongDump (sh_agent sh) cid dur)
    (λ r b, match b with
            | Some a' => ∃ sh', r = inr (tt, sh') ∧ sh_agent sh' = a'
            | None => r = inl Terminated
            end).
Proof.
  unfold requestLongDump_thread, requestLongDump. thread_step.
  destruct (named_alone cid sh) as (sh2 & Hs2 & Hd2 & Has). cbv zeta in *.
  eapply acts_silent; [exact Hs2|]. set (b0 := set_id cid (buffer_at (sh_agent sh) cid)) in *.
  apply (acts_post _ _ _ (λ r b, r = match b with
    | Some b => inr (tt, assign (cid, erased_count cid sh) b sh2)
    | None => inl Terminated end)).
  - eapply on_alone; [exact Hd2|]. eapply acts_mono; [apply startLongDump_alone|]. by intros r [b|] ->.
  - intros r [b|] ->; [|done]. eexists. split; [done|]. apply Has.
Qed.

Lemma thread_of_alone i sh :
  (∀ l, erase_order l ≡ₚ l) →
  acts_as (W:=W) (thread_of regex_search erase_order i) sh (agent_step regex_search (sh_agent sh) i)
    (λ r b, match b with
            | Some a' => ∃ sh', r = inr (tt, sh') ∧ sh_agent sh' = a'
            | None => r = inl Terminated
            end).
Proof.
  intros Ho. destruct i as [data|c d reason|c p ty s]; cbn [thread_of agent_step].
  - unfold handleEventThunk_thread, handleEventThunk. case_bool; [by intros σ; split; [|exists sh]|].
    eapply acts_bind; [by apply handleEvent_alone|by intros e b (? & ? & ?)|].
    intros z sh' [z' a] (? & [= <- <-] & Ha). apply acts_ret. by exists sh'.
  - apply requestLongDump_alone.
  - intros σ. unfold handlePolicy_thread, policy_handler, exec, mbind, thread_bind, io_bind.
    cbn. destruct (handlePolicy _ _ _ _ _ σ) as [[ok a] σ']. cbn. split; [done|].
    exists (with_agent a sh). by destruct sh.
Qed.

Lemma threads_of_alone l sh :
  (∀ l, erase_order l ≡ₚ l) →
  acts_as (W:=W) (each (thread_of regex_search erase_order) l) sh
    (agent_steps regex_search (sh_agent sh) l)
    (λ r b, match b with
            | Some a' => ∃ sh', r = inr (tt, sh') ∧ sh_agent sh' = a'
            | None => r = inl Terminated
            end).
Proof.
  intros Ho. revert sh. induction l as [|i l IH]; intros sh; cbn [each agent_steps].
  - apply acts_ret. by exists sh.
  - eapply acts_bind; [by apply thread_of_alone| |].
    + intros e [a'|] Hr; [by destruct Hr as (? & ? & _)|]. intros σ. by split; [|injection Hr as ->].
    + intros [] sh1 [a'|] Hr; [|done]. destruct Hr as (? & [= <-] & <-). apply IH.
Qed.
End agent_alone.

(** ** Property *)

(** C9: the threads refine the methods.  Alone, the threads of any sequence of samples, dump
    requests and policies make exactly the system calls the methods of the agent make, in the
    same order with the same answers, and leave the same agent; they stop only where a method
    throws, and never by an invalid reference or iterator. *)
Theorem threads_refine_steps {W} `{OS W} regex_search erase_order l sh :
  (∀ l, erase_order l ≡ₚ l) →
  ∀ σ, let r := exec (W:=W) (each (thread_of regex_search erase_order) l) sh σ in
    let m := agent_steps regex_search (sh_agent sh) l σ in
    r.2 = m.2 ∧
    match m.1 with
    | Some a' => ∃ sh', r.1 = inr (tt, sh') ∧ sh_agent sh' = a'
    | None => r.1 = inl Terminated
    end.
Proof. intros Ho. by apply threads_of_alone. Qed.

Definition sample_shared : Shared := MkShared sample_agent ∅ 0.

Lemma threads_refine_steps_witness :
  let σ := IOState sample_network [] in
  let r := exec (each (thread_of subset_regex (λ l, l)) sample_inputs) sample_shared σ in
  let m := agent_steps subset_regex sample_agent sample_inputs σ in
  (r.2 = m.2 ∧
    match m.1 with
    | Some a' => ∃ sh', r.1 = inr (tt, sh') ∧ sh_agent sh' = a'
    | None => r.1 = inl Terminated
    end)
  ∧ length (io_trace r.2) = length (io_trace m.2) ∧ length (io_trace m.2) = 21%nat.
Proof.
  cbv zeta. split; [|split; vm_compute; reflexivity].
  apply (threads_refine_steps subset_regex (λ l, l) sample_inputs sample_shared). done.
Defined.
