(* ===== verification/Interleaving.v ===== *)
(** * Interleaving: what holds under every schedule of the two threads

    Rely-guarantee proofs on the threads of [Concurrency.v].  The main thread owns
    the windows: no statement of the server's thread touches the events that
    wait or the start of a window, so the events are conserved whatever the
    schedule.  The dumps have no owner, and the clean-up erases buffers the
    server may hold: the second half gives schedules on which that goes wrong,
    and a condition under which no step is undefined. *)

From S2P Require Export Concurrency.
From S2P Require Import PolicyEnforcer.

#[local] Open Scope Z_scope.

#[local] Existing Instance PolicyEnforcer.apply_unposted.

(** ** What one thread may rely upon *)

(** The window of a container: when it started and the events that wait. *)
Definition window_view (sh : Shared) (c : string) : Z * list SyscallEvent :=
  match buffers_ (sh_agent sh) !! c with
  | Some b => (windowStartTsNs b, currentShortWindow b)
  | None => (0, [])
  end.

(** The container has a buffer, which knows whose it is. *)
Definition named (sh : Shared) (c : string) : Prop :=
  ∃ b, buffers_ (sh_agent sh) !! c = Some b ∧ containerId b = c.

(** A step that leaves every window as it was and posts none. *)
Definition keeps (cfg : AgentConfig) (sh sh' : Shared) (e : list event) : Prop :=
  config_ (sh_agent sh') = config_ (sh_agent sh)
  ∧ (∀ c, window_view sh' c = window_view sh c)
  ∧ (∀ c, named sh c → named sh' c)
  ∧ ∃ ns, effects cfg e [] ns.

(** The same of one buffer. *)
Definition calm (cfg : AgentConfig) (id : string) (b b' : ContainerBuffer) (e : list event) : Prop :=
  windowStartTsNs b' = windowStartTsNs b ∧ currentShortWindow b' = currentShortWindow b
  ∧ (containerId b = id → containerId b' = id)
  ∧ ∃ ns, effects cfg e [] ns.

Definition anything (st : stop) : Prop := True.

#[export] Instance keeps_rely cfg : Rely (keeps cfg).
Proof.
  split.
  - intros s. split_and!; [done..|]. exists []. by apply effects_silent.
  - intros s s1 s2 t1 t2 (C1 & V1 & N1 & ns1 & E1) (C2 & V2 & N2 & ns2 & E2).
    split_and!; [congruence|intros c; by rewrite V2|auto|].
    exists (ns1 ++ ns2). by apply (effects_app cfg t1 t2 [] []).
Qed.

(** *** Statements on one buffer *)

Section calm.
Context {W : Type} `{OS W} (cfg : AgentConfig) (Hurl : url_ok cfg) (id : string) (E : stop → Prop).

Abbreviation always_calm := (always (W:=W) (calm cfg id) E).

Lemma no_effects : ∃ ns, effects cfg [] [] ns.
Proof using Type. exists []. by apply effects_silent. Qed.

Lemma calm_observe {A} (f : ContainerBuffer → A) : always_calm (observe f).
Proof using Type. apply always_act; [|done]. intros b. apply holds_ret. split_and!; [done..|apply no_effects]. Qed.

Lemma calm_modify (g : ContainerBuffer → ContainerBuffer) :
  (∀ b, windowStartTsNs (g b) = windowStartTsNs b ∧ currentShortWindow (g b) = currentShortWindow b
    ∧ (containerId b = id → containerId (g b) = id)) →
  always_calm (modify g).
Proof using Type.
  intros Hg. apply always_act; [|done]. intros b. apply holds_ret. destruct (Hg b) as (? & ? & ?).
  split_and!; [done..|apply no_effects].
Qed.

Lemma calm_unposted {A B} (m : IO W A) (g : A → B) (u : A → ContainerBuffer → ContainerBuffer) :
  Emits unposted m →
  (∀ x b, windowStartTsNs (u x b) = windowStartTsNs b
    ∧ currentShortWindow (u x b) = currentShortWindow b ∧ containerId (u x b) = containerId b) →
  ∀ b, holds (x ← m; mret (inr (g x, u x b))) (λ r e,
    match r with inl st => E st | inr (_, b') => calm cfg id b b' e end).
Proof using Type.
  intros Hm Hu b. io_step. eapply holds_mono; [apply Hm|]. intros x e He. apply holds_ret.
  destruct (Hu x b) as (? & ? & ?). rewrite app_nil_r. split_and!; [done..|congruence|].
  exists []. by apply effects_unposted.
Qed.

Lemma calm_request {A} (m : IO W A) : Emits unposted m → always_calm (request m).
Proof using Type. intros Hm. apply always_act; [|done]. by apply (calm_unposted m (λ x, x) (λ _ b, b)). Qed.

Lemma calm_on_stream f : (∀ st, Emits unposted (f st)) → always_calm (on_stream f).
Proof using Type.
  intros Hf. apply always_act; [|done]. intros b.
  apply (calm_unposted (f (longDumpStream b)) (λ _, tt) set_stream); [done|]. by intros st [].
Qed.

Lemma calm_if {A} (c : bool) (t1 t2 : thread W ContainerBuffer A) :
  always_calm t1 → always_calm t2 → always_calm (if c then t1 else t2).
Proof using Type. by destruct c. Qed.

Lemma calm_notice n :
  always_calm (request (postJsonWithRetry (complete_url cfg) (notice_payload cfg n) 3 5)).
Proof using Hurl.
  apply always_act; [|done]. intros b. io_step. eapply holds_mono; [by apply postJsonWithRetry_posts|].
  intros ok e He. apply holds_ret. rewrite app_nil_r. split_and!; [done..|].
  exists [n]. by apply effects_notice.
Qed.

#[local] Hint Resolve calm_observe calm_on_stream calm_if calm_notice calm_request : dk.
#[local] Hint Extern 1 (always _ _ (modify _)) => (apply calm_modify; by intros []) : dk.
#[local] Hint Extern 1 (always _ _ (Done _)) => exact I : dk.
#[local] Hint Extern 1 (Emits unposted _) => (apply _) : dk.

(** Every statement on the dump. *)
Ltac calmly := repeat first [apply always_bind; [auto with dk|intros ?] | solve [auto with dk] | apply calm_if].

Lemma notifyDumpComplete_calm : always_calm (notifyDumpComplete_thread cfg).
Proof using Hurl. unfold notifyDumpComplete_thread. calmly. Qed.
#[local] Hint Resolve notifyDumpComplete_calm : dk.

Lemma appendLongDump_calm evt : always_calm (appendLongDump_thread cfg evt).
Proof using Hurl. unfold appendLongDump_thread. calmly. Qed.

Lemma stopExpired_calm now : always_calm (stopExpired_thread cfg now).
Proof using Hurl. unfold stopExpired_thread. calmly. Qed.

Lemma startLongDump_calm cfg' cid dur :
  E Terminated → always_calm (startLongDump_thread cfg' cid dur).
Proof using Type.
  intros HE. unfold startLongDump_thread. cbv zeta.
  apply always_bind.
  { apply always_act; [|done]. intros b. io_step. io_step. apply holds_ret. destruct a; [|done].
    split_and!; [done..|]. exists []. apply effects_unposted. by constructor. }
  intros _. calmly. apply always_act; [|done]. intros b.
  apply (calm_unposted _ (λ _, tt) set_dump_start); [unfold monotonicNowNs; apply _|by intros x []].
Qed.
End calm.

(** *** Statements on the agent *)

Section agent.
Context {W : Type} `{OS W} (cfg : AgentConfig) (Hurl : url_ok cfg).

Abbreviation always_keeps := (always (W:=W) (keeps cfg) anything).

Lemma view_assign r b sh c :
  window_view (assign r b sh) c
    = if decide (c = r.1) then (windowStartTsNs b, currentShortWindow b) else window_view sh c.
Proof.
  unfold window_view, assign. destruct sh as [a e i]. cbn [sh_agent with_agent].
  rewrite buffers_set_buffers. case_decide; [subst; by rewrite lookup_insert_eq|].
  by rewrite lookup_insert_ne.
Qed.

Lemma named_assign r b sh c :
  (c = r.1 → containerId b = c) → named sh c → named (assign r b sh) c.
Proof.
  intros Hb (b0 & Hb0 & Hid). unfold named, assign. destruct sh as [a e i].
  cbn [sh_agent with_agent] in *. rewrite buffers_set_buffers.
  destruct (decide (c = r.1)) as [->|Hne]; [rewrite lookup_insert_eq|rewrite lookup_insert_ne by done];
    naive_solver.
Qed.

Lemma config_assign r b sh : config_ (sh_agent (assign r b sh)) = config_ (sh_agent sh).
Proof. destruct sh. apply config_set_buffers. Qed.

Lemma deref_lookup r sh b : deref r sh = Some b → buffers_ (sh_agent sh) !! r.1 = Some b.
Proof. unfold deref. by case_decide. Qed.

Lemma calm_assign r b b' sh e :
  deref r sh = Some b → calm cfg r.1 b b' e → keeps cfg sh (assign r b' sh) e.
Proof.
  intros Hd%deref_lookup (Hs & Hw & Hid & He).
  split_and!; [apply config_assign| |  |exact He].
  - intros c. rewrite view_assign. case_decide; [subst|done]. unfold window_view. rewrite Hd. congruence.
  - intros c Hc. apply named_assign; [|done]. intros ->. destruct Hc as (b0 & Hb0 & ?).
    rewrite Hd in Hb0. simplify_eq. auto.
Qed.

Lemma on_calm {A} r (t : thread W ContainerBuffer A) :
  always (calm cfg r.1) anything t → always_keeps (on r t).
Proof. intros Ht. eapply always_focus; [done| |exact Ht]. intros. by eapply calm_assign. Qed.

(** A step that only computes on the agent. *)
Lemma keeps_pure {A} (f : Shared → stop + A * Shared) :
  (∀ sh, match f sh with
         | inl _ => True
         | inr (_, sh') => config_ (sh_agent sh') = config_ (sh_agent sh)
             ∧ (∀ c, window_view sh' c = window_view sh c) ∧ (∀ c, named sh c → named sh' c)
         end) →
  always_keeps (Act (λ sh, mret (f sh)) Done).
Proof.
  intros Hf. apply always_act; [|done]. intros sh. apply holds_ret. specialize (Hf sh).
  destruct (f sh) as [st|[a sh']]; [done|]. destruct Hf as (? & ? & ?). split_and!; [done..|].
  apply no_effects.
Qed.

Lemma observe_keeps {A} (f : Shared → A) : always_keeps (observe f).
Proof. by apply (keeps_pure (λ sh, inr (f sh, sh))). Qed.

Lemma buffer_ref_keeps id : always_keeps (buffer_ref id).
Proof.
  apply keeps_pure. intros sh. destruct (buffers_ (sh_agent sh) !! id) as [b|] eqn:Hb; [done|].
  unfold window_view, named. cbn [sh_agent]. rewrite config_set_buffers, buffers_set_buffers.
  split_and!; [done| |]; intros c; (destruct (decide (c = id)) as [->|Hne];
    [rewrite lookup_insert_eq|rewrite lookup_insert_ne by done]); try done.
  - by rewrite Hb.
  - intros (b & Hb' & _). congruence.
Qed.

Lemma named_ref_keeps id : always_keeps (named_ref id).
Proof.
  intros sh. eapply holds_mono; [apply (holds_and _ (λ r _, ∀ x sh', r = inr (x, sh') → x.1 = id))|].
  - apply holds_ret. by intros x sh' [= <- _].
  - apply (buffer_ref_keeps id).
  - intros [st|[r sh']] e; [done|]. intros [Hr [Hk _]]. split; [done|].
    apply always_bind; [|done]. apply on_calm. rewrite (Hr r sh' eq_refl).
    apply calm_modify. by intros [].
Qed.

(** An iterator that is read or moved. *)
Lemma with_iterator_keeps {A} epoch (f : Shared → A) :
  always_keeps (with_iterator epoch (λ sh, (f sh, sh))).
Proof. apply keeps_pure. intros sh. by case_decide. Qed.

Lemma stopExpiredLongDumps_keeps now : always_keeps (stopExpiredLongDumps_thread cfg now).
Proof using Hurl.
  unfold stopExpiredLongDumps_thread. apply always_bind.
  - apply always_act; [|done]. intros sh. io_step. eapply holds_mono; [unfold hash_order; apply (emits (P:=silent))|].
    intros order e He. apply holds_ret. split_and!; [done..|]. exists []. rewrite app_nil_r.
    by apply effects_silent.
  - intros [order epoch]. apply always_each. intros id.
    apply always_bind; [apply with_iterator_keeps|]. intros r.
    apply always_bind; [|intros _; apply with_iterator_keeps].
    apply on_calm. by apply stopExpired_calm.
Qed.

(** Replacing the mappers or the enforcer. *)
Lemma with_agent_keeps sh a e :
  config_ a = config_ (sh_agent sh) → buffers_ a = buffers_ (sh_agent sh) → Forall unposted e →
  keeps cfg sh (with_agent a sh) e.
Proof.
  intros Hc Hb He. destruct sh as [a0 er i]. unfold keeps, window_view, named.
  cbn [with_agent sh_agent] in *. rewrite Hc, Hb. split_and!; [done..|].
  exists []. by apply effects_unposted.
Qed.

Lemma requestLongDump_keeps c d : always_keeps (requestLongDump_thread c d).
Proof.
  unfold requestLongDump_thread. apply always_bind; [apply observe_keeps|]. intros cfg'.
  apply always_bind; [apply named_ref_keeps|]. intros r. apply on_calm. by apply startLongDump_calm.
Qed.

Lemma handlePolicy_keeps c p ty s : always_keeps (handlePolicy_thread c p ty s).
Proof.
  apply always_act; [|done]. intros sh. io_step.
  unfold handlePolicy. destruct (policyEnforcer_ (sh_agent sh)) as [en|].
  - io_step. eapply holds_mono; [apply (emits (P:=unposted))|].
    intros [ok en'] e He. io_step. apply holds_ret. rewrite !app_nil_r.
    apply with_agent_keeps; [by destruct (sh_agent sh)..|done].
  - io_step. apply holds_ret. apply with_agent_keeps; [done..|constructor].
Qed.

(** The server's thread leaves the windows alone. *)
Lemma command_keeps regex_search erase_order i :
  (∀ data, i ≠ Sample data) → always_keeps (thread_of regex_search erase_order i).
Proof.
  intros Hi. destruct i as [data|c d reason|c p ty s]; [by destruct (Hi data)| |]; cbn [thread_of].
  - apply requestLongDump_keeps.
  - apply always_bind; [apply handlePolicy_keeps|done].
Qed.
End agent.

(** ** The windows, under interference *)

Section windows.
Context {W : Type} `{OS W} (cfg : AgentConfig) (Hurl : url_ok cfg).

Abbreviation main_safe := (safe (W:=W) (keeps cfg) (λ _ _ _, True) anything).

(** Where the main thread stands in the middle of an event of container [id]: the windows are
    those of [V] but for [id]'s, and [ws] have been posted. *)
Definition midway (V : string → Z * list SyscallEvent) (id : string) (v : Z * list SyscallEvent)
    (ws : list window) (sh : Shared) (tr : list event) : Prop :=
  config_ (sh_agent sh) = cfg ∧ named sh id
  ∧ (∀ c, window_view sh c = if decide (c = id) then v else V c)
  ∧ ∃ ns, effects cfg tr ws ns.

Lemma midway_keeps V id v ws sh sh' tr e :
  keeps cfg sh sh' e → midway V id v ws sh tr → midway V id v ws sh' (tr ++ e).
Proof.
  intros (C & Vw & N & ns' & E) (Hc & Hn & Hv & ns & He).
  split_and!; [congruence|auto|intros c; by rewrite Vw|].
  exists (ns ++ ns'). rewrite <-(app_nil_r ws). by apply effects_app.
Qed.

(** A thread that leaves the windows alone. *)
Lemma quiet_safe {A} (t : thread W Shared A) (I : Shared → list event → Prop) sh tr :
  (∀ s s' tr e, keeps cfg s s' e → I s tr → I s' (tr ++ e)) →
  always (keeps cfg) anything t → I sh tr → main_safe t (λ _, I) sh tr.
Proof.
  intros HI Ht Hs. apply (safe_guarantee _ (keeps cfg)); [done|]. by apply always_safe.
Qed.

(** Reading the buffer of [id]: what is read is what the main thread left there. *)
Lemma safe_observe {A} (f : ContainerBuffer → A) V id n v ws sh tr :
  midway V id v ws sh tr →
  main_safe (on (id, n) (observe f)) (λ x sh tr, midway V id v ws sh tr
    ∧ ∃ b, x = f b ∧ containerId b = id ∧ windowStartTsNs b = v.1 ∧ currentShortWindow b = v.2) sh tr.
Proof.
  intros Hm. apply safe_act. intros s1 t1 H1. eapply midway_keeps in Hm; [|exact H1].
  destruct (deref (id, n) s1) as [b|] eqn:Hd; [|by apply holds_ret].
  io_step. apply holds_ret. apply holds_ret. split; [done|]. cbn [focus safe].
  rewrite (assign_same _ _ _ Hd), !app_nil_r. split; [done|]. exists b. split; [done|].
  destruct Hm as (_ & (b' & Hb' & Hid) & Hv & _). apply deref_lookup in Hd. cbn [fst] in Hd.
  rewrite Hd in Hb'. simplify_eq. specialize (Hv (containerId b')). rewrite decide_True in Hv by done.
  unfold window_view in Hv. rewrite Hd in Hv. by subst v.
Qed.

(** Writing the window of [id]. *)
Lemma safe_modify (g : ContainerBuffer → ContainerBuffer) V id n v v' ws sh tr :
  (∀ b, windowStartTsNs b = v.1 → currentShortWindow b = v.2 →
    windowStartTsNs (g b) = v'.1 ∧ currentShortWindow (g b) = v'.2 ∧ containerId (g b) = containerId b) →
  midway V id v ws sh tr → main_safe (on (id, n) (modify g)) (λ _, midway V id v' ws) sh tr.
Proof.
  intros Hg Hm. apply safe_act. intros s1 t1 H1. eapply midway_keeps in Hm; [|exact H1].
  destruct (deref (id, n) s1) as [b|] eqn:Hd; [|by apply holds_ret].
  io_step. apply holds_ret. apply holds_ret. split; [done|]. cbn [focus safe]. rewrite !app_nil_r.
  destruct Hm as (Hc & (b' & Hb' & Hid) & Hv & He). pose proof (deref_lookup _ _ _ Hd) as Hl.
  cbn [fst] in Hl. rewrite Hl in Hb'. simplify_eq.
  pose proof (Hv (containerId b')) as Hvb. rewrite decide_True in Hvb by done.
  unfold window_view in Hvb. rewrite Hl in Hvb. subst v.
  destruct (Hg b' eq_refl eq_refl) as (G1 & G2 & G3). split_and!; [by rewrite config_assign| | |done].
  - apply named_assign; [done|]. by exists b'.
  - intros c. rewrite view_assign. cbn [fst]. destruct v' as [st' w']. cbn [fst snd] in *. subst.
    case_decide; [done|]. by rewrite Hv, decide_False.
Qed.

(** Posting a window. *)
Lemma safe_post V id n v ws w sh tr :
  midway V id v ws sh tr →
  main_safe (on (id, n) (request (postJsonWithRetry (windows_url cfg) (window_payload cfg w) 3 5)))
    (λ _, midway V id v (ws ++ [w])) sh tr.
Proof using Hurl.
  intros Hm. apply safe_act. intros s1 t1 H1. eapply midway_keeps in Hm; [|exact H1].
  destruct (deref (id, n) s1) as [b|] eqn:Hd; [|by apply holds_ret].
  io_step. io_step. eapply holds_mono; [by apply postJsonWithRetry_posts|]. intros ok e He.
  apply holds_ret. apply holds_ret. split; [done|]. cbn [focus safe].
  rewrite (assign_same _ _ _ Hd), !app_nil_r. destruct Hm as (Hc & Hn & Hv & ns & Hns).
  split_and!; [done..|]. exists (ns ++ []). apply effects_app; [done|]. by apply effects_window.
Qed.

(** What an assignment to the window leaves. *)
Ltac window_write :=
  intros b0 Hs0 Hw0; destruct b0 as [i0 ws0 le0 w0 a0 s0 e0 l0 st0 p0 n0 d0];
  unfold set_start, set_events in *;
  cbn [set_window set_last windowStartTsNs currentShortWindow containerId fst snd] in *;
  split_and!; congruence.

(** *** One event of a container *)

Definition start_of (l : list SyscallEvent) : Z := match l with [] => 0 | e :: _ => tsNs e end.

Lemma queue_safe evt V id n st w ws sh tr :
  st = start_of w → midway V id (st, w) ws sh tr →
  main_safe (on (id, n) (queue_thread evt))
    (λ _, midway V id (start_of (w ++ [evt]), w ++ [evt]) ws) sh tr.
Proof.
  intros Hst Hm. unfold queue_thread, on. apply safe_focus_bind.
  eapply safe_mono; [by apply safe_observe|]. intros none s1 tr1 [Hm1 (b & -> & _ & _ & Hw)].
  cbn [snd] in Hw. rewrite Hw. apply safe_focus_bind.
  apply (safe_mono _ _ _ _ (λ _, midway V id (start_of (w ++ [evt]), w) ws)).
  { destruct w as [|e w].
    - eapply safe_modify; [|exact Hm1]. cbn [fst snd app start_of]. by window_write.
    - cbn [app start_of focus safe]. by rewrite Hst in Hm1. }
  intros [] s2 tr2 Hm2. apply safe_focus_bind. eapply safe_mono;
    [eapply (safe_modify _ _ _ _ _ (start_of (w ++ [evt]), w)); [|exact Hm2]; by window_write|].
  intros [] s3 tr3 Hm3. eapply safe_modify; [|exact Hm3]. by window_write.
Qed.

(** The window after the event: posted when due. *)
Lemma flush_safe evt V id n w ws sh tr :
  midway V id (start_of w, w) ws sh tr →
  let due := (seconds_ns (shortWindowSec cfg) <=? u64 (tsNs evt - start_of w))
    && (minEventsPerWindow cfg <=? s32 (Z.of_nat (length w))) && bool_decide (w ≠ []) in
  main_safe (on (id, n) (flush_thread cfg evt)) (λ _,
    midway V id (if due then (0, []) else (start_of w, w))
      (if due then ws ++ [MkWindow id (start_of w) w] else ws)) sh tr.
Proof using Hurl.
  intros Hm due. unfold flush_thread, on. apply safe_focus_bind.
  eapply safe_mono; [by apply safe_observe|]. intros dur s1 tr1 [Hm1 (b & -> & _ & Hb & _)].
  cbn [fst] in Hb. rewrite Hb. apply safe_focus_bind.
  eapply safe_mono; [by apply safe_observe|]. intros x s2 tr2 [Hm2 (b2 & -> & _ & _ & Hb2)].
  cbn [snd] in Hb2. rewrite Hb2. subst due. destruct (_ && _); cbn [andb]; [|done].
  unfold processShortWindow_thread. apply safe_focus_bind.
  eapply safe_mono; [by apply safe_observe|]. intros none s3 tr3 [Hm3 (b3 & -> & _ & _ & Hb3)].
  cbn [snd] in Hb3. rewrite Hb3. destruct w as [|e w]; [done|]. rewrite bool_decide_true by done.
  apply safe_focus_bind. eapply safe_mono; [by apply safe_observe|].
  intros win s4 tr4 [Hm4 (b4 & -> & Hi4 & Hs4 & Hb4)]. cbn [fst snd] in *.
  replace (window_of b4) with (MkWindow id (start_of (e :: w)) (e :: w))
    by (unfold window_of; congruence).
  apply safe_focus_bind. eapply safe_mono; [by apply safe_post|]. intros ok s5 tr5 Hm5.
  apply safe_focus_bind. eapply safe_mono;
    [eapply (safe_modify _ _ _ _ _ (start_of (e :: w), [])); [|exact Hm5]; by window_write|].
  intros [] s6 tr6 Hm6. eapply safe_modify; [|exact Hm6]. by window_write.
Qed.

(** *** Between two events *)

(** The events are balanced: what was posted and what waits is what waited at first, [p0], and
    what came since, [new]. *)
Definition balanced (p0 new : string → list SyscallEvent) (sh : Shared) (tr : list event) : Prop :=
  config_ (sh_agent sh) = cfg
  ∧ (∀ c, (window_view sh c).1 = start_of (window_view sh c).2)
  ∧ ∃ ws ns, effects cfg tr ws ns ∧ Forall (window_ok cfg) ws
      ∧ ∀ c, flushed c ws ++ (window_view sh c).2 = p0 c ++ new c.

Lemma balanced_same p0 new sh sh' tr e :
  config_ (sh_agent sh') = config_ (sh_agent sh) →
  (∀ c, window_view sh' c = window_view sh c) → (∃ ns, effects cfg e [] ns) →
  balanced p0 new sh tr → balanced p0 new sh' (tr ++ e).
Proof.
  intros C V [ns' E] (Hc & Hs & ws & ns & He & Hw & Hb). split_and!; [congruence|intros c; by rewrite V|].
  exists ws, (ns ++ ns'). split_and!; [|done|intros c; by rewrite V].
  rewrite <-(app_nil_r ws). by apply effects_app.
Qed.

Lemma balanced_keeps p0 new sh sh' tr e :
  keeps cfg sh sh' e → balanced p0 new sh tr → balanced p0 new sh' (tr ++ e).
Proof. intros (C & V & _ & E). by apply balanced_same. Qed.

Lemma quiet_balanced {A} (t : thread W Shared A) p0 new sh tr :
  always (keeps cfg) anything t → balanced p0 new sh tr →
  main_safe t (λ _, balanced p0 new) sh tr.
Proof. apply quiet_safe. intros. by eapply balanced_keeps. Qed.

(** *** Clean-up *)

Lemma iterator_ref_safe epoch id (I : Shared → list event → Prop) sh tr :
  (∀ s s' tr e, keeps cfg s s' e → I s tr → I s' (tr ++ e)) → I sh tr →
  main_safe (iterator_ref epoch id) (λ r sh tr, r.1 = id ∧ I sh tr) sh tr.
Proof.
  intros HI Hs. apply safe_act. intros s1 t1 H1. case_decide; apply holds_ret; [|done].
  split; [done|]. split; [done|]. rewrite app_nil_r. by eapply HI.
Qed.

Lemma no_window_safe p0 new r sh tr :
  balanced p0 new sh tr →
  main_safe (on r (observe (λ b, match currentShortWindow b with [] => true | _ => false end)))
    (λ x sh tr, balanced p0 new sh tr ∧ (x = true → (window_view sh r.1).2 = [])) sh tr.
Proof.
  intros Hs. apply safe_act. intros s1 t1 H1. eapply balanced_keeps in Hs; [|exact H1].
  destruct (deref r s1) as [b|] eqn:Hd; [|by apply holds_ret].
  io_step. apply holds_ret. apply holds_ret. split; [done|]. cbn [focus safe].
  rewrite (assign_same _ _ _ Hd), !app_nil_r. split; [done|].
  apply deref_lookup in Hd. unfold window_view. rewrite Hd. cbn [snd].
  by destruct (currentShortWindow b).
Qed.

Lemma cleanup_one_safe now epoch id p0 new sh tr :
  balanced p0 new sh tr →
  main_safe (cleanup_one now epoch id) (λ _, balanced p0 new) sh tr.
Proof.
  intros Hs. unfold cleanup_one. apply safe_bind. eapply safe_mono.
  { apply (iterator_ref_safe _ _ (balanced p0 new)); [|done]. intros. by eapply balanced_keeps. }
  intros r s1 tr1 [Hr H1].
  assert (Hobs : ∀ (f : ContainerBuffer → bool), always (W:=W) (keeps cfg) anything (on r (observe f)))
    by (intros; apply on_calm, calm_observe).
  apply safe_bind. eapply safe_mono; [apply quiet_balanced; [apply Hobs|exact H1]|].
  intros inactive s1' tr1' H1'.
  apply safe_bind. eapply safe_mono; [apply quiet_balanced; [apply Hobs|exact H1']|].
  intros nodump s1'' tr1'' H1''.
  apply safe_bind. eapply safe_mono; [apply no_window_safe; exact H1''|]. intros x s2 tr2 [H2 Hx].
  destruct (_ && x) eqn:Hdue; [|by apply quiet_balanced; [apply with_iterator_keeps|]].
  apply andb_true_iff in Hdue as [_ ->]. specialize (Hx eq_refl). rewrite Hr in Hx.
  apply safe_act. intros s3 t3 H3. case_decide; apply holds_ret; [|done]. split; [done|]. cbn [safe].
  rewrite app_nil_r. rewrite <-(app_nil_r (tr2 ++ t3)).
  apply (balanced_same _ _ s3); [apply config_set_buffers| |exists []; by apply effects_silent|
    by eapply balanced_keeps].
  intros c. unfold window_view at 1. cbn [sh_agent]. rewrite buffers_set_buffers.
  destruct (decide (c = id)) as [->|Hne]; [rewrite lookup_delete_eq|by rewrite lookup_delete_ne].
  destruct H3 as (_ & V3 & _). rewrite V3. destruct H2 as (_ & Hst & _). specialize (Hst id).
  rewrite Hx in Hst. destruct (window_view s2 id). cbn in *. congruence.
Qed.

Lemma cleanup_safe erase_order now p0 new sh tr :
  balanced p0 new sh tr →
  main_safe (cleanupInactiveBuffers_thread erase_order now) (λ _, balanced p0 new) sh tr.
Proof.
  intros Hs. unfold cleanupInactiveBuffers_thread.
  apply safe_bind. eapply safe_mono; [apply quiet_balanced; [apply observe_keeps|exact Hs]|].
  intros early s1 tr1 H1. destruct early; [done|].
  apply safe_bind. eapply safe_mono; [apply quiet_balanced; [|exact H1]|].
  { apply (keeps_pure cfg (λ sh, inr (tt, with_agent (set_cleanup now (sh_agent sh)) sh))).
    intros [[] e i]. by split_and!. }
  intros [] s2 tr2 H2.
  apply safe_bind. eapply safe_mono; [apply quiet_balanced; [apply observe_keeps|exact H2]|].
  intros [order epoch] s3 tr3 H3. apply (safe_each _ _ _ _ _ (balanced p0 new)); [|done].
  intros id s4 tr4 _ H4. by apply cleanup_one_safe.
Qed.

(** *** A whole event *)

Lemma flushed_skip c ws st l id :
  flushed c (ws ++ [MkWindow id st l]) = flushed c ws ++ (if decide (c = id) then l else []).
Proof.
  rewrite flushed_app, flushed_one. cbn [w_id w_events].
  destruct (decide (c = id)), (decide (id = c)); congruence.
Qed.

(** Starting an event: its container has a buffer. *)
Lemma named_ref_safe p0 new id sh tr :
  balanced p0 new sh tr →
  main_safe (named_ref id) (λ r sh tr, ∃ n V ws, r = (id, n)
    ∧ midway V id (V id) ws sh tr ∧ (∀ c, (V c).1 = start_of (V c).2)
    ∧ Forall (window_ok cfg) ws ∧ ∀ c, flushed c ws ++ (V c).2 = p0 c ++ new c) sh tr.
Proof.
  intros Hs. apply safe_act. intros s1 t1 H1. eapply balanced_keeps in Hs; [|exact H1].
  set (r := (id, erased_count id s1)).
  eapply holds_mono; [apply (holds_and _ (λ x _, ∃ sh', x = inr (r, sh')))|].
  { apply holds_ret. eauto. }
  { apply (buffer_ref_keeps cfg id). }
  intros x e [[s2 ->] [Hk _]]. split; [done|]. eapply balanced_keeps in Hs; [|exact Hk].
  apply safe_act. intros s3 t3 H3. eapply balanced_keeps in Hs; [|exact H3].
  destruct (deref r s3) as [b|] eqn:Hd; [|by apply holds_ret].
  io_step. apply holds_ret. apply holds_ret. split; [done|]. cbn [focus safe thread_then].
  rewrite !app_nil_r. destruct Hs as (Hc & Hst & ws & ns & He & Hw & Hb).
  exists (erased_count id s1), (window_view s3), ws. split_and!; [done| |done..].
  pose proof (deref_lookup _ _ _ Hd) as Hl. cbn [fst r] in Hl.
  split_and!; [by rewrite config_assign| | |by exists ns].
  - exists (set_id id b). split; [|by destruct b]. unfold assign. destruct s3 as [a3 e3 i3].
    cbn [sh_agent with_agent]. by rewrite buffers_set_buffers, lookup_insert_eq.
  - intros c. rewrite view_assign. cbn [fst r]. case_decide; [subst|done].
    unfold window_view. rewrite Hl. by destruct b.
Qed.

Section event.
Context (regex_search : string → string → option bool) (erase_order : list string → list string).

(** The name the mapper gives, and the filter. *)
Lemma mapContainerId_safe p0 new cg p sh tr :
  balanced p0 new sh tr →
  main_safe (mapContainerId_thread cg p) (λ id sh tr, id ≠ "" ∧ balanced p0 new sh tr) sh tr.
Proof.
  intros Hs. apply safe_act. intros s1 t1 H1. eapply balanced_keeps in Hs; [|exact H1].
  io_step. eapply holds_mono; [apply mapContainerId_holds|].
  intros [id a] e (He & Hid & d & m & Ha). cbn [fst snd] in *. apply holds_ret. split; [done|].
  cbn [safe]. split; [done|]. rewrite app_nil_r. subst a.
  eapply balanced_keeps; [|exact Hs]. apply with_agent_keeps;
    [apply config_set_mappers|apply buffers_set_mappers|].
  eapply Forall_impl; [exact He|]. intros [A c x]. destruct c; try done.
Qed.

(** The events after a sample: its container's grow by it when the filter lets it through. *)
Definition event_balanced (p0 new : string → list SyscallEvent) (evt : KernelSyscallEvent)
    (sh : Shared) (tr : list event) : Prop :=
  ∃ id, id ≠ "" ∧ balanced p0 (λ c, new c ++ arrival regex_search cfg id evt c) sh tr.

Lemma event_balanced_keeps p0 new evt s s' tr e :
  keeps cfg s s' e → event_balanced p0 new evt s tr → event_balanced p0 new evt s' (tr ++ e).
Proof. intros Hk (id & Hid & Hb). exists id. split; [done|]. by eapply balanced_keeps. Qed.

Lemma flushed_balanced p0 new V id evt ws sh tr :
  passes_filter regex_search cfg id = true →
  (∀ c, (V c).1 = start_of (V c).2) → Forall (window_ok cfg) ws →
  (∀ c, flushed c ws ++ (V c).2 = p0 c ++ new c) →
  let w := (V id).2 ++ [mapped_event evt] in
  let due := (seconds_ns (shortWindowSec cfg) <=? u64 (tsNs (mapped_event evt) - start_of w))
    && (minEventsPerWindow cfg <=? s32 (Z.of_nat (length w))) && bool_decide (w ≠ []) in
  midway V id (if due then (0, []) else (start_of w, w))
    (if due then ws ++ [MkWindow id (start_of w) w] else ws) sh tr →
  balanced p0 (λ c, new c ++ arrival regex_search cfg id evt c) sh tr.
Proof.
  intros Hf HV Hws Hb w due (Hc & Hn & Hv & ns & He).
  assert (Harr : ∀ c, arrival regex_search cfg id evt c
    = if decide (c = id) then [mapped_event evt] else []) by (intros c; unfold arrival; by rewrite Hf).
  split_and!; [done| |].
  - intros c. rewrite Hv. case_decide; [|apply HV]. by destruct due.
  - exists (if due then ws ++ [MkWindow id (start_of w) w] else ws), ns. split_and!; [done| |].
    + destruct due eqn:Hdue; [|done]. apply Forall_app_2; [done|]. apply Forall_singleton.
      subst due. bool_to_prop. subst w. unfold window_ok. cbn [w_events w_start].
      destruct (V id).2 as [|e0 rest]; cbn [app start_of] in *.
      * exists (mapped_event evt), []. by split_and!.
      * exists e0, (rest ++ [mapped_event evt]). split_and!; [done..|]. by rewrite last_last.
    + intros c. rewrite Hv, Harr. specialize (Hb c). destruct (decide (c = id)) as [->|Hne].
      * destruct due; cbn [snd]; [rewrite flushed_skip, decide_True by done; rewrite app_nil_r|];
          subst w; by rewrite !app_assoc, Hb, <-!app_assoc.
      * rewrite app_nil_r. destruct due; [|done]. by rewrite flushed_skip, decide_False, app_nil_r.
Qed.

Lemma handleEvent_safe p0 new evt sh tr :
  balanced p0 new sh tr →
  main_safe (handleEvent_thread regex_search erase_order evt)
    (λ _, event_balanced p0 new evt) sh tr.
Proof using Hurl.
  intros Hs. unfold handleEvent_thread. cbv zeta. apply safe_act. intros s0 t0 H0.
  eapply balanced_keeps in Hs; [|exact H0]. apply holds_ret. split; [done|]. rewrite app_nil_r.
  cbn [thread_then]. rewrite (proj1 Hs).
  apply safe_bind. eapply safe_mono; [apply mapContainerId_safe; exact Hs|].
  intros id s1 tr1 [Hid H1]. destruct (passes_filter regex_search cfg id) eqn:Hf; cbn [negb].
  2: { cbn [safe]. exists id. split; [done|]. destruct H1 as (? & ? & ws & ns & ? & ? & Hb).
    split_and!; [done..|]. exists ws, ns. split_and!; [done..|]. intros c. rewrite Hb.
    unfold arrival. rewrite Hf. by case_decide; rewrite app_nil_r. }
  apply safe_bind. eapply safe_mono; [apply named_ref_safe; exact H1|].
  intros r s2 tr2 (n & V & ws & -> & H2 & HV & Hws & Hb).
  apply safe_bind. eapply safe_mono; [apply (queue_safe (mapped_event evt) V id n (V id).1 (V id).2 ws);
    [apply HV|by destruct (V id)]|].
  intros [] s3 tr3 H3.
  apply safe_bind. eapply safe_mono.
  { apply (quiet_safe _ (midway V id (start_of ((V id).2 ++ [mapped_event evt]),
      (V id).2 ++ [mapped_event evt]) ws)); [|apply on_calm; by apply appendLongDump_calm|exact H3].
    intros. by eapply midway_keeps. }
  intros [] s4 tr4 H4.
  apply safe_bind. eapply safe_mono; [apply (flush_safe (mapped_event evt)); exact H4|].
  intros [] s5 tr5 H5. cbv zeta in H5. apply flushed_balanced with (p0 := p0) (new := new) in H5; [|done..].
  apply safe_bind. eapply safe_mono;
    [apply quiet_balanced; [by apply stopExpiredLongDumps_keeps|exact H5]|].
  intros [] s6 tr6 H6. apply safe_bind. eapply safe_mono; [apply cleanup_safe; exact H6|].
  intros [] s7 tr7 H7. by exists id.
Qed.

Lemma sample_safe p0 new data sh tr :
  balanced p0 new sh tr →
  main_safe (thread_of regex_search erase_order (Sample data)) (λ _ sh tr, ∃ log,
    attributed regex_search cfg [Sample data] log
    ∧ balanced p0 (λ c, new c ++ events_of c log) sh tr) sh tr.
Proof using Hurl.
  intros Hs. cbn [thread_of]. apply safe_bind. unfold handleEventThunk_thread.
  destruct (Nat.ltb _ _) eqn:Hlen.
  - exists []. apply Nat.ltb_lt in Hlen. split; [by apply attributed_short; [|constructor]|].
    destruct Hs as (? & ? & ws & ns & ? & ? & Hb). split_and!; [done..|]. exists ws, ns.
    split_and!; [done..|]. intros c. by rewrite Hb, app_nil_r.
  - apply Nat.ltb_ge in Hlen. eapply safe_mono; [apply handleEvent_safe; exact Hs|].
    intros z s1 tr1 (id & Hid & H1). cbn [safe].
    exists (if passes_filter regex_search cfg id
            then [(id, mapped_event (KernelSyscallEvent_of_bytes data))] else []).
    split.
    + destruct (passes_filter regex_search cfg id) eqn:Hf;
        [by apply attributed_keep; [..|constructor]|by eapply attributed_drop; [..|constructor]].
    + destruct H1 as (? & ? & ws & ns & ? & ? & Hb). split_and!; [done..|]. exists ws, ns.
      split_and!; [done..|]. intros c. by rewrite Hb, arrival_log.
Qed.

Lemma main_thread_safe p0 new samples sh tr :
  balanced p0 new sh tr →
  main_safe (main_thread regex_search erase_order samples) (λ _ sh tr, ∃ log,
    attributed regex_search cfg (map Sample samples) log
    ∧ balanced p0 (λ c, new c ++ events_of c log) sh tr) sh tr.
Proof using Hurl.
  unfold main_thread. revert new sh tr. induction samples as [|data samples IH]; intros new sh tr Hs.
  - exists []. split; [constructor|]. destruct Hs as (? & ? & ws & ns & ? & ? & Hb).
    split_and!; [done..|]. exists ws, ns. split_and!; [done..|]. intros c. by rewrite Hb, app_nil_r.
  - cbn [map each]. apply safe_bind. eapply safe_mono; [apply sample_safe; exact Hs|].
    intros _ s1 tr1 (log1 & A1 & H1). eapply safe_mono; [apply IH; exact H1|].
    intros _ s2 tr2 (log2 & A2 & H2). exists (log1 ++ log2). split; [by apply attributed_app|].
    destruct H2 as (? & ? & ws & ns & ? & ? & Hb). split_and!; [done..|]. exists ws, ns.
    split_and!; [done..|]. intros c. by rewrite Hb, events_of_app, <-!app_assoc.
Qed.
End event.
End windows.

(** A command of the HTTP server. *)
Definition is_command (i : input) : Prop := match i with Sample _ => False | _ => True end.

Lemma pending_view sh c : pending (sh_agent sh) c = (window_view sh c).2.
Proof. unfold pending, window_view. by destruct (_ !! c). Qed.

Lemma balanced_start sh :
  agent_ok (sh_agent sh) →
  balanced (config_ (sh_agent sh)) (pending (sh_agent sh)) (λ _, []) sh [].
Proof.
  intros [_ Hok]. split_and!; [done| |].
  - intros c. unfold window_view. destruct (_ !! c) as [b|] eqn:Hb; [|done].
    by destruct (Hok _ _ Hb).
  - exists [], []. split_and!; [by apply effects_silent|constructor|].
    intros c. by rewrite app_nil_r, pending_view.
Qed.


Lemma interleaved_holds {W} `{OS W} regex_search erase_order sched samples commands sh :
  agent_ok (sh_agent sh) → Forall is_command commands →
  holds (W:=W) (agent_threads regex_search erase_order sched samples commands sh) (λ r tr,
    match r with
    | inl _ => True
    | inr (_, _, sh') => ∃ log ws ns,
        attributed regex_search (config_ (sh_agent sh)) (map Sample samples) log
        ∧ effects (config_ (sh_agent sh)) tr ws ns
        ∧ Forall (window_ok (config_ (sh_agent sh))) ws
        ∧ ∀ c, flushed c ws ++ pending (sh_agent sh') c
            = pending (sh_agent sh) c ++ events_of c log
    end).
Proof.
  intros Hok Hcmd. set (cfg := config_ (sh_agent sh)).
  eapply holds_mono.
  { eapply (par_safe (keeps cfg) (λ _ _ _, True) (λ _ _ _, True) (keeps cfg) anything _ _ _
      (λ _ sh' tr, ∃ log, attributed regex_search cfg (map Sample samples) log
        ∧ balanced cfg (pending (sh_agent sh)) (λ c, [] ++ events_of c log) sh' tr)
      (λ _ _ _, True) sh []).
    - done.
    - done.
    - intros _ s s' tr e Hk (log & Ha & Hb). exists log. split; [done|]. by eapply balanced_keeps.
    - done.
    - apply main_thread_safe; [apply Hok|]. by apply balanced_start.
    - apply (always_safe _ _ _ _ (λ _ _, True)); [done..| |done].
      unfold server_thread. revert Hcmd. clear. intros Hcmd.
      induction Hcmd as [|i l Hi _ IH]; [done|]. cbn [each]. apply always_bind; [|done].
      apply command_keeps. by intros data ->. }
  intros [st|[[[] []] sh']] tr; [done|].
  intros [(log & Ha & _ & _ & ws & ns & He & Hw & Hb) _].
  exists log, ws, ns. split_and!; [done..|]. intros c. rewrite pending_view. apply Hb.
  Unshelve. by split.
Qed.

(** ** Live references

    What keeps a reference usable: no erasure; and an iterator: no insertion. *)

Definition kept (sh sh' : Shared) (_ : list event) : Prop :=
  sh_erased sh' = sh_erased sh
  ∧ lastBufferCleanupNs_ (sh_agent sh') = lastBufferCleanupNs_ (sh_agent sh)
  ∧ ∀ c, is_Some (buffers_ (sh_agent sh) !! c) → is_Some (buffers_ (sh_agent sh') !! c).

Definition still (sh sh' : Shared) (e : list event) : Prop :=
  kept sh sh' e ∧ sh_inserts sh' = sh_inserts sh.

#[export] Instance kept_rely : Rely kept.
Proof.
  split; [by intros s|]. intros s s1 s2 t1 t2 (E1 & C1 & K1) (E2 & C2 & K2).
  split_and!; [congruence..|auto].
Qed.
#[export] Instance still_rely : Rely still.
Proof.
  split; [intros s; split; [apply kept_rely|done]|]. intros s s1 s2 t1 t2 [K1 I1] [K2 I2].
  split; [by eapply rely_trans|congruence].
Qed.

(** No invalid reference or iterator was used. *)
Definition defined (st : stop) : Prop := st ≠ Undefined.
Definition any {S} (_ _ : S) (_ : list event) : Prop := True.

Definition live (r : Ref) (sh : Shared) : Prop := is_Some (deref r sh).

Lemma live_kept r sh sh' e : kept sh sh' e → live r sh → live r sh'.
Proof.
  intros (E & _ & K) [b Hb]. unfold live, deref, erased_count in *. rewrite E.
  case_decide; [|done]. eauto.
Qed.

Lemma live_present id sh :
  is_Some (buffers_ (sh_agent sh) !! id) → live (id, erased_count id sh) sh.
Proof. intros Hb. unfold live, deref. cbn [fst snd]. by rewrite decide_True. Qed.

Lemma assign_still r b sh e : still sh (assign r b sh) e.
Proof.
  destruct sh as [a er i]. unfold still, kept. split_and!; [done|by destruct a| |done]. intros c Hc.
  unfold assign. cbn [sh_agent with_agent] in *. rewrite buffers_set_buffers.
  destruct (decide (c = r.1)) as [->|Hne]; [rewrite lookup_insert_eq; by eexists|by rewrite lookup_insert_ne].
Qed.

Section live.
Context {W : Type} `{OS W}.

(** *** Threads over a buffer use no reference *)

Abbreviation defined_buffer := (always (W:=W) (S:=ContainerBuffer) any defined).

Lemma any_modify (g : ContainerBuffer → ContainerBuffer) : defined_buffer (modify g).
Proof. apply always_act; [|done]. intros b. by apply holds_ret. Qed.
Lemma any_observe {A} (f : ContainerBuffer → A) : defined_buffer (observe f).
Proof. apply always_act; [|done]. intros b. by apply holds_ret. Qed.
Lemma any_request {A B C} (m : IO W A) (f : ContainerBuffer → A → stop + B * ContainerBuffer)
    (k : B → thread W ContainerBuffer C) :
  Emits (λ _, True) m → (∀ b x, match f b x with inl st => defined st | _ => True end) →
  (∀ x, defined_buffer (k x)) → defined_buffer (Act (λ b, x ← m; mret (f b x)) k).
Proof.
  intros Hm Hf Hk. apply always_act; [|done]. intros b. io_step.
  apply holds_any; [done|]. intros x t. apply holds_ret. specialize (Hf b x). by destruct (f b x) as [|[]].
Qed.
Lemma any_on_stream f : (∀ st, Emits unposted (f st)) → defined_buffer (on_stream f).
Proof.
  intros Hf. apply always_act; [|done]. intros b. io_step.
  apply holds_any; [by apply (emits_mono unposted)|].
  intros st t. by apply holds_ret.
Qed.
Lemma any_if {A} (c : bool) (t1 t2 : thread W ContainerBuffer A) :
  defined_buffer t1 → defined_buffer t2 → defined_buffer (if c then t1 else t2).
Proof. by destruct c. Qed.
Lemma any_post url body :
  defined_buffer (request (postJsonWithRetry url body 3 5)).
Proof. by apply (any_request _ (λ b x, inr (x, b))); [apply postJsonWithRetry_emits|..]. Qed.

#[local] Hint Resolve any_modify any_observe any_on_stream any_post any_if : dk.
#[local] Hint Extern 1 (always _ _ (Done _)) => exact I : dk.
#[local] Hint Extern 1 (Emits _ _) => (apply _) : dk.

(** Every thread over a buffer is a sequence of the statements above. *)
Ltac definedly :=
  repeat first [apply always_bind; [auto with dk|intros ?] | solve [auto with dk] | apply any_if].

Lemma notify_defined cfg : defined_buffer (notifyDumpComplete_thread cfg).
Proof. unfold notifyDumpComplete_thread. definedly. Qed.
#[local] Hint Resolve notify_defined : dk.
Lemma append_defined cfg evt : defined_buffer (appendLongDump_thread cfg evt).
Proof. unfold appendLongDump_thread. definedly. Qed.
Lemma stopExpired_defined cfg now : defined_buffer (stopExpired_thread cfg now).
Proof. unfold stopExpired_thread. definedly. Qed.
Lemma queue_defined evt : defined_buffer (queue_thread evt).
Proof. unfold queue_thread. definedly. Qed.
Lemma flush_defined cfg evt : defined_buffer (flush_thread cfg evt).
Proof. unfold flush_thread, processShortWindow_thread. definedly. Qed.
Lemma start_defined cfg cid dur : defined_buffer (startLongDump_thread cfg cid dur).
Proof.
  unfold startLongDump_thread. cbv zeta. apply always_bind.
  { by apply (any_request _ (λ b created, if created : bool then inr (tt, b) else inl Terminated));
      [apply _|intros b []|]. }
  intros _. apply always_bind; [by apply (any_request _ (λ b x, inr (x, b))); [apply _|..]|]. intros stamp.
  apply always_bind; [auto with dk|]. intros _. apply always_bind; [auto with dk|]. intros opened.
  apply any_if; [done|]. apply always_bind.
  { apply always_act; [|done]. intros b. io_step. apply holds_any; [unfold monotonicNowNs; apply _|].
    intros x t. by apply holds_ret. }
  intros _. definedly.
Qed.

(** *** On a live reference *)

Section rules.
Context (R G : Shared → Shared → list event → Prop) `{!Rely R}.
Context (HR : ∀ s s' e, R s s' e → kept s s' e) (HRs : ∀ s s' e, still s s' e → R s s' e).
Context (HG : ∀ s s' e, still s s' e → G s s' e).

Lemma on_live {A} r (t : thread W ContainerBuffer A) sh tr :
  defined_buffer t → live r sh →
  safe R G defined (on r t) (λ _ sh' _, ∃ e, R sh sh' e) sh tr.
Proof using All.
  intros Ht Hl.
  assert (Hgen : ∀ s tr, (∃ e, R sh s e) → safe R G defined (on r t) (λ _ sh' _, ∃ e, R sh sh' e) s tr);
    [|apply Hgen; exists []; apply rely_refl].
  induction t as [a|X f k IH]; intros s tr0 [e He]; [by exists e|]. intros s1 t1 H1.
  assert (H2 : R sh s1 (e ++ t1)) by (by eapply rely_trans).
  destruct (live_kept r sh s1 _ (HR _ _ _ H2) Hl) as [b Hb]. rewrite Hb.
  io_step. eapply holds_mono; [apply Ht|]. intros [st|[x b']] e'; [intros ?; by apply holds_ret|].
  intros [_ Hk]. apply holds_ret. split; [apply HG, assign_still|].
  apply IH; [done|]. eexists. eapply rely_trans; [exact H2|apply HRs, (assign_still r b' s1 [])].
Qed.
End rules.

(** *** The server's commands, on containers that are known *)

Definition known (sh : Shared) (i : input) : Prop :=
  match i with LongDump c _ _ => is_Some (buffers_ (sh_agent sh) !! c) | _ => True end.

Lemma still_kept s s' e : still s s' e → kept s s' e.
Proof. by intros []. Qed.

Lemma known_kept sh sh' e i : kept sh sh' e → known sh i → known sh' i.
Proof. intros (_ & _ & K). destruct i; [done|apply K|done]. Qed.

Lemma named_ref_live R G `{!Rely R} id sh tr :
  (∀ s s' e, R s s' e → kept s s' e) → (∀ s s' e, still s s' e → R s s' e) →
  (∀ s s' e, still s s' e → G s s' e) →
  is_Some (buffers_ (sh_agent sh) !! id) →
  safe (W:=W) R G defined (named_ref id) (λ r sh' _, live r sh' ∧ ∃ e, R sh sh' e) sh tr.
Proof.
  intros HR HRs HG Hid. apply safe_act. intros s1 t1 H1.
  assert (Hid1 : is_Some (buffers_ (sh_agent s1) !! id)) by by apply (HR _ _ _ H1).
  apply holds_ret. destruct Hid1 as [b Hb]. rewrite Hb. split; [apply HG; split; [by split_and!|done]|].
  assert (Hl : live (id, erased_count id s1) s1) by by apply live_present.
  apply safe_bind. eapply safe_mono; [apply (on_live R G HR HRs HG); [apply any_modify|exact Hl]|].
  intros _ s2 tr2 [e2 H2]. cbn [safe]. split; [by eapply live_kept; [apply HR|]|].
  exists (t1 ++ e2). by eapply rely_trans.
Qed.

Lemma still_trans s s1 s2 e e' : still s s1 e → still s1 s2 e' → still s s2 (e ++ e').
Proof. apply rely_trans. Qed.

Lemma with_agent_still sh a e :
  buffers_ a = buffers_ (sh_agent sh) →
  lastBufferCleanupNs_ a = lastBufferCleanupNs_ (sh_agent sh) → still sh (with_agent a sh) e.
Proof.
  intros Hb Hc. destruct sh as [a0 er i]. unfold still, kept. cbn [with_agent sh_agent] in *.
  rewrite Hb, Hc. by split_and!.
Qed.

Context (regex_search : string → string → option bool) (erase_order : list string → list string).

Lemma command_defined i sh tr :
  is_command i → known sh i →
  safe (W:=W) kept still defined (thread_of regex_search erase_order i)
    (λ _ sh' _, ∃ e, kept sh sh' e) sh tr.
Proof.
  intros Hi Hk. destruct i as [data|c d reason|c p ty s]; [done| |]; cbn [thread_of].
  - apply safe_act. intros s1 t1 H1. apply holds_ret. split; [apply still_rely|]. cbn [thread_then].
    apply safe_bind. eapply safe_mono.
    { apply named_ref_live; [apply _|done|apply still_kept|done|]. by apply H1. }
    intros r s2 tr2 [Hr [e2 H2]]. eapply safe_mono.
    { apply (on_live kept still); [done|apply still_kept|done|apply start_defined|exact Hr]. }
    intros _ s3 tr3 [e3 H3]. eexists. eapply rely_trans; [exact H1|]. by eapply rely_trans.
  - apply safe_act. intros s1 t1 H1. io_step.
    apply (holds_mono _ (λ r _, buffers_ r.2 = buffers_ (sh_agent s1)
      ∧ lastBufferCleanupNs_ r.2 = lastBufferCleanupNs_ (sh_agent s1))).
    { unfold handlePolicy. destruct (policyEnforcer_ (sh_agent s1)) as [en|]; [|by io_step].
      io_step. apply holds_any; [by apply (emits_mono unposted); [|apply _]|].
      intros [ok en'] t. io_step. by destruct (sh_agent s1). }
    intros [ok a] e [Hb Hc]. apply holds_ret.
    pose proof (with_agent_still s1 a e Hb Hc) as Hs. split; [by destruct Hs|].
    cbn [thread_then safe]. exists (t1 ++ e). eapply rely_trans; [exact H1|apply Hs].
Qed.

Lemma commands_defined l sh tr :
  Forall is_command l → Forall (known sh) l →
  safe (W:=W) kept still defined (server_thread regex_search erase_order l) (λ _ _ _, True) sh tr.
Proof.
  unfold server_thread. revert sh tr. induction l as [|i l IH]; intros sh tr Hl Hk; [done|].
  apply Forall_cons in Hl as [Hi Hl]. apply Forall_cons in Hk as [Hki Hk]. cbn [each].
  apply safe_bind. eapply safe_mono; [by apply command_defined|].
  intros _ s1 tr1 [e H1]. apply IH; [done|]. eapply Forall_impl; [exact Hk|].
  intros x. by eapply known_kept.
Qed.

(** *** The main thread, when no clean-up comes due *)

(** The state is as [sh] was, with perhaps more buffers. *)
Definition since (sh sh' : Shared) (_ : list event) : Prop := ∃ e, kept sh sh' e.

Lemma since_still sh s s' tr e : still s s' e → since sh s tr → since sh s' (tr ++ e).
Proof. intros [Hk _] [e0 H0]. eexists. by eapply rely_trans. Qed.

Abbreviation main_defined := (safe (W:=W) still kept defined).

Lemma walk_defined cfg now epoch ids sh0 sh tr :
  since sh0 sh tr → sh_inserts sh = epoch →
  (∀ id, id ∈ ids → is_Some (buffers_ (sh_agent sh) !! id)) →
  main_defined (each (λ id,
    r ← iterator_ref epoch id;
    _ ← on r (stopExpired_thread cfg now);
    advance epoch) ids) (λ _, since sh0) sh tr.
Proof.
  intros H0 Hi Hids. eapply safe_mono.
  - apply (safe_each _ _ _ _ _ (λ s t, since sh0 s t ∧ sh_inserts s = epoch
      ∧ ∀ id, id ∈ ids → is_Some (buffers_ (sh_agent s) !! id))); [|by split_and!].
    intros id s1 tr1 Hid (S1 & I1 & K1). apply safe_act. intros s2 t2 H2.
    assert (I2 : sh_inserts s2 = epoch) by (destruct H2 as [_ ->]; exact I1).
    rewrite decide_True by done. apply holds_ret. split; [apply kept_rely|].
    cbn [thread_then]. apply safe_bind. eapply safe_mono.
    { apply (on_live still kept); [apply still_kept|done|apply still_kept|apply stopExpired_defined|].
      apply live_present. apply H2. by apply K1. }
    intros _ s3 tr3 [e3 H3]. apply safe_act. intros s4 t4 H4.
    assert (H14 : still s1 s4 (t2 ++ (e3 ++ t4))) by (eapply rely_trans; [exact H2|by eapply rely_trans]).
    rewrite decide_True by (destruct H14 as [_ ->]; exact I1).
    apply holds_ret. split; [apply kept_rely|]. cbn [safe]. split_and!.
    + destruct S1 as [e0 S1]. eexists. eapply rely_trans; [exact S1|apply H14].
    + destruct H14 as [_ ->]. exact I1.
    + intros id' Hid'. apply H14. by apply K1.
  - intros _ s t (Hs & _). exact Hs.
Qed.

Lemma stopExpiredLongDumps_defined cfg now sh0 sh tr :
  since sh0 sh tr → main_defined (stopExpiredLongDumps_thread cfg now) (λ _, since sh0) sh tr.
Proof.
  intros H0. unfold stopExpiredLongDumps_thread. apply safe_act. intros s1 t1 H1. io_step.
  apply (holds_mono _ (λ order _, order ≡ₚ (map_to_list (buffers_ (sh_agent s1))).*1)).
  { unfold hash_order. io_step. io_step. apply holds_ret. by case_decide. }
  intros order e Ho. apply holds_ret. split; [apply kept_rely|]. cbn [thread_then].
  apply walk_defined; [|done|].
  - destruct H0 as [e0 H0]. eexists. eapply rely_trans; [exact H0|apply H1].
  - intros id Hid. rewrite Ho in Hid. apply list_elem_of_fmap in Hid as ([id' b] & -> & Hb).
    apply elem_of_map_to_list in Hb. by exists b.
Qed.

(** No clean-up is due at the time of a sample. *)
Definition no_cleanup (last : Z) (data : list Z) : Prop :=
  u64 (ts_ns (KernelSyscallEvent_of_bytes data) - last) < kCleanupIntervalNs.

Lemma main_named_ref id sh0 sh tr :
  since sh0 sh tr →
  main_defined (named_ref id) (λ r sh' tr', live r sh' ∧ since sh0 sh' tr') sh tr.
Proof.
  intros H0. apply safe_act. intros s1 t1 H1. pose proof (since_still _ _ _ _ _ H1 H0) as S1.
  apply holds_ret. set (s2 := match buffers_ _ !! id with Some _ => s1 | None => _ end).
  assert (H2 : kept s1 s2 [] ∧ live (id, erased_count id s1) s2).
  { subst s2. destruct (buffers_ (sh_agent s1) !! id) as [b|] eqn:Hb.
    - split; [apply kept_rely|apply live_present; by exists b].
    - split; [split_and!; cbn [sh_erased sh_agent]; [done|by destruct (sh_agent s1)|]|].
      + intros c Hc. rewrite buffers_set_buffers. destruct (decide (c = id)) as [->|Hne];
          [rewrite lookup_insert_eq; by eexists|by rewrite lookup_insert_ne].
      + exists new_buffer. unfold deref, erased_count. cbn [fst snd sh_erased sh_agent].
        rewrite decide_True, buffers_set_buffers by done. by rewrite lookup_insert_eq. }
  clearbody s2. destruct H2 as [K2 L2]. split; [exact K2|]. cbn [thread_then].
  apply safe_bind. eapply safe_mono.
  { apply (on_live still kept); [apply still_kept|done|apply still_kept|apply any_modify|exact L2]. }
  intros _ s3 tr3 [e3 H3]. cbn [safe]. split; [by eapply live_kept; [apply H3|]|].
  destruct S1 as [e0 S1]. eexists. eapply rely_trans; [exact S1|]. eapply rely_trans; [exact K2|apply H3].
Qed.

(** A statement of the main thread on its own reference. *)
Lemma main_on {A} r (t : thread W ContainerBuffer A) sh0 sh tr :
  defined_buffer t → live r sh → since sh0 sh tr →
  main_defined (on r t) (λ _ sh' tr', live r sh' ∧ since sh0 sh' tr') sh tr.
Proof.
  intros Ht Hl [e0 H0]. eapply safe_mono.
  { apply (on_live still kept); [apply still_kept|done|apply still_kept|exact Ht|exact Hl]. }
  intros _ s3 tr3 [e3 [H3 _]]. split; [by eapply live_kept|]. eexists. by eapply rely_trans.
Qed.

Lemma cleanup_defined last now sh0 sh tr :
  u64 (now - last) < kCleanupIntervalNs → lastBufferCleanupNs_ (sh_agent sh0) = last →
  since sh0 sh tr →
  main_defined (cleanupInactiveBuffers_thread erase_order now) (λ _, since sh0) sh tr.
Proof.
  intros Hn Hlast H0. unfold cleanupInactiveBuffers_thread. apply safe_act. intros s1 t1 H1.
  pose proof (since_still _ _ _ _ _ H1 H0) as S1. apply holds_ret. split; [apply kept_rely|].
  assert (Hc : lastBufferCleanupNs_ (sh_agent s1) = last).
  { destruct S1 as [e (_ & Hc & _)]. congruence. }
  rewrite Hc, (proj2 (Z.ltb_lt _ _) Hn). cbn [thread_then safe]. by rewrite app_nil_r.
Qed.

Lemma handleEvent_defined last evt sh0 sh tr :
  u64 (ts_ns evt - last) < kCleanupIntervalNs → lastBufferCleanupNs_ (sh_agent sh0) = last →
  since sh0 sh tr →
  main_defined (handleEvent_thread regex_search erase_order evt) (λ _, since sh0) sh tr.
Proof.
  intros Hn Hlast H0. unfold handleEvent_thread. cbv zeta. apply safe_act. intros s0 t0 S0.
  pose proof (since_still _ _ _ _ _ S0 H0) as H1. apply holds_ret. split; [apply kept_rely|].
  cbn [thread_then]. generalize (config_ (sh_agent s0)). intros cfg.
  apply safe_bind. apply safe_act. intros s1 t1 S1.
  pose proof (since_still _ _ _ _ _ S1 H1) as H2. io_step.
  eapply holds_mono; [apply mapContainerId_holds|]. intros [id a] e (_ & _ & d & m & Ha).
  cbn [fst snd] in Ha. apply holds_ret. pose proof (with_agent_still s1 a e) as Hs.
  rewrite Ha in Hs at 1 2. rewrite buffers_set_mappers in Hs.
  specialize (Hs eq_refl ltac:(by destruct (sh_agent s1))). split; [by destruct Hs|].
  assert (H3 : since sh0 (with_agent a s1) []) .
  { destruct H2 as [e2 H2]. eexists. eapply rely_trans; [exact H2|apply Hs]. }
  cbn [safe]. destruct (negb _); [exact H3|].
  apply safe_bind. eapply safe_mono; [by apply (main_named_ref id sh0)|]. intros r s2 tr2 [L2 H4].
  do 3 (apply safe_bind; eapply safe_mono;
    [apply (main_on r _ sh0); [first [apply queue_defined|apply append_defined|apply flush_defined]
                              |exact L2|exact H4]|];
    clear dependent s2; intros _ s2 tr2' [L2 H4]; clear dependent tr2; rename tr2' into tr2).
  apply safe_bind. eapply safe_mono; [apply stopExpiredLongDumps_defined; exact H4|].
  intros [] s5 tr5 H5. apply safe_bind. eapply safe_mono; [by apply (cleanup_defined last)|].
  intros [] s6 tr6 H6. exact H6.
Qed.

Lemma samples_defined last l sh0 sh tr :
  Forall (no_cleanup last) l → lastBufferCleanupNs_ (sh_agent sh0) = last → since sh0 sh tr →
  main_defined (main_thread regex_search erase_order l) (λ _, since sh0) sh tr.
Proof.
  intros Hl Hlast. unfold main_thread. revert sh tr. induction Hl as [|data l Hd _ IH]; intros sh tr H0;
    [done|]. cbn [map each thread_of]. apply safe_bind. apply safe_bind.
  unfold handleEventThunk_thread. case_bool; [by apply IH|].
  eapply safe_mono; [by apply (handleEvent_defined last)|]. intros z s1 tr1 H1. by apply IH.
Qed.
End live.

(** ** Properties *)

(** C7: no event is lost, duplicated or reordered under any interleaving of statements.
    Whatever the schedule of the main thread (on any samples) and the server's thread (on any
    dump requests and policies), and whatever the machine answers: if neither thread threw or
    used an invalid reference or iterator, then for each container the events of the windows
    posted for it, followed by the ones still waiting, are exactly those that were waiting
    before followed by those attributed to it, in order; each window is posted once (with at
    most two retries), starts at its first event, holds the configured number of events and
    spans the configured time. *)
Theorem interleaved_conserved {W} `{OS W} regex_search erase_order sched samples commands sh :
  agent_ok (sh_agent sh) → Forall is_command commands →
  holds (W:=W) (agent_threads regex_search erase_order sched samples commands sh) (λ r tr,
    match r with
    | inl _ => True
    | inr (_, _, sh') => ∃ log ws ns,
        attributed regex_search (config_ (sh_agent sh)) (map Sample samples) log
        ∧ effects (config_ (sh_agent sh)) tr ws ns
        ∧ Forall (window_ok (config_ (sh_agent sh))) ws
        ∧ ∀ c, flushed c ws ++ pending (sh_agent sh') c
            = pending (sh_agent sh) c ++ events_of c log
    end).
Proof. apply interleaved_holds. Qed.

(** C25: no step is undefined when the server names only containers that have a buffer and no
    clean-up comes due: then no reference dangles, because nothing is erased, and no iterator
    is invalidated, because the server inserts nothing. *)
Theorem interleaved_defined {W} `{OS W} regex_search erase_order sched samples commands sh :
  Forall is_command commands → Forall (known sh) commands →
  Forall (no_cleanup (lastBufferCleanupNs_ (sh_agent sh))) samples →
  holds (W:=W) (agent_threads regex_search erase_order sched samples commands sh) (λ r _,
    r ≠ inl Undefined).
Proof.
  intros Hcmd Hknown Hs. eapply holds_mono.
  { apply (par_safe still kept kept still defined _ _ _ (λ _ _ _, True) (λ _ _ _, True) sh []);
      [done|done|done|done| |by apply commands_defined].
    eapply safe_mono; [eapply (samples_defined _ _ _ _ sh); [exact Hs|done|]|done].
    exists []. apply kept_rely. }
  intros [st|[[a b] s]] tr Hr; [|done]. by intros [= ->].
Qed.

(** *** Schedules *)

Definition steps (main server : nat) : list bool := replicate main true ++ replicate server false.

(** Both threads in turn. *)
Fixpoint alternate (n : nat) : list bool :=
  match n with O => [] | S n => true :: false :: alternate n end.

Definition web_dump : input := LongDump "web" 10 "".

(** The buffer of a container at the end of a run, unless the process stopped. *)
Definition final_buffer (c : string) (r : stop + unit * unit * Shared) : stop + option ContainerBuffer :=
  match r with inl st => inl st | inr (_, _, sh) => inr (buffers_ (sh_agent sh) !! c) end.

Definition interleave (sched : list bool) (a : Agent) (ts : Z) : (stop + unit * unit * Shared) * list event :=
  IO.run (agent_threads subset_regex (λ l, l) sched [sample_bytes ts 1] [web_dump] (MkShared a ∅ 0)) bare.

(** The server requests a dump of a container it has not seen: the new buffer has no last event,
    so that a clean-up of the main thread between two statements of the request erases it, and
    the request goes on with a reference to a destroyed buffer. *)
Lemma request_uses_erased_buffer :
  (interleave ([false; false] ++ steps 100 100) sample_agent 400000000000).1 = inl Undefined.
Proof. vm_compute. reflexivity. Qed.

(** A request inserts a buffer while the main thread walks the table. *)
Lemma request_invalidates_iterator :
  (interleave (steps 12 2 ++ steps 100 100) sample_agent 1000).1 = inl Undefined.
Proof. vm_compute. reflexivity. Qed.

(** A dump of "web" ends; while its notice is being posted the server starts another one, whose
    path, count and duration the main thread then resets: it runs on, and will be announced
    with no path, no records and no duration. *)
Lemma new_dump_loses_path :
  match final_buffer "web" (interleave (steps 18 100) dumping_agent 4000000000).1 with
  | inr (Some b) => isLongDumpActive b = true ∧ is_open (longDumpStream b) = true
      ∧ longDumpFilePath b = "" ∧ longDumpDurationSec b = 0
  | _ => False
  end.
Proof. vm_compute. repeat split. Qed.

Definition silent_agent : Agent :=
  MkAgent sample_config None None None {["web" := set_last 1 (set_id "web" new_buffer)]} 0.

(** A dump of "web" starts just after clean-up has seen that none is running: the buffer is
    erased with its dump, which is never announced. *)
Lemma dump_erased :
  let r := interleave (steps 24 100) silent_agent 400000000000 in
  final_buffer "web" r.1 = inr None
  ∧ posted_bodies "http://localhost:9090/api/v1/agent/long-dump-complete" r.2 = []
  ∧ written "/var/lib/deepkernel/dumps/web-20250101-000000.dkdump" r.2 ≠ [].
Proof. vm_compute. repeat split. discriminate. Qed.

Lemma interleaved_conserved_witness :
  agent_ok (sh_agent sample_shared) ∧
  let l := [sample_bytes 1000 1; sample_bytes 1000002000 1] in
  holds (W:=script) (agent_threads subset_regex (λ l, l) (alternate 60) l [web_dump] sample_shared)
    (λ r tr, match r with
      | inl _ => True
      | inr (_, _, sh') => ∃ log ws ns,
          attributed subset_regex (config_ (sh_agent sample_shared)) (map Sample l) log
          ∧ effects (config_ (sh_agent sample_shared)) tr ws ns
          ∧ Forall (window_ok (config_ (sh_agent sample_shared))) ws
          ∧ ∀ c, flushed c ws ++ pending (sh_agent sh') c
              = pending (sh_agent sample_shared) c ++ events_of c log
      end)
  ∧ let r := IO.run (agent_threads subset_regex (λ l, l) (alternate 60) l [web_dump] sample_shared) bare in
    final_buffer "host-1" r.1 ≠ inl Undefined
    ∧ length (posted_bodies "http://localhost:9090/api/v1/agent/windows" r.2) = 3%nat.
Proof.
  split; [exact sample_agent_ok|]. cbv zeta. split.
  - apply (interleaved_conserved subset_regex (λ l, l) (alternate 60)
      [sample_bytes 1000 1; sample_bytes 1000002000 1] [web_dump] sample_shared sample_agent_ok).
    apply Forall_cons; split; [exact I|constructor].
  - vm_compute. split; [discriminate|reflexivity].
Defined.

Lemma interleaved_defined_witness :
  holds (W:=script) (agent_threads subset_regex (λ l, l) (alternate 60) [sample_bytes 1000 1]
      [web_dump] (MkShared dumping_agent ∅ 0)) (λ r _, r ≠ inl Undefined).
Proof.
  apply (interleaved_defined subset_regex (λ l, l) (alternate 60) [sample_bytes 1000 1] [web_dump]
    (MkShared dumping_agent ∅ 0)).
  - apply Forall_cons; split; [exact I|constructor].
  - apply Forall_cons; split; [eexists; vm_compute; reflexivity|constructor].
  - apply Forall_cons; split; [vm_compute; reflexivity|constructor].
Defined.
