(* ===== verification/ServerThreads.v ===== *)
(** * ServerThreads: stopping the HTTP server while it serves

    [AgentServer.v] models the accept loop as one action on a fixed socket, and the flag
    as an answer of the machine.  Here the loop and [AgentServer::stop] are two threads on
    the members they share, [serverFd_] (a plain int) and [running_] (atomic), statement
    by statement, under any schedule.  [stop] closes the socket the loop may be using and
    overwrites its number, so the loop reads it again at each use; the join comes when
    both have ended. *)

From S2P Require Export Threads.
From S2P Require Import AgentServer.

#[local] Open Scope Z_scope.

(** ** The threads *)

(** What the threads share: the members of the server, and what the handlers work on. *)
Record Listener (S : Type) := MkListener { listenFd : Z; keepRunning : bool; served : S }.
Arguments MkListener {S}.
Arguments listenFd {S}.
Arguments keepRunning {S}.
Arguments served {S}.

Definition set_listenFd {S} (fd : Z) (s : Listener S) : Listener S :=
  MkListener fd (keepRunning s) (served s).
Definition set_keepRunning {S} (b : bool) (s : Listener S) : Listener S :=
  MkListener (listenFd s) b (served s).
Definition set_served {S} (a : S) (s : Listener S) : Listener S :=
  MkListener (listenFd s) (keepRunning s) a.

(** [FD_SET] is defined for these. *)
Definition FD_SETSIZE : Z := 1024.
Definition in_fd_set (fd : Z) : bool := (0 <=? fd) && (fd <? FD_SETSIZE).

Inductive loop_exit := Left | OutOfTurns.

Section threads.
Context {W : Type} `{OS W} {S : Type}.
(** [handleClient]. *)
Context (serve : Z → thread W (Listener S) unit).

(** A turn of the loop once the set holds [fd]. *)
Definition serve_turn (again : thread W (Listener S) loop_exit) (fd : Z)
    : thread W (Listener S) loop_exit :=
  nfds ← observe (λ s, listenFd s + 1);
  result ← request (call (Select nfds fd 1));
  if result <? 0 then mret Left
  else if result =? 0 then again
  else
    fd ← observe listenFd;
    clientFd ← request (call (Accept fd));
    if clientFd <? 0 then again
    else
      _ ← serve clientFd;
      _ ← request (call (CloseFd clientFd));
      again.

Fixpoint serverLoop_thread (fuel : nat) : thread W (Listener S) loop_exit :=
  match fuel with
  | O => Done OutOfTurns
  | Datatypes.S fuel =>
      running ← observe keepRunning;
      if negb running then mret Left
      else
        fd ← Act (λ s, mret (if in_fd_set (listenFd s) then inr (listenFd s, s)
                             else inl Undefined)) Done;
        serve_turn (serverLoop_thread fuel) fd
  end.

(** [stop] up to the join: the flag, then the socket. *)
Definition close_listener : thread W (Listener S) unit :=
  fd ← observe listenFd;
  if 0 <=? fd then
    fd ← observe listenFd;
    _ ← request (call (Shutdown fd));
    fd ← observe listenFd;
    _ ← request (call (CloseFd fd));
    modify (set_listenFd (-1))
  else mret tt.

Definition stop_thread : thread W (Listener S) unit :=
  _ ← modify (set_keepRunning false);
  close_listener.

Lemma stop_thread_emits P :
  (∀ fd x, P (Ev (Shutdown fd) x)) → (∀ fd x, P (Ev (CloseFd fd) x)) → EmitsT P stop_thread.
Proof using Type.
  intros H1 H2. unfold stop_thread, close_listener.
  pose proof (λ fd, emits_call (W:=W) P (Shutdown fd) (H1 fd)). pose proof (λ fd, emits_call (W:=W) P (CloseFd fd) (H2 fd)).
  apply _.
Qed.

(** The whole of [stop]. *)
Definition stop_and_join (joinable : bool) : thread W (Listener S) unit :=
  _ ← stop_thread;
  if joinable then _ ← request (call ThreadJoin); mret tt else mret tt.

(** ** Alone *)

(** [stop] with no one else is the [stop] of [AgentServer.v]. *)
Lemma stop_alone srv a :
  acts_as (stop_and_join (AgentServer.joinable srv))
    (MkListener (AgentServer.serverFd_ srv) (AgentServer.running_ srv) a) (AgentServer.stop srv)
    (λ r srv', r = inr (tt, MkListener (AgentServer.serverFd_ srv') (AgentServer.running_ srv') a)).
Proof.
  destruct srv as [port fd running joinable]. unfold AgentServer.stop.
  cbn [AgentServer.serverFd_ AgentServer.joinable AgentServer.running_ AgentServer.port_].
  intros σ. destruct (0 <=? fd) eqn:Hfd, joinable;
    cbv -[Z.leb os_step Z.opp]; rewrite Hfd; by split.
Qed.

(** ** What each thread does to the other *)

(** The loop leaves the members alone; [stop] never sets the flag. *)
Definition loop_does (s s' : Listener S) : Prop :=
  listenFd s' = listenFd s ∧ keepRunning s' = keepRunning s.
Definition stop_does (s s' : Listener S) : Prop := keepRunning s = false → keepRunning s' = false.

#[export] Instance loop_does_preorder : PreOrder loop_does.
Proof. split; [done|]. intros s1 s2 s3 [??] [??]. split; congruence. Qed.
#[export] Instance stop_does_preorder : PreOrder stop_does.
Proof. split; [by intros s Hs|]. intros s1 s2 s3 H12 H23 H1. auto. Qed.

(** What [stop] has done when it ends: its socket, and no other, is closed. *)
Definition stopped (fd : Z) (_ : unit) (s : Listener S) (tr : list event) : Prop :=
  keepRunning s = false ∧ listenFd s = -1
  ∧ AgentServer.given_back tr = [fd] ∧ AgentServer.obtained tr = [].

(** The calls of [stop] on a socket. *)
Definition stop_events (fd : Z) : list event :=
  if 0 <=? fd then [Ev (Shutdown fd) tt; Ev (CloseFd fd) tt] else [].

(** [stop], wherever it starts: a socket there is closed. *)
Definition stop_done (fd : Z) (tr : list event) (_ : unit) (s : Listener S) (tr' : list event) : Prop :=
  keepRunning s = false ∧ listenFd s = (if 0 <=? fd then -1 else fd)
  ∧ tr' = tr ++ stop_events fd.

Lemma close_listener_does E s tr :
  keepRunning s = false →
  own loop_does stop_does E close_listener (stop_done (listenFd s) tr) s tr.
Proof using Type.
  intros Hr. unfold close_listener, stop_done, stop_events.
  apply own_observe. intros s1 [H1 R1]. split; [done|].
  rewrite H1. destruct (0 <=? listenFd s).
  - apply own_observe. intros s2 [H2 R2]. split; [done|].
    apply own_request. intros s3 [H3 R3]. split; [done|]. io_step.
    apply own_observe. intros s4 [H4 R4]. split; [done|].
    apply own_request. intros s5 [H5 R5]. split; [done|]. io_step.
    intros s6 [H6 R6]. apply holds_ret. split; [intros ?; cbn; congruence|]. cbn.
    split_and!; [congruence|done|]. rewrite app_nil_r, <-app_assoc. cbn.
    rewrite H4, H3, H2, H1. by destruct a, a0.
  - split_and!; [congruence|done|]. by rewrite app_nil_r.
Qed.

Lemma stop_thread_does E s tr :
  own loop_does stop_does E stop_thread (stop_done (listenFd s) tr) s tr.
Proof using Type.
  apply own_modify. intros s1 [H1 R1]. split; [done|]. rewrite <-H1.
  by apply (close_listener_does E (set_keepRunning false s1)).
Qed.

Lemma stop_done_stopped fd u s tr : 0 ≤ fd → stop_done fd [] u s tr → stopped fd u s tr.
Proof using Type.
  unfold stop_done, stop_events, stopped. intros Hfd%Z.leb_le. rewrite Hfd.
  by intros (Hr & Hl & ->).
Qed.

(** ** The loop *)

(** A client is served without touching the members of the server, and its events are no
    business of the loop. *)
Definition serves (s s' : Listener S) (e : list event) : Prop :=
  loop_does s s' ∧ Forall AgentServer.elsewhere e.

Context (E : stop → Prop) (serve_always : ∀ fd, always serves E (serve fd)).

(** Every descriptor that was accepted is closed. *)
Definition all_closed (tr : list event) : Prop := AgentServer.obtained tr = AgentServer.given_back tr.

(** A turn takes at most one client, closes it, and leaves the rest to the loop. *)
Lemma serve_turn_own again fd Q (I : Listener S → Prop) s tr :
  (∀ s s', stop_does s s' → I s → I s') → (∀ s s', loop_does s s' → I s → I s') →
  (∀ s e, I s → all_closed e → (length (AgentServer.obtained e) ≤ 1)%nat → Q Left s (tr ++ e)) →
  (∀ s e, I s → all_closed e → (length (AgentServer.obtained e) ≤ 1)%nat →
    own stop_does loop_does E again Q s (tr ++ e)) →
  I s → own stop_does loop_does E (serve_turn again fd) Q s tr.
Proof.
  intros HI HIl Hleft Hagain Hs. unfold serve_turn.
  apply own_observe. intros s1 H1. split; [done|]. apply own_request. intros s2 H2. split; [done|].
  assert (I2 : I s2) by eauto. io_step. destruct (a <? 0).
  { apply Hleft; [done..|cbn; lia]. }
  destruct (a =? 0); [apply Hagain; [done..|cbn; lia]|].
  apply own_observe. intros s3 H3. split; [done|]. apply own_request. intros s4 H4. split; [done|].
  assert (I4 : I s4) by eauto. io_step. rewrite <-app_assoc. cbn [app].
  destruct (a0 <? 0) eqn:Ha.
  { apply Hagain; [done|..]; unfold all_closed, AgentServer.obtained; cbn;
      rewrite Z.leb_antisym, Ha; cbn; done || lia. }
  apply own_bind. eapply own_mono.
  { by eapply (own_always _ _ serves E AgentServer.elsewhere I); [| | |apply serve_always|]. }
  intros [] s5 tr5 [I5 (t & -> & Ht)].
  apply own_request. intros s6 H6. split; [done|]. io_step.
  apply AgentServer.elsewhere_nil in Ht as (T1 & T2 & _).
  set (e := [Ev (Select (listenFd s1 + 1) fd 1) a; Ev (Accept (listenFd s3)) a0] ++ t
              ++ [Ev (CloseFd a0) a1]).
  replace (((tr ++ _) ++ t) ++ _) with (tr ++ e) by (subst e; by rewrite <-!app_assoc).
  assert (He : AgentServer.obtained e = [a0] ∧ AgentServer.given_back e = [a0]).
  { subst e. rewrite !AgentServer.obtained_app, !AgentServer.given_back_app, T1, T2. unfold AgentServer.obtained. cbn.
    by rewrite Z.leb_antisym, Ha. }
  destruct He as [E1 E2]. apply Hagain; [by eauto|by unfold all_closed; rewrite E1|by rewrite E1].
Qed.

(** While the flag is set the loop may find the socket gone; once it is clear the loop
    leaves at once. *)
Lemma serverLoop_own n s tr :
  all_closed tr →
  (∀ st, E st) → own stop_does loop_does E (serverLoop_thread n) (λ _ _ tr, all_closed tr) s tr.
Proof.
  intros Hb HE. revert s tr Hb. induction n as [|n IH]; intros s tr Ht; [done|]. cbn [serverLoop_thread].
  apply own_observe. intros s1 _. split; [done|]. destruct (keepRunning s1); [|done]. cbn [negb].
  intros s2 _. destruct (in_fd_set _); apply holds_ret; [|done]. split; [done|]. rewrite app_nil_r.
  assert (Happ : ∀ e, all_closed e → all_closed (tr ++ e))
    by (unfold all_closed; intros e He; by rewrite AgentServer.obtained_app, AgentServer.given_back_app, Ht, He).
  apply (serve_turn_own _ _ _ (λ _, True)); auto.
Qed.

Lemma serverLoop_leaves n s tr :
  keepRunning s = false →
  own stop_does loop_does E (serverLoop_thread n) (λ _ _ tr', tr' = tr) s tr.
Proof.
  intros Hs. destruct n as [|n]; [done|]. cbn [serverLoop_thread]. apply own_observe.
  intros s1 H1. split; [done|]. by rewrite H1.
Qed.

Lemma serve_turn_waiting n fd s :
  keepRunning s = false →
  own stop_does loop_does E (serve_turn (serverLoop_thread n) fd)
    (λ _ _ tr, all_closed tr ∧ (length (AgentServer.obtained tr) ≤ 1)%nat) s [].
Proof.
  intros Hs. apply (serve_turn_own _ _ _ (λ s, keepRunning s = false)); try done.
  { intros s1 s2 [_ Hd] H1. congruence. }
  intros s1 e H1 He Hl. eapply own_mono; [by apply serverLoop_leaves|]. by intros ??? ->.
Qed.

(** Turns are enough as long as there is one more than steps to come. *)
Lemma serve_turn_lasts k again fd :
  lasts (λ s, keepRunning s = false) (λ e, e = Left) k again →
  lasts (λ s, keepRunning s = false) (λ e, e = Left) k (serve_turn again fd).
Proof.
  intros Ha. unfold serve_turn.
  assert (Hobs : ∀ {B} (f : Listener S → B) (g : B → thread W (Listener S) loop_exit),
    (∀ b, lasts (λ s, keepRunning s = false) (λ e, e = Left) k (g b)) →
    lasts (λ s, keepRunning s = false) (λ e, e = Left) k (observe f ≫= g)).
  { intros B f g Hg. apply lasts_act. by intros s σ b s' [= _ <-]. }
  assert (Hreq : ∀ {B} (m : IO W B) (g : B → thread W (Listener S) loop_exit),
    (∀ b, lasts (λ s, keepRunning s = false) (λ e, e = Left) k (g b)) →
    lasts (λ s, keepRunning s = false) (λ e, e = Left) k (request m ≫= g)).
  { intros B f g Hg. apply lasts_act. by intros s σ b s' [= _ <-]. }
  apply Hobs. intros nfds. apply Hreq. intros result. destruct (result <? 0); [by apply lasts_done|].
  destruct (result =? 0); [done|]. apply Hobs. intros fd'. apply Hreq. intros clientFd.
  destruct (clientFd <? 0); [done|].
  eapply (lasts_bind _ _ _ serves E); [|apply serve_always|intros []; by apply Hreq].
  intros s s' e [[_ Hr] _]. congruence.
Qed.

Lemma serverLoop_lasts k n :
  (k < n)%nat → lasts (λ s, keepRunning s = false) (λ e, e = Left) k (serverLoop_thread n).
Proof.
  revert k. induction n as [|n IH]; intros k Hk; [lia|]. cbn [serverLoop_thread].
  set (body := λ running : bool, if negb running then _ else _).
  assert (Hset : settles (λ s, keepRunning s = false) (λ e, e = Left) (observe keepRunning ≫= body)).
  { intros s σ b s' Hs [= <- <-]. split; [done|]. subst body. cbn. by rewrite Hs. }
  destruct k as [|k]; (split; [exact Hset|]); [done|]. intros s σ [] s' _; [|by apply lasts_done].
  apply lasts_act. intros s1 σ1 fd s2. cbn. destruct (in_fd_set _); [intros [= _ <-]|done].
  split; [done|]. apply serve_turn_lasts, IH. lia.
Qed.

(** A step of the loop itself. *)
Definition of_loop (e : event) : Prop :=
  match e with Ev (Select _ _ _) _ | Ev (Accept _) _ | Ev (CloseFd _) _ => True | _ => False end.

Lemma serverLoop_emits P n :
  (∀ e, of_loop e → P e) → (∀ fd, EmitsT P (serve fd)) → EmitsT (W:=W) P (serverLoop_thread n).
Proof using Type.
  intros HP Hserve.
  assert (Hreq : ∀ {B} (c : syscall B), (∀ b, of_loop (Ev c b)) → Emits P (call (W:=W) c))
    by (intros B c Hc; apply emits_call; auto).
  induction n as [|n IH]; cbn [serverLoop_thread]; [apply _|]. unfold serve_turn.
  pose proof (λ nfds fd, Hreq _ (Select nfds fd 1) (λ _, I)).
  pose proof (λ fd, Hreq _ (Accept fd) (λ _, I)). pose proof (λ fd, Hreq _ (CloseFd fd) (λ _, I)).
  apply _.
Qed.

(** What holds of the steps that serve a client, and of those that change nothing, holds of
    the loop. *)
Lemma serverLoop_always (G : Listener S → Listener S → list event → Prop) E' n :
  E' Undefined → (∀ s e, Forall of_loop e → G s s e) → (∀ fd, always G E' (serve fd)) →
  always G E' (serverLoop_thread n).
Proof using Type.
  intros HE Hsame Hserve.
  assert (Hobs : ∀ {B} (f : Listener S → B), always G E' (observe (W:=W) f)).
  { intros B f. apply always_act; [|done]. intros s. apply holds_ret. by apply Hsame. }
  assert (Hreq : ∀ {B} (c : syscall B), (∀ b, of_loop (Ev c b)) → always G E' (request (call (W:=W) c))).
  { intros B c Hc. apply always_act; [|done]. intros s. io_step. io_step. apply holds_ret.
    apply Hsame. repeat constructor. apply Hc. }
  induction n as [|n IH]; [done|]. cbn [serverLoop_thread].
  apply always_bind; [apply Hobs|]. intros []; [|done]. cbn [negb].
  apply always_bind.
  { apply always_act; [|done]. intros s. apply holds_ret. destruct (in_fd_set _); [|done]. by apply Hsame. }
  intros fd. unfold serve_turn. apply always_bind; [apply Hobs|]. intros nfds.
  apply always_bind; [by apply Hreq|]. intros result. destruct (_ <? 0); [done|].
  destruct (_ =? 0); [done|]. apply always_bind; [apply Hobs|]. intros fd'.
  apply always_bind; [by apply Hreq|]. intros clientFd. destruct (_ <? 0); [done|].
  apply always_bind; [apply Hserve|]. intros []. apply always_bind; [by apply Hreq|done].
Qed.
End threads.

(** ** Handlers as one step

    [handleClient] with handlers that work on a state of their own. *)

Section client.
Context {W : Type} `{OS W} {S : Type}.
Context (longDumpHandler_ : option (AgentServer.LongDumpHandler (W:=W) (S:=S)))
        (policyHandler_ : option (AgentServer.PolicyHandler (W:=W) (S:=S))).

Definition serve_client (clientFd : Z) : thread W (Listener S) unit :=
  Act (λ s,
    r ← AgentServer.handleClient longDumpHandler_ policyHandler_ (served s) clientFd;
    mret (match r with None => inl Terminated | Some a => inr (tt, set_served a s) end)) Done.

Lemma serve_client_always fd :
  (∀ h s c d r, longDumpHandler_ = Some h → Emits AgentServer.elsewhere (h s c d r)) →
  (∀ h s c p ty b, policyHandler_ = Some h → Emits AgentServer.elsewhere (h s c p ty b)) →
  always serves (λ st, st = Terminated) (serve_client fd).
Proof.
  intros Hd Hp. apply always_act; [|done]. intros s. apply holds_bind.
  pose proof (AgentServer.handleClient_elsewhere longDumpHandler_ policyHandler_ (served s) fd Hd Hp).
  apply (holds_mono _ (λ _ t, Forall AgentServer.elsewhere t)); [apply emits|].
  intros [x|] t Ht; apply holds_ret; [|done]. by rewrite app_nil_r.
Qed.
End client.

(** ** Property *)

(** Both threads have ended: the flag is clear, the socket gone, and what was accepted is
    closed, and the socket [fd] besides, each once. *)
Definition wound_up {S} (fd : Z) (e : loop_exit) (s : Listener S) (tr : list event) : Prop :=
  e = Left ∧ keepRunning s = false ∧ listenFd s = -1
  ∧ AgentServer.given_back tr ≡ₚ fd :: AgentServer.obtained tr.

Lemma wound_up_merged {S} fd u e (s : Listener S) e1 e2 tr :
  e = Left → stopped fd u s e1 → all_closed e2 → merged e1 e2 tr →
  wound_up fd e s tr ∧ length (AgentServer.obtained tr) = length (AgentServer.obtained e2).
Proof.
  intros He (Hr & Hl & Hg & Ho) Hb Hm. unfold wound_up.
  assert (H1 : AgentServer.obtained tr ≡ₚ AgentServer.obtained e2).
  { unfold AgentServer.obtained at 1. rewrite (merged_omap _ _ _ _ Hm).
    change (AgentServer.obtained e1 ++ AgentServer.obtained e2 ≡ₚ AgentServer.obtained e2). by rewrite Ho. }
  assert (H2 : AgentServer.given_back tr ≡ₚ fd :: AgentServer.given_back e2).
  { unfold AgentServer.given_back at 1. rewrite (merged_omap _ _ _ _ Hm).
    change (AgentServer.given_back e1 ++ AgentServer.given_back e2 ≡ₚ fd :: AgentServer.given_back e2).
    by rewrite Hg. }
  split; [|by rewrite H1]. split_and!; [done..|]. by rewrite H2, H1, <-Hb.
Qed.

(** C13: stopping the server.  Whatever clients send and however the statements of [stop] and of
    the accept loop interleave, the loop ends (as many turns as there are steps to interleave,
    and one, are enough): [stop] can join it.  Then the listening socket and every accepted
    descriptor are closed, once each; unless the process ended, by a handler or a signal, or
    by an [FD_SET] on the number [stop] has overwritten.  That one cannot happen when the
    loop waits in [select] at the time the flag is cleared; and then it serves at most one
    more client. *)
Theorem stop_joins {W} `{OS W} {S} dump policy sched n fd (s : Listener S) :
  (∀ h s c d r, dump = Some h → Emits AgentServer.elsewhere (h s c d r)) →
  (∀ h s c p ty b, policy = Some h → Emits AgentServer.elsewhere (h s c p ty b)) →
  0 ≤ listenFd s → (length sched < n)%nat →
  holds (W:=W) (par sched stop_thread (serverLoop_thread (serve_client dump policy) n) s) (λ r tr,
    match r with inl _ => True | inr (_, e, s') => wound_up (listenFd s) e s' tr end)
  ∧ (keepRunning s = false →
     holds (par sched close_listener
         (serve_turn (serve_client dump policy) (serverLoop_thread (serve_client dump policy) n) fd) s)
       (λ r tr,
          match r with
          | inl st => st = Terminated
          | inr (_, e, s') => wound_up (listenFd s) e s' tr
              ∧ (length (AgentServer.obtained tr) ≤ 1)%nat
          end)).
Proof.
  intros Hd Hp Hfd Hn. pose proof (λ fd, serve_client_always dump policy fd Hd Hp) as Hserve.
  split; [|intros Hr].
  - eapply holds_mono.
    { eapply (par_own loop_does stop_does stop_does loop_does (λ _, True)
        (λ s, keepRunning s = false) (λ e, e = Left) (λ _, True) sched _ _ (stopped (listenFd s))
        (λ _ _ tr, all_closed tr) s [] []); try done.
      - intros u s1 s2 tr [H1 H2] (Q1 & Q2 & Q3). unfold stopped. by rewrite H1, H2.
      - by intros u s1 tr [Q1 _] _.
      - by eapply serverLoop_lasts.
      - eapply own_mono; [apply stop_thread_does|]. intros u s1 tr. by apply stop_done_stopped.
      - apply serverLoop_own; [|done|done]. intros fd'. by apply (always_weaken _ _ _ _ (Hserve fd')). }
    intros [st|[[u e] s']] tr; [done|]. intros (He & e1 & e2 & Hm & H1 & H2).
    eapply wound_up_merged; eauto.
  - eapply holds_mono.
    { eapply (par_own loop_does stop_does stop_does loop_does (λ st, st = Terminated)
        (λ s, keepRunning s = false) (λ e, e = Left) (λ _, True) sched _ _ (stopped (listenFd s))
        (λ _ _ tr, all_closed tr ∧ (length (AgentServer.obtained tr) ≤ 1)%nat) s [] []); try done.
      - intros u s1 s2 tr [H1 H2] (Q1 & Q2 & Q3). unfold stopped. by rewrite H1, H2.
      - by intros u s1 tr [Q1 _] _.
      - by eapply serve_turn_lasts, serverLoop_lasts.
      - eapply own_mono; [by apply close_listener_does|]. intros u s1 tr. by apply stop_done_stopped.
      - by apply serve_turn_waiting. }
    intros [st|[[u e] s']] tr; [done|]. intros (He & e1 & e2 & Hm & H1 & H2 & Hlen).
    destruct (wound_up_merged _ _ _ _ _ _ _ (He I) H1 H2 Hm) as [Hw Hl]. split; [done|]. by rewrite Hl.
Qed.

(** *** On a sample machine *)

(** A schedule that lets [stop] run between the loop's test of the flag and its [FD_SET]. *)
Definition racing : list bool := false :: replicate 7 true ++ [false].

Definition sample_stop (sched : list bool) : (stop + unit * loop_exit * Listener (list string)) * list event :=
  IO.run (par sched stop_thread (serverLoop_thread (serve_client (Some AgentServer.note_dump) (Some AgentServer.note_policy))
    (Datatypes.S (length sched))) (MkListener 3 true [])) (with_recv (Some AgentServer.policy_request) bare).

(** [stop] overwrites the number of the socket while the loop is about to use it. *)
Lemma stop_races_fd_set : (sample_stop racing).1 = inl Undefined.
Proof. vm_compute. reflexivity. Qed.

Lemma stop_joins_witness :
  let client := serve_client (W:=script) (Some AgentServer.note_dump) (Some AgentServer.note_policy) in
  let loop := serverLoop_thread client in
  let turn := serve_turn client in
  let sched := concat (replicate 20 [true; false]) in
  let s := MkListener 3 false [] in
  holds (par sched stop_thread (loop 41%nat) s)
     (λ r tr, match r with inl _ => True | inr (_, e, s') => wound_up 3 e s' tr end)
  ∧ holds (par sched close_listener (turn (loop 41%nat) 3) s)
       (λ r tr,
          match r with
          | inl st => st = Terminated
          | inr (_, e, s') => wound_up 3 e s' tr ∧ (length (AgentServer.obtained tr) ≤ 1)%nat
          end)
  ∧ let r := sample_stop (replicate 12 false) in
    AgentServer.obtained r.2 = [4; 4] ∧ AgentServer.given_back r.2 = [4; 3; 4].
Proof.
  cbv zeta. destruct (stop_joins (Some AgentServer.note_dump) (Some AgentServer.note_policy)
    (concat (replicate 20 [true; false])) 41 3 (MkListener 3 false [])) as [H1 H2].
  - intros ?; intros; simplify_eq; unfold AgentServer.note_dump; apply _.
  - intros ?; intros; simplify_eq; unfold AgentServer.note_policy; apply _.
  - cbn. lia.
  - cbn. lia.
  - split; [exact H1|]. split; [by apply H2|]. vm_compute. split; reflexivity.
Defined.
