(* ===== verification/Termination.v ===== *)
(** * Termination: the loops end when they are told to

    The polling loop of [Agent::run] and the accept loop of [AgentServer] run until a
    flag another context sets; the models give them fuel.  The theorems here say that the
    fuel is not what ends them: on a machine that raises the flag after finitely
    many tests, however it answers everything else, the loops return, and with any more
    fuel they return the same.

    To speak of the machine as well as of the trace, [replay w tr w'] says that [tr] is a
    run of the machine from [w] to [w'], and [Legal m] that action [m] only ever
    appends such runs: it holds of every method, by resolution. *)

From S2P Require Export Agent.
From S2P Require Import DockerMapper ContainerMapper PolicyEnforcer AgentServer.

#[local] Open Scope Z_scope.

(** ** Runs of a machine *)

Inductive replay {W} `{OS W} : W → list event → W → Prop :=
  | replay_nil w : replay w [] w
  | replay_cons {A} (c : syscall A) w t w' :
      replay (os_step A c w).2 t w' → replay w (Ev c (os_step A c w).1 :: t) w'.

Lemma replay_app {W} `{OS W} (w : W) t w1 t' w2 :
  replay w t w1 → replay w1 t' w2 → replay w (t ++ t') w2.
Proof. induction 1; [done|]. cbn [app]. constructor. auto. Qed.

Class Legal {W} `{OS W} {A} (m : IO W A) : Prop :=
  legal : ∀ s, ∃ t, io_trace (m s).2 = io_trace s ++ t ∧ replay (io_world s) t (io_world (m s).2).
#[export] Hint Mode Legal ! ! ! - : typeclass_instances.

Section legal.
Context {W : Type} `{OS W}.

#[export] Instance legal_ret {A} (a : A) : Legal (W:=W) (mret a).
Proof. intros s. exists []. split; [by rewrite app_nil_r|constructor]. Qed.

#[export] Instance legal_call {A} (c : syscall A) : Legal (W:=W) (call c).
Proof. intros [w tr]. eexists. split; [done|]. constructor. constructor. Qed.

#[export] Instance legal_bind {A B} (m : IO W A) (k : A → IO W B) :
  Legal m → (∀ a, Legal (k a)) → Legal (m ≫= k).
Proof.
  intros Hm Hk s. destruct (Hm s) as (t & Ht & Hr). destruct (Hk (m s).1 (m s).2) as (t' & Ht' & Hr').
  exists (t ++ t'). change ((m ≫= k) s) with (k (m s).1 (m s).2).
  split; [by rewrite Ht', Ht, app_assoc|]. by eapply replay_app.
Qed.

#[export] Instance legal_if {A} (b : bool) (m n : IO W A) :
  Legal m → Legal n → Legal (if b then m else n).
Proof. by destruct b. Qed.

#[export] Instance legal_fold {A S} (f : S → A → IO W S) s l :
  (∀ s a, Legal (f s a)) → Legal (io_fold f s l).
Proof.
  intros Hf. revert s. induction l as [|a l IH]; intros s; cbn [io_fold]; [apply legal_ret|].
  apply legal_bind; [apply Hf|exact IH].
Qed.

(** What holds of an action holds along a run of the machine. *)
Lemma holds_legal {A} (m : IO W A) Q w :
  Legal m → holds m Q →
  let r := m (IOState w []) in
  Q r.1 (io_trace r.2) ∧ replay w (io_trace r.2) (io_world r.2).
Proof.
  intros Hl Hm. destruct (Hm (IOState w [])) as (t & Ht & HQ), (Hl (IOState w [])) as (t' & Ht' & Hr).
  cbv zeta. cbn [io_trace app] in *. by rewrite Ht in *; subst.
Qed.
End legal.

#[export] Hint Extern 3 (Legal (match ?x with _ => _ end)) => destruct x : typeclass_instances.

(** ** A machine that raises a flag in the end *)

(** [go_on e]: event [e] is a test of the flag that says to go on.  [left w] bounds how often
    that can still be the answer, whatever else the machine is asked. *)
Record Patience {W} `{OS W} (go_on : event → Prop) (left : W → nat) : Prop := {
  left_test {A} (c : syscall A) w :
    go_on (Ev c (os_step A c w).1) → (left (os_step A c w).2 < left w)%nat;
  left_call {A} (c : syscall A) w : (left (os_step A c w).2 ≤ left w)%nat;
}.

Definition signal_absent (e : event) : Prop :=
  match e with Ev LoadSignalStop b => b = false | _ => False end.
Definition server_running (e : event) : Prop :=
  match e with Ev LoadRunning b => b = true | _ => False end.

#[export] Instance signal_absent_dec e : Decision (signal_absent e).
Proof. destruct e as [A []]; cbn; apply _. Defined.
#[export] Instance server_running_dec e : Decision (server_running e).
Proof. destruct e as [A []]; cbn; apply _. Defined.

Lemma replay_patience {W} `{OS W} go_on `{!∀ e, Decision (go_on e)} (left : W → nat) w t w' :
  Patience go_on left → replay w t w' → (length (filter go_on t) + left w' ≤ left w)%nat.
Proof.
  intros HP. induction 1 as [w|A c w t w' _ IH]; [simpl; lia|]. rewrite filter_cons.
  pose proof (left_call _ _ HP c w). case_decide as Hg; [|lia].
  pose proof (left_test _ _ HP c w Hg). simpl. lia.
Qed.

(** The tests of a flag, among the events. *)
Lemma filter_signal t :
  length (filter signal_absent t) = length (filter (λ b, b = false) (signal_tests t)).
Proof.
  induction t as [|[A c a] t IH]; [done|]. unfold signal_tests in *. cbn [omap list_omap].
  rewrite filter_cons. destruct c; cbn [signal_absent]; rewrite ?decide_False by tauto; try exact IH.
  rewrite filter_cons. by repeat case_decide; cbn [length]; rewrite ?IH.
Qed.

Lemma filter_running t :
  length (filter server_running t) = length (filter (λ b, b = true) (AgentServer.running_tests t)).
Proof.
  induction t as [|[A c a] t IH]; [done|]. unfold AgentServer.running_tests in *. cbn [omap list_omap].
  rewrite filter_cons. destruct c; cbn [server_running]; rewrite ?decide_False by tauto; try exact IH.
  rewrite filter_cons. by repeat case_decide; cbn [length]; rewrite ?IH.
Qed.

Lemma filter_replicate {A} (P : A → Prop) `{!∀ x, Decision (P x)} n x :
  P x → length (filter P (replicate n x)) = n.
Proof.
  intros Hx. induction n as [|n IH]; [done|]. cbn [replicate]. rewrite filter_cons, decide_True by done.
  cbn. by rewrite IH.
Qed.

(** ** The methods are legal *)

Section methods.
Context {W : Type} `{OS W} (regex_search : string → string → option bool).

#[export] Instance post_legal url body n t : Legal (postJsonWithRetry (W:=W) url body n t).
Proof.
  unfold postJsonWithRetry. generalize 0 at 1. induction (Z.to_nat n) as [|k IH]; intros z;
    cbn [retryFrom]; [apply _|]. unfold postJson. cbv zeta. apply _.
Qed.

#[export] Instance mapper_name_legal a cg p : Legal (mapper_name (W:=W) a cg p).
Proof.
  unfold mapper_name, DockerMapper.getContainerName, DockerMapper.resolve,
    DockerMapper.queryDockerForName, DockerMapper.extractContainerHashFromCgroup,
    DockerMapper.httpGetUnixSocket, DockerMapper.store, DockerMapper.nowNs,
    ContainerMapper.getContainerName, ContainerMapper.getContainerInfo,
    ContainerMapper.resolveInfo, ContainerMapper.parseCgroup, ContainerMapper.queryRuntime,
    ContainerMapper.queryDocker, ContainerMapper.queryCrictl, ContainerMapper.httpGetUnixSocket,
    ContainerMapper.execCommand, ContainerMapper.queryKubernetes,
    ContainerMapper.queryKubernetesEnv, ContainerMapper.fileExists, ContainerMapper.nowNs.
  cbv zeta. apply _.
Qed.

#[export] Instance feed_legal cfg evt b : Legal (feed_buffer (W:=W) cfg evt b).
Proof.
  unfold feed_buffer, appendLongDump, processShortWindow, notifyDumpComplete, stream_write,
    stream_close.
  cbv zeta. apply _.
Qed.

#[export] Instance thunk_legal a data : Legal (handleEventThunk (W:=W) regex_search a data).
Proof.
  unfold handleEventThunk, handleEvent, mapContainerId, stopExpiredLongDumps, hash_order,
    stopExpired, notifyDumpComplete, stream_close.
  cbv zeta. apply _.
Qed.

#[export] Instance request_legal a c d : Legal (requestLongDump (W:=W) a c d).
Proof.
  unfold requestLongDump, startLongDump, stream_open, stream_write, monotonicNowNs.
  cbv zeta. apply _.
Qed.

#[export] Instance policy_legal a c p ty s : Legal (handlePolicy (W:=W) a c p ty s).
Proof.
  unfold handlePolicy, PolicyEnforcer.apply, PolicyEnforcer.writeSeccompProfile,
    PolicyEnforcer.getContainerIdFromName, PolicyEnforcer.httpDockerGet,
    PolicyEnforcer.updateContainerSeccomp, PolicyEnforcer.nowNs, stream_open, stream_write,
    stream_close.
  cbv zeta. apply _.
Qed.

#[export] Instance poll_legal n a : Legal (poll_loop (W:=W) regex_search n a).
Proof. revert a. induction n as [|n IH]; intros a; cbn [poll_loop]; apply _. Qed.

#[export] Instance run_legal n a : Legal (Agent.run (W:=W) regex_search n a).
Proof.
  unfold Agent.run, initBpf, initServer, cleanupBpf, release, AgentServer.start, AgentServer.stop.
  cbv zeta. apply _.
Qed.

#[export] Instance loop_legal {S} dump policy n fd (s : S) :
  (∀ h s c d r, dump = Some h → Legal (h s c d r)) →
  (∀ h s c p ty b, policy = Some h → Legal (h s c p ty b)) →
  Legal (AgentServer.serverLoop (W:=W) dump policy n fd s).
Proof.
  intros Hd Hp.
  assert (Hclient : ∀ s fd, Legal (AgentServer.handleClient (W:=W) dump policy s fd)).
  { intros s' fd'. unfold AgentServer.handleClient, AgentServer.sendResponse. cbv zeta.
    destruct dump as [h|], policy as [h'|]; try pose proof (λ s c d r, Hd h s c d r eq_refl);
      try pose proof (λ s c p ty b, Hp h' s c p ty b eq_refl); apply _. }
  revert s. induction n as [|n IH]; intros s; cbn [AgentServer.serverLoop]; apply _.
Qed.
End methods.

(** ** More fuel changes nothing *)

Lemma poll_loop_more {W} `{OS W} regex_search n m a σ :
  (poll_loop (W:=W) regex_search n a σ).1.1 = true →
  poll_loop regex_search (n + m) a σ = poll_loop regex_search n a σ.
Proof.
  revert a σ. induction n as [|n IH]; intros a σ; [done|]. cbn [poll_loop Nat.add].
  unfold mbind, io_bind. cbn [fst snd].
  set (r0 := call LoadSignalStop σ). destruct r0.1; [done|].
  set (r1 := call (RingBufferPoll 100) r0.2). destruct r1.1 as [samples err].
  set (r2 := io_fold _ a samples r1.2).
  destruct (err =? - EINTR); [done|]. destruct (err <? 0); [done|]. apply IH.
Qed.

Definition finished_run (e : run_end) : Prop := match e with StillRunning _ => False | _ => True end.

Lemma run_more {W} `{OS W} regex_search n m a σ :
  finished_run (Agent.run (W:=W) regex_search n a σ).1 →
  Agent.run regex_search (n + m) a σ = Agent.run regex_search n a σ.
Proof.
  unfold Agent.run, mbind, io_bind. cbn [fst snd].
  destruct (initBpf σ) as [[ok bpf] s0]. cbn [fst snd]. destruct ok; cbn [negb]; [|done].
  destruct (initServer (config_ a) s0) as [srv s1]. cbn [fst snd].
  set (baseline := if autoBaselineDump (config_ a) then _ else _).
  destruct (baseline s1) as [[a1|] s2]; cbn [fst snd]; [|done].
  pose proof (poll_loop_more regex_search n m a1 s2) as Hmore.
  destruct (poll_loop regex_search n a1 s2) as [[[] a2] s3]; cbn [fst snd negb] in *; [|done].
  rewrite Hmore by done. done.
Qed.

Lemma serverLoop_more {W} `{OS W} {S} dump policy n m fd (s : S) σ :
  (∀ s', (AgentServer.serverLoop (W:=W) dump policy n fd s σ).1 ≠ AgentServer.StillRunning s') →
  AgentServer.serverLoop dump policy (n + m) fd s σ = AgentServer.serverLoop dump policy n fd s σ.
Proof.
  revert s σ. induction n as [|n IH]; intros s σ Hf; [by destruct (Hf s)|].
  cbn [AgentServer.serverLoop Nat.add] in *. unfold mbind, io_bind in *. cbn [fst snd] in *.
  repeat first [ match goal with |- context [call ?c ?σ] => generalize dependent (call c σ); intros [? ?] ? end
  | case_match; [done|] | case_match ]; cbn [fst snd] in *; try done; try by apply IH.
Qed.

(** The accept loop with the handlers [initServer] installs. *)
Definition agent_loop {W} `{OS W} (n : nat) (fd : Z) (a : Agent) : IO W (AgentServer.loop_end Agent) :=
  AgentServer.serverLoop (Some long_dump_handler) (Some policy_handler) n fd a.

#[export] Instance agent_loop_legal {W} `{OS W} n fd a : Legal (agent_loop (W:=W) n fd a).
Proof.
  apply loop_legal; intros h s; intros; simplify_eq; [apply request_legal|apply policy_legal].
Qed.

Lemma policy_elsewhere {W} `{OS W} a c p ty s :
  Emits AgentServer.elsewhere (policy_handler (W:=W) a c p ty s).
Proof.
  unfold policy_handler, handlePolicy, PolicyEnforcer.apply, PolicyEnforcer.writeSeccompProfile,
    PolicyEnforcer.getContainerIdFromName, PolicyEnforcer.httpDockerGet,
    PolicyEnforcer.updateContainerSeccomp, PolicyEnforcer.nowNs, stream_open, stream_write,
    stream_close.
  cbv zeta. apply _.
Qed.

(** ** Properties *)

(** The agent stops when it is told to.  On a machine that answers the test of the signal
    flag with "no" at most [left w] more times, whatever it answers to everything else
    (transfers, files, samples, commands) and in whatever order it is asked, a run returns,
    within [left w] + 1 turns; and with more fuel it returns the same value with the same
    events. *)
Theorem run_terminates {W} `{OS W} regex_search (left : W → nat) a w fuel :
  Patience signal_absent left → (left w < fuel)%nat →
  let r := Agent.run (W:=W) regex_search fuel a (IOState w []) in
  finished_run r.1 ∧ ∀ m, Agent.run regex_search (fuel + m) a (IOState w []) = r.
Proof.
  intros HP Hfuel. cbv zeta.
  destruct (holds_legal (Agent.run (W:=W) regex_search fuel a) (run_outcome fuel a) w)
    as [Ho Hr]; [apply _|apply run_holds|].
  assert (Hfin : finished_run (Agent.run (W:=W) regex_search fuel a (IOState w [])).1).
  { destruct (Agent.run regex_search fuel a (IOState w [])).1; [done|done|]. cbn in Ho.
    apply (replay_patience _ _ _ _ _ HP) in Hr.
    rewrite filter_signal, Ho, filter_replicate in Hr by done. lia. }
  split; [done|]. intros m. by apply run_more.
Qed.

(** C23: the accept loop stops when the server is stopped.  With the agent's own handlers, on a
    machine that says the flag is still set at most [left w] more times, whatever the clients
    send, the loop ends within [left w] + 1 turns, and more fuel changes nothing. *)
Theorem serverLoop_terminates {W} `{OS W} (left : W → nat) fd a w fuel :
  Patience server_running left → (left w < fuel)%nat →
  let r := agent_loop (W:=W) fuel fd a (IOState w []) in
  (∀ s, r.1 ≠ AgentServer.StillRunning s) ∧ ∀ m, agent_loop (fuel + m) fd a (IOState w []) = r.
Proof.
  intros HP Hfuel. cbv zeta.
  destruct (holds_legal (agent_loop (W:=W) fuel fd a) (AgentServer.loop_balance fuel) w) as [Ho Hr];
    [apply _|apply AgentServer.serverLoop_balance|].
  { intros h s c d r [= <-]. apply request_elsewhere. }
  { intros h s c p ty b [= <-]. apply policy_elsewhere. }
  assert (Hfin : ∀ s, (agent_loop fuel fd a (IOState w [])).1 ≠ AgentServer.StillRunning s).
  { intros s Hs. rewrite Hs in Ho. cbn in Ho. destruct Ho as [_ Ho].
    apply (replay_patience _ _ _ _ _ HP) in Hr.
    rewrite filter_running, Ho, filter_replicate in Hr by done. lia. }
  split; [done|]. intros m. by apply serverLoop_more.
Qed.

(** *** On a machine that counts down *)

(** The flags say to go on as often as the first component says; the rest is a script. *)
Definition countdown_step (A : Type) (c : syscall A) (w : nat * script) : A * (nat * script) :=
  match c in syscall A return A * (nat * script) with
  | LoadSignalStop => match w.1 with O => (true, w) | S n => (false, (n, w.2)) end
  | LoadRunning => match w.1 with O => (false, w) | S n => (true, (n, w.2)) end
  | c => let r := script_step _ c w.2 in (r.1, (w.1, r.2))
  end.

#[export] Instance countdown_os : OS (nat * script) := {| os_step := countdown_step |}.

Lemma countdown_patience :
  Patience (W:=nat * script) signal_absent fst ∧ Patience (W:=nat * script) server_running fst.
Proof.
  split; split; intros A c [n w]; destruct c; cbn; try done; try lia; destruct n; cbn; try done; lia.
Qed.

Lemma run_terminates_witness :
  let w := (3%nat, bare) in
  (finished_run (Agent.run subset_regex 4 sample_agent (IOState w [])).1
    ∧ ∀ m, Agent.run subset_regex (4 + m) sample_agent (IOState w [])
        = Agent.run subset_regex 4 sample_agent (IOState w []))
  ∧ length (signal_tests (IO.run (Agent.run subset_regex 4 sample_agent) w).2) = 4%nat
  ∧ ¬ finished_run (Agent.run subset_regex 3 sample_agent (IOState w [])).1.
Proof.
  cbv zeta. split; [|split; [vm_compute; reflexivity|vm_compute; exact (λ f, f)]].
  apply (run_terminates subset_regex fst sample_agent (3%nat, bare) 4); [apply countdown_patience|].
  cbn. lia.
Defined.

Lemma serverLoop_terminates_witness :
  let w := (2%nat, with_recv (Some (AgentServer.render_request "GET" "/health" [] "")) bare) in
  ((∀ s, (agent_loop 3 7 sample_agent (IOState w [])).1 ≠ AgentServer.StillRunning s)
    ∧ ∀ m, agent_loop (3 + m) 7 sample_agent (IOState w []) = agent_loop 3 7 sample_agent (IOState w []))
  ∧ AgentServer.obtained (IO.run (agent_loop 3 7 sample_agent) w).2 = [4; 4].
Proof.
  cbv zeta. split; [|vm_compute; reflexivity].
  apply (serverLoop_terminates fst 7 sample_agent
    (2%nat, with_recv (Some (AgentServer.render_request "GET" "/health" [] "")) bare) 3);
    [apply countdown_patience|]. cbn. lia.
Defined.
