(* ===== verification/System.v ===== *)
(** * System: the parts together

    The eBPF program fills the ring buffer, the main thread empties it, the server's thread
    serves HTTP clients, both on one agent.  Each part has its own file and theorems;
    here they are composed: what the posted windows hold is what the kernel program
    saw, under any interleaving of the two threads, and no client can disturb it. *)

From S2P Require Export Kernel Interleaving Termination.
From S2P Require Import AgentServer.

#[local] Open Scope Z_scope.
#[local] Existing Instance AgentServer.handleClient_elsewhere.

(** ** From the tracepoint to the windows *)

(** One system call of some process: what the helpers answer, and the sys_enter record (its
    common part, the number of the call, the arguments). *)
Record firing := Firing {
  f_env : bpf_env;
  f_common : list Z;
  f_number : Z;
  f_args : list Z;
}.

Definition firing_wf (f : firing) : Prop :=
  bpf_env_wf (f_env f) ∧ length (f_common f) = 8%nat ∧ - 2 ^ 63 ≤ f_number f < 2 ^ 63.

Definition f_record (f : firing) : list Z :=
  f_common f ++ le_bytes 8 (u64 (f_number f)) ++ f_args f.

(** The ring buffer after the program has run on each record. *)
Definition fire (ring : list (list Z)) (f : firing) : list (list Z) :=
  match Kernel.handle_sys_enter_ctx (f_env f) (f_record f) ring with
  | Some (_, ring) => ring
  | None => ring
  end.

(** The event the agent should see. *)
Definition firing_event (f : firing) : SyscallEvent := {|
  tsNs := ktime_ns (f_env f);
  pid := pid_tgid (f_env f) / 2 ^ 32;
  tid := pid_tgid (f_env f) mod 2 ^ 32;
  cgroupId := cur_cgroup (f_env f) mod 2 ^ 32;
  syscallId := f_number f mod 2 ^ 16;
  argClass := classify_arg_class (f_number f);
  argBucket := 0;
|}.

(** What the agent makes of the firings: one that finds the ring buffer full is lost, any other
    is given to one container or dropped by the filter. *)
Inductive witnessed (regex_search : string → string → option bool) (cfg : AgentConfig)
    : list firing → list (string * SyscallEvent) → Prop :=
  | witnessed_nil : witnessed regex_search cfg [] []
  | witnessed_lost f fs log :
      reserve_ok (f_env f) = false → witnessed regex_search cfg fs log →
      witnessed regex_search cfg (f :: fs) log
  | witnessed_drop f id fs log :
      reserve_ok (f_env f) = true → id ≠ "" → passes_filter regex_search cfg id = false →
      witnessed regex_search cfg fs log → witnessed regex_search cfg (f :: fs) log
  | witnessed_keep f id fs log :
      reserve_ok (f_env f) = true → id ≠ "" → passes_filter regex_search cfg id = true →
      witnessed regex_search cfg fs log →
      witnessed regex_search cfg (f :: fs) ((id, firing_event f) :: log).

Lemma fire_spec f ring :
  firing_wf f →
  fire ring f = if reserve_ok (f_env f)
                then ring ++ [dk_event_bytes (fill_event (f_env f) (f_number f))] else ring.
Proof.
  intros (_ & Hc & Hn). unfold fire, Kernel.handle_sys_enter_ctx, f_record.
  rewrite Kernel.ctx_id_record by done. cbn [mbind option_bind]. unfold handle_sys_enter.
  by destruct (reserve_ok (f_env f)).
Qed.

(** A sample decodes to the event of its firing. *)
Lemma sample_event_of_firing f :
  firing_wf f →
  mapped_event (KernelSyscallEvent_of_bytes (dk_event_bytes (fill_event (f_env f) (f_number f))))
  = firing_event f.
Proof.
  intros ((Hp & Ht & Hc) & _ & _).
  destruct (fill_event_fits (f_env f) (f_number f)) as (F1 & F2 & F3 & F4 & F5 & F6 & F7).
  rewrite <-(app_nil_r (dk_event_bytes _)), of_bytes_event by done.
  unfold mapped_event, firing_event, fill_event.
  cbn [ts_ns k_pid k_tid cgroup_id syscall_id arg_class arg_bucket
    dk_ts_ns dk_pid dk_tid dk_cgroup_id dk_syscall_id dk_arg_class dk_arg_bucket].
  rewrite classify_fits, (wrap_small 64 (ktime_ns _)) by done. f_equal.
  - rewrite Z.shiftr_div_pow2 by lia. apply wrap_small. unfold fits in *.
    split; [apply Z.div_pos; lia|]. apply Z.div_lt_upper_bound; lia.
  - change (2 ^ 32 - 1) with (Z.ones 32). rewrite Z.land_ones by lia. apply wrap_small.
    unfold fits. apply Z.mod_pos_bound. lia.
Qed.

(** The ring buffer holds the samples of the firings that found room, in order. *)
Lemma fire_all fs ring :
  Forall firing_wf fs →
  foldl fire ring fs = ring ++ map (λ f, dk_event_bytes (fill_event (f_env f) (f_number f)))
                                 (filter (λ f, reserve_ok (f_env f) = true) fs).
Proof.
  intros Hfs. revert ring. induction Hfs as [|f fs Hf _ IH]; intros ring; cbn [foldl].
  { by rewrite app_nil_r. }
  rewrite IH, fire_spec, filter_cons by done.
  destruct (reserve_ok (f_env f)); [rewrite decide_True by done|by rewrite decide_False].
  cbn [map]. by rewrite <-app_assoc.
Qed.

Lemma attributed_witnessed regex_search cfg fs log :
  Forall firing_wf fs →
  attributed regex_search cfg (map Sample (foldl fire [] fs)) log →
  witnessed regex_search cfg fs log.
Proof.
  intros Hfs. rewrite fire_all by done. cbn [app]. revert log.
  induction Hfs as [|f fs Hf _ IH]; intros log Ha; [inversion Ha; constructor|].
  rewrite filter_cons in Ha. destruct (reserve_ok (f_env f)) eqn:Hr.
  - rewrite decide_True in Ha by done. cbn [map] in Ha. inversion Ha as [|d l log' Hs|d id l log' Hs Hid Hp Ha'|
      d id l log' Hs Hid Hp Ha'| |]; subst.
    + rewrite event_bytes_length in Hs. lia.
    + eapply witnessed_drop; eauto.
    + rewrite sample_event_of_firing by done. eapply witnessed_keep; eauto.
  - rewrite decide_False in Ha by done. by apply witnessed_lost; [|apply IH].
Qed.

(** ** The clients *)

(** A client leaves the agent's windows as they were. *)
Lemma client_quiet {W} `{OS W} a fd :
  agent_ok a →
  holds (W:=W) (AgentServer.handleClient (Some long_dump_handler) (Some policy_handler) a fd)
    (λ r tr, match r with None => effects (config_ a) tr [] [] | Some a' => quiet_step a a' tr end).
Proof.
  intros Hok.
  eapply holds_mono.
  { apply (AgentServer.handleClient_holds _ _
      (λ s c d _ r tr, agent_ok s →
         match r with None => effects (config_ s) tr [] [] | Some s' => quiet_step s s' tr end)
      (λ s c p ty b r tr, agent_ok s → quiet_step s r.2 tr)).
    - intros s c d r. apply holds_impl; [|by apply requestLongDump_quiet].
      eapply holds_mono; [apply (emits (Emits:=request_elsewhere s c d))|done].
    - intros s c p ty b. apply holds_impl; [|by apply handlePolicy_quiet].
      eapply holds_mono; [apply (emits (Emits:=policy_elsewhere s c p ty b))|done]. }
  assert (Hquiet : ∀ t, Forall unposted t → effects (config_ a) t [] []) by apply effects_unposted.
  assert (Hafter : ∀ fd code text b a' e r t1 t2, unposted e → quiet_step a a' t1 →
    AgentServer.reply fd code text b a' r t2 →
    match r with
    | None => effects (config_ a) (e :: t1 ++ t2) [] []
    | Some a'' => quiet_step a a'' (e :: t1 ++ t2)
    end).
  { intros ? ? ? ? a' e r t1 t2 He (Q1 & Q2 & Q3 & Q4) (n & -> & ->).
    assert (Heff : effects (config_ a) (e :: t1 ++ [Ev (Send fd0 (AgentServer.response_text code text b)) n]) [] []).
    { apply (effects_app _ [e] _ [] [] [] []); [apply Hquiet; by repeat constructor|].
      apply (effects_app _ t1 _ [] [] [] []); [done|]. apply Hquiet. by repeat constructor. }
    destruct n; [by split_and!|exact Heff]. }
  assert (Hsame : ∀ e, unposted e → quiet_step a a [e])
    by (intros; split_and!; [done|done|apply Hquiet; by repeat constructor|done]).
  assert (Hnow : quiet_step a a []) by (split_and!; [done|done|by apply Hquiet|done]).
  intros r tr (got & t & -> & Hr). destruct got as [[|ch bytes]|];
    [destruct Hr as [-> ->]; by apply Hsame| |destruct Hr as [-> ->]; by apply Hsame].
  destruct (AgentServer.route_of _) as [| |c d reason| |c p ty b|]; cbn [AgentServer.reaction] in Hr.
  - by apply (Hafter _ _ _ _ a _ _ []) with (2 := Hnow) (3 := Hr).
  - by apply (Hafter _ _ _ _ a _ _ []) with (2 := Hnow) (3 := Hr).
  - destruct Hr as (r1 & t1 & t2 & Hq & -> & Ht). specialize (Hq Hok). destruct r1 as [a'|].
    + by apply Hafter with (2 := Hq) (3 := Ht).
    + destruct Ht as [-> ->]. rewrite app_nil_r. apply (effects_app _ [_] t1 [] [] [] []); [|done].
      apply Hquiet. by constructor.
  - by apply (Hafter _ _ _ _ a _ _ []) with (2 := Hnow) (3 := Hr).
  - destruct Hr as (ok & s' & t1 & t2 & Hq & -> & Ht). specialize (Hq Hok).
    destruct ok; by apply Hafter with (2 := Hq) (3 := Ht).
  - by apply (Hafter _ _ _ _ a _ _ []) with (2 := Hnow) (3 := Hr).
Qed.

Lemma quiet_refl a t : agent_ok a → Forall unposted t → quiet_step a a t.
Proof. intros Hok Ht. split_and!; [done|done|by apply effects_unposted|done]. Qed.

(** Nothing but reads, tests and answers. *)
Ltac stays_quiet := apply quiet_refl; [assumption|cbn [app]; repeat (apply List.Forall_cons; [exact I|]); apply List.Forall_nil].

Lemma quiet_trans a1 a2 a3 t1 t2 :
  quiet_step a1 a2 t1 → quiet_step a2 a3 t2 → quiet_step a1 a3 (t1 ++ t2).
Proof.
  intros (_ & C1 & E1 & P1) (O2 & C2 & E2 & P2). split_and!; [done|congruence| |congruence].
  rewrite C1 in E2. by apply (effects_app _ t1 t2 [] [] [] []).
Qed.

(** What the accept loop leaves of the agent. *)
Definition left_alone (a : Agent) (r : AgentServer.loop_end Agent) (tr : list event) : Prop :=
  match r with
  | AgentServer.Stopped a' | AgentServer.StillRunning a' => quiet_step a a' tr
  | AgentServer.Killed => effects (config_ a) tr [] []
  end.

Lemma left_alone_after a a1 r t tr : quiet_step a a1 t → left_alone a1 r tr → left_alone a r (t ++ tr).
Proof.
  intros Hq. destruct r; cbn [left_alone]; [by apply quiet_trans| |by apply quiet_trans].
  destruct Hq as (_ & C & E & _). rewrite C. intros E'. by apply (effects_app _ t tr [] [] [] []).
Qed.

Lemma agent_loop_leaves {W} `{OS W} n fd a :
  agent_ok a → holds (agent_loop (W:=W) n fd a) (left_alone a).
Proof.
  unfold agent_loop. revert a. induction n as [|n IH]; intros a Hok; cbn [AgentServer.serverLoop].
  { io_step. by apply quiet_refl. }
  assert (Hgo : ∀ a1 t, quiet_step a a1 t →
    holds (AgentServer.serverLoop (W:=W) (Some long_dump_handler) (Some policy_handler) n fd a1)
      (λ r tr, left_alone a r (t ++ tr))).
  { intros a1 t Hq. eapply holds_mono; [apply IH, Hq|]. intros r tr. by apply left_alone_after. }
  io_step. io_step. destruct a0; cbn [negb]; [|io_step; stays_quiet].
  io_step. io_step. case_bool; [io_step; stays_quiet|].
  case_bool.
  { eapply holds_mono; [apply (Hgo a [Ev LoadRunning true; Ev (Select (fd + 1) fd 1) a0])|done].
    stays_quiet. }
  io_step. io_step. case_bool.
  { eapply holds_mono; [apply (Hgo a [Ev LoadRunning true; Ev (Select (fd + 1) fd 1) a0; Ev (Accept fd) a1])|done].
    stays_quiet. }
  assert (Hpre : quiet_step a a ([Ev LoadRunning true] ++ [Ev (Select (fd + 1) fd 1) a0] ++ [Ev (Accept fd) a1]))
    by stays_quiet.
  io_step. eapply holds_mono; [by apply client_quiet|]. intros [a'|] t Ht.
  - io_step. io_step. eapply holds_mono; [apply (Hgo a' (([Ev LoadRunning true] ++
      [Ev (Select (fd + 1) fd 1) a0] ++ [Ev (Accept fd) a1]) ++ t ++ [Ev (CloseFd a1) a2]))|].
    + eapply quiet_trans; [exact Hpre|]. eapply quiet_trans; [exact Ht|].
      apply quiet_refl; [apply Ht|by repeat constructor].
    + intros r tr Hr. cbn [app] in *. by rewrite <-!app_assoc in Hr.
  - io_step. rewrite app_nil_r. cbn [left_alone].
    destruct Hpre as (_ & _ & E & _).
    by apply (effects_app _ [Ev LoadRunning true; Ev (Select (fd + 1) fd 1) a0; Ev (Accept fd) a1] t [] [] [] []).
Qed.

(** ** Properties *)

(** C8: from the tracepoint to the server.  For any sequence of system calls, any interleaving
    of the agent's two threads on the samples the eBPF program submits and on any commands, and
    any answers of the machine: unless a thread threw or used an invalid reference or
    iterator, the events of the windows posted for a container, followed by those still
    waiting, are those that waited before followed by one event per system call that found
    room in the ring buffer and was given to that container, in the order the calls were
    made, each with the kernel's time, the process and thread that made the call, the low 32
    bits of its cgroup, the low 16 bits of its number and the documented class. *)
Theorem system_conserved {W} `{OS W} regex_search erase_order sched fs commands sh :
  agent_ok (sh_agent sh) → Forall is_command commands → Forall firing_wf fs →
  holds (W:=W) (agent_threads regex_search erase_order sched (foldl fire [] fs) commands sh) (λ r tr,
    match r with
    | inl _ => True
    | inr (_, _, sh') => ∃ log ws ns,
        witnessed regex_search (config_ (sh_agent sh)) fs log
        ∧ effects (config_ (sh_agent sh)) tr ws ns
        ∧ Forall (window_ok (config_ (sh_agent sh))) ws
        ∧ ∀ c, flushed c ws ++ pending (sh_agent sh') c
            = pending (sh_agent sh) c ++ events_of c log
    end).
Proof.
  intros Hok Hcmd Hfs. eapply holds_mono; [by apply interleaved_holds|].
  intros [st|[[[] []] sh']] tr; [done|]. intros (log & ws & ns & Ha & Hrest).
  exists log, ws, ns. split; [by apply attributed_witnessed|exact Hrest].
Qed.

(** C24: no client can disturb the agent.  Whatever clients connect and send, for any number of
    turns of the accept loop: the invariant of the agent holds after, the configuration is
    the same, every event that waited still waits, nothing is posted to the server.  This
    also when a handler throws, or a client is gone when it is answered, which ends the
    process. *)
Theorem clients_harmless {W} `{OS W} n fd a :
  agent_ok a →
  holds (agent_loop (W:=W) n fd a) (λ r tr,
    match r with
    | AgentServer.Stopped a' | AgentServer.StillRunning a' =>
        agent_ok a' ∧ config_ a' = config_ a ∧ ∀ c, pending a' c = pending a c
    | AgentServer.Killed => True
    end ∧ effects (config_ a) tr [] []).
Proof.
  intros Hok. eapply holds_mono; [by apply agent_loop_leaves|].
  intros [a'| |a'] tr; cbn [left_alone]; [|done|]; intros (H1 & H2 & H3 & H4); by split_and!.
Qed.

(** *** On a sample system *)

(** The calls of two processes in the cgroups 1 and 2; the third finds the ring buffer full. *)
Definition sample_firings : list firing :=
  [Firing (BpfEnv (7 * 2 ^ 32 + 8) true 1000 1) (replicate 8 0) 59 (replicate 48 0);
   Firing (BpfEnv (9 * 2 ^ 32 + 9) true 2000 2) (replicate 8 0) 42 [];
   Firing (BpfEnv (7 * 2 ^ 32 + 8) false 3000 1) (replicate 8 0) 0 [];
   Firing (BpfEnv (7 * 2 ^ 32 + 8) true 1000002000 (2 ^ 32 + 1)) (replicate 8 0) 257 []].

Lemma sample_firings_wf : Forall firing_wf sample_firings.
Proof.
  repeat (apply List.Forall_cons;
    [unfold firing_wf, bpf_env_wf, fits; cbn; repeat split; lia|]). apply List.Forall_nil.
Qed.

Lemma system_conserved_witness :
  agent_ok (sh_agent sample_shared) ∧ Forall firing_wf sample_firings ∧
  holds (W:=script) (agent_threads subset_regex (λ l, l) (alternate 60) (foldl fire [] sample_firings)
      [web_dump] sample_shared) (λ r tr,
    match r with
    | inl _ => True
    | inr (_, _, sh') => ∃ log ws ns,
        witnessed subset_regex (config_ (sh_agent sample_shared)) sample_firings log
        ∧ effects (config_ (sh_agent sample_shared)) tr ws ns
        ∧ Forall (window_ok (config_ (sh_agent sample_shared))) ws
        ∧ ∀ c, flushed c ws ++ pending (sh_agent sh') c
            = pending (sh_agent sample_shared) c ++ events_of c log
    end)
  ∧ length (foldl fire [] sample_firings) = 3%nat
  ∧ let r := IO.run (agent_threads subset_regex (λ l, l) (alternate 60)
        (foldl fire [] sample_firings) [web_dump] sample_shared) bare in
    length (posted_bodies "http://localhost:9090/api/v1/agent/windows" r.2) = 3%nat.
Proof.
  split; [exact sample_agent_ok|]. split; [exact sample_firings_wf|].
  split; [|split; vm_compute; reflexivity].
  apply (system_conserved subset_regex (λ l, l) (alternate 60) sample_firings [web_dump] sample_shared);
    [exact sample_agent_ok| |exact sample_firings_wf].
  apply Forall_cons; split; [exact I|constructor].
Defined.

Lemma clients_harmless_witness :
  agent_ok dumping_agent ∧
  holds (agent_loop (W:=script) 2 7 dumping_agent) (λ r tr,
    match r with
    | AgentServer.Stopped a' | AgentServer.StillRunning a' =>
        agent_ok a' ∧ config_ a' = config_ dumping_agent ∧ ∀ c, pending a' c = pending dumping_agent c
    | AgentServer.Killed => True
    end ∧ effects (config_ dumping_agent) tr [] [])
  ∧ length (IO.run (agent_loop 2 7 dumping_agent)
      (with_recv (Some (AgentServer.render_request "GET" "/health" [] "")) bare)).2 = 12%nat.
Proof.
  split; [exact dumping_agent_ok|]. split; [|vm_compute; reflexivity].
  apply (clients_harmless 2 7 dumping_agent dumping_agent_ok).
Defined.
