(* ===== verification/Program.v ===== *)
(** * Program: the whole process

    [main] of [agent/src/main.cpp] with everything it starts: settings, construction, BPF
    start-up, the HTTP server in a thread of its own, the polling loop, [stop], clean-up,
    destruction.  The two threads run statement by statement under any schedule
    ([Concurrency.v], [ServerThreads.v]); the samples are what the ring buffer gives, the
    commands what clients send.

    Alone, the main thread is the [main] of [Agent.v]. *)

From S2P Require Export System ServerThreads.
From S2P Require Import DockerMapper ContainerMapper PolicyEnforcer AgentServer.

#[local] Open Scope Z_scope.

(** ** The threads *)

(** How the process ends: [main] returns, the process dies, or the fuel is used up: the turns
    of the polling loop, or those of the accept loop, which [stop] then still waits for. *)
Inductive process_end :=
  | Exited (status : Z) (a : Agent) (bpf : BpfState) (srv : option AgentServer.t)
  | Died (st : stop)
  | Unfinished.

Section process.
Context {W : Type} `{OS W} (regex_search : string → string → option bool).
Context (erase_order : list string → list string).

(** *** The server's thread *)

Definition sendResponse_thread (clientFd statusCode : Z) (statusText body : string)
    : thread W Shared unit :=
  Act (λ sh, sent ← AgentServer.sendResponse clientFd statusCode statusText body;
             mret (match sent with None => inl Terminated | Some _ => inr (tt, sh) end)) Done.

(** [AgentServer::handleClient] with the handlers of [Agent::initServer]. *)
Definition handleClient_thread (clientFd : Z) : thread W Shared unit :=
  received ← request (call (Recv clientFd 8191));
  match received with
  | None | Some "" => mret tt
  | Some bytes =>
      let req := AgentServer.parseRequest (str_take (Z.to_nat 8191) bytes) in
      if (AgentServer.method req =? "GET")%string && (AgentServer.path req =? "/health")%string then
        sendResponse_thread clientFd 200 "OK" AgentServer.healthy
      else if (AgentServer.method req =? "POST")%string
              && (AgentServer.path req =? "/long-dump-requests")%string then
        let containerId := extractJsonString (AgentServer.body req) "container_id" in
        let durationSec := extractJsonInt (AgentServer.body req) "duration_sec" 1200 in
        if empty containerId then
          sendResponse_thread clientFd 400 "Bad Request" AgentServer.id_required
        else
          _ ← requestLongDump_thread containerId durationSec;
          sendResponse_thread clientFd 202 "Accepted" AgentServer.dump_requested
      else if (AgentServer.method req =? "POST")%string
              && (AgentServer.path req =? "/policies")%string then
        let containerId := extractJsonString (AgentServer.body req) "container_id" in
        let policyId := extractJsonString (AgentServer.body req) "policy_id" in
        let policyType := extractJsonString (AgentServer.body req) "type" in
        if empty containerId || empty policyId then
          sendResponse_thread clientFd 400 "Bad Request" AgentServer.ids_required
        else
          success ← handlePolicy_thread containerId policyId policyType (AgentServer.body req);
          if success : bool then
            sendResponse_thread clientFd 200 "OK" (AgentServer.policy_status "APPLIED" policyId)
          else
            sendResponse_thread clientFd 500 "Internal Server Error"
              (AgentServer.policy_status "FAILED" policyId)
      else sendResponse_thread clientFd 404 "Not Found" AgentServer.not_found
  end.

Definition in_agent {A} (t : thread W Shared A) : thread W (Listener Shared) A :=
  within served set_served t.

Definition server_loop (turns : nat) : thread W (Listener Shared) loop_exit :=
  serverLoop_thread (λ fd, in_agent (handleClient_thread fd)) turns.

(** *** The main thread *)

(** The polling loop of [Agent::run]; the callback runs inside [ring_buffer__poll]. *)
Fixpoint poll_thread (fuel : nat) : thread W (Listener Shared) bool :=
  match fuel with
  | O => mret false
  | Datatypes.S fuel =>
      stopping ← request (call LoadSignalStop);
      if stopping : bool then mret true
      else
        '(samples, err) ← request (call (RingBufferPoll 100));
        _ ← in_agent (main_thread regex_search erase_order samples);
        if err =? - EINTR then mret true
        else if err <? 0 then mret true
        else poll_thread fuel
  end.

(** [Agent::run] from the start of the server to the join in [stop]; the flag says whether
    the loop was left. *)
Definition run_thread (fuel : nat) : thread W (Listener Shared) bool :=
  cfg ← observe (λ s, config_ (sh_agent (served s)));
  _ ← (if autoBaselineDump cfg
       then in_agent (requestLongDump_thread "baseline" (longDumpDefaultDurationSec cfg))
       else mret tt);
  finished ← poll_thread fuel;
  if negb finished then mret false
  else _ ← stop_thread; mret true.

(** *** The process *)

(** The join in [stop]: it returns when the loop has ended, and the thread is joinable no
    longer; as long as the loop has not ended it waits ([None]). *)
Definition join_server (joinable : bool) (exit : loop_exit) : IO W (option bool) :=
  if joinable then
    match exit with
    | Left => _ ← call ThreadJoin; mret (Some false)
    | OutOfTurns => mret None
    end
  else mret (Some joinable).

(** [Agent::run], with [loop] as the thread [AgentServer::start] creates. *)
Definition run_process (loop : thread W (Listener Shared) loop_exit) (sched : list bool) (fuel : nat)
    (a : Agent) : IO W process_end :=
  '(ok, bpf) ← initBpf;
  if negb ok then mret (Exited 1 a bpf None)
  else
    srv ← initServer (config_ a);
    let s := MkListener (AgentServer.serverFd_ srv) (AgentServer.running_ srv) (MkShared a ∅ 0) in
    r ← par sched (run_thread fuel) (if AgentServer.joinable srv then loop else mret Left) s;
    match r with
    | inl st => mret (Died st)
    | inr (false, _, _) => mret Unfinished
    | inr (true, exit, s) =>
        joined ← join_server (AgentServer.joinable srv) exit;
        match joined with
        | None => mret Unfinished
        | Some joinable =>
            bpf ← cleanupBpf bpf;
            mret (Exited 0 (sh_agent (served s)) bpf
              (Some (AgentServer.Mk (AgentServer.port_ srv) (listenFd s) (keepRunning s) joinable)))
        end
    end.

(** [main]. *)
Definition process (loop : thread W (Listener Shared) loop_exit) (sched : list bool) (fuel : nat)
    : IO W process_end :=
  cfg ← loadConfig;
  agent ← create cfg;
  match agent with
  | None => mret (Died Terminated)
  | Some a =>
      e ← run_process loop sched fuel a;
      match e with
      | Exited status a bpf srv =>
          '(bpf, srv) ← destroy bpf srv; mret (Exited status a bpf srv)
      | _ => mret e
      end
  end.
End process.

(** ** The main thread alone *)

Lemma par_done {W S A B} sched (t : thread W S A) (b : B) s σ :
  par sched t (Done b) s σ
  = (match (exec t s σ).1 with inl e => inl e | inr (a, s') => inr (a, b, s') end, (exec t s σ).2).
Proof.
  revert t s σ. induction sched as [|[] sched IH]; intros t s σ; cbn [par]; [| |apply IH].
  - unfold mbind, io_bind, mret, io_ret. cbn [fst snd].
    by destruct (exec t s σ) as [[e|[a s']] σ'].
  - destruct t as [a|X f k]; [apply IH|]. cbn [exec]. unfold mbind, io_bind, mret, io_ret. cbn [fst snd].
    destruct (f s σ) as [[e|[x s']] σ']; [done|]. apply IH.
Qed.

Section alone.
Context {W : Type} `{OS W} (regex_search : string → string → option bool).
Context (erase_order : list string → list string) (erase_perm : ∀ l, erase_order l ≡ₚ l).

(** A thread over the agent that ends as an action that may throw. *)
Definition ends_as (r : stop + unit * Shared) (b : option Agent) : Prop :=
  match b with
  | Some a => ∃ sh, r = inr (tt, sh) ∧ sh_agent sh = a
  | None => r = inl Terminated
  end.

Lemma sendResponse_alone fd code text b sh :
  acts_as (W:=W) (sendResponse_thread fd code text b) sh
    (sent ← AgentServer.sendResponse fd code text b; mret ((λ _, sh_agent sh) <$> sent)) ends_as.
Proof.
  intros σ. cbn. unfold mbind, io_bind, mret, io_ret. cbn [fst snd].
  destruct (AgentServer.sendResponse fd code text b σ) as [[u|] σ']; [|done]. split; [done|].
  by exists sh.
Qed.

(** A client is served as [AgentServer.v] says. *)
Lemma handleClient_alone fd sh :
  acts_as (W:=W) (handleClient_thread fd) sh
    (AgentServer.handleClient (Some long_dump_handler) (Some policy_handler) (sh_agent sh) fd) ends_as.
Proof.
  unfold handleClient_thread, AgentServer.handleClient. apply acts_request. intros received.
  assert (Hsame : acts_as (W:=W) (mret tt) sh (mret (Some (sh_agent sh))) ends_as)
    by (apply acts_ret; by exists sh).
  destruct received as [[|ch bytes]|]; [exact Hsame| |exact Hsame]. clear Hsame. cbv zeta.
  set (req := AgentServer.parseRequest _). destruct (_ && _); [apply sendResponse_alone|].
  destruct (_ && _).
  { destruct (empty _); [apply sendResponse_alone|].
    eapply acts_bind; [apply requestLongDump_alone| |].
    - intros e [a|] Hr; [by destruct Hr as (? & ? & _)|]. intros σ. by split; [|injection Hr as ->].
    - intros [] sh' [a|] Hr; [|done]. destruct Hr as (? & [= <-] & <-). apply sendResponse_alone. }
  destruct (_ && _); [|apply sendResponse_alone].
  destruct (_ || _); [apply sendResponse_alone|].
  eapply (acts_bind _ _ _ _ _ (λ r x, r = inr (x.1, with_agent x.2 sh))).
  - intros σ. unfold handlePolicy_thread, policy_handler, exec, mbind, io_bind. cbn.
    by destruct (handlePolicy _ _ _ _ _ σ) as [[ok a] σ'].
  - by intros e x ?.
  - intros ok sh' [ok' a] [= -> ->].
    cbn [fst snd]. assert (Ha : a = sh_agent (with_agent a sh)) by by destruct sh.
    set (sh1 := with_agent a sh) in *. clearbody sh1. subst a. destruct ok'; apply sendResponse_alone.
Qed.

(** The part of the agent. *)
Lemma in_agent_alone {A B} (t : thread W Shared A) s (m : IO W B) Q :
  acts_as t (served s) m (λ r b, match r with
                                 | inl e => Q (inl e) b
                                 | inr (a, sh) => Q (inr (a, set_served sh s)) b
                                 end) →
  acts_as (in_agent t) s m Q.
Proof. apply acts_within; [done|done|by intros []]. Qed.

Lemma samples_alone samples sh :
  acts_as (W:=W) (main_thread regex_search erase_order samples) sh
    (io_fold (λ a data, r ← handleEventThunk regex_search a data; mret r.2) (sh_agent sh) samples)
    (λ r a, ∃ sh', r = inr (tt, sh') ∧ sh_agent sh' = a).
Proof using erase_perm.
  intros σ. unfold main_thread.
  destruct (threads_of_alone regex_search erase_order (map Sample samples) sh erase_perm σ) as [H1 H2].
  rewrite <-(poll_batch_is_steps regex_search (sh_agent sh) samples σ) in H1, H2. split; [exact H1|exact H2].
Qed.

Lemma poll_alone fuel s :
  acts_as (W:=W) (poll_thread regex_search erase_order fuel) s
    (poll_loop regex_search fuel (sh_agent (served s)))
    (λ r b, ∃ sh, r = inr (b.1, set_served sh s) ∧ sh_agent sh = b.2).
Proof using erase_perm.
  revert s. induction fuel as [|n IH]; intros s; cbn [poll_thread poll_loop].
  { apply acts_ret. exists (served s). by destruct s. }
  apply acts_request. intros []; [apply acts_ret; exists (served s); by destruct s|].
  apply acts_request. intros [samples err].
  eapply (acts_bind _ _ _ _ _ (λ r a, ∃ sh, r = inr (tt, set_served sh s) ∧ sh_agent sh = a)).
  - apply in_agent_alone. eapply acts_mono; [apply samples_alone|].
    intros r a (sh & -> & Ha). by exists sh.
  - by intros e a (? & ? & _).
  - intros [] s1 a (sh & [= ->] & <-).
    case_bool; [apply acts_ret; by exists sh|]. case_bool; [apply acts_ret; by exists sh|].
    eapply acts_mono; [apply IH|]. intros r b (sh' & -> & Hb). by exists sh'.
Qed.

(** [Agent::run] between the start of the server and the clean-up, in [Agent.v]. *)
Definition run_middle (fuel : nat) (a : Agent) (srv : AgentServer.t)
    : IO W (option (bool * Agent * AgentServer.t)) :=
  started ← (if autoBaselineDump (config_ a)
             then requestLongDump a "baseline" (longDumpDefaultDurationSec (config_ a))
             else mret (Some a));
  match started with
  | None => mret None
  | Some a =>
      '(finished, a) ← poll_loop regex_search fuel a;
      if negb finished then mret (Some (false, a, srv))
      else srv ← AgentServer.stop srv; mret (Some (true, a, srv))
  end.

Lemma run_alone fuel a srv :
  acts_as (finished ← run_thread regex_search erase_order fuel;
           if finished && AgentServer.joinable srv
           then _ ← request (call (W:=W) ThreadJoin); mret true else mret finished)
    (MkListener (AgentServer.serverFd_ srv) (AgentServer.running_ srv) (MkShared a ∅ 0))
    (run_middle fuel a srv)
    (λ r b, match b with
            | None => r = inl Terminated
            | Some (finished, a, srv') => ∃ sh, sh_agent sh = a
                ∧ r = inr (finished, MkListener (AgentServer.serverFd_ srv') (AgentServer.running_ srv') sh)
            end).
Proof using erase_perm.
  unfold run_middle, run_thread. set (s := MkListener _ _ _).
  apply acts_observe. change (config_ (sh_agent (served s))) with (config_ a).
  apply acts_regroup.
  eapply (acts_bind _ _ _ _ _ (λ r b, match b with
    | None => r = inl Terminated
    | Some a' => ∃ sh, sh_agent sh = a' ∧ r = inr (tt, set_served sh s) end)).
  { destruct (autoBaselineDump _); [|apply acts_ret; exists (MkShared a ∅ 0); by split].
    apply in_agent_alone. eapply acts_mono; [apply requestLongDump_alone|].
    intros r [a'|]; [|by intros ->]. intros (sh & -> & Ha). by exists sh. }
  { intros e [a'|] Hr; [by destruct Hr as (? & _ & ?)|]. intros σ. split; [done|]. by injection Hr as ->. }
  intros [] s1 [a1|] Hr; [|done]. destruct Hr as (sh1 & <- & [= ->]).
  apply acts_regroup. eapply acts_bind; [apply poll_alone| |].
  { by intros e b (? & ? & _). }
  intros fin s2 [fin' a2] (sh2 & Heq & Ha). cbn [fst snd] in *. injection Heq as -> ->. subst a2.
  destruct fin'; cbn [negb]; [|apply acts_ret; exists sh2; by split].
  intros σ. destruct (stop_alone srv sh2 σ) as [H1 H2]. unfold stop_and_join in H1, H2.
  rewrite !exec_bind in *. change (set_served sh2 (set_served sh1 s)) with
    (MkListener (AgentServer.serverFd_ srv) (AgentServer.running_ srv) sh2).
  set (r := exec stop_thread _ σ) in *. destruct r as [[e|[[] s3]] σ3]; cbn [fst snd] in *; [done|].
  unfold mbind at 1 2, io_bind. destruct (AgentServer.joinable srv); cbn in H1, H2 |- *.
  - unfold mbind, io_bind, mret, io_ret in *. cbn [fst snd] in *. injection H2 as ->.
    split; [exact H1|]. by exists sh2.
  - unfold mret, io_ret in *. cbn [fst snd] in *. injection H2 as ->. split; [exact H1|]. by exists sh2.
Qed.

(** The ends agree. *)
Definition same_end (p : process_end) (e : run_end) : Prop :=
  match e with
  | Exit status a bpf srv => p = Exited status a bpf srv
  | Terminate => p = Died Terminated
  | StillRunning _ => p = Unfinished
  end.

Lemma stop_value srv σ : ∃ fd,
  (AgentServer.stop (W:=W) srv σ).1 = AgentServer.Mk (AgentServer.port_ srv) fd false false.
Proof using Type. by eexists. Qed.

Lemma run_process_alone sched fuel a σ :
  let p := run_process (W:=W) regex_search erase_order (mret Left) sched fuel a σ in
  let m := Agent.run regex_search fuel a σ in
  p.2 = m.2 ∧ same_end p.1 m.1.
Proof using erase_perm.
  cbv zeta. unfold run_process, Agent.run, mbind, io_bind, mret, io_ret. cbn [fst snd].
  destruct (initBpf σ) as [[ok bpf] σ0]. cbn [fst snd]. destruct ok; cbn [negb]; [|done]. cbn [fst snd].
  destruct (initServer (config_ a) σ0) as [srv σ1]. cbn [fst snd].
  destruct (run_alone fuel a srv σ1) as [H1 H2].
  rewrite exec_bind in H1, H2. unfold run_middle, mbind, io_bind, mret, io_ret in H1, H2. cbn [fst snd] in H1, H2.
  match goal with |- context [par sched ?t ?l ?s σ1] =>
    replace (par sched t l s σ1) with (par sched t (Done Left) s σ1) by by destruct (AgentServer.joinable srv)
  end. rewrite par_done. cbn [fst snd].
  set (r := exec (run_thread _ _ _) _ σ1) in *. clearbody r.
  match goal with |- context [(if autoBaselineDump (config_ a) then ?x else ?y) σ1] =>
    destruct ((if autoBaselineDump (config_ a) then x else y) σ1) as [[a1|] σ2]
  end; cbn [fst snd] in *; cycle 1.
  { destruct r as [[e|[fin s]] σ3]; cbn [fst snd] in *; [by simplify_eq|].
    by destruct (fin && _). }
  destruct (poll_loop regex_search fuel a1 σ2) as [[[] a2] σ3]; cbn [fst snd negb] in *; cycle 1.
  { destruct r as [[e|[fin s]] σ4]; cbn [fst snd] in *; [by destruct H2 as (? & _ & ?)|].
    destruct fin, (AgentServer.joinable srv); cbn in H1, H2; destruct H2 as (sh & _ & ?); simplify_eq.
    all: by subst. }
  destruct (stop_value srv σ3) as [fd' Hst]. destruct (AgentServer.stop srv σ3) as [srv' σ4].
  cbn [fst snd] in *. subst srv'.
  destruct r as [[e|[fin s]] σ5]; cbn [fst snd] in *; [by destruct H2 as (? & _ & ?)|].
  destruct fin, (AgentServer.joinable srv); cbn in H1, H2; destruct H2 as (sh & Ha & ?); simplify_eq/=.
  all: by split.
Qed.

Lemma process_alone sched fuel σ :
  let p := process (W:=W) regex_search erase_order (mret Left) sched fuel σ in
  let m := Agent.main regex_search fuel σ in
  p.2 = m.2 ∧ same_end p.1 m.1.
Proof using erase_perm.
  cbv zeta. unfold process, main, mbind, io_bind. cbn [fst snd].
  destruct (loadConfig σ) as [cfg σ1]. cbn [fst snd].
  destruct (create cfg σ1) as [[a|] σ2]; cbn [fst snd]; [|done].
  destruct (run_process_alone sched fuel a σ2) as [H1 H2].
  destruct (run_process _ _ _ _ _ a σ2) as [p σ3], (Agent.run regex_search fuel a σ2) as [e σ4].
  cbn [fst snd] in *. subst σ4. destruct e as [status a' bpf srv| |a']; cbn in H2; subst p; [|done..].
  by destruct (destroy bpf srv σ3) as [[bpf' srv'] σ5].
Qed.
End alone.

(** ** What the process saw *)

(** The samples the ring buffer gave, in order. *)
Definition polled (tr : list event) : list (list Z) :=
  concat (omap (λ e, match e with Ev (RingBufferPoll _) r => Some r.1 | _ => None end) tr).

(** An event that neither posts nor polls. *)
Definition aside (e : event) : Prop :=
  match e with
  | Ev (RingBufferPoll _) _ => False
  | Ev (CurlPerform (CurlRequest None _ (Some _) _)) _ => False
  | _ => True
  end.

Definition no_poll (e : event) : Prop :=
  match e with Ev (RingBufferPoll _) _ => False | _ => True end.

Lemma aside_unposted e : aside e → unposted e.
Proof. by destruct e as [A []]. Qed.
Lemma aside_no_poll e : aside e → no_poll e.
Proof. by destruct e as [A []]. Qed.

Lemma polled_app t t' : polled (t ++ t') = polled t ++ polled t'.
Proof. unfold polled. by rewrite omap_app, concat_app. Qed.

Lemma no_poll_polled t : Forall no_poll t → polled t = [].
Proof.
  unfold polled. induction 1 as [|[A c a] t He _ IH]; [done|]. cbn [omap list_omap].
  by destruct c.
Qed.

(** What one thread relies upon when it owns the windows and the ring buffer. *)
Definition elsewise (cfg : AgentConfig) (s s' : Listener Shared) (e : list event) : Prop :=
  keeps cfg (served s) (served s') e ∧ Forall no_poll e.

#[export] Instance elsewise_rely cfg : Rely (elsewise cfg).
Proof.
  split; [intros s; by split; [apply keeps_rely|]|].
  intros s s1 s2 t1 t2 [K1 P1] [K2 P2]. split; [by eapply rely_trans|by apply Forall_app_2].
Qed.

Lemma elsewise_same cfg s s' e :
  served s' = served s → Forall aside e → elsewise cfg s s' e.
Proof.
  unfold elsewise. intros -> He. split; [|by eapply Forall_impl, aside_no_poll]. split_and!; [done..|].
  exists []. apply effects_unposted. by eapply Forall_impl, aside_unposted.
Qed.


(** ** What the threads emit *)

Section emits.
Context {W : Type} `{OS W} (regex_search : string → string → option bool).
Context (erase_order : list string → list string).

#[local] Instance on_stream_inner f :
  (∀ st, Emits inner (f st)) → EmitsT (W:=W) inner (on_stream f).
Proof. intros. unfold on_stream. apply _. Qed.

#[local] Instance post_retry_inner url body : Emits inner (postJsonWithRetry (W:=W) url body 3 5).
Proof. apply _. Qed.

#[local] Instance notify_inner cfg : EmitsT (W:=W) inner (notifyDumpComplete_thread cfg).
Proof. unfold notifyDumpComplete_thread. apply _. Qed.

#[local] Instance append_inner cfg evt : EmitsT (W:=W) inner (appendLongDump_thread cfg evt).
Proof. unfold appendLongDump_thread, stream_close, stream_write. apply _. Qed.

#[local] Instance flush_inner cfg evt : EmitsT (W:=W) inner (flush_thread cfg evt).
Proof. unfold flush_thread, processShortWindow_thread. apply _. Qed.

#[local] Instance queue_inner evt : EmitsT (W:=W) inner (queue_thread evt).
Proof. unfold queue_thread. apply _. Qed.

#[local] Instance expire_inner cfg now : EmitsT (W:=W) inner (stopExpired_thread cfg now).
Proof. unfold stopExpired_thread, stream_close. apply _. Qed.

#[local] Instance start_inner cfg id dur : EmitsT (W:=W) inner (startLongDump_thread cfg id dur).
Proof.
  unfold startLongDump_thread, stream_open, stream_write, nowTimestampForFile, monotonicNowNs.
  cbv zeta. apply _.
Qed.

#[local] Instance with_iterator_inner {A} epoch (f : Shared → A * Shared) :
  EmitsT (W:=W) inner (with_iterator epoch f).
Proof. unfold with_iterator. apply _. Qed.

#[local] Instance on_inner r {A} (t : thread W ContainerBuffer A) : EmitsT inner t → EmitsT inner (on r t).
Proof. intros. unfold on. apply _. Qed.

#[local] Instance named_ref_inner id : EmitsT (W:=W) inner (named_ref id).
Proof. unfold named_ref, buffer_ref. apply _. Qed.

#[local] Instance expire_all_inner cfg now : EmitsT (W:=W) inner (stopExpiredLongDumps_thread cfg now).
Proof. unfold stopExpiredLongDumps_thread, begin_walk, iterator_ref, advance, hash_order. apply _. Qed.

#[local] Instance cleanup_inner now : EmitsT (W:=W) inner (cleanupInactiveBuffers_thread erase_order now).
Proof.
  unfold cleanupInactiveBuffers_thread, cleanup_one, iterator_ref, advance, erase_at. apply _.
Qed.

#[export] Instance request_thread_inner id dur : EmitsT (W:=W) inner (requestLongDump_thread id dur).
Proof. unfold requestLongDump_thread. apply _. Qed.

#[export] Instance policy_thread_inner c p ty s : EmitsT (W:=W) inner (handlePolicy_thread c p ty s).
Proof.
  unfold handlePolicy_thread, handlePolicy, PolicyEnforcer.apply, PolicyEnforcer.writeSeccompProfile,
    PolicyEnforcer.getContainerIdFromName, PolicyEnforcer.httpDockerGet,
    PolicyEnforcer.updateContainerSeccomp, PolicyEnforcer.nowNs, stream_open, stream_write,
    stream_close.
  cbv zeta. apply _.
Qed.

#[export] Instance samples_inner samples : EmitsT (W:=W) inner (main_thread regex_search erase_order samples).
Proof.
  unfold main_thread. apply emitsT_each. intros [data| |]; cbn [thread_of]; [|apply _..].
  unfold handleEventThunk_thread, handleEvent_thread, mapContainerId_thread, mapContainerId. cbv zeta. apply _.
Qed.

#[export] Instance client_inner fd : EmitsT (W:=W) inner (handleClient_thread fd).
Proof. unfold handleClient_thread, sendResponse_thread, AgentServer.sendResponse. cbv zeta. apply _. Qed.
End emits.

Lemma inner_no_poll e : inner e → no_poll e.
Proof. by destruct e as [A []]. Qed.

(** ** The events of the process *)

Section saw.
Context {W : Type} `{OS W} (regex_search : string → string → option bool).
Context (erase_order : list string → list string) (cfg : AgentConfig) (Hurl : url_ok cfg).

Abbreviation others := (always (W:=W) (elsewise cfg) anything).

(** A thread over the agent that leaves the windows alone. *)
Lemma in_agent_others {A} (t : thread W Shared A) :
  always (keeps cfg) anything t → EmitsT inner t → others (in_agent t).
Proof using Type.
  intros Hk He. apply (emitsT_mono _ _ _ inner_no_poll) in He.
  eapply always_within; [|exact (always_emits _ _ _ _ Hk He)]. by intros s x e [H1 H2].
Qed.

Lemma others_aside {A} (m : IO W A) : Emits aside m → others (request m).
Proof using Type.
  intros Hm. apply always_act; [|done]. intros s. apply holds_bind. eapply holds_mono; [apply Hm|].
  intros a e He. apply holds_ret. rewrite app_nil_r. by apply elsewise_same.
Qed.

Lemma others_observe {B} (f : Listener Shared → B) : others (observe f).
Proof using Type. apply always_act; [|done]. intros s. apply holds_ret. by apply elsewise_same. Qed.

Lemma others_modify (g : Listener Shared → Listener Shared) :
  (∀ s, served (g s) = served s) → others (modify g).
Proof using Type. intros Hg. apply always_act; [|done]. intros s. apply holds_ret. by apply elsewise_same. Qed.

Lemma handleClient_keeps fd : always (keeps cfg) anything (handleClient_thread (W:=W) fd).
Proof using Type.
  assert (Hsame : ∀ (sh : Shared) e, Forall unposted e → keeps cfg sh sh e).
  { intros sh e He. split_and!; [done..|]. exists []. by apply effects_unposted. }
  assert (Hsend : ∀ fd code text b, always (keeps cfg) anything (sendResponse_thread (W:=W) fd code text b)).
  { intros. apply always_act; [|done]. intros sh. unfold AgentServer.sendResponse. do 3 io_step.
    apply holds_ret, holds_ret. destruct a; [|done]. by apply Hsame; repeat constructor. }
  unfold handleClient_thread. apply always_bind.
  { apply always_act; [|done]. intros sh. do 2 io_step. apply holds_ret. apply Hsame. by repeat constructor. }
  intros [[|ch bytes]|]; [done| |done]. cbv zeta. set (req := AgentServer.parseRequest _).
  destruct (_ && _); [apply Hsend|]. destruct (_ && _).
  { destruct (empty _); [apply Hsend|]. apply always_bind; [apply requestLongDump_keeps|done]. }
  destruct (_ && _); [|apply Hsend]. destruct (_ || _); [apply Hsend|].
  apply always_bind; [apply handlePolicy_keeps|]. intros []; apply Hsend.
Qed.

Lemma server_loop_others turns : others (server_loop turns).
Proof using Type.
  apply serverLoop_always; [done| |].
  - intros s e He. apply elsewise_same; [done|]. eapply Forall_impl; [exact He|]. by intros [A []].
  - intros fd. apply in_agent_others; [apply handleClient_keeps|apply _].
Qed.

Lemma stop_thread_others : others stop_thread.
Proof using Type.
  unfold stop_thread, close_listener. apply always_bind; [by apply others_modify|]. intros [].
  apply always_bind; [apply others_observe|]. intros fd. destruct (_ <=? _); [|done].
  repeat (apply always_bind; [apply others_observe || apply others_aside, _|intros ?]).
  by apply others_modify.
Qed.

(** *** The main thread *)

(** What was polled is accounted for. *)
Definition recounted (p0 : string → list SyscallEvent) (s : Listener Shared) (tr : list event) : Prop :=
  ∃ log, attributed regex_search cfg (map Sample (polled tr)) log
    ∧ balanced cfg p0 (λ c, events_of c log) (served s) tr.

Lemma recounted_elsewise p0 s s' tr e :
  elsewise cfg s s' e → recounted p0 s tr → recounted p0 s' (tr ++ e).
Proof using Type.
  intros [Hk Hp] (log & Ha & Hb). exists log. split; [|by eapply balanced_keeps].
  by rewrite polled_app, (no_poll_polled _ Hp), app_nil_r.
Qed.

Abbreviation main_safe := (safe (W:=W) (elsewise cfg) (λ _ _ _, True) anything).

Lemma others_safe {A} (t : thread W (Listener Shared) A) p0 s tr :
  others t → recounted p0 s tr → main_safe t (λ _, recounted p0) s tr.
Proof using Type.
  intros Ht Hs. apply (safe_guarantee _ (elsewise cfg)); [done|].
  apply always_safe; [|by intros; by eapply recounted_elsewise..|done|done].
  intros. by eapply recounted_elsewise.
Qed.

Lemma attributed_more l1 l2 log1 log2 :
  attributed regex_search cfg l1 log1 → attributed regex_search cfg l2 log2 →
  attributed regex_search cfg (l1 ++ l2) (log1 ++ log2).
Proof using Type. intros H1 H2. induction H1; cbn [app]; eauto using attributed. Qed.

(** A batch of samples is polled and handled. *)
Lemma batch_safe samples p0 s tr s1 t1 err :
  recounted p0 s tr → elsewise cfg s s1 t1 →
  main_safe (in_agent (main_thread regex_search erase_order samples)) (λ _, recounted p0) s1
    (tr ++ t1 ++ [Ev (RingBufferPoll 100) (samples, err)]).
Proof using Hurl.
  intros Hs H1. destruct (recounted_elsewise _ _ _ _ _ H1 Hs) as (log & Ha & Hb).
  rewrite app_assoc. set (tr1 := tr ++ t1) in *. set (ev := Ev _ _).
  assert (Hb' : balanced cfg p0 (λ c, events_of c log) (served s1) (tr1 ++ [ev])).
  { eapply balanced_same; [done|done| |exact Hb]. exists []. apply effects_unposted. by repeat constructor. }
  eapply safe_mono.
  { apply (safe_within _ _ (λ s s' e, keeps cfg s s' e ∧ Forall no_poll e)); [done|done|].
    apply (safe_emits _ _ _ no_poll); [by intros s0 s' e [_ ?]| |].
    - apply (emitsT_mono inner); [apply inner_no_poll|apply _].
    - eapply safe_rely; [|by apply main_thread_safe]. by intros s0 s' e [? _]. }
  intros [] s2 tr2 [(log2 & Ha2 & Hb2) (e & -> & He)].
  exists (log ++ log2). split.
  - rewrite !polled_app, (no_poll_polled _ He), app_nil_r, map_app. apply attributed_more; [done|].
    unfold polled. cbn. by rewrite app_nil_r.
  - destruct Hb2 as (C & V & ws & ns & E & Hw & Hb2). split_and!; [done..|]. exists ws, ns.
    split_and!; [done..|]. intros c. by rewrite Hb2, events_of_app.
Qed.

Lemma poll_safe fuel p0 s tr :
  recounted p0 s tr →
  main_safe (poll_thread regex_search erase_order fuel) (λ _, recounted p0) s tr.
Proof using Hurl.
  revert s tr. induction fuel as [|n IH]; intros s tr Hs; [done|]. cbn [poll_thread].
  apply safe_bind. eapply safe_mono; [apply others_safe; [apply others_aside, _|done]|].
  intros [] s1 tr1 H1; [done|]. intros s2 t2 H2. do 2 io_step. apply holds_ret. split; [done|].
  cbn [app]. destruct a as [samples err]. apply safe_bind.
  eapply safe_mono; [by eapply batch_safe|]. intros [] s3 tr3 H3.
  case_bool; [done|]. case_bool; [done|]. by apply IH.
Qed.

Lemma run_thread_safe fuel p0 s tr :
  recounted p0 s tr →
  main_safe (run_thread regex_search erase_order fuel) (λ _, recounted p0) s tr.
Proof using Hurl.
  intros Hs. unfold run_thread. apply safe_bind.
  eapply safe_mono; [apply others_safe; [apply others_observe|done]|]. intros cfg' s1 tr1 H1.
  apply safe_bind. eapply safe_mono.
  { apply others_safe; [|exact H1]. destruct (autoBaselineDump cfg'); [|done].
    apply in_agent_others; [apply requestLongDump_keeps|apply _]. }
  intros [] s2 tr2 H2. apply safe_bind. eapply safe_mono; [by apply poll_safe|].
  intros [] s3 tr3 H3; cbn [negb]; [|done]. apply safe_bind.
  eapply safe_mono; [apply others_safe; [apply stop_thread_others|exact H3]|done].
Qed.
End saw.

(** *** From start to end *)

(** What an agent holds at the end, and what was posted, is what was polled. *)
Definition accounted (regex_search : string → string → option bool) (cfg : AgentConfig) (a : Agent)
    (tr : list event) : Prop :=
  config_ a = cfg ∧ ∃ log ws ns,
    attributed regex_search cfg (map Sample (polled tr)) log
    ∧ effects cfg tr ws ns ∧ Forall (window_ok cfg) ws
    ∧ ∀ c, flushed c ws ++ pending a c = events_of c log.

Section whole.
Context {W : Type} `{OS W} (regex_search : string → string → option bool).
Context (erase_order : list string → list string).

Lemma accounted_around cfg a t1 tr t2 :
  Forall aside t1 → Forall aside t2 → accounted regex_search cfg a tr →
  accounted regex_search cfg a (t1 ++ tr ++ t2).
Proof.
  intros H1 H2 (Hc & log & ws & ns & Ha & He & Hw & Hb). split; [done|].
  assert (Hp : ∀ t, Forall aside t → polled t = [] ∧ effects cfg t [] []).
  { intros t Ht. split; [eapply no_poll_polled, Forall_impl, aside_no_poll; exact Ht|].
    eapply effects_unposted, Forall_impl, aside_unposted; exact Ht. }
  destruct (Hp _ H1) as [P1 E1], (Hp _ H2) as [P2 E2]. exists log, ws, ns.
  rewrite !polled_app, P1, P2, app_nil_r. split_and!; [done| |done..].
  apply (effects_app _ _ _ [] ws [] ns E1). rewrite <-(app_nil_r ws), <-(app_nil_r ns).
  by apply effects_app.
Qed.

#[local] Instance loadConfig_aside : Emits aside (loadConfig (W:=W)).
Proof. unfold loadConfig, envOrDefault, envOrDefaultInt, envOrDefaultBool. apply _. Qed.

#[local] Instance create_aside cfg : Emits aside (create (W:=W) cfg).
Proof.
  unfold create, PolicyEnforcer.create, ContainerMapper.create, ContainerMapper.detectRuntime,
    ContainerMapper.execCommand, ContainerMapper.fileExists. cbv zeta. apply _.
Qed.

#[local] Instance initBpf_aside : Emits aside (initBpf (W:=W)).
Proof. unfold initBpf. apply _. Qed.
#[local] Instance initServer_aside cfg : Emits aside (initServer (W:=W) cfg).
Proof. unfold initServer, AgentServer.start. apply _. Qed.
#[local] Instance cleanupBpf_aside s : Emits aside (cleanupBpf (W:=W) s).
Proof. unfold cleanupBpf, release. apply _. Qed.
#[local] Instance destroy_aside bpf srv : Emits aside (destroy (W:=W) bpf srv).
Proof. unfold destroy, AgentServer.stop. apply _. Qed.

Lemma threads_accounted cfg sched fuel (loop : thread W (Listener Shared) loop_exit) s :
  agent_ok (sh_agent (served s)) → config_ (sh_agent (served s)) = cfg →
  buffers_ (sh_agent (served s)) = ∅ → always (elsewise cfg) anything loop →
  holds (W:=W) (par sched (run_thread regex_search erase_order fuel) loop s) (λ r tr,
    match r with
    | inl _ => True
    | inr (_, _, s') => accounted regex_search cfg (sh_agent (served s')) tr
    end).
Proof.
  intros Hok Hcfg Hb Hloop. assert (Hurl : url_ok cfg) by (rewrite <-Hcfg; apply Hok).
  assert (Hp0 : ∀ c, pending (sh_agent (served s)) c = [])
    by (intros c; unfold pending; by rewrite Hb, lookup_empty).
  eapply holds_mono.
  { eapply (par_safe (elsewise cfg) (λ _ _ _, True) (λ _ _ _, True) (elsewise cfg) anything _ _ _
      (λ _ s' tr, recounted regex_search cfg (pending (sh_agent (served s))) s' tr)
      (λ _ _ _, True) s []).
    - done.
    - done.
    - intros _ s1 s2 tr e He Hr. by eapply recounted_elsewise.
    - done.
    - apply run_thread_safe; [done|]. exists []. split; [constructor|].
      rewrite <-Hcfg. by apply balanced_start.
    - by apply (always_safe _ _ _ _ (λ _ _, True)). }
  intros [st|[[x y] s']] tr; [done|]. intros [(log & Ha & Hcfg' & _ & ws & ns & He & Hw & Hc) _].
  split; [done|]. exists log, ws, ns. split_and!; [done..|]. intros c.
  by rewrite pending_view, Hc, Hp0.
  Unshelve. by split.
Qed.

Lemma run_process_accounted loop sched fuel a :
  agent_ok a → buffers_ a = ∅ → always (W:=W) (elsewise (config_ a)) anything loop →
  holds (run_process regex_search erase_order loop sched fuel a) (λ r tr,
    match r with
    | Exited _ a' _ _ => accounted regex_search (config_ a) a' tr
    | _ => True
    end).
Proof.
  intros Hok Hb Hloop. unfold run_process. io_step.
  apply (holds_mono _ (λ _ t, Forall aside t)); [apply emits|]. intros [ok bpf] t0 Ht0. io_step.
  { io_step. apply (accounted_around (config_ a) a t0 [] []); [done..|]. split; [done|].
    exists [], [], []. split_and!; [constructor|by apply effects_unposted|done|].
    intros c. unfold pending. by rewrite Hb, lookup_empty. }
  io_step. apply (holds_mono _ (λ _ t, Forall aside t)); [apply emits|]. intros srv t1 Ht1. io_step.
  eapply holds_mono.
  { apply (threads_accounted (config_ a)); [exact Hok|done|exact Hb|]. by destruct (AgentServer.joinable srv). }
  intros [st|[[[] exit] s']] t2 Ht2; [by io_step| |by io_step]. io_step.
  apply (holds_mono _ (λ _ t, Forall aside t)); [unfold join_server; apply emits|].
  intros [joinable|] t3 Ht3; [|by io_step]. io_step.
  apply (holds_mono _ (λ _ t, Forall aside t)); [apply emits|]. intros bpf' t4 Ht4. io_step.
  rewrite app_nil_r. rewrite (app_assoc t0), (app_assoc (t0 ++ t1)). rewrite <-(app_assoc (t0 ++ t1)).
  apply accounted_around; [by apply Forall_app_2..|exact Ht2].
Qed.

Lemma create_fresh cfg :
  holds (create (W:=W) cfg) (λ r _, ∀ a, r = Some a → config_ a = cfg ∧ buffers_ a = ∅).
Proof.
  unfold create. io_step. apply holds_any; [unfold PolicyEnforcer.create; cbv zeta; apply _|].
  intros [e|] t; [|io_step; by intros]. io_step; [io_step; by intros a [= <-]|].
  io_step. apply holds_any; [unfold ContainerMapper.create, ContainerMapper.detectRuntime,
    ContainerMapper.execCommand, ContainerMapper.fileExists; apply _|].
  intros m t'. io_step. by intros a [= <-].
Qed.

#[local] Instance inner_true {A} (t : thread W Shared A) : EmitsT inner t → EmitsT (λ _, True) t.
Proof. by apply emitsT_mono. Qed.

#[local] Instance run_thread_true fuel : EmitsT (W:=W) (λ _, True) (run_thread regex_search erase_order fuel).
Proof.
  assert (Hpoll : ∀ fuel, EmitsT (W:=W) (λ _, True) (poll_thread regex_search erase_order fuel)).
  { clear fuel. intros n. induction n as [|n IH]; cbn [poll_thread]; unfold in_agent; apply _. }
  pose proof (stop_thread_emits (W:=W) (S:=Shared) (λ _, True) (λ _ _, I) (λ _ _, I)).
  unfold run_thread, in_agent. apply _.
Qed.

#[local] Instance server_loop_true turns : EmitsT (λ _, True) (server_loop (W:=W) turns).
Proof. apply serverLoop_emits; [done|]. intros fd. unfold in_agent. apply _. Qed.

Lemma process_accounted sched fuel turns :
  holds (W:=W) (process regex_search erase_order (server_loop turns) sched fuel) (λ r tr,
    match r with
    | Exited _ a _ _ => ∃ env t, tr = env_reads env variables ++ t
        ∧ (url_ok (env_table env) → accounted regex_search (env_table env) a tr)
    | _ => True
    end).
Proof.
  unfold process. io_step.
  eapply holds_mono; [apply (holds_emits aside); [apply _|apply loadConfig_table]|].
  intros cfg t0 [(env & -> & ->) Ht0]. set (cfg := env_table env) in *. io_step.
  eapply holds_mono; [apply (holds_emits aside); [apply _|apply create_fresh]|].
  intros [a|] t1 [Hf Ht1]; [|by io_step]. destruct (Hf a eq_refl) as [Hcfg Hb]. clear Hf.
  io_step. eapply holds_mono.
  { apply (holds_impl (url_ok cfg) _ (λ r tr,
      match r with Exited _ a' _ _ => accounted regex_search cfg a' tr | _ => True end)).
    - apply holds_any; [|done]. unfold run_process, join_server.
      pose proof (λ c, emits_mono aside (λ _, True) _ (λ _ _, I) (initServer_aside c)).
      pose proof (emits_mono aside (λ _, True) _ (λ _ _, I) initBpf_aside).
      pose proof (λ s, emits_mono aside (λ _, True) _ (λ _ _, I) (cleanupBpf_aside s)).
      apply _.
    - intros Hurl. rewrite <-Hcfg. apply run_process_accounted; [split; [by rewrite Hcfg|by rewrite Hb]|done|].
      apply server_loop_others. }
  intros [status a' bpf srv|st|] t2 H2; [|by io_step..]. io_step.
  apply (holds_mono _ (λ _ t, Forall aside t)); [apply emits|]. intros [bpf' srv'] t3 Ht3. io_step.
  exists env, (t1 ++ t2 ++ t3 ++ []). split; [done|]. intros Hurl. rewrite app_assoc, app_nil_r.
  apply accounted_around; [by apply Forall_app_2|done|by apply H2].
Qed.
End whole.

(** ** Properties *)

(** C12: the process and [main].  With a server that never takes a turn, the process of the two
    threads, statement by statement, is the [main] of [Agent.v], whatever the schedule: the
    same system calls in the same order, and the same end. *)
Theorem process_refines_main {W} `{OS W} regex_search erase_order sched fuel w :
  (∀ l, erase_order l ≡ₚ l) →
  let p := IO.run (process (W:=W) regex_search erase_order (mret Left) sched fuel) w in
  let m := IO.run (Agent.main regex_search fuel) w in
  p.2 = m.2 ∧ same_end p.1 m.1.
Proof.
  intros Hperm. destruct (process_alone (W:=W) regex_search erase_order Hperm sched fuel (IOState w [])) as [H1 H2].
  unfold IO.run. cbn [fst snd]. by rewrite H1.
Qed.

(** C1: from the tracepoint to the network.  Whatever clients send, whatever the machine
    answers and however the statements of the two threads interleave, when [main] returns
    the samples polled from the ring buffer are accounted for: each was dropped, or given
    to one container; and for each container the windows posted, followed by what still
    waits for it when the process ends, are its events, once each, in order.  If the samples
    are those of a sequence of firings of the tracepoint, these are the events of the
    firings that found room in the ring buffer.  All of it under the settings read from the
    environment at the start. *)
Theorem process_conserved {W} `{OS W} regex_search erase_order sched fuel turns :
  holds (W:=W) (process regex_search erase_order (server_loop turns) sched fuel) (λ r tr,
    match r with
    | Exited _ a _ _ => ∃ env t, tr = env_reads env variables ++ t ∧
        let cfg := env_table env in
        (url_ok cfg → ∃ log ws ns,
          attributed regex_search cfg (map Sample (polled tr)) log
          ∧ (∀ fs, Forall firing_wf fs → polled tr = foldl fire [] fs →
               witnessed regex_search cfg fs log)
          ∧ effects cfg tr ws ns ∧ Forall (window_ok cfg) ws
          ∧ ∀ c, flushed c ws ++ pending a c = events_of c log)
    | _ => True
    end).
Proof.
  eapply holds_mono; [apply process_accounted|]. intros [status a bpf srv| |] tr; [|done..].
  intros (env & t & Htr & Ha). exists env, t. split; [done|]. intros cfg Hurl.
  destruct (Ha Hurl) as (_ & log & ws & ns & Hat & Hrest). exists log, ws, ns. split_and!; [done| |by apply Hrest..].
  intros fs Hfs Hp. apply attributed_witnessed; [done|]. by rewrite <-Hp.
Qed.

(** *** On a sample machine *)

(** Windows of one second and one event; the firings of [sample_firings] are polled at once. *)
Definition sample_env (k : string) : option string :=
  if decide (k = "DK_SHORT_WINDOW_SEC") then Some "1"
  else if decide (k = "DK_MIN_EVENTS_PER_WINDOW") then Some "1"
  else None.

Definition sample_machine : script :=
  with_env sample_env (with_polls [(foldl fire [] sample_firings, 3)] bare).

(** The process on it, while clients keep connecting. *)
Definition sample_process (sched : list bool) : process_end * list event :=
  IO.run (process subset_regex (λ l, l) (server_loop (Datatypes.S (length sched))) sched 5) sample_machine.

(** How many events wait for each container when [main] returns. *)
Definition waiting_at_end (e : process_end) : option (Z * list nat) :=
  match e with
  | Exited status a _ _ => Some (status, (λ b, length (currentShortWindow b)) <$> (map_to_list (buffers_ a)).*2)
  | _ => None
  end.

Lemma process_refines_main_witness :
  let p := IO.run (process subset_regex (λ l, l) (mret Left) [true; false] 5) sample_machine in
  let m := IO.run (Agent.main subset_regex 5) sample_machine in
  (p.2 = m.2 ∧ same_end p.1 m.1) ∧ length m.2 = 57%nat.
Proof.
  cbv zeta. split; [|vm_compute; reflexivity].
  by apply (process_refines_main subset_regex (λ l, l) [true; false] 5 sample_machine).
Defined.

(** The window of one container is posted (three times: no one answers); an event of another
    still waits when the process ends. *)
Lemma process_conserved_witness :
  let sched := concat (replicate 60 [true; false]) in
  holds (W:=script) (process subset_regex (λ l, l) (server_loop (Datatypes.S (length sched))) sched 5) (λ r tr,
    match r with
    | Exited _ a _ _ => ∃ env t, tr = env_reads env variables ++ t ∧
        let cfg := env_table env in
        (url_ok cfg → ∃ log ws ns,
          attributed subset_regex cfg (map Sample (polled tr)) log
          ∧ (∀ fs, Forall firing_wf fs → polled tr = foldl fire [] fs →
               witnessed subset_regex cfg fs log)
          ∧ effects cfg tr ws ns ∧ Forall (window_ok cfg) ws
          ∧ ∀ c, flushed c ws ++ pending a c = events_of c log)
    | _ => True
    end)
  ∧ url_ok (env_table sample_env) ∧ Forall firing_wf sample_firings
  ∧ let r := sample_process sched in
    polled r.2 = foldl fire [] sample_firings
    ∧ waiting_at_end r.1 = Some (0, [0%nat; 1%nat])
    ∧ length (posted_bodies "http://localhost:9090/api/v1/agent/windows" r.2) = 3%nat.
Proof.
  cbv zeta. split; [apply (process_conserved subset_regex)|].
  split; [|split; [exact sample_firings_wf|vm_compute; by split_and!]].
  apply (bool_decide_unpack _). vm_compute. exact I.
Defined.
