(* ===== verification/Ending.v ===== *)
(** * Ending: how and when the process of [Program.v] ends

    What it leaves behind when [main] returns, whatever the schedule, and that it does
    return once the signal flag is raised: the two loops, the polling one in the main thread
    and the accepting one in the server's, are both left, and [stop] joins the second. *)

From S2P Require Export Program Termination.
From S2P Require Import DockerMapper ContainerMapper PolicyEnforcer AgentServer.

#[local] Open Scope Z_scope.

(** ** Handles and threads in a trace *)

Definition thread_starts (tr : list event) : nat :=
  length (omap (λ e, match e with Ev ThreadStart u => Some u | _ => None end) tr).
Definition thread_joins (tr : list event) : nat :=
  length (omap (λ e, match e with Ev ThreadJoin u => Some u | _ => None end) tr).

Lemma thread_starts_app t t' : thread_starts (t ++ t') = (thread_starts t + thread_starts t')%nat.
Proof. unfold thread_starts. by rewrite omap_app, length_app. Qed.
Lemma thread_joins_app t t' : thread_joins (t ++ t') = (thread_joins t + thread_joins t')%nat.
Proof. unfold thread_joins. by rewrite omap_app, length_app. Qed.

(** An event that neither obtains nor releases a BPF handle, and neither starts nor joins a
    thread. *)
Definition apart (e : event) : Prop :=
  match e with
  | Ev (BpfOpen _) _ | Ev (BpfAttachTracepoint _ _) _ | Ev (RingBufferNew _) _
  | Ev (BpfRelease _) _ | Ev ThreadStart _ | Ev ThreadJoin _ => False
  | _ => True
  end.

Lemma apart_nil t :
  Forall apart t →
  acquired t = [] ∧ released t = [] ∧ thread_starts t = 0%nat ∧ thread_joins t = 0%nat.
Proof.
  unfold acquired, released, thread_starts, thread_joins.
  induction 1 as [|[A c a] t He _ (I1 & I2 & I3 & I4)]; [done|]. cbn [omap list_omap]. by destruct c.
Qed.

(** ** How the process ends *)

Section ends.
Context {W : Type} `{OS W} (regex_search : string → string → option bool).
Context (erase_order : list string → list string).

(** A thread over the agent leaves the members of the server alone. *)
Lemma in_agent_always {A} P (t : thread W Shared A) :
  EmitsT P t → always (λ s s' e, loop_does s s' ∧ Forall P e) anything (in_agent t).
Proof using Type.
  intros Ht. eapply always_within; [|by apply (emits_always P)]. by intros s x e He.
Qed.

Lemma client_serves fd : always serves anything (in_agent (handleClient_thread (W:=W) fd)).
Proof using Type.
  apply (in_agent_always AgentServer.elsewhere), (emitsT_mono inner); [|apply _].
  by intros [A []].
Qed.

(** The polling loop: the signal flag was clear at each test but perhaps the last, and the
    loop is left after at most [fuel] of them. *)
Definition loop_left (fuel : nat) (fin : bool) (e : list event) : Prop :=
  Forall AgentServer.elsewhere e ∧ released e = []
  ∧ if fin then ∃ k b, (k < fuel)%nat ∧ signal_tests e = replicate k false ++ [b]
    else signal_tests e = replicate fuel false.

Abbreviation main_own := (own (W:=W) (S:=Listener Shared) loop_does stop_does anything).

(** A part of the main thread that runs in the agent. *)
Lemma in_agent_own {A} (t : thread W Shared A) s tr :
  EmitsT inner t →
  main_own (in_agent t)
    (λ _ s' tr', listenFd s' = listenFd s ∧ ∃ e, tr' = tr ++ e ∧ Forall inner e) s tr.
Proof using Type.
  intros Ht. apply (own_guarantee _ loop_does); [by intros s1 s2 [_ Hr] Hk; congruence|].
  apply (own_always _ _ (λ s1 s2 e, loop_does s1 s2 ∧ Forall inner e) _ inner
    (λ s', listenFd s' = listenFd s)); [done|..].
  - intros s1 s2 [Hl _]. congruence.
  - intros s1 s2 [Hl _]. congruence.
  - by apply in_agent_always.
  - done.
Qed.

Lemma poll_own fuel s tr :
  main_own (poll_thread regex_search erase_order fuel)
    (λ fin s' tr', listenFd s' = listenFd s ∧ ∃ e, tr' = tr ++ e ∧ loop_left fuel fin e) s tr.
Proof using Type.
  revert s tr. induction fuel as [|n IH]; intros s tr.
  { split; [done|]. exists []. rewrite app_nil_r. by split_and!. }
  cbn [poll_thread]. apply own_request. intros s1 [L1 R1]. split; [done|]. io_step.
  destruct a.
  { split; [done|]. eexists. split; [done|]. split_and!; [by repeat constructor|done|].
    exists 0%nat, true. split; [lia|done]. }
  apply own_request. intros s2 [L2 R2]. split; [done|]. io_step. destruct a as [samples err].
  apply own_bind. eapply own_mono; [apply in_agent_own; apply _|].
  intros [] s3 tr3 [L3 (e & -> & He)]. destruct (inner_nil _ He) as [S1 S2]. apply inner_elsewhere in He.
  set (e0 := [Ev LoadSignalStop false] ++ [Ev (RingBufferPoll 100) (samples, err)] ++ e).
  replace (((tr ++ [_]) ++ [_]) ++ e) with (tr ++ e0) by (subst e0; by rewrite <-!app_assoc).
  assert (H0 : Forall AgentServer.elsewhere e0 ∧ released e0 = [] ∧ signal_tests e0 = [false]).
  { subst e0. rewrite !released_app, !signal_tests_app, S1, S2. split; [|done].
    by repeat apply Forall_app_2; repeat constructor. }
  destruct H0 as (F0 & R0 & T0).
  assert (Hleft : main_own (mret true) (λ fin s' tr', listenFd s' = listenFd s
    ∧ ∃ e', tr' = tr ++ e' ∧ loop_left (Datatypes.S n) fin e') s3 (tr ++ e0)).
  { split; [congruence|]. exists e0. split; [done|]. unfold loop_left. split_and!; [done..|].
    exists 0%nat, false. split; [lia|done]. }
  case_bool; [exact Hleft|]. case_bool; [exact Hleft|].
  eapply own_mono; [apply IH|]. intros fin s4 tr4 [L4 (e1 & -> & F1 & R1' & T1)]. split; [congruence|].
  exists (e0 ++ e1). rewrite app_assoc. split; [done|]. unfold loop_left.
  rewrite released_app, signal_tests_app, R0, T0, R1'. split_and!; [by apply Forall_app_2|done|].
  destruct fin; [destruct T1 as (k & b & Hk & ->)|by rewrite T1].
  exists (Datatypes.S k), b. split; [lia|done].
Qed.

(** The main thread at its end: the loop was left, and then the server is stopped. *)
Definition main_ended (fuel : nat) (fd : Z) (fin : bool) (s : Listener Shared) (e : list event) : Prop :=
  AgentServer.obtained e = [] ∧ released e = []
  ∧ if fin then keepRunning s = false ∧ listenFd s < 0
      ∧ AgentServer.given_back e = (if 0 <=? fd then [fd] else [])
      ∧ ∃ k b, (k < fuel)%nat ∧ signal_tests e = replicate k false ++ [b]
    else signal_tests e = replicate fuel false.

Lemma run_thread_own fuel s :
  main_own (run_thread regex_search erase_order fuel) (main_ended fuel (listenFd s)) s [].
Proof using Type.
  unfold run_thread. apply own_observe. intros s1 [L1 R1]. split; [done|].
  set (cfg := config_ _). clearbody cfg. apply own_bind.
  apply (own_mono _ _ _ _ (λ _ s' tr', listenFd s' = listenFd s ∧ Forall inner tr')).
  { destruct (autoBaselineDump cfg); [|by split].
    eapply own_mono; [apply in_agent_own; apply _|].
    intros [] s2 tr [L2 (e & -> & He)]. split; [congruence|exact He]. }
  intros [] s2 tr2 [L2 H2]. destruct (inner_nil _ H2) as [T2 R2].
  destruct (elsewhere_effects _ (inner_elsewhere _ H2)) as [O2 G2].
  apply own_bind. eapply own_mono; [apply poll_own|].
  intros fin s3 tr3 [L3 (e & -> & F3 & R3 & T3)]. destruct (elsewhere_effects _ F3) as [O3 G3].
  destruct fin; cbn [negb]; cycle 1.
  { change (main_ended fuel (listenFd s) false s3 (tr2 ++ e)). unfold main_ended.
    by rewrite AgentServer.obtained_app, released_app, signal_tests_app, O2, O3, R2, R3, T2, T3. }
  apply own_bind. eapply own_mono; [apply stop_thread_does|].
  intros [] s4 tr4 (R4 & L4 & ->).
  assert (H4 : AgentServer.obtained (stop_events (listenFd s3)) = []
    ∧ AgentServer.given_back (stop_events (listenFd s3)) = (if 0 <=? listenFd s then [listenFd s] else [])
    ∧ Forall no_handle (stop_events (listenFd s3))).
  { unfold stop_events. rewrite L3, L2. by destruct (0 <=? listenFd s); repeat constructor. }
  destruct H4 as (O4 & G4 & N4). destruct (no_handle_nil _ N4) as [T4 R4'].
  change (main_ended fuel (listenFd s) true s4 ((tr2 ++ e) ++ stop_events (listenFd s3))).
  unfold main_ended. rewrite !AgentServer.obtained_app, !AgentServer.given_back_app, !released_app, !signal_tests_app.
  rewrite O2, O3, O4, G2, G3, G4, R2, R3, R4', T2, T4, app_nil_r. split_and!; try done.
  - rewrite L4. case_bool; bool_to_prop; lia.
  - by rewrite app_nil_r.
Qed.

(** The server's thread, with or without a loop: it closes what it accepts, and touches no
    handle. *)
Definition loop_ended (_ : loop_exit) (_ : Listener Shared) (e : list event) : Prop :=
  all_closed e ∧ Forall no_handle e.

#[local] Instance server_loop_no_handle turns : EmitsT no_handle (server_loop (W:=W) turns).
Proof.
  apply serverLoop_emits; [by intros [A []]|]. intros fd.
  apply (emitsT_mono inner); [by intros [A []]|]. unfold in_agent. apply _.
Qed.

Lemma server_loop_own turns s :
  own (W:=W) stop_does loop_does anything (server_loop turns) loop_ended s [].
Proof using Type.
  apply (own_emits _ _ _ no_handle); [apply _|by constructor|].
  apply serverLoop_own; [apply client_serves|done|done].
Qed.

#[local] Instance server_loop_apart turns : EmitsT apart (server_loop (W:=W) turns).
Proof.
  apply serverLoop_emits; [by intros [A []]|]. intros fd.
  apply (emitsT_mono inner); [by intros [A []]|]. unfold in_agent. apply _.
Qed.

#[local] Instance run_thread_apart fuel : EmitsT (W:=W) apart (run_thread regex_search erase_order fuel).
Proof.
  assert (Hin : ∀ {A} (t : thread W Shared A), EmitsT inner t → EmitsT apart t)
    by (intros A t; apply emitsT_mono; by intros [? []]).
  assert (Hpoll : ∀ fuel, EmitsT (W:=W) apart (poll_thread regex_search erase_order fuel)).
  { clear fuel. intros n. induction n as [|n IH]; cbn [poll_thread]; unfold in_agent; [apply _|].
    pose proof (λ l, Hin _ _ (samples_inner regex_search erase_order l)). apply _. }
  pose proof (stop_thread_emits (W:=W) (S:=Shared) apart (λ _ _, I) (λ _ _, I)).
  pose proof (λ c d, Hin _ _ (request_thread_inner c d)).
  unfold run_thread, in_agent. apply _.
Qed.

(** Both threads at their end. *)
Lemma threads_end sched fuel turns started s :
  (length sched < turns)%nat →
  holds (W:=W) (par sched (run_thread regex_search erase_order fuel)
    (if started : bool then server_loop turns else mret Left) s) (λ r tr,
    match r with
    | inl _ => True
    | inr (true, exit, s') => exit = Left ∧ keepRunning s' = false ∧ listenFd s' < 0
        ∧ (∃ k b, (k < fuel)%nat ∧ signal_tests tr = replicate k false ++ [b])
        ∧ AgentServer.given_back tr
          ≡ₚ (if 0 <=? listenFd s then [listenFd s] else []) ++ AgentServer.obtained tr
    | inr (false, _, _) => signal_tests tr = replicate fuel false
    end ∧ Forall apart tr).
Proof.
  intros Hturns. apply holds_emits; [destruct started; apply _|]. eapply holds_mono.
  { apply (par_own loop_does stop_does stop_does loop_does anything
      (λ s, keepRunning s = false) (λ e, e = Left) (λ fin, fin = true) sched _ _
      (main_ended fuel (listenFd s)) loop_ended s [] []); try done.
    - intros fin s1 s2 tr [L R] (Q1 & Q2 & Q3). split_and!; [done..|]. destruct fin; [|done].
      by rewrite L, R.
    - intros fin s1 tr (_ & _ & Q) ->. apply Q.
    - destruct started; [|by apply lasts_done]. eapply serverLoop_lasts; [|done]. apply client_serves.
    - apply run_thread_own.
    - destruct started; [apply server_loop_own|]. by split. }
  intros [st|[[fin exit] s']] tr; [done|].
  intros (Hexit & e1 & e2 & Hm & (O1 & _ & Q1) & Hb & Hn). cbn [app] in *.
  destruct (no_handle_nil _ Hn) as [T2 _]. pose proof (merged_omap_left _ _ _ _ Hm T2) as HT.
  change (signal_tests tr = signal_tests e1) in HT. rewrite HT.
  destruct fin; [|done]. destruct Q1 as (Hr & Hl & G1 & Hk). split_and!; [by apply Hexit|done..|].
  unfold AgentServer.given_back, AgentServer.obtained. rewrite !(merged_omap _ _ _ _ Hm).
  change (AgentServer.given_back e1 ++ AgentServer.given_back e2 ≡ₚ
    (if 0 <=? listenFd s then [listenFd s] else []) ++ AgentServer.obtained e1 ++ AgentServer.obtained e2).
  by rewrite O1, G1, Hb.
Qed.

(** The server at its start: the thread is there when it succeeds, and only then. *)
Lemma initServer_holds cfg :
  holds (W:=W) (initServer cfg) (λ srv tr,
    AgentServer.obtained tr
      ≡ₚ (if 0 <=? AgentServer.serverFd_ srv then [AgentServer.serverFd_ srv] else [])
         ++ AgentServer.given_back tr
    ∧ signal_tests tr = [] ∧ released tr = [] ∧ acquired tr = [] ∧ thread_joins tr = 0%nat
    ∧ thread_starts tr = if AgentServer.joinable srv then 1%nat else 0%nat).
Proof.
  apply (holds_mono _ (λ srv tr, (AgentServer.obtained tr
      ≡ₚ (if 0 <=? AgentServer.serverFd_ srv then [AgentServer.serverFd_ srv] else [])
         ++ AgentServer.given_back tr)
    ∧ (signal_tests tr = [] ∧ released tr = [] ∧ acquired tr = [] ∧ thread_joins tr = 0%nat
       ∧ thread_starts tr = if AgentServer.joinable srv then 1%nat else 0%nat))); [|done].
  apply holds_and; unfold initServer; io_step.
  - eapply holds_mono; [apply AgentServer.start_holds|]. intros [started srv] tr [_ Hs]. cbn [fst snd] in Hs.
    io_step. rewrite app_nil_r. destruct started.
    + destruct Hs as (Hge%Z.leb_le & _ & _ & -> & ->). by rewrite Hge.
    + destruct Hs as (Hlt%Z.leb_gt & _ & _ & ->). by rewrite Hlt.
  - unfold AgentServer.start, AgentServer.create. cbv zeta.
    do 2 io_step. io_step; [by repeat io_step|]. do 4 io_step. io_step; [by repeat io_step|].
    do 2 io_step. io_step; by repeat io_step.
Qed.

(** An exit.  With 1: the BPF start-up failed, there was no server and the flag was never
    tested; of the two handles that can have been obtained then, the link is released, by
    the destructor, and the object is not.  With 0: the loop was left, every handle was
    released, once, ring buffer first, and the server is stopped. *)
Definition exit_outcome (fuel : nat) (status : Z) (bpf : BpfState) (srv : option AgentServer.t)
    (tr : list event) : Prop :=
  AgentServer.given_back tr ≡ₚ AgentServer.obtained tr
  ∧ thread_joins tr = thread_starts tr
  ∧ ringbuf_ bpf = false ∧ bpf_obj_ bpf = false
  ∧ (status = 1 ∧ srv = None ∧ thread_starts tr = 0%nat ∧ signal_tests tr = []
       ∧ acquired tr `prefix_of` ["object"; "link"]
       ∧ released tr ++ held bpf = filter (λ h, h ≠ "object") (acquired tr)
     ∨ status = 0 ∧ (∃ k b, (k < fuel)%nat ∧ signal_tests tr = replicate k false ++ [b])
       ∧ tp_link_ bpf = false ∧ acquired tr = ["object"; "link"; "ringbuf"]
       ∧ released tr = ["ringbuf"; "link"; "object"]
       ∧ ∃ s, srv = Some s ∧ AgentServer.isRunning s = false ∧ AgentServer.joinable s = false
           ∧ AgentServer.serverFd_ s < 0).

(** How the process ends.  One that dies has released nothing and joined no thread. *)
Definition process_outcome (fuel : nat) (e : process_end) (tr : list event) : Prop :=
  match e with
  | Exited status _ bpf srv => exit_outcome fuel status bpf srv tr ∧ tp_link_ bpf = false
  | Died _ => released tr = [] ∧ thread_joins tr = 0%nat
  | Unfinished => signal_tests tr = replicate fuel false
  end.

(** ... before the destruction. *)
Definition run_process_outcome (fuel : nat) (e : process_end) (tr : list event) : Prop :=
  match e with
  | Exited status _ bpf srv => exit_outcome fuel status bpf srv tr
  | _ => process_outcome fuel e tr
  end.

Lemma bpf_outcome_threads r tr :
  bpf_outcome r tr → thread_starts tr = 0%nat ∧ thread_joins tr = 0%nat.
Proof using Type.
  destruct r as [[] s]; cbn [bpf_outcome fst snd]; [by intros (fd & [-> _] & _)|].
  intros (n & fd & Hn & _).
  do 6 (destruct n as [|n]; cbn [bpf_refused] in Hn; [first [by subst tr|by destruct Hn as [-> _]]|]).
  done.
Qed.

(** The join: the loop has ended, so it returns, once if there is a thread. *)
Lemma join_server_holds joinable :
  holds (W:=W) (join_server joinable Left) (λ r tr,
    r = Some false ∧ Forall AgentServer.elsewhere tr ∧ signal_tests tr = [] ∧ released tr = []
    ∧ acquired tr = [] ∧ thread_starts tr = 0%nat
    ∧ thread_joins tr = if joinable then 1%nat else 0%nat).
Proof. unfold join_server. destruct joinable; repeat io_step; by repeat constructor. Qed.

(** The clean-up does nothing else. *)
Lemma cleanupBpf_threads s :
  holds (W:=W) (cleanupBpf s) (λ s' tr,
    s' = MkBpfState false false false (bpf_fd_ s) ∧ released tr = held s
    ∧ Forall AgentServer.elsewhere tr ∧ signal_tests tr = [] ∧ acquired tr = []
    ∧ thread_starts tr = 0%nat ∧ thread_joins tr = 0%nat).
Proof.
  unfold cleanupBpf, release. destruct s as [[] [] [] fd]; cbn [ringbuf_ tp_link_ bpf_obj_];
    repeat io_step; split_and!; done || by repeat constructor.
Qed.

(** The start-up failed. *)
Lemma failed_start_outcome fuel bpf t0 :
  bpf_outcome (false, bpf) t0 → exit_outcome fuel 1 bpf None t0.
Proof using Type.
  intros Hbpf. destruct (bpf_outcome_events _ _ Hbpf) as (He0 & S0 & R0 & A0).
  destruct (elsewhere_effects _ He0) as [O0 G0], (bpf_outcome_threads _ _ Hbpf) as [T0 J0].
  destruct Hbpf as (n & fd & _ & Hs). cbn [fst snd] in *. subst bpf.
  unfold exit_outcome. rewrite O0, G0, T0, J0, S0, R0. split_and!; [done..|]. left. split_and!; try done.
  - destruct A0 as [[-> _]|[[-> _]|[-> _]]]; [apply prefix_nil|by exists ["link"]|done].
  - unfold held. cbn [ringbuf_ bpf_obj_ tp_link_] in *.
    by destruct A0 as [[-> ->]|[[-> ->]|[-> ->]]].
Qed.

Lemma run_process_ends sched fuel turns a :
  (length sched < turns)%nat →
  holds (W:=W) (run_process regex_search erase_order (server_loop turns) sched fuel a)
    (run_process_outcome fuel).
Proof.
  intros Hturns. unfold run_process. io_step. eapply holds_mono; [apply initBpf_holds|].
  intros [[] bpf] t0 Hbpf; cbn [negb]; cycle 1.
  { io_step. rewrite app_nil_r. by apply failed_start_outcome. }
  destruct (bpf_outcome_events _ _ Hbpf) as (He0 & S0 & R0 & A0).
  destruct (elsewhere_effects _ He0) as [O0 G0], (bpf_outcome_threads _ _ Hbpf) as [T0 J0].
  destruct Hbpf as (fd & _ & Hs). cbn [fst snd] in *. subst bpf.
  io_step. eapply holds_mono; [apply initServer_holds|].
  intros srv t1 (O1 & S1 & R1 & A1 & J1 & T1). io_step.
  eapply holds_mono; [by apply threads_end|]. cbn [listenFd].
  intros r t2 [H2 (A2 & R2 & T2 & J2)%apart_nil].
  destruct r as [st|[[[] exit] s']]; cycle 1.
  3: { io_step. cbn. by rewrite !released_app, !thread_joins_app, R0, R1, R2, J0, J1, J2. }
  2: { io_step. cbn. by rewrite !signal_tests_app, S0, S1, H2, !app_nil_r. }
  destruct H2 as (-> & Hr & Hl & Hk & H2). io_step. eapply holds_mono; [apply join_server_holds|].
  intros joined t3 (-> & He3 & S3 & R3 & A3 & T3 & J3). destruct (elsewhere_effects _ He3) as [O3 G3].
  io_step. eapply holds_mono; [apply cleanupBpf_threads|]. intros bpf' t4 (-> & R4 & He4 & S4 & A4 & T4 & J4).
  destruct (elsewhere_effects _ He4) as [O4 G4]. io_step. cbn [run_process_outcome]. unfold exit_outcome.
  rewrite !AgentServer.obtained_app, !AgentServer.given_back_app, !released_app, !acquired_app,
    !signal_tests_app, !thread_starts_app, !thread_joins_app.
  rewrite O0, G0, O3, G3, O4, G4, R0, R1, R2, R3, R4, A0, A1, A2, A3, A4, S0, S1, S3, S4,
    T0, T1, T2, T3, T4, J0, J1, J2, J3, J4, !app_nil_r.
  cbn [app ringbuf_ bpf_obj_ tp_link_]. split_and!; [|cbn; lia|done..|].
  - rewrite O1, H2, !app_assoc. f_equiv. solve_Permutation.
  - right. split_and!; [done..|]. eexists. split_and!; [done..|]. exact Hl.
Qed.

#[local] Instance loadConfig_inner : Emits inner (loadConfig (W:=W)).
Proof. unfold loadConfig, envOrDefault, envOrDefaultInt, envOrDefaultBool. apply _. Qed.

#[local] Instance create_inner cfg : Emits inner (create (W:=W) cfg).
Proof.
  unfold create, PolicyEnforcer.create, ContainerMapper.create, ContainerMapper.detectRuntime,
    ContainerMapper.execCommand, ContainerMapper.fileExists. cbv zeta. apply _.
Qed.

Lemma destroy_ends status a bpf srv fuel t :
  exit_outcome fuel status bpf srv t →
  holds (destroy (W:=W) bpf srv) (λ r t', process_outcome fuel (Exited status a r.1 r.2) (t ++ t')).
Proof.
  intros (Hg & Hj & Hrb & Ho & Hs). unfold destroy. io_step.
  apply (holds_mono _ (λ r t', t' = [] ∧ match srv, r with
    | None, None => True
    | Some s, Some s' => AgentServer.isRunning s' = false ∧ AgentServer.joinable s' = false
        ∧ AgentServer.serverFd_ s' < 0
    | _, _ => False end)).
  { destruct Hs as [(_ & -> & _)|(_ & _ & _ & _ & _ & s & -> & Hr & Hjs & Hfd)]; [by io_step|]. io_step.
    eapply holds_mono; [apply AgentServer.stop_holds|].
    intros s' t' (Hfd' & Hr' & Hj' & _ & _ & _ & Hq). destruct (Hq Hfd Hjs) as [-> _]. by io_step. }
  intros srv' t1 [-> Hsrv]. io_step. eapply holds_mono; [apply cleanupBpf_threads|].
  intros bpf' t2 (-> & R2 & He2 & S2 & A2 & T2 & J2). destruct (elsewhere_effects _ He2) as [O2 G2].
  io_step. cbn [app process_outcome fst snd]. rewrite app_nil_r. unfold exit_outcome.
  rewrite AgentServer.given_back_app, AgentServer.obtained_app, released_app, acquired_app, signal_tests_app,
    thread_starts_app, thread_joins_app, O2, G2, R2, A2, S2, T2, J2, !app_nil_r, !Nat.add_0_r.
  split; [|done]. split_and!; [done..|].
  destruct Hs as [(-> & -> & Ht & Hsig & Ha & Hrel)|(-> & Hk & Htp & Ha & Hrel & s & -> & _)].
  - left. destruct srv'; [done|]. by split_and!.
  - right. unfold held. rewrite Hrb, Ho, Htp, app_nil_r. split_and!; [done..|].
    destruct srv' as [s'|]; [|done]. exists s'. by destruct Hsrv as (? & ? & ?).
Qed.

Lemma process_outcome_after fuel e t t' :
  Forall inner t → process_outcome fuel e t' → process_outcome fuel e (t ++ t').
Proof using Type.
  intros Ht. destruct (inner_nil _ Ht) as [S R]. destruct (elsewhere_effects _ (inner_elsewhere _ Ht)) as [O G].
  assert (Hap : Forall apart t) by (eapply Forall_impl; [exact Ht|]; by intros [? []]).
  apply apart_nil in Hap as (A & _ & T & J).
  destruct e; cbn; unfold exit_outcome;
    by rewrite ?AgentServer.given_back_app, ?AgentServer.obtained_app, ?released_app, ?signal_tests_app,
      ?acquired_app, ?thread_starts_app, ?thread_joins_app, ?O, ?G, ?S, ?R, ?A, ?T, ?J.
Qed.

Lemma process_holds sched fuel turns :
  (length sched < turns)%nat →
  holds (W:=W) (process regex_search erase_order (server_loop turns) sched fuel)
    (process_outcome fuel).
Proof.
  intros Hturns. unfold process. io_step.
  apply (holds_mono _ (λ _ t, Forall inner t)); [apply emits|]. intros cfg t0 H0. io_step.
  apply (holds_mono _ (λ _ t, Forall inner t)); [apply emits|]. intros [a|] t1 H1; cycle 1.
  { io_step. by do 2 (apply process_outcome_after; [done|]). }
  io_step. eapply holds_mono; [by apply run_process_ends|].
  intros [status a' bpf srv|st|] t2 H2; cycle 1;
    [io_step; do 2 (apply process_outcome_after; [done|]); by rewrite app_nil_r..|].
  io_step. eapply holds_mono; [by apply destroy_ends|]. intros [bpf' srv'] t3 H3. io_step.
  do 2 (apply process_outcome_after; [done|]). by rewrite app_nil_r.
Qed.
End ends.

(** ** The process on a machine *)

(** A thread all of whose steps are legal: as [EmitsT]. *)
Fixpoint legal_steps {W} `{OS W} {S A} (t : thread W S A) : Prop :=
  match t with
  | Done _ => True
  | Act f k => (∀ s, Legal (f s)) ∧ ∀ b, legal_steps (k b)
  end.

Class LegalT {W} `{OS W} {S A} (t : thread W S A) : Prop := legalT : legal_steps t.
#[export] Hint Mode LegalT ! ! ! ! ! : typeclass_instances.

Section legal.
Context {W : Type} `{OS W} {S : Type}.

#[export] Instance legalT_done {A} (a : A) : LegalT (W:=W) (S:=S) (Done a).
Proof. exact I. Qed.
#[export] Instance legalT_ret {A} (a : A) : LegalT (W:=W) (S:=S) (mret a).
Proof. exact I. Qed.
#[export] Instance legalT_act {A B} (f : step W S B) (k : B → thread W S A) :
  (∀ s, Legal (f s)) → (∀ b, LegalT (k b)) → LegalT (Act f k).
Proof. by split. Qed.
#[export] Instance legalT_bind {A B} (t : thread W S A) (k : A → thread W S B) :
  LegalT t → (∀ a, LegalT (k a)) → LegalT (t ≫= k).
Proof.
  intros Ht Hk. change (t ≫= k) with (thread_then k t). induction t as [a|X f k' IH]; [apply Hk|].
  destruct Ht as [Hf Ht]. split; [done|]. intros b. apply IH, Ht.
Qed.
#[export] Instance legalT_observe {B} (f : S → B) : LegalT (W:=W) (observe f).
Proof. unfold observe. apply _. Qed.
#[export] Instance legalT_modify (g : S → S) : LegalT (W:=W) (modify g).
Proof. unfold modify. apply _. Qed.
#[export] Instance legalT_request {B} (m : IO W B) : Legal m → LegalT (request (S:=S) m).
Proof. intros. unfold request. apply _. Qed.
#[export] Instance legalT_each {A} (f : A → thread W S unit) l :
  (∀ a, LegalT (f a)) → LegalT (each f l).
Proof. intros Hf. induction l; cbn [each]; apply _. Qed.
#[export] Instance legalT_if {A} (b : bool) (t1 t2 : thread W S A) :
  LegalT t1 → LegalT t2 → LegalT (if b then t1 else t2).
Proof. by destruct b. Qed.
#[export] Instance legalT_focus {T A} (get : S → option T) put (t : thread W T A) :
  LegalT t → LegalT (focus get put t).
Proof.
  intros Ht. induction t as [a|X f k IH]; [done|]. destruct Ht as [Hf Hk]. cbn [focus].
  apply legalT_act; [|intros b; apply IH, Hk]. intros s. destruct (get s); [|apply _].
  apply legal_bind; [apply Hf|]. intros ?. apply _.
Qed.
#[export] Instance legalT_within {T A} (get : S → T) put (t : thread W T A) :
  LegalT t → LegalT (within get put t).
Proof. intros Ht. by apply legalT_focus. Qed.
End legal.

#[export] Hint Extern 3 (LegalT (match ?x with _ => _ end)) => destruct x : typeclass_instances.

#[export] Instance legal_exec {W} `{OS W} {S A} (t : thread W S A) s : LegalT t → Legal (exec t s).
Proof.
  intros Ht. revert s. induction t as [a|X f k IH]; intros s; cbn [exec]; [apply _|].
  destruct Ht as [Hf Hk]. apply legal_bind; [apply Hf|]. intros [st|[b s']]; [apply _|]. apply IH, Hk.
Qed.

#[export] Instance legal_par {W} `{OS W} {S A B} sched (t1 : thread W S A) (t2 : thread W S B) s :
  LegalT t1 → LegalT t2 → Legal (par sched t1 t2 s).
Proof.
  revert t1 t2 s. induction sched as [|[] sched IH]; intros t1 t2 s H1 H2; cbn [par]; [apply _|..].
  - destruct t1 as [a|X f k]; [by apply IH|]. destruct H1 as [Hf Hk].
    apply legal_bind; [apply Hf|]. intros [st|[b s']]; [apply _|]. apply IH; [apply Hk|done].
  - destruct t2 as [a|X f k]; [by apply IH|]. destruct H2 as [Hf Hk].
    apply legal_bind; [apply Hf|]. intros [st|[b s']]; [apply _|]. apply IH; [done|apply Hk].
Qed.

Section methods.
Context {W : Type} `{OS W} (regex_search : string → string → option bool).
Context (erase_order : list string → list string).

#[local] Instance on_stream_legal f : (∀ st, Legal (f st)) → LegalT (W:=W) (on_stream f).
Proof. intros. unfold on_stream. apply _. Qed.

#[local] Instance notify_legal cfg : LegalT (W:=W) (notifyDumpComplete_thread cfg).
Proof. unfold notifyDumpComplete_thread. apply _. Qed.

#[local] Instance append_legal cfg evt : LegalT (W:=W) (appendLongDump_thread cfg evt).
Proof. unfold appendLongDump_thread, stream_close, stream_write. apply _. Qed.

#[local] Instance flush_legal cfg evt : LegalT (W:=W) (flush_thread cfg evt).
Proof. unfold flush_thread, processShortWindow_thread. apply _. Qed.

#[local] Instance queue_legal evt : LegalT (W:=W) (queue_thread evt).
Proof. unfold queue_thread. apply _. Qed.

#[local] Instance expire_legal cfg now : LegalT (W:=W) (stopExpired_thread cfg now).
Proof. unfold stopExpired_thread, stream_close. apply _. Qed.

#[local] Instance start_legal cfg id dur : LegalT (W:=W) (startLongDump_thread cfg id dur).
Proof.
  unfold startLongDump_thread, stream_open, stream_write, nowTimestampForFile, monotonicNowNs.
  cbv zeta. apply _.
Qed.

#[local] Instance with_iterator_legal {A} epoch (f : Shared → A * Shared) :
  LegalT (W:=W) (with_iterator epoch f).
Proof. unfold with_iterator. apply _. Qed.

#[local] Instance on_legal r {A} (t : thread W ContainerBuffer A) : LegalT t → LegalT (on r t).
Proof. intros. unfold on. apply _. Qed.

#[local] Instance named_ref_legal id : LegalT (W:=W) (named_ref id).
Proof. unfold named_ref, buffer_ref. apply _. Qed.

#[local] Instance expire_all_legal cfg now : LegalT (W:=W) (stopExpiredLongDumps_thread cfg now).
Proof. unfold stopExpiredLongDumps_thread, begin_walk, iterator_ref, advance, hash_order. apply _. Qed.

#[local] Instance cleanup_legal now : LegalT (W:=W) (cleanupInactiveBuffers_thread erase_order now).
Proof.
  unfold cleanupInactiveBuffers_thread, cleanup_one, iterator_ref, advance, erase_at. apply _.
Qed.

#[local] Instance request_thread_legal id dur : LegalT (W:=W) (requestLongDump_thread id dur).
Proof. unfold requestLongDump_thread. apply _. Qed.

#[local] Instance policy_thread_legal c p ty s : LegalT (W:=W) (handlePolicy_thread c p ty s).
Proof. unfold handlePolicy_thread. apply _. Qed.

#[local] Instance samples_legal samples : LegalT (W:=W) (main_thread regex_search erase_order samples).
Proof.
  unfold main_thread. apply legalT_each. intros [data| |]; cbn [thread_of]; [|apply _..].
  unfold handleEventThunk_thread, handleEvent_thread, mapContainerId_thread, mapContainerId. cbv zeta. apply _.
Qed.

#[local] Instance client_legal fd : LegalT (W:=W) (handleClient_thread fd).
Proof. unfold handleClient_thread, sendResponse_thread, AgentServer.sendResponse. cbv zeta. apply _. Qed.

#[local] Instance server_loop_legal turns : LegalT (W:=W) (server_loop turns).
Proof.
  unfold server_loop, in_agent. induction turns as [|n IH]; cbn [serverLoop_thread]; [apply _|].
  unfold serve_turn. apply _.
Qed.

#[local] Instance poll_thread_legal fuel : LegalT (W:=W) (poll_thread regex_search erase_order fuel).
Proof. induction fuel as [|n IH]; cbn [poll_thread]; unfold in_agent; apply _. Qed.

#[local] Instance run_thread_legal fuel : LegalT (W:=W) (run_thread regex_search erase_order fuel).
Proof. unfold run_thread, in_agent, stop_thread, close_listener. apply _. Qed.

#[export] Instance process_legal turns sched fuel :
  Legal (process (W:=W) regex_search erase_order (server_loop turns) sched fuel).
Proof.
  unfold process, run_process, loadConfig, envOrDefault, envOrDefaultInt, envOrDefaultBool,
    create, PolicyEnforcer.create, ContainerMapper.create, ContainerMapper.detectRuntime,
    ContainerMapper.execCommand, ContainerMapper.fileExists,
    initBpf, initServer, cleanupBpf, release, destroy, AgentServer.start, AgentServer.stop.
  cbv zeta. apply _.
Qed.
End methods.

(** ** Properties *)

(** C10: what the process leaves behind.  Whatever clients send and however the statements of the
    two threads interleave, if [main] returns then:
    - every descriptor opened (the listening socket and those of the clients) was closed,
      once, and the server's thread was joined if it was started;
    - with 0: the polling loop was left, the accept loop had ended when it was joined, the
      server is stopped, and the object, the link and the ring buffer were obtained and
      released, once each, the ring buffer first;
    - with 1: the BPF start-up failed, no thread was started and the signal flag never tested;
      the link is released if it was attached, and the object is not, though it may have
      been opened.
    A process that dies has released nothing; if the turns of the polling loop are used up, the
    signal flag was clear at each.  One more turn of the accept loop than steps in the
    schedule is enough for the join to return. *)
Theorem process_ends {W} `{OS W} regex_search erase_order sched fuel turns :
  (length sched < turns)%nat →
  holds (W:=W) (process regex_search erase_order (server_loop turns) sched fuel) (process_outcome fuel).
Proof. apply process_holds. Qed.

(** C11: the process ends when it is told to.  On a machine that answers the test of the signal
    flag with "no" at most [left w] more times, whatever else it answers and whatever clients
    send, under any schedule: [main] returns, after at most one test more than that and with
    the accept loop ended and joined, unless a step before that ended the process (by an
    exception or a reference no longer valid).  Neither the polling loop nor the wait for the
    accept loop goes on. *)
Theorem process_terminates {W} `{OS W} regex_search erase_order (left : W → nat) sched fuel turns w :
  Patience signal_absent left → (left w < fuel)%nat → (length sched < turns)%nat →
  let r := IO.run (process (W:=W) regex_search erase_order (server_loop turns) sched fuel) w in
  match r.1 with
  | Exited _ _ _ _ =>
      (length (signal_tests r.2) ≤ left w + 1)%nat ∧ thread_joins r.2 = thread_starts r.2
  | Died _ => released r.2 = [] ∧ thread_joins r.2 = 0%nat
  | Unfinished => False
  end.
Proof.
  intros HP Hfuel Hturns. unfold IO.run. cbn [fst snd].
  destruct (holds_legal (process (W:=W) regex_search erase_order (server_loop turns) sched fuel)
    (process_outcome fuel) w) as [Ho Hr]; [apply _|by apply process_holds|].
  apply (replay_patience _ _ _ _ _ HP) in Hr. rewrite filter_signal in Hr.
  set (p := process _ _ _ _ _ _) in *. clearbody p. destruct p as [[status a bpf srv|st|] σ]; cbn in Ho, Hr |- *.
  - destruct Ho as [(_ & Hj & _ & _ & Hs) _]. split; [|done].
    destruct Hs as [(_ & _ & _ & -> & _)|(_ & (k & b & _ & Hk) & _)]; [cbn; lia|].
    rewrite Hk, length_app, length_replicate in *. rewrite filter_app, length_app, filter_replicate in Hr by done.
    cbn. lia.
  - exact Ho.
  - rewrite Ho, filter_replicate in Hr by done. lia.
Qed.

(** *** On a sample machine *)

(** An end with status 0. *)
Definition exit_status (e : process_end) : option Z :=
  match e with Exited status _ _ _ => Some status | _ => None end.

Lemma process_ends_witness :
  let sched := concat (replicate 60 [true; false]) in
  (length sched < 121)%nat ∧
  holds (W:=script) (process subset_regex (λ l, l) (server_loop 121) sched 5) (process_outcome 5)
  ∧ let r := sample_process sched in
    exit_status r.1 = Some 0 ∧ length (AgentServer.obtained r.2) = 9%nat
    ∧ AgentServer.given_back r.2 = [4; 4; 4; 4; 4; 4; 4; 3; 4].
Proof.
  cbv zeta. split; [cbn; lia|]. split; [|vm_compute; by split_and!].
  apply (process_ends subset_regex (λ l, l) (concat (replicate 60 [true; false])) 5 121). cbn. lia.
Defined.

(** The machine says "no" three times. *)
Lemma process_terminates_witness :
  let sched := concat (replicate 30 [false; true]) in
  let run fuel := IO.run (process subset_regex (λ l, l) (server_loop 61) sched fuel) (3%nat, bare) in
  match (run 4%nat).1 with
  | Exited _ _ _ _ =>
      (length (signal_tests (run 4%nat).2) ≤ 3 + 1)%nat
      ∧ thread_joins (run 4%nat).2 = thread_starts (run 4%nat).2
  | Died _ => released (run 4%nat).2 = [] ∧ thread_joins (run 4%nat).2 = 0%nat
  | Unfinished => False
  end
  ∧ exit_status (run 4%nat).1 = Some 0 ∧ thread_joins (run 4%nat).2 = 1%nat
  ∧ (run 3%nat).1 = Unfinished.
Proof.
  cbv zeta. split; [|vm_compute; by split_and!].
  apply (process_terminates subset_regex (λ l, l) fst (concat (replicate 30 [false; true])) 4 61 (3%nat, bare));
    [apply countdown_patience|cbn; lia|cbn; lia].
Defined.
