(* ===== verification/Tests.v ===== *)
(** * Tests: the repository's unit tests, on the model

    [agent/tests/*.cpp] test the serialization, the two mappers and the policy enforcer.
    Each test is evaluated here on the definitions of this development, in the
    environment it sets up: no Docker socket, no such process, an empty directory.  They
    are not proofs of the code; they say that the model computes what the
    authors of the code expect of it. *)

From S2P Require Import Serialization Buffer DockerMapper ContainerMapper PolicyEnforcer.

#[local] Open Scope Z_scope.

(** [json.find(sub) != std::string::npos]. *)
Definition finds (sub s : string) : bool :=
  match String.index 0 sub s with Some _ => true | None => false end.

(** A field of a payload: ["key":value]. *)
Definition json_field (key value : string) : string := quoted key +:+ ":" +:+ value.

(** No socket answers and no command succeeds; files can be written. *)
Definition test_machine : script := with_curl (replicate 8 (CurlDone [] false 0)) bare.

Definition value_of {A} (m : IO script A) : A := (IO.run m test_machine).1.
Definition trace_of {A} (m : IO script A) : list event := (IO.run m test_machine).2.

(** ** serialization_tests.cpp *)

Definition DeltaAndFields : bool :=
  let first := MkSyscallEvent 1000000 1 1 10 42 3 7 in
  let second := MkSyscallEvent (1000000 + 23000) 1 1 10 42 3 7 in
  let rec := makeTraceRecord second (tsNs first) in
  (delta_ts_us rec =? 23) && (tr_syscall_id rec =? syscallId second)
  && (tr_arg_class rec =? argClass second) && (tr_arg_bucket rec =? argBucket second).

(** The header read back through its bytes. *)
Definition PackedLayout : bool :=
  let hdr := MkTraceHeader 1 256 (id_field "prod/test") 123456789 in
  let bytes := TraceHeader_bytes hdr in
  (Z.of_nat (length bytes) =? Z.of_nat TraceHeader_size)
  && (le_val (take 4 bytes) =? 1) && (le_val (take 4 (drop 4 bytes)) =? 256)
  && bool_decide (take 10 (drop 8 bytes) = bytes_of "prod/test" ++ [0])
  && (le_val (take 8 (drop 72 bytes)) =? 123456789).

Definition SerializesRecords : bool :=
  let e1 := MkSyscallEvent 1000000 1 1 1 5 2 1 in
  let e2 := MkSyscallEvent (1000000 + 50000) 1 1 1 5 2 1 in
  let json := buildWindowJson "agent-1" "container-1" (tsNs e1) [e1; e2] in
  finds (json_field "agent_id" (quoted "agent-1")) json
  && finds (json_field "container_id" (quoted "container-1")) json
  && finds (json_field "delta_ts_us" "0") json && finds (json_field "delta_ts_us" "50") json
  && finds (json_field "syscall_id" "5") json && finds (json_field "arg_class" "2") json
  && finds (json_field "arg_bucket" "1") json.

(** ** docker_mapper_tests.cpp *)

(** The default arguments of the constructor. *)
Definition default_DockerMapper : DockerMapper.t := DockerMapper.create "/var/run/docker.sock" 60.

(** Two tests ask that the constructor returns: it keeps its arguments. *)
Definition ConstructorDefaultPath : bool :=
  let mapper := default_DockerMapper in
  (DockerMapper.dockerSocketPath_ mapper =? "/var/run/docker.sock")%string
  && (DockerMapper.cacheTTLSeconds_ mapper =? 60).

Definition ConstructorCustomPath : bool :=
  let mapper := DockerMapper.create "/custom/docker.sock" 30 in
  (DockerMapper.dockerSocketPath_ mapper =? "/custom/docker.sock")%string
  && (DockerMapper.cacheTTLSeconds_ mapper =? 30).

Definition CacheClear : bool :=
  let mapper := DockerMapper.clearCache default_DockerMapper in
  bool_decide (DockerMapper.cgroupToNameCache_ mapper !! 12345 = None).

(** Two answers in the same second agree. *)
Definition CacheExpiry : bool :=
  let m := DockerMapper.create "/nonexistent/path.sock" 1 in
  value_of (
    '(name1, m) ← DockerMapper.getContainerName m 12345 1;
    '(name2, _) ← DockerMapper.getContainerName m 12345 1;
    mret (name1 =? name2)%string).

(** The condition of the test holds of every name; here the name is empty. *)
Definition GetContainerNameForNonContainer : bool :=
  let m := DockerMapper.create "/nonexistent/path.sock" 60 in
  empty (value_of (DockerMapper.getContainerName m 1 1)).1.

(** ** container_mapper_tests.cpp *)

Definition DefaultConfigUsesDockerSocket : bool :=
  let config := ContainerMapper.default_Config in
  (ContainerMapper.dockerSocket config =? "/var/run/docker.sock")%string
  && (ContainerMapper.containerdSocket config =? "/run/containerd/containerd.sock")%string
  && (ContainerMapper.crioSocket config =? "/var/run/crio/crio.sock")%string
  && (ContainerMapper.crictlPath config =? "/usr/bin/crictl")%string
  && (ContainerMapper.cacheTTLSeconds config =? 60)
  && ContainerMapper.enableKubernetesApi config && ContainerMapper.preferPodName config.

(** The default configuration with five fields assigned. *)
Definition ConfigCanBeCustomized : bool :=
  let default := ContainerMapper.default_Config in
  let config := ContainerMapper.MkConfig "/custom/docker.sock" "/custom/containerd.sock"
    (ContainerMapper.crioSocket default) (ContainerMapper.crictlPath default) 120 false false in
  (ContainerMapper.dockerSocket config =? "/custom/docker.sock")%string
  && (ContainerMapper.containerdSocket config =? "/custom/containerd.sock")%string
  && (ContainerMapper.cacheTTLSeconds config =? 120)
  && negb (ContainerMapper.enableKubernetesApi config) && negb (ContainerMapper.preferPodName config).

Definition ContainerInfoDefaultsToEmpty : bool :=
  let info := ContainerMapper.empty_info in
  empty (ContainerMapper.id info) && empty (ContainerMapper.fullId info)
  && empty (ContainerMapper.name info) && empty (ContainerMapper.podName info)
  && empty (ContainerMapper.podNamespace info) && empty (ContainerMapper.image info).

(** The default configuration but for the three sockets. *)
Definition no_sockets : ContainerMapper.Config :=
  let config := ContainerMapper.default_Config in
  ContainerMapper.MkConfig "/nonexistent/docker.sock" "/nonexistent/containerd.sock"
    "/nonexistent/crio.sock" (ContainerMapper.crictlPath config)
    (ContainerMapper.cacheTTLSeconds config) (ContainerMapper.enableKubernetesApi config)
    (ContainerMapper.preferPodName config).

Definition CanConstruct : bool :=
  value_of (
    _ ← ContainerMapper.create no_sockets;
    runtime ← ContainerMapper.detectRuntime no_sockets;
    mret match runtime with ContainerMapper.UNKNOWN => true | _ => false end).

(** The default configuration but for the Docker socket. *)
Definition no_docker : ContainerMapper.Config :=
  let config := ContainerMapper.default_Config in
  ContainerMapper.MkConfig "/nonexistent/docker.sock" (ContainerMapper.containerdSocket config)
    (ContainerMapper.crioSocket config) (ContainerMapper.crictlPath config)
    (ContainerMapper.cacheTTLSeconds config) (ContainerMapper.enableKubernetesApi config)
    (ContainerMapper.preferPodName config).

Definition ClearCacheDoesNotCrash : bool :=
  value_of (
    mapper ← ContainerMapper.create no_docker;
    let mapper := ContainerMapper.clearCache mapper in
    mret (bool_decide (ContainerMapper.cache_ mapper !! 12345 = None))).

Definition InvalidPidReturnsEmpty : bool :=
  value_of (
    m ← ContainerMapper.create no_docker;
    '(name, _) ← ContainerMapper.getContainerName m 12345 99999999;
    mret (empty name)).

Definition IsContainerInvalidPid : bool :=
  value_of (m ← ContainerMapper.create no_docker;
            found ← ContainerMapper.isContainer m 99999999; mret (negb found)).

(** ** policy_enforcer_tests.cpp *)

Definition test_dir : string := "/tmp/deepkernel-test-policies-1".

(** The rule of the two tests. *)
Definition connect_rule : string :=
  "{" +:+ quoted "name" +:+ ": " +:+ quoted "connect" +:+ ", "
  +:+ quoted "action" +:+ ": " +:+ quoted "SCMP_ACT_ERRNO" +:+ "}".

(** The text of the policy, [inner] between the brackets of its [syscalls]. *)
Definition specJson (inner : string) : string :=
  "{
        " +:+ quoted "type" +:+ ": " +:+ quoted "SECCOMP" +:+ ",
        " +:+ quoted "syscalls" +:+ ": [" +:+ inner +:+ "]
    }".

(** [PolicyEnforcer enforcer("/nonexistent/docker.sock", testPolicyDir_)]. *)
Definition with_enforcer (f : PolicyEnforcer.t → IO script bool) : IO script bool :=
  e ← PolicyEnforcer.create "/nonexistent/docker.sock" test_dir "ERRNO";
  match e with Some e => f e | None => mret false end.

Definition ConstructorCreatesDirectory : bool :=
  match trace_of (PolicyEnforcer.create "/nonexistent/docker.sock" (test_dir +:+ "/subdir") "ERRNO") with
  | [Ev (CreateDirectories dir) true] => (dir =? test_dir +:+ "/subdir")%string
  | _ => false
  end.

Definition ApplySeccompPolicy : bool :=
  value_of (with_enforcer (λ e,
    '(result, e) ← PolicyEnforcer.apply e "test-container" "policy-001" "SECCOMP" (specJson ("
            " +:+ connect_rule +:+ "
        "));
    mret (result && PolicyEnforcer.isPolicyApplied e "policy-001"))).

(** What the file holds. *)
Definition PolicyFileWritten : bool :=
  let t := trace_of (with_enforcer (λ e,
    '(result, e) ← PolicyEnforcer.apply e "test-container" "policy-002" "SECCOMP" (specJson connect_rule);
    mret result)) in
  let contents := written (test_dir +:+ "/policy-002.json") t in
  existsb (λ n, bool_decide (take 14 (drop n contents) = bytes_of "SCMP_ACT_ALLOW"))
    (seq 0 (length contents))
  && existsb (λ n, bool_decide (take 7 (drop n contents) = bytes_of "connect"))
    (seq 0 (length contents)).

Definition UnsupportedPolicyType : bool :=
  value_of (with_enforcer (λ e,
    '(result, e) ← PolicyEnforcer.apply e "test-container" "policy-003" "APPARMOR" "{}";
    mret (result && PolicyEnforcer.isPolicyApplied e "policy-003"))).

Definition GetAppliedPoliciesJson : bool :=
  value_of (with_enforcer (λ e,
    '(_, e) ← PolicyEnforcer.apply e "container-1" "policy-a" "SECCOMP" "{}";
    '(_, e) ← PolicyEnforcer.apply e "container-2" "policy-b" "SECCOMP" "{}";
    json ← PolicyEnforcer.getAppliedPoliciesJson e;
    mret (finds "policy-a" json && finds "policy-b" json && finds "container-1" json
          && finds "container-2" json))).

Definition IsPolicyAppliedReturnsFalseForUnknown : bool :=
  value_of (with_enforcer (λ e, mret (negb (PolicyEnforcer.isPolicyApplied e "nonexistent-policy")))).

(** ** All of them *)

Definition tests : list (string * bool) :=
  [("TraceRecordTest.DeltaAndFields", DeltaAndFields);
   ("TraceHeaderTest.PackedLayout", PackedLayout);
   ("WindowJsonTest.SerializesRecords", SerializesRecords);
   ("DockerMapperTest.ConstructorDefaultPath", ConstructorDefaultPath);
   ("DockerMapperTest.ConstructorCustomPath", ConstructorCustomPath);
   ("DockerMapperTest.CacheClear", CacheClear);
   ("DockerMapperTest.GetContainerNameForNonContainer", GetContainerNameForNonContainer);
   ("DockerMapperTest.CacheExpiry", CacheExpiry);
   ("ContainerMapperTest.DefaultConfigUsesDockerSocket", DefaultConfigUsesDockerSocket);
   ("ContainerMapperTest.ConfigCanBeCustomized", ConfigCanBeCustomized);
   ("ContainerMapperTest.ContainerInfoDefaultsToEmpty", ContainerInfoDefaultsToEmpty);
   ("ContainerMapperTest.CanConstruct", CanConstruct);
   ("ContainerMapperTest.ClearCacheDoesNotCrash", ClearCacheDoesNotCrash);
   ("ContainerMapperTest.InvalidPidReturnsEmpty", InvalidPidReturnsEmpty);
   ("ContainerMapperTest.IsContainerInvalidPid", IsContainerInvalidPid);
   ("PolicyEnforcerTest.ConstructorCreatesDirectory", ConstructorCreatesDirectory);
   ("PolicyEnforcerTest.ApplySeccompPolicy", ApplySeccompPolicy);
   ("PolicyEnforcerTest.PolicyFileWritten", PolicyFileWritten);
   ("PolicyEnforcerTest.UnsupportedPolicyType", UnsupportedPolicyType);
   ("PolicyEnforcerTest.GetAppliedPoliciesJson", GetAppliedPoliciesJson);
   ("PolicyEnforcerTest.IsPolicyAppliedReturnsFalseForUnknown", IsPolicyAppliedReturnsFalseForUnknown)].

(** Every test of the repository passes on the model. *)
Theorem tests_pass : filter (λ t, t.2 = false) tests = [].
Proof. vm_compute. reflexivity. Qed.
